(* ===== verification/_CoqProject ===== *)
-Q . S2P
Prelude.v
Regs.v
Exe.v
Stat.v
Sysfs.v
Daemon.v
Lkm.v
Boost.v
Entry.v
Paging.v
Fault.v
FaultSpec.v
PageProt.v
Populate.v
PageAttr.v
PageLaws.v
PopulateSpec.v
UnmapSpec.v
PageAttrSpec.v
PageSplit.v
PageSafety.v
Block.v
Race.v
Protocol.v
System.v
Xdp.v
Libc.v
Bench.v
Receiver.v
Sender.v
Conflict.v
Translate.v
Machine.v
ConflictSpec.v
TranslateSpec.v
Parts.v
Lines.v
Meaning.v
TranslateBlock.v
Sample.v
Masks.v
Jit.v
JitRun.v
IndirectJump.v
TranslateCases.v
Wrapper.v
Served.v
WrapperRun.v
Chain.v
