(* ===== verification/Prelude.v ===== *)
(** * Userspace Bypass: a verification development

    Userspace Bypass speeds up programs that make many short system calls. A
    kernel module watches the system calls, finds the call sites that are
    reached again soon after a previous call, and asks a daemon for a
    translation of the user code between the calls; from then on the kernel
    runs that code block itself, right after the system call, and performs the
    next system call in place instead of returning to user mode. The program
    consists of

    - a kernel module, [zz_lkm]: the table of call sites and code blocks and
      the chaining loop ([exe.c]), the detector of hot sites ([stat.c]), the
      control file ([sys.c]), the fault recovery ([error_handler.h]) and the
      module's life cycle ([zz_lkm_main.c]);
    - a daemon, [zz_daemon/main.c], that polls the control file, runs the
      translator and uploads its result;
    - three files of Linux 5.4.44, [kernel_modify/]: the system-call entry
      ([common.c], which calls the module), the page-fault handler ([fault.c],
      patched to hand faults in code blocks to the module) and the page
      attributes ([pageattr.c], whose [set_memory_x] the module uses to make
      code blocks executable and which the patch exports);
    - a translator in Python, [zz_disassem/], that turns the user's code into code
      blocks that keep away from the kernel's stack, with the assembly around
      them, [asm/wrapper.S]; and scripts;
    - the benchmarks that the gain is measured with, [apps/]: file reads
      ([io_file/]), a UDP sender and receiver ([socket/]) and a packet counter
      in BPF ([socket/bpf/udp_counter.c]).

    ** Files of the development

    - this file: truth values and machine words of C, loops ([while], [for_from],
      [for_opt]), little-endian bytes, memory, the state monad [M] of code that
      may not return, and Hoare triples and relations kept by such code.
    - [Regs.v]: [struct pt_regs] as numbered in [asm_head.h].
    - [Exe.v]: [exe.c]. The table is the list [exes] of a state [estate] that
      also has the kernel memory behind the code blocks and a log of events;
      [exe_add], [get_exe], [exe_on_call] are the C functions, [chain_body] one
      round of the loop. The code of a block is the parameter [code_run], the
      handler of a system call [syscall_run] (class [ExeEnv]).
    - [Stat.v]: [stat.c]; [stat_func] with the parts of its body [milestone],
      [harvest], [observe] and [bump].
    - [Sysfs.v]: [sysfs_show] and [sysfs_store] with the byte layout of both
      records as the two sides declare them.
    - [Lkm.v]: [zz_lkm_init], [zz_lkm_exit], the hook [func], and the module as
      a state machine: its steps are system calls and accesses to the control
      file, in any order.
    - [Daemon.v]: [main.c] against an interface of the control file ([SysFile])
      and of the file system ([Shell]); histories, white list, [write_sys], [check],
      [main].
    - [Boost.v]: the module behind that interface, and a polling round of the
      daemon against it.
    - [Entry.v]: [common.c]; [do_syscall_64] and the 32-bit entries, with the
      work on entry and exit. Calls out of the file are values of [kcall],
      answered by an environment.
    - [Paging.v]: page tables as a memory of entries, and their walk, shared by
      the two files that follow.
    - [Fault.v], [FaultSpec.v]: [fault.c] and its theorems; calls out of the file
      are values of [fcall].
    - [PageProt.v], [Populate.v], [PageAttr.v]: [pageattr.c] from the request and
      the static protections, over the creation and removal of mappings, to
      the interface [set_memory_*], [set_pages_*], [set_direct_map_*] and
      [kernel_map_pages_in_pgd]; calls out of the file are values of [pcall].
    - [PageLaws.v]: what the theorems on them assume of the headers and the
      calls, with a small kernel that satisfies it; [PopulateSpec.v],
      [UnmapSpec.v], [PageAttrSpec.v], [PageSplit.v], [PageSafety.v]: the theorems.
    - [Block.v]: [exe_add] with its calls of [vmalloc] and [set_memory_x]
      performed on the page tables.
    - [Race.v]: [exe_on_call] cut at the points where blocks and handlers run,
      on any number of CPUs, interleaved with registrations and packets.
    - [Protocol.v]: the daemon among these CPUs, cut at its reads and writes of the
      control file.
    - [System.v]: [do_syscall_64] with the loaded module behind [zz_var], while
      other tasks and the daemon use the module.
    - [Libc.v]: the calls of the user programs as values, with the results
      the system gives; [Bench.v]: [syscall_read.c] and [common.h];
      [Receiver.v]: [raw_socket_udp.c]; [Sender.v]: [send_udp.c].
    - [Xdp.v]: [udp_counter.c], on the bytes of a packet.

    - [Conflict.v]: [conflict.py], the map that says which of four registers holds
      which of the registers that a block has to move; [Translate.v]: the other
      files of the translator, down to the text of [jit.S] ([assembly]), but for
      [find] and [dfs] of [indirect_jump.py], which are [IndirectJump.v].
    - [Machine.v]: what the emitted code does, on the registers and the stack slots
      of [asm_head.h], and what the user's instructions do. That the one is the
      other: [ConflictSpec.v], registers that are moved about; [TranslateSpec.v],
      one call of [process_normal]; [Parts.v], a line as a sequence of such calls,
      with temporaries; [Lines.v] and [TranslateBlock.v], the lines of a block and
      its end; [Meaning.v], PUSH, POP, CALL, RET and LEAVE as the manual has them;
      [Masks.v], the masks are not seen. [Jit.v]: labels, jumps and jump tables of
      the text; [JitRun.v]: the program from block to block. [Sample.v]: a small
      processor for the witnesses; [TranslateCases.v]: lines on which the
      translator goes wrong.
    - [Wrapper.v]: [wrapper.S] on a memory of three areas; [Served.v]: a whole call,
      through wrapper and blocks; [WrapperRun.v]: the wrapper as the [code_run] of
      [Exe.v]; [Chain.v]: the loop of [exe_on_call] over such calls.

    The state of one part is used by another as in the program: [Stat.v] adds
    sites to the table of [Exe.v], [Sysfs.v] dumps and fills it, [Lkm.v] owns
    it, [Boost.v] joins it to the daemon, [Entry.v] compares the module's inline
    system call with the kernel's own, [FaultSpec.v] compares the names that
    the patch looks up with those the module exports; [System.v] gives the
    environment of [Entry.v] the hook of [Lkm.v], [Block.v] gives the events of
    [Exe.v] their effect in [PageAttr.v], [Race.v] takes the rounds of
    [Exe.v] apart and shows that its parts compose to them, [Protocol.v] runs the daemon of
    [Daemon.v] against them, [WrapperRun.v]
    shows that the wrapper is what [Exe.v] asks of a code block, and [Chain.v]
    puts the module, the wrapper and the translator's output together.

    ** What the theorems show

    - The goal of the whole: a polling round makes every reported site on the
      white list ready and changes no other ([Boost.round_boosts_all_sites]);
      an upload leaves exactly the file's bytes in the block
      ([upload_installs_block]), and no half-written block is ever ready
      ([upload_partial_not_ready]).
    - The module never leaves its table and counters, whatever the order of
      events, as long as packets stay inside the block of their site: one that
      does not can overwrite the kernel ([sysfs_store_unchecked_offset]), the
      table included ([Lkm.module_invariant], [Exe.exe_on_call_safe],
      [Stat.stat_func_safe]); sites stay where they are ([sites_are_permanent])
      but for a packet that says otherwise ([unused_packet_drops_site]); registration ([exe_add_correct]) and detection ([stat_cpu_registers],
      [window_counts]) do what they mean to; chains of missing blocks end
      ([missing_chain_terminates]) and are accounted ([chain_round_accounting]).
    - The module in the kernel: a system call with the module loaded keeps the
      module and the registers well formed ([system_calls_keep_module]), and as
      long as no block is ready it is the stock system call
      ([idle_module_is_stock]).
    - Several CPUs at once, with packets like the daemon's, which stay inside their
      block: no interleaving breaks the table ([race_invariant]) or enters a half-written block ([half_upload_never_entered]); the daemon
      of [main.c] only writes to sites out of service, so that a block that
      runs is always a whole file of the translator ([running_blocks_whole]);
      with other packets it could be overwritten while it runs
      ([running_block_overwritten]): the module has nothing to prevent it.
    - A registered site has memory that is mapped and executable, unless [vmalloc]
      fails, which the module does not notice ([registered_block_executable]).
    - The translated code is the user's code: for lines with at most two registers
      to move, the stack, all jumps and system calls included, the translator
      always finds places for them, and the code does what the lines do
      ([translate_block_correct]), from block to block, until it leaves with the
      address where the user goes on ([program_simulated]). The flags are the
      exception: a jump table changes them ([table_loses_flags]) and the wrapper does
      not carry them, so the programs of these theorems define flags before they use
      any, at their start and behind an indirect jump. An indirect jump goes
      to the right block or leaves ([jump_table_dispatch]), and the tables miss no
      return ([find_complete]). The wrapper moves the registers between [pt_regs]
      and the blocks ([wrapper_switches_context]), which is what the module relies
      on ([wrapper_serves_module]). So [exe_on_call] with all of them does, for any
      number of rounds, what it would do with the user's own lines in place of the
      code blocks, but for the word of the flags in [pt_regs] ([chain_runs_user]).
    - The control file speaks the daemon's format ([sysfs_show_roundtrip],
      [sysfs_store_installs]); its missing bound check is
      [sysfs_store_unchecked_offset].
    - The daemon ends, keeps its histories and respects its white list.
    - The entry path calls the hook once and in the right place
      ([hook_runs_once]), ends ([do_syscall_64_completes]) ready for user mode
      ([entries_end_user_ready]), is the stock path without the module
      ([unhooked_is_stock]), and agrees with the module's inline system call
      ([inline_syscall_agrees]) except for the work on entry
      ([seccomp_denial_skips_handler] shows what that work would do).
    - The fault path ends with the semaphore balanced ([page_fault_settles]),
      takes no lock for kernel addresses, hides the layout of the kernel (but for the
      page of the vsyscalls, [kernel_layout_hidden]), and decides prefetches, vmalloc faults and
      spurious faults exactly ([is_prefetch_exact], [vmalloc_fault_syncs],
      [spurious_fault_exact]); the recovery of faults in code blocks is never
      reached, because of a wrong symbol name ([fault_hook_never_redirects]).
    - [set_memory_x] makes exactly its range executable
      ([set_memory_x_executable]); no request can take the protection of kernel
      text and read-only data away ([static_protections_enforced]); splitting
      a 2M page is invisible to address translation and to /proc/meminfo
      ([split_keeps_translation], [split_keeps_meminfo]); every path of the
      interface gives the locks back and takes none twice
      ([attribute_calls_release_locks]); a range
      flush reaches every cache line ([clflush_cache_range_exact]);
      [populate_pmd] maps what it is asked to and nothing else
      ([populate_pmd_maps]), [unmap_pmd_range] removes exactly that again and frees
      exactly the tables that it empties ([unmap_pmd_range_exact], [populate_unmap_restores]); running out of memory
      halfway goes wrong in two ways ([failed_populate_clears_page_zero],
      [failed_populate_hits_bug_on]).
    - The benchmarks do what they are run for: the reads and their positions
      ([syscall_read_sequence], [next_pos_stays_inside]), the generator
      ([fastrand_lossless]), the receipts under the lock ([sniff_receipts]), the
      packet counter ([udp_counter_in_bounds]); the sender cannot end
      ([send_udp_never_closes]).

    ** Conventions, bounds and fuel

    Machine integers are [Z] with their wrap-around written out ([u8], [u32],
    [u64], [s32]). Undefined behaviour (an index outside an array, a null
    dereference) is [None] or [Undef], so theorems that a result exists show
    its absence. Functions of [Entry.v], [Fault.v] and the page files are of type
    [M S A]; [None] there means that the code does not return: a call that does
    not, a failed [BUG_ON], or exhausted fuel. A lock that is taken twice or released
    without being held is an event of its own ([lock_misuse]). The same in
    the user programs, where it also stands for undefined behaviour (an
    overflow of [int], a division by zero).

    Loops without a structural bound take fuel: [exe_on_call] (a chain may be
    endless when every system call succeeds; [missing_chain_terminates] bounds
    the rest), [exit_to_usermode_loop] (two rounds, and one more for each time that
    an interrupt or a handler raises new work, of which there is a backlog:
    [do_syscall_64_completes]), the retry of a page fault (two rounds are always
    enough, [page_fault_settles]) and the label [repeat] of
    [__change_page_attr] (one round for a small page; each further one follows
    a split). [main] of the daemon polls a given number of rounds. Loops over
    a range compute their own bound from it. [dfs] of the translator needs one unit
    more than there are blocks ([find_complete]); the run of the translated code
    takes steps, and the theorems say that some number of them leads to the goal.

    An instruction of the user is what the processor, the class [Cpu], makes of its
    operands: it reaches the registers that are moved only through them, and does
    not touch the stack of the kernel. [Shifts] and [ShiftFlags] say what the masks
    do, [Moves] and [StackMoves] what MOV, MOVABS and LEA do to a register,
    [honest] that an instruction treats flags as its name tells the translator (ADC
    and SBB do not, [adc_carry_masked]). Along the run of the user, [user_base] asks
    that a masked base is an address below 2^63, and [target_kept] that a call through
    memory does not read its target from the word that it pushes
    ([call_target_overwritten]): both are part of [fits_along]. What the user's lines
    mean is [user_line] and [user_block], after the manual of the processor: nothing of
    the translator's is in them. The machine follows with the user's flags or without
    ([meets]); [flags_after] tells which blocks may start without. Which lines the theorems are about is decided by [supported] and [exact_line]:
    all but pushed numbers, jumps through one of the registers that move, and
    operands of PUSH, POP and CALL that use RSP; a block that ends in a system call
    must not name a register that moves, since these are not written back there. The
    order of a Python set is the parameter [arrange], which is only known to permute
    ([PySetOk]). The user's RSP and RBP live in R13 and R12 between
    instructions; the line's own address is that of [at_rip].

    ** Not modelled

    The loaders (Python), the scripts and configuration files. Of the translator:
    the disassembly itself, which is miasm's (its lines, blocks and graph are
    arguments), [memread.py], which reads the memory of the process for it, the
    output for debugging and the counting of lines (both off when the daemon runs
    it), warnings, and the rendering of expressions. The blocks that it has
    left in the repository are data. That a user's instruction does not write to
    the kernel's stack is an assumption: the masks exist because it could, and
    [TranslateCases.v] shows addresses that are not masked. Of the kernel
    files only what [kernel_modify/.config] compiles for 64 bits is modelled;
    the rest of the kernel, the accessors of its headers included, is a
    parameter with named laws ([ExeEnvOk], [EntryConstsOk], [LateCallsOk],
    [KernelSettles], [FaultEnvOk], [PagingOk], [PageEnvOk], [PageConstsOk],
    [MachineOk]; for the levels below a third-level entry [TableLaws], for
    the page allocator [PageAlloc] and [PageFree], for [vmalloc] [VmallocOk]). These
    leave room for what may go wrong: [vmalloc] and the page allocator may fail, calls
    may raise new exit work, the emulation of a vsyscall takes faults of its own. Page
    tables are pages of the direct map, from [PAGE_OFFSET] on. Likewise for the
    C library of the benchmarks ([LibcReturns]); their floating-point figures
    are recorded with their arguments. The table of the sites is not part of the
    memory that packets are written to: a packet outside its block could reach it, and
    is excluded where the table is the subject ([inside_packet]).

    Concurrency is modelled as far as the steps of [Lkm.v], [Race.v] and [Protocol.v] interleave
    and as calls out of the kernel files may change the state. In [Race.v] a
    CPU can be stopped where it enters a block and where a handler runs; what
    is between two such points is one step, so races between single
    statements (two CPUs in [exe_add], a packet halfway through) are not seen.
    The kernel files are not interleaved with themselves: what other CPUs do
    to the page tables is outside. The text of log messages is reduced to
    what they report; warnings that the kernel prints once are recorded each
    time.

    Of the kernel files every function that is compiled is modelled, but not every
    effect has a theorem. [populate_pud], [populate_pgd] and [unmap_pud_range] are proved
    within a 1G region, the change of attributes for
    small pages and for the split that comes before it. What is not proved: the
    same across 1G boundaries and with 1G pages, the change of whole large pages
    and of aliases ([__change_page_attr], [cpa_process_alias]), and
    [set_memory_x] on a range that needs a split (the blocks of [vmalloc] do not). *)
From Stdlib Require Import ZArith Lia Bool.
From stdpp Require Import base list gmap numbers.

(** ** Notations of the development *)

Declare Scope ub_scope.
Delimit Scope ub_scope with ub.

(** C's truth value of an integer expression: non-zero is true. *)
Definition ctrue (z : Z) : bool := negb (z =? 0)%Z.

(** [x .& m] is the C test [x & m] used as a condition. *)
Notation "x .& m" := (ctrue (Z.land x m)) (at level 55) : ub_scope.

Local Open Scope Z_scope.
Local Open Scope ub_scope.

(** ** Machine integers

    An integer of the code is a [Z]; every operation of the source that can
    wrap is followed by the wrap of its type. [u8], [u32], [u64] are the
    unsigned types ([unsigned char], [unsigned int], [unsigned long]), [s32]
    is [int] (the kernel is built with wrapping signed arithmetic). *)

Definition u8 (z : Z) : Z := z mod 2 ^ 8.
Definition u32 (z : Z) : Z := z mod 2 ^ 32.
Definition u64 (z : Z) : Z := z mod 2 ^ 64.
Definition s32 (z : Z) : Z :=
  let m := z mod 2 ^ 32 in if m <? 2 ^ 31 then m else m - 2 ^ 32.

Definition is_u8 (z : Z) : Prop := 0 <= z < 2 ^ 8.
Definition is_u32 (z : Z) : Prop := 0 <= z < 2 ^ 32.
Definition is_u64 (z : Z) : Prop := 0 <= z < 2 ^ 64.
Definition is_s32 (z : Z) : Prop := - 2 ^ 31 <= z < 2 ^ 31.

Create HintDb word discriminated.
Create Rewrite HintDb word_rw.

Lemma u8_range z : is_u8 (u8 z).
Proof. unfold is_u8, u8. apply Z.mod_pos_bound. lia. Qed.
Lemma u32_range z : is_u32 (u32 z).
Proof. unfold is_u32, u32. apply Z.mod_pos_bound. lia. Qed.
Lemma u64_range z : is_u64 (u64 z).
Proof. unfold is_u64, u64. apply Z.mod_pos_bound. lia. Qed.
Lemma s32_range z : is_s32 (s32 z).
Proof.
  unfold is_s32, s32. pose proof (Z.mod_pos_bound z (2 ^ 32) ltac:(lia)).
  destruct (Z.ltb_spec (z mod 2 ^ 32) (2 ^ 31)); lia.
Qed.

Lemma u8_small z : is_u8 z -> u8 z = z.
Proof. apply Z.mod_small. Qed.
Lemma u32_small z : is_u32 z -> u32 z = z.
Proof. apply Z.mod_small. Qed.
Lemma u64_small z : is_u64 z -> u64 z = z.
Proof. apply Z.mod_small. Qed.
Lemma s32_small z : is_s32 z -> s32 z = z.
Proof.
  unfold is_s32, s32. intros H.
  destruct (Z.le_gt_cases 0 z) as [Hz|Hz].
  - rewrite Z.mod_small by lia. destruct (Z.ltb_spec z (2 ^ 31)); lia.
  - replace (z mod 2 ^ 32) with (z + 2 ^ 32).
    + destruct (Z.ltb_spec (z + 2 ^ 32) (2 ^ 31)); lia.
    + rewrite <- (Z.mod_small (z + 2 ^ 32) (2 ^ 32)) by lia.
      replace (z + 2 ^ 32) with (z + 1 * 2 ^ 32) by lia. apply Z.mod_add. lia.
Qed.

(** A signed value survives the detour through its unsigned representation. *)
Lemma s32_u32 z : is_s32 z -> s32 (u32 z) = z.
Proof.
  intros H. rewrite <- (s32_small z H) at 2. unfold s32, u32.
  now rewrite Z.mod_mod by lia.
Qed.

#[export] Hint Resolve u8_range u32_range u64_range s32_range : word.
#[export] Hint Rewrite u8_small u32_small u64_small s32_small s32_u32
  using (unfold is_u8, is_u32, is_u64, is_s32 in *; lia) : word_rw.

(** Solves range side conditions of the wraps. *)
Ltac word_range :=
  first [ solve [auto with word]
        | unfold is_u8, is_u32, is_u64, is_s32 in *; lia ].
Ltac simpl_words := autorewrite with word_rw in *.

(** ** Bit masks *)

Lemma ctrue_false z : ctrue z = false <-> z = 0.
Proof. unfold ctrue. rewrite negb_false_iff. apply Z.eqb_eq. Qed.
Lemma ctrue_true z : ctrue z = true <-> z <> 0.
Proof. unfold ctrue. rewrite negb_true_iff. apply Z.eqb_neq. Qed.

Lemma land_ldiff_same x m : Z.land (Z.ldiff x m) m = 0.
Proof.
  apply Z.bits_inj'. intros i Hi. rewrite Z.land_spec, Z.ldiff_spec, Z.bits_0.
  destruct (Z.testbit x i), (Z.testbit m i); reflexivity.
Qed.

Lemma land_lor_same x m : Z.land (Z.lor x m) m = m.
Proof.
  apply Z.bits_inj'. intros i Hi. rewrite Z.land_spec, Z.lor_spec.
  destruct (Z.testbit x i), (Z.testbit m i); reflexivity.
Qed.

(** [x & ~m] of the source, on a 64-bit mask. *)
Lemma align_pow2 a k : 0 <= k -> Z.ldiff a (2 ^ k - 1) = a - a mod 2 ^ k.
Proof.
  intros Hk. replace (2 ^ k - 1) with (Z.ones k) by (rewrite Z.ones_equiv; lia).
  rewrite Z.ldiff_ones_r, Z.shiftl_mul_pow2, Z.shiftr_div_pow2 by lia.
  pose proof (Z.div_mod a (2 ^ k)). lia.
Qed.

Lemma land_pow2 a k : 0 <= k -> Z.land a (2 ^ k - 1) = a mod 2 ^ k.
Proof.
  intros Hk. replace (2 ^ k - 1) with (Z.ones k) by (rewrite Z.ones_equiv; lia). now apply Z.land_ones.
Qed.

Lemma ldiff_sub_mask x m k : Z.land m k = 0 -> Z.land (Z.ldiff x m) k = Z.land x k.
Proof.
  intros H. apply Z.bits_inj'. intros i Hi.
  rewrite !Z.land_spec, Z.ldiff_spec.
  assert (E : Z.testbit (Z.land m k) i = false) by (rewrite H; apply Z.bits_0).
  rewrite Z.land_spec in E.
  destruct (Z.testbit x i), (Z.testbit m i), (Z.testbit k i); simpl in *; congruence.
Qed.

(** ** Loops

    [for_from f i k s] is the C loop [for (j = i; j < i + k; j++) s = f j s];
    [while fuel body s] is the C loop [while (1) body] for at most [fuel]
    iterations. *)

Fixpoint for_from {S : Type} (f : nat -> S -> S) (i k : nat) (s : S) : S :=
  match k with
  | O => s
  | Datatypes.S k' => for_from f (Datatypes.S i) k' (f i s)
  end.

Lemma for_from_ind {S : Type} (P : nat -> S -> Prop) (f : nat -> S -> S) k :
  forall i s,
  P i s ->
  (forall j t, (i <= j < i + k)%nat -> P j t -> P (Datatypes.S j) (f j t)) ->
  P (i + k)%nat (for_from f i k s).
Proof.
  induction k as [|k IH]; intros i s H0 Hs; simpl.
  - now rewrite Nat.add_0_r.
  - replace (i + Datatypes.S k)%nat with (Datatypes.S i + k)%nat by lia.
    apply IH; [apply Hs; [lia|easy]|]. intros j t Hj. apply Hs. lia.
Qed.

(** The same loop when the body can run into undefined behaviour. *)
Fixpoint for_opt {S : Type} (f : nat -> S -> option S) (i k : nat) (s : S) : option S :=
  match k with
  | O => Some s
  | Datatypes.S k' =>
      match f i s with
      | Some s' => for_opt f (Datatypes.S i) k' s'
      | None => None
      end
  end.

Lemma for_opt_ind {S : Type} (P : nat -> S -> Prop) (f : nat -> S -> option S) k :
  forall i s,
  P i s ->
  (forall j t, (i <= j < i + k)%nat -> P j t ->
     exists t', f j t = Some t' /\ P (Datatypes.S j) t') ->
  exists s', for_opt f i k s = Some s' /\ P (i + k)%nat s'.
Proof.
  induction k as [|k IH]; intros i s H0 Hs; simpl.
  - exists s. now rewrite Nat.add_0_r.
  - replace (i + Datatypes.S k)%nat with (Datatypes.S i + k)%nat by lia.
    destruct (Hs i s) as (t & E & Ht); [lia|easy|]. rewrite E.
    apply IH; [easy|]. intros j u Hj. apply Hs. lia.
Qed.

(** What one iteration of a [while (1)] loop does. *)
Inductive iter (S : Type) : Type :=
| Continue (s : S)
| Break (s : S)
| Undef.
Arguments Continue {S} s.
Arguments Break {S} s.
Arguments Undef {S}.

(** What a loop run with a bounded number of iterations does. *)
Inductive run (S : Type) : Type :=
| Done (s : S)
| Stuck
| OutOfFuel.
Arguments Done {S} s.
Arguments Stuck {S}.
Arguments OutOfFuel {S}.

Fixpoint while {S : Type} (fuel : nat) (body : S -> iter S) (s : S) : run S :=
  match fuel with
  | O => OutOfFuel
  | Datatypes.S n =>
      match body s with
      | Continue s' => while n body s'
      | Break s' => Done s'
      | Undef => Stuck
      end
  end.

(** Zero or more completed iterations. *)
Inductive steps {S : Type} (body : S -> iter S) : S -> S -> Prop :=
| steps_refl s : steps body s s
| steps_step s s1 s2 : body s = Continue s1 -> steps body s1 s2 -> steps body s s2.

Section While.
Context {S : Type} (body : S -> iter S).

Lemma while_sound n : forall s s',
  while n body s = Done s' -> exists t, steps body s t /\ body t = Break s'.
Proof.
  induction n as [|n IH]; intros s s' H; simpl in H; [discriminate|].
  destruct (body s) as [s1|s1|] eqn:E; [|injection H as <-|discriminate].
  - destruct (IH _ _ H) as (t & H1 & H2). eauto using @steps.
  - eauto using @steps.
Qed.

Lemma while_complete s t s' :
  steps body s t -> body t = Break s' -> exists n, while n body s = Done s'.
Proof.
  induction 1 as [s|s s1 s2 H1 H2 IH]; intros H.
  - exists 1%nat. simpl. now rewrite H.
  - destruct (IH H) as [n Hn]. exists (Datatypes.S n). simpl. now rewrite H1.
Qed.

Lemma while_mono n : forall m s s',
  while n body s = Done s' -> (n <= m)%nat -> while m body s = Done s'.
Proof.
  induction n as [|n IH]; intros m s s' H Hm; simpl in H; [discriminate|].
  destruct m as [|m]; [lia|]. simpl.
  destruct (body s); [apply IH; [easy|lia]|easy|easy].
Qed.

Lemma steps_inv (P : S -> Prop) s s' :
  steps body s s' -> P s -> (forall t t', P t -> body t = Continue t' -> P t') -> P s'.
Proof. induction 1; eauto. Qed.

(** A loop whose iterations decrease a measure ends within that measure. *)
Lemma while_measure (P : S -> Prop) (m : S -> nat) :
  (forall t, P t -> body t <> Undef) ->
  (forall t t', P t -> body t = Continue t' -> P t' /\ (m t' < m t)%nat) ->
  forall n s, P s -> (m s < n)%nat -> exists s', while n body s = Done s'.
Proof.
  intros Hu Hs. induction n as [|n IH]; intros s Hp Hm; [lia|]. simpl.
  pose proof (Hu s Hp) as Hn.
  destruct (body s) as [s1|s1|] eqn:E; [|eauto|congruence].
  destruct (Hs _ _ Hp E). apply IH; [easy|lia].
Qed.
End While.

(** ** Sums over a table *)

Lemma sum_list_with_insert {A : Type} (f : A -> nat) (l : list A) i x y :
  l !! i = Some x ->
  (sum_list_with f (<[i := y]> l) + f x = sum_list_with f l + f y)%nat.
Proof.
  revert i. induction l as [|z l IH]; intros i H; [easy|].
  destruct i as [|i]; simpl in *.
  - injection H as ->. lia.
  - specialize (IH _ H). lia.
Qed.

Lemma Forall_filter_weaken {A : Type} (P Q : A -> Prop) {Pdec : forall x, Decision (P x)} (l : list A) :
  Forall Q l -> Forall Q (filter P l).
Proof.
  induction 1 as [|x l Hx _ IH]; [constructor|]. rewrite filter_cons.
  destruct (decide (P x)); [now constructor|easy].
Qed.

(** ** Little-endian encoding of C scalars *)

Fixpoint le_bytes (n : nat) (z : Z) : list Z :=
  match n with
  | O => []
  | S n' => z mod 256 :: le_bytes n' (z / 256)
  end.

Fixpoint le_word (bs : list Z) : Z :=
  match bs with
  | [] => 0
  | b :: bs' => b + 256 * le_word bs'
  end.

Lemma length_le_bytes n z : length (le_bytes n z) = n.
Proof. revert z. induction n; intros; simpl; auto. Qed.

Lemma le_word_bytes n z : le_word (le_bytes n z) = z mod 2 ^ (8 * Z.of_nat n).
Proof.
  revert z. induction n as [|n IH]; intros z.
  - simpl. now rewrite Z.mod_1_r.
  - cbn [le_bytes le_word]. rewrite IH.
    replace (2 ^ (8 * Z.of_nat (S n))) with (256 * 2 ^ (8 * Z.of_nat n)).
    + rewrite Z.rem_mul_r by (try apply Z.pow_nonzero; lia). reflexivity.
    + replace (8 * Z.of_nat (S n)) with (8 + 8 * Z.of_nat n) by lia.
      rewrite Z.pow_add_r by lia. reflexivity.
Qed.

Lemma le_word_4 z : is_u32 z -> le_word (le_bytes 4 z) = z.
Proof. intros H. rewrite le_word_bytes. now apply Z.mod_small. Qed.
Lemma le_word_8 z : is_u64 z -> le_word (le_bytes 8 z) = z.
Proof. intros H. rewrite le_word_bytes. now apply Z.mod_small. Qed.
Lemma le_word_4_s32 z : is_s32 z -> s32 (le_word (le_bytes 4 z)) = z.
Proof. intros H. rewrite le_word_bytes. now apply s32_u32. Qed.

#[export] Hint Rewrite length_le_bytes : word_rw.

Arguments le_bytes : simpl never.
Arguments le_word : simpl never.

(** ** Byte-addressed memory *)

(** [mem_write m a bs] is [memcpy(a, bs, |bs|)] into the memory [m]. *)
Fixpoint mem_write (m : gmap Z Z) (a : Z) (bs : list Z) : gmap Z Z :=
  match bs with
  | [] => m
  | b :: bs' => mem_write (<[u64 a := b]> m) (a + 1) bs'
  end.

Lemma mem_write_outside bs : forall m a x,
  0 <= a -> a + Z.of_nat (length bs) <= 2 ^ 64 ->
  (x < a \/ a + Z.of_nat (length bs) <= x) ->
  mem_write m a bs !! x = m !! x.
Proof.
  induction bs as [|b bs IH]; intros m a x Ha Hb Hx; simpl in *; [easy|].
  rewrite IH by lia. rewrite u64_small by word_range.
  apply lookup_insert_ne. lia.
Qed.

Lemma mem_write_inside bs : forall m a i b,
  0 <= a -> a + Z.of_nat (length bs) <= 2 ^ 64 ->
  bs !! i = Some b ->
  mem_write m a bs !! (a + Z.of_nat i) = Some b.
Proof.
  induction bs as [|b' bs IH]; intros m a i b Ha Hb Hi; simpl in *; [easy|].
  destruct i as [|i]; simpl in Hi.
  - injection Hi as ->. rewrite mem_write_outside by lia.
    rewrite u64_small by word_range. replace (a + Z.of_nat 0) with a by lia.
    apply lookup_insert_eq.
  - replace (a + Z.of_nat (S i)) with (a + 1 + Z.of_nat i) by lia.
    apply IH; [lia|lia|easy].
Qed.

(** ** Case analysis on the tests of the code *)

Ltac case_if :=
  match goal with
  | |- context [if ?b then _ else _] => let E := fresh "E" in destruct b eqn:E
  | H : context [if ?b then _ else _] |- _ => let E := fresh "E" in destruct b eqn:E
  end.

(** Turns boolean tests among the hypotheses into propositions. *)
Ltac bool_prop :=
  repeat match goal with
  | H : (_ && _) = true |- _ => apply andb_prop in H; destruct H
  | H : (_ && _) = false |- _ => apply andb_false_iff in H
  | H : (_ || _) = true |- _ => apply orb_true_iff in H
  | H : (_ || _) = false |- _ => apply orb_false_iff in H; destruct H
  | H : negb _ = true |- _ => apply negb_true_iff in H
  | H : negb _ = false |- _ => apply negb_false_iff in H
  | H : (_ =? _)%Z = true |- _ => apply Z.eqb_eq in H
  | H : (_ =? _)%Z = false |- _ => apply Z.eqb_neq in H
  | H : (_ <? _)%Z = true |- _ => apply Z.ltb_lt in H
  | H : (_ <? _)%Z = false |- _ => apply Z.ltb_ge in H
  | H : (_ <=? _)%Z = true |- _ => apply Z.leb_le in H
  | H : (_ <=? _)%Z = false |- _ => apply Z.leb_gt in H
  end.

(** ** Stateful code

    A C function that works on a state [S] and calls code that need not return
    is a [M S A]: [None] when it does not return (within the fuel of its
    loops), otherwise its value and the state it leaves. *)

Definition M (S A : Type) : Type := S -> option (A * S).

Definition ret {S A : Type} (a : A) : M S A := fun s => Some (a, s).
Definition bind {S A B : Type} (m : M S A) (k : A -> M S B) : M S B :=
  fun s => match m s with
           | Some (a, s') => k a s'
           | None => None
           end.
Definition diverge {S A : Type} : M S A := fun _ => None.
Definition gets {S A : Type} (f : S -> A) : M S A := fun s => Some (f s, s).
Definition modify {S : Type} (f : S -> S) : M S unit := fun s => Some (tt, f s).

Notation "'let*' x := m 'in' k" := (bind m (fun x => k))
  (at level 10, x pattern, m at level 100, k at level 200) : ub_scope.
Notation "m ;; k" := (bind m (fun _ => k)) (at level 100, right associativity) : ub_scope.
(** [if (b) m;] *)
Notation "'when' b 'do' m" := (if b then m else ret tt)
  (at level 99, b at level 95, m at level 99) : ub_scope.

(** [triple P m Q]: if [m] returns from a state in [P], value and state are in
    [Q]. [total P m Q]: moreover it does return. *)
Definition triple {S A : Type} (P : S -> Prop) (m : M S A) (Q : A -> S -> Prop) : Prop :=
  forall s a s', P s -> m s = Some (a, s') -> Q a s'.
Definition total {S A : Type} (P : S -> Prop) (m : M S A) (Q : A -> S -> Prop) : Prop :=
  forall s, P s -> exists a s', m s = Some (a, s') /\ Q a s'.

Section Triples.
Context {S : Type}.

Lemma bind_inv {A B : Type} (m : M S A) (k : A -> M S B) s b s' :
  bind m k s = Some (b, s') -> exists a s1, m s = Some (a, s1) /\ k a s1 = Some (b, s').
Proof. unfold bind. destruct (m s) as [[a s1]|]; [eauto|discriminate]. Qed.

Lemma bind_ext {A B : Type} (m : M S A) (k1 k2 : A -> M S B) s :
  (forall a s1, k1 a s1 = k2 a s1) -> bind m k1 s = bind m k2 s.
Proof. intros H. unfold bind. destruct (m s) as [[a s1]|]; [apply H|easy]. Qed.

Lemma triple_ret {A : Type} (P : S -> Prop) (Q : A -> S -> Prop) (a : A) :
  (forall s, P s -> Q a s) -> triple P (ret a) Q.
Proof. intros H s a' s' Hp [= <- <-]. auto. Qed.

Lemma triple_gets {A : Type} (P : S -> Prop) (Q : A -> S -> Prop) (f : S -> A) :
  (forall s, P s -> Q (f s) s) -> triple P (gets f) Q.
Proof. intros H s a' s' Hp [= <- <-]. auto. Qed.

Lemma triple_modify (P : S -> Prop) (Q : unit -> S -> Prop) (f : S -> S) :
  (forall s, P s -> Q tt (f s)) -> triple P (modify f) Q.
Proof. intros H s a' s' Hp [= <- <-]. auto. Qed.

Lemma triple_bind {A B : Type} (P : S -> Prop) (m : M S A) (R : A -> S -> Prop)
    (k : A -> M S B) (Q : B -> S -> Prop) :
  triple P m R -> (forall a, triple (R a) (k a) Q) -> triple P (bind m k) Q.
Proof.
  intros Hm Hk s b s' Hp H. apply bind_inv in H as (a & s1 & H1 & H2).
  eapply Hk; [eapply Hm|]; eauto.
Qed.

Lemma triple_if {A : Type} (P : S -> Prop) (b : bool) (m1 m2 : M S A) (Q : A -> S -> Prop) :
  (b = true -> triple P m1 Q) -> (b = false -> triple P m2 Q) ->
  triple P (if b then m1 else m2) Q.
Proof. destruct b; auto. Qed.

Lemma triple_conseq {A : Type} (P P' : S -> Prop) (m : M S A) (Q Q' : A -> S -> Prop) :
  triple P' m Q' -> (forall s, P s -> P' s) -> (forall a s, Q' a s -> Q a s) ->
  triple P m Q.
Proof. intros H Hp Hq s a s' Hs E. eapply Hq, H; eauto. Qed.

(** A property kept by the first part of a sequence. *)
Lemma triple_seq {A B : Type} (P : S -> Prop) (m : M S A) (k : A -> M S B)
    (Q : B -> S -> Prop) :
  triple P m (fun _ => P) -> (forall a, triple P (k a) Q) -> triple P (bind m k) Q.
Proof. apply triple_bind. Qed.

Lemma total_bind {A B : Type} (P : S -> Prop) (m : M S A) (R : A -> S -> Prop)
    (k : A -> M S B) (Q : B -> S -> Prop) :
  total P m R -> (forall a, total (R a) (k a) Q) -> total P (bind m k) Q.
Proof.
  intros Hm Hk s Hp. destruct (Hm s Hp) as (a & s1 & E1 & H1).
  destruct (Hk a s1 H1) as (b & s2 & E2 & H2). exists b, s2. unfold bind. now rewrite E1.
Qed.

Lemma total_conseq {A : Type} (P P' : S -> Prop) (m : M S A) (Q Q' : A -> S -> Prop) :
  total P' m Q' -> (forall s, P s -> P' s) -> (forall a s, Q' a s -> Q a s) ->
  total P m Q.
Proof.
  intros H Hp Hq s Hs. destruct (H s (Hp s Hs)) as (a & s' & E & H'). eauto.
Qed.
End Triples.

(** ** Relations kept by stateful code *)

(** Every returning run of [m] relates its start to its end. *)
Definition keeps {S A : Type} (R : S -> S -> Prop) (m : M S A) : Prop :=
  forall s a s', m s = Some (a, s') -> R s s'.

Section Keeps.
Context {S : Type} (R : S -> S -> Prop) {R_pre : PreOrder R}.

Lemma keeps_ret {A : Type} (a : A) : keeps R (ret a).
Proof. intros s a' s' [= <- <-]. reflexivity. Qed.
Lemma keeps_gets {A : Type} (f : S -> A) : keeps R (gets f).
Proof. intros s a' s' [= <- <-]. reflexivity. Qed.
Lemma keeps_diverge {A : Type} : keeps (A := A) R diverge.
Proof. easy. Qed.
Lemma keeps_modify (f : S -> S) : (forall s, R s (f s)) -> keeps R (modify f).
Proof. intros H s a' s' [= <- <-]. apply H. Qed.
Lemma keeps_bind {A B : Type} (m : M S A) (k : A -> M S B) :
  keeps R m -> (forall a, keeps R (k a)) -> keeps R (bind m k).
Proof.
  intros Hm Hk s b s' H. apply bind_inv in H as (a & s1 & H1 & H2).
  transitivity s1; [eapply Hm|eapply Hk]; eauto.
Qed.
Lemma keeps_if {A : Type} (b : bool) (m1 m2 : M S A) :
  keeps R m1 -> keeps R m2 -> keeps R (if b then m1 else m2).
Proof. now destruct b. Qed.
End Keeps.

(** Decomposes a [keeps] goal along the structure of the code; what is left are
    the calls. *)
Ltac keeps_step :=
  match goal with
  | |- keeps _ (ret _) => apply keeps_ret; exact _
  | |- keeps _ (gets _) => apply keeps_gets; exact _
  | |- keeps _ diverge => apply keeps_diverge
  | |- keeps _ (bind _ _) => apply keeps_bind; [exact _| |intros ?]
  | |- keeps _ (if ?b then _ else _) => apply keeps_if
  | |- keeps _ (match ?v with Some _ => _ | None => _ end) => destruct v
  | |- keeps _ (let _ := _ in _) => cbv zeta
  end.
