(* ===== verification/Regs.v ===== *)
(** The saved user context [struct pt_regs]: one slot per register, at the
    index that the [PT_*] macros of [zz_disassem/asm/asm_head.h] give it, which
    is how both the C code of the module ([regs->ip], ...) and the generated
    code blocks reach it. *)
From Stdlib Require Import ZArith Lia.
From stdpp Require Import base list decidable.
From S2P Require Import Prelude.

Local Open Scope Z_scope.

Inductive reg : Type :=
| R15 | R14 | R13 | R12 | BP | BX | R11 | R10 | R9 | R8
| AX | CX | DX | SI | DI | ORIG_AX | IP | CS | FLAGS | SP | SS.

#[export] Instance reg_eq_dec : EqDecision reg.
Proof. solve_decision. Defined.

(** Index of a register in [pt_regs]: the [8*k] of its [PT_*] macro. *)
Definition slot (r : reg) : nat :=
  match r with
  | R15 => 0 | R14 => 1 | R13 => 2 | R12 => 3 | BP => 4 | BX => 5
  | R11 => 6 | R10 => 7 | R9 => 8 | R8 => 9 | AX => 10 | CX => 11
  | DX => 12 | SI => 13 | DI => 14 | ORIG_AX => 15 | IP => 16 | CS => 17
  | FLAGS => 18 | SP => 19 | SS => 20
  end%nat.

Abbreviation pt_regs := (list Z).

Definition rget (regs : pt_regs) (r : reg) : Z := default 0 (regs !! slot r).
Definition rset (r : reg) (v : Z) (regs : pt_regs) : pt_regs := <[slot r := v]> regs.

(** A complete register file of 64-bit values. *)
Definition wf_regs (regs : pt_regs) : Prop := length regs = 21%nat /\ Forall is_u64 regs.

Lemma slot_inj r r' : slot r = slot r' -> r = r'.
Proof. destruct r, r'; simpl; congruence. Qed.

Lemma slot_lt r : (slot r < 21)%nat.
Proof. destruct r; simpl; lia. Qed.

Definition all_regs : list reg :=
  [R15; R14; R13; R12; BP; BX; R11; R10; R9; R8; AX; CX; DX; SI; DI; ORIG_AX; IP; CS;
   FLAGS; SP; SS].

(** Every index of the register file is the slot of a register. *)
Lemma slot_surj i : (i < 21)%nat -> exists r, slot r = i.
Proof.
  intros H. destruct (lookup_lt_is_Some_2 all_regs i H) as [r Hr].
  exists r. do 21 (destruct i as [|i]; [injection Hr as <-; reflexivity|]). lia.
Qed.

Lemma rget_rset_eq r v regs : wf_regs regs -> rget (rset r v regs) r = v.
Proof.
  intros [H _]. unfold rget, rset. rewrite list_lookup_insert_eq; [easy|].
  rewrite H. apply slot_lt.
Qed.

Lemma rget_rset_ne r r' v regs : r <> r' -> rget (rset r v regs) r' = rget regs r'.
Proof.
  intros H. unfold rget, rset. rewrite list_lookup_insert_ne; [easy|].
  intros E. apply H. now apply slot_inj.
Qed.

Lemma wf_rset r v regs : wf_regs regs -> is_u64 v -> wf_regs (rset r v regs).
Proof.
  intros [H1 H2] Hv. split; unfold rset.
  - now rewrite length_insert.
  - now apply Forall_insert.
Qed.

Lemma rget_range r regs : wf_regs regs -> is_u64 (rget regs r).
Proof.
  intros [H1 H2]. unfold rget.
  destruct (regs !! slot r) as [v|] eqn:E; simpl; [|word_range].
  eapply Forall_lookup_1 in H2; eauto.
Qed.

(** Two complete register files with the same registers are equal. *)
Lemma regs_ext regs1 regs2 :
  wf_regs regs1 -> wf_regs regs2 -> (forall r, rget regs1 r = rget regs2 r) -> regs1 = regs2.
Proof.
  intros [H1 _] [H2 _] H. apply list_eq. intros i.
  destruct (decide (i < 21)%nat) as [Hi|Hi].
  - destruct (slot_surj i Hi) as [r <-]. specialize (H r). unfold rget in H.
    destruct (lookup_lt_is_Some_2 regs1 (slot r)) as [v1 E1]; [lia|].
    destruct (lookup_lt_is_Some_2 regs2 (slot r)) as [v2 E2]; [lia|].
    rewrite E1, E2 in *. simpl in H. congruence.
  - rewrite !lookup_ge_None_2 by lia. reflexivity.
Qed.

#[export] Hint Resolve wf_rset rget_range : word.
#[export] Hint Rewrite rget_rset_eq using (auto with word) : word_rw.
#[export] Hint Rewrite rget_rset_ne using congruence : word_rw.
