(* ===== verification/Exe.v ===== *)
(** The code-block table of the kernel module: [zz_lkm/exe.h], [zz_lkm/exe.c]
    and the hash of [zz_lkm/stat.h].

    [exes] is a direct-mapped table of 511 entries indexed by a hash of
    (pid, rip). [exe_add] claims a slot for a hot system-call site,
    [exe_on_call] runs the code block of the site a system call returns to and,
    while those blocks end in system calls, performs these in place. *)
From Stdlib Require Import ZArith Lia Bool.
From stdpp Require Import base list gmap.
From S2P Require Import Prelude Regs.

Local Open Scope Z_scope.

(** ** Data *)

(** Status codes of an entry. *)
Definition un_used : Z := -2.
Definition un_init : Z := -1.
Definition normal : Z := 0.
Definition call_miss : Z := 1.
Definition ij_miss : Z := 2.
Definition error_inst : Z := 3.

Definition max_exe : Z := 511.
Definition num_pg : Z := 160.

Record exe_info : Type := ExeInfo {
  status_code : Z;      (* int *)
  pid : Z;              (* int *)
  RIP : Z;              (* unsigned long *)
  code_block : Z;       (* void* *)
  jump_from : Z;        (* unsigned long *)
  tgt_addr : Z;         (* unsigned long *)
  success_cnt : Z;      (* unsigned long *)
  fail_cnt : Z          (* unsigned long *)
}.

Definition set_status_code v e := ExeInfo v (pid e) (RIP e) (code_block e)
  (jump_from e) (tgt_addr e) (success_cnt e) (fail_cnt e).
Definition set_pid v e := ExeInfo (status_code e) v (RIP e) (code_block e)
  (jump_from e) (tgt_addr e) (success_cnt e) (fail_cnt e).
Definition set_RIP v e := ExeInfo (status_code e) (pid e) v (code_block e)
  (jump_from e) (tgt_addr e) (success_cnt e) (fail_cnt e).
Definition set_code_block v e := ExeInfo (status_code e) (pid e) (RIP e) v
  (jump_from e) (tgt_addr e) (success_cnt e) (fail_cnt e).
Definition set_jump_from v e := ExeInfo (status_code e) (pid e) (RIP e) (code_block e)
  v (tgt_addr e) (success_cnt e) (fail_cnt e).
Definition set_tgt_addr v e := ExeInfo (status_code e) (pid e) (RIP e) (code_block e)
  (jump_from e) v (success_cnt e) (fail_cnt e).
Definition set_success_cnt v e := ExeInfo (status_code e) (pid e) (RIP e) (code_block e)
  (jump_from e) (tgt_addr e) v (fail_cnt e).
Definition set_fail_cnt v e := ExeInfo (status_code e) (pid e) (RIP e) (code_block e)
  (jump_from e) (tgt_addr e) (success_cnt e) v.

(** Calls the module makes into the rest of the kernel. *)
Inductive event : Type :=
| EvVmalloc (size addr : Z)
| EvSetMemoryX (addr : Z) (numpages : Z)
| EvRun (code : Z)
| EvSyscall (fn : Z)
| EvPrintk (pid rip ok failed : Z)
| EvNotFound (pid rip : Z).

(** The globals of [exe.c] and the memory behind the code blocks. *)
Record estate : Type := EState {
  exes : list exe_info;
  added : Z;                    (* int *)
  zz_sys_call_table : Z;        (* unsigned long *)
  kmem : gmap Z Z;              (* bytes of the vmalloc'ed code blocks *)
  elog : list event             (* most recent first *)
}.

Definition set_exes v s := EState v (added s) (zz_sys_call_table s) (kmem s) (elog s).
Definition set_added v s := EState (exes s) v (zz_sys_call_table s) (kmem s) (elog s).
Definition set_kmem v s := EState (exes s) (added s) (zz_sys_call_table s) v (elog s).
Definition log (ev : event) s :=
  EState (exes s) (added s) (zz_sys_call_table s) (kmem s) (ev :: elog s).

(** [*p = f( *p )] for [p = &exes[i]]; [None] when there is no such entry. *)
Definition with_exe (i : nat) (f : exe_info -> exe_info) (s : estate) : option estate :=
  match exes s !! i with
  | Some e => Some (set_exes (<[i := f e]> (exes s)) s)
  | None => None
  end.

(** What the module gets from the rest of the kernel. Each answer may depend on
    the whole state, the log of past calls included. A code block and a system
    call handler may sleep, so that other users of the table run: they return
    the state they leave. *)
Class ExeEnv := {
  vmalloc_exes : list exe_info;           (* content of the fresh table *)
  vmalloc_ptr : estate -> Z -> Z;         (* vmalloc(size) *)
  x86_fsbase_read_cpu : estate -> Z;
  mem_read64 : estate -> Z -> Z;          (* *(unsigned long* )addr *)
  code_run : estate -> Z -> pt_regs -> list Z -> pt_regs * list Z * estate;
  syscall_run : estate -> Z -> pt_regs -> Z * pt_regs * estate
}.

(** ** Operations *)

Definition zz_hash (pid ip : Z) : Z :=
  u32 (Z.lxor (u32 ip) 1674567091 + Z.lxor (u32 pid) 569809).

(** The index [pos] of the entry the function returns a pointer to. *)
Definition get_exe (pid ip : Z) : nat := Z.to_nat (zz_hash (u32 pid) ip mod max_exe).

Section Exe.
Context {env : ExeEnv}.

Definition exe_init (s : estate) : option estate :=
  let s := set_exes vmalloc_exes s in
  for_opt (fun i => with_exe i (set_status_code un_used)) 0 (Z.to_nat max_exe) s.

Definition exe_add (pid RIP : Z) (s : estate) : option estate :=
  let p := get_exe pid RIP in
  match exes s !! p with
  | None => None
  | Some e =>
      if negb (status_code e =? un_used) then Some s
      else if 62 <? added s then Some s
      else
        let s := set_added (s32 (added s + 1)) s in
        let s := set_exes (<[p := set_RIP RIP (set_pid pid e)]> (exes s)) s in
        let mem := vmalloc_ptr s (4096 * num_pg) in
        let s := log (EvVmalloc (4096 * num_pg) mem) s in
        let s := log (EvSetMemoryX mem num_pg) s in
        with_exe p (fun e => set_status_code un_init (set_code_block mem e)) s
  end.

(** The state of a CPU inside [exe_on_call]: the table, the saved user
    registers and the AC flag that [stac]/[clac] toggle. *)
Record cstate : Type := CState { c_exe : estate; c_regs : pt_regs; c_ac : bool }.

(** Lines 93-97: the registers as a SYSCALL instruction at [regs->ip] and the
    kernel entry code leave them. *)
Definition enter_syscall (regs : pt_regs) : pt_regs :=
  let regs := rset IP (u64 (rget regs IP + 2)) regs in
  let regs := rset CX (rget regs IP) regs in
  let regs := rset R11 (rget regs FLAGS) regs in
  let regs := rset ORIG_AX (rget regs AX) regs in
  rset AX (u64 (-38)) regs.

(** Lines 92-103. *)
Definition combined_syscall (p : nat) (regs : pt_regs) (s : estate)
  : option (pt_regs * estate) :=
  let regs := enter_syscall regs in
  let nr := rget regs ORIG_AX in
  if (nr <=? 436) && (0 <=? nr) then
    let fn := mem_read64 s (u64 (zz_sys_call_table s + 8 * nr)) in
    let '(ax, regs, s) := syscall_run (log (EvSyscall fn) s) fn regs in
    match with_exe p (fun e => set_success_cnt (u64 (success_cnt e + 1)) e) s with
    | Some s => Some (rset AX ax regs, s)
    | None => None
    end
  else Some (regs, s).

(** Lines 103-114: the code block stopped short of a system call. *)
Definition account_miss (arg0 ip : Z) (e : exe_info) : exe_info :=
  let e :=
    if (success_cnt e <? fail_cnt e) && (arg0 =? call_miss) then
      set_status_code call_miss (set_tgt_addr ip e)
    else if success_cnt e <? fail_cnt e then
      set_status_code ij_miss (set_jump_from arg0 (set_tgt_addr ip e))
    else e in
  set_fail_cnt (u64 (fail_cnt e + 1)) e.

(** Lines 115-117. *)
Definition report (p : nat) (s : estate) : option estate :=
  match exes s !! p with
  | None => None
  | Some e =>
      if u64 (success_cnt e + fail_cnt e) mod 500000 =? 1 then
        Some (log (EvPrintk (pid e) (RIP e) (success_cnt e) (fail_cnt e)) s)
      else Some s
  end.

(** One round of [while (1)] in [exe_on_call] for the task [me]. *)
Definition chain_body (me : Z) (c : cstate) : iter cstate :=
  let p := get_exe me (rget (c_regs c) IP) in
  match exes (c_exe c) !! p with
  | None => Undef
  | Some e =>
      if negb (status_code e =? normal) || negb (RIP e =? rget (c_regs c) IP)
         || negb (pid e =? me)
      then Break c
      else
        let s := log (EvRun (code_block e)) (c_exe c) in
        let args := [x86_fsbase_read_cpu s; 0] in
        let '(regs, args, s) := code_run s (code_block e) (c_regs c) args in
        let arg0 := default 0 (args !! 0%nat) in
        let r :=
          if arg0 =? normal then combined_syscall p regs s
          else match with_exe p (account_miss arg0 (rget regs IP)) s with
               | Some s => Some (regs, s)
               | None => None
               end in
        match r with
        | None => Undef
        | Some (regs, s) =>
            match report p s with
            | None => Undef
            | Some s => Continue (CState s regs true)
            end
        end
  end.

Definition clac (c : cstate) : cstate := CState (c_exe c) (c_regs c) false.

Definition exe_on_call (fuel : nat) (me : Z) (c : cstate) : run cstate :=
  match while fuel (chain_body me) c with
  | Done c' => Done (clac c')
  | Stuck => Stuck
  | OutOfFuel => OutOfFuel
  end.
End Exe.

(** ** The table invariant *)

Definition used (e : exe_info) : bool := negb (status_code e =? un_used).

Definition count_used (l : list exe_info) : nat :=
  sum_list_with (fun e => Nat.b2n (used e)) l.

Definition exe_typed (e : exe_info) : Prop :=
  is_s32 (status_code e) /\ is_s32 (pid e) /\ is_u64 (RIP e) /\ is_u64 (code_block e) /\
  is_u64 (jump_from e) /\ is_u64 (tgt_addr e) /\ is_u64 (success_cnt e) /\ is_u64 (fail_cnt e).

(** 511 well-typed entries, at most 63 of them used and none more than were
    added, every used one in the slot that its own key hashes to. *)
Record exe_wf (s : estate) : Prop := {
  wf_len : length (exes s) = 511%nat;
  wf_added : 0 <= added s <= 63;
  wf_used : Z.of_nat (count_used (exes s)) <= added s;
  wf_slot : forall i e, exes s !! i = Some e -> used e = true ->
            get_exe (pid e) (RIP e) = i;
  wf_typed : Forall exe_typed (exes s)
}.

(** The table only grows: a used entry keeps its key and its code block. *)
Definition same_site (e e' : exe_info) : Prop :=
  pid e' = pid e /\ RIP e' = RIP e /\ code_block e' = code_block e.

Definition table_le (s s' : estate) : Prop :=
  forall i e, exes s !! i = Some e -> used e = true ->
  exists e', exes s' !! i = Some e' /\ used e' = true /\ same_site e e'.

#[export] Instance table_le_preorder : PreOrder table_le.
Proof.
  split.
  - intros s i e H U. exists e. unfold same_site. auto.
  - intros s1 s2 s3 H12 H23 i e H U.
    destruct (H12 _ _ H U) as (e2 & E2 & U2 & S2).
    destruct (H23 _ _ E2 U2) as (e3 & E3 & U3 & S3).
    unfold same_site in S2, S3. exists e3. unfold same_site. intuition congruence.
Qed.

(** What the module relies on: memory from [vmalloc] has the requested size and
    type, code blocks and system calls leave complete register files, and the
    other users of the table that may run meanwhile respect it. *)
Class ExeEnvOk (env : ExeEnv) : Prop := {
  fresh_len : length vmalloc_exes = 511%nat;
  fresh_typed : Forall exe_typed vmalloc_exes;
  vmalloc_u64 : forall s n, is_u64 (vmalloc_ptr s n);
  code_run_ok : forall s code regs args regs' args' s',
    exe_wf s -> wf_regs regs -> code_run s code regs args = (regs', args', s') ->
    wf_regs regs' /\ Forall is_u64 args' /\ exe_wf s' /\ table_le s s';
  syscall_run_ok : forall s fn regs ax regs' s',
    exe_wf s -> wf_regs regs -> syscall_run s fn regs = (ax, regs', s') ->
    is_u64 ax /\ wf_regs regs' /\ exe_wf s' /\ table_le s s'
}.

(** Looking a site up by its key. *)
Definition find (s : estate) (p rip : Z) : option exe_info :=
  match exes s !! get_exe p rip with
  | Some e => if used e && (pid e =? p) && (RIP e =? rip) then Some e else None
  | None => None
  end.

(** The entry that [exe_on_call] would run for the task [me] at [ip]. *)
Definition ready (s : estate) (me ip : Z) : option exe_info :=
  match exes s !! get_exe me ip with
  | Some e => if (status_code e =? normal) && (RIP e =? ip) && (pid e =? me)
              then Some e else None
  | None => None
  end.

Definition same_ready (s s' : estate) : Prop := forall me ip, ready s' me ip = ready s me ip.

(** ** Lemmas on the table *)

Lemma get_exe_lt p rip : (get_exe p rip < 511)%nat.
Proof.
  unfold get_exe, max_exe. pose proof (Z.mod_pos_bound (zz_hash (u32 p) rip) 511). lia.
Qed.

Lemma count_used_insert l i e e' :
  l !! i = Some e ->
  (count_used (<[i := e']> l) + Nat.b2n (used e) = count_used l + Nat.b2n (used e'))%nat.
Proof.
  apply (sum_list_with_insert (fun e => Nat.b2n (used e))).
Qed.

Lemma exe_slot s p rip : exe_wf s -> exists e, exes s !! get_exe p rip = Some e.
Proof.
  intros H. apply lookup_lt_is_Some_2. rewrite (wf_len s H). apply get_exe_lt.
Qed.

Lemma wf_entry_typed s i e : exe_wf s -> exes s !! i = Some e -> exe_typed e.
Proof. intros H E. eapply Forall_lookup_1; [apply (wf_typed s H)|exact E]. Qed.

(** Logging and memory writes do not touch the table. *)
Lemma exe_wf_log s ev : exe_wf s -> exe_wf (log ev s).
Proof. intros []. now constructor. Qed.
Lemma table_le_log s ev : table_le s (log ev s).
Proof. intros i e H U. exists e. unfold same_site. auto. Qed.

(** An update that keeps the key, and is of a used entry by a used one. *)
Lemma with_exe_wf s s' i e f :
  exe_wf s -> exes s !! i = Some e -> used e = true ->
  used (f e) = true -> same_site e (f e) -> exe_typed (f e) ->
  with_exe i f s = Some s' ->
  exe_wf s' /\ table_le s s'.
Proof.
  intros W E U U' [P [R C]] T H. unfold with_exe in H. rewrite E in H. injection H as <-.
  pose proof (lookup_lt_Some _ _ _ E) as Hlt.
  split; [constructor; simpl|]; try apply W.
  - rewrite length_insert. apply W.
  - pose proof (count_used_insert (exes s) i e (f e) E). rewrite U, U' in *.
    pose proof (wf_used s W). lia.
  - intros j e' Hj Hu. destruct (decide (i = j)) as [->|Hne].
    + rewrite list_lookup_insert_eq in Hj by easy. injection Hj as <-.
      rewrite P, R. now apply (wf_slot s W).
    + rewrite list_lookup_insert_ne in Hj by easy. now apply (wf_slot s W).
  - apply Forall_insert; [apply W|easy].
  - intros j e' Hj Hu. simpl. destruct (decide (i = j)) as [->|Hne].
    + rewrite list_lookup_insert_eq by easy.
      exists (f e). assert (e' = e) as -> by congruence. unfold same_site. auto.
    + rewrite list_lookup_insert_ne by easy. exists e'. unfold same_site. auto.
Qed.

#[export] Hint Resolve exe_wf_log table_le_log : word.

Lemma used_not_un_used e : status_code e <> un_used -> used e = true.
Proof. intros H. unfold used. apply negb_true_iff. now apply Z.eqb_neq. Qed.

Section ExeFacts.
Context {env : ExeEnv} {env_ok : ExeEnvOk env}.

(** *** exe_add *)

(** The slot of a key is free and the quota of 63 sites is not exhausted. *)
Definition can_add (s : estate) (p rip : Z) : bool :=
  match exes s !! get_exe p rip with
  | Some e => negb (used e) && (added s <=? 62)
  | None => false
  end.

Lemma exe_add_refused s p rip :
  exe_wf s -> can_add s p rip = false -> exe_add p rip s = Some s.
Proof.
  intros W H. destruct (exe_slot s p rip W) as [e E].
  unfold can_add, used in H. unfold exe_add. rewrite E in *.
  destruct (status_code e =? un_used); simpl in *; [|easy].
  destruct (Z.ltb_spec 62 (added s)); [easy|].
  destruct (Z.leb_spec (added s) 62); [easy|lia].
Qed.

(** The entry a successful [exe_add] leaves in the slot. *)
Definition added_entry (s : estate) (p rip mem : Z) (e : exe_info) : exe_info :=
  set_status_code un_init (set_code_block mem (set_RIP rip (set_pid p e))).

Lemma exe_add_accepted s p rip e :
  exe_wf s -> exes s !! get_exe p rip = Some e -> can_add s p rip = true ->
  exists s' mem,
    exe_add p rip s = Some s' /\ is_u64 mem /\
    exes s' = <[get_exe p rip := added_entry s p rip mem e]> (exes s) /\
    added s' = added s + 1 /\ kmem s' = kmem s /\
    elog s' = EvSetMemoryX mem num_pg :: EvVmalloc (4096 * num_pg) mem :: elog s.
Proof.
  intros W E H. unfold can_add, used in H. unfold exe_add, with_exe. rewrite E in *.
  pose proof (lookup_lt_Some _ _ _ E) as Hlt. pose proof (wf_added s W) as Ha.
  bool_prop. rewrite H, Z.eqb_refl. simpl.
  destruct (Z.ltb_spec 62 (added s)); [lia|].
  rewrite list_lookup_insert_eq by easy.
  eexists _, _. split; [reflexivity|]. simpl. rewrite list_insert_insert_eq.
  repeat split; try reflexivity; try apply vmalloc_u64.
  apply s32_small. word_range.
Qed.

Lemma exe_add_wf s s' p rip :
  exe_wf s -> is_s32 p -> is_u64 rip -> exe_add p rip s = Some s' ->
  exe_wf s' /\ table_le s s'.
Proof.
  intros W Hp Hr H. destruct (can_add s p rip) eqn:C.
  2:{ rewrite exe_add_refused in H by easy. injection H as <-. now split. }
  destruct (exe_slot s p rip W) as [e E].
  destruct (exe_add_accepted s p rip e W E C) as (s1 & mem & H1 & Hm & Hx & Ha & _ & _).
  rewrite H in H1. injection H1 as <-.
  pose proof (lookup_lt_Some _ _ _ E) as Hlt.
  pose proof (count_used_insert (exes s) _ e (added_entry s p rip mem e) E) as Hc.
  unfold can_add in C. rewrite E in C. bool_prop.
  replace (used e) with false in Hc. simpl in Hc.
  pose proof (wf_entry_typed s _ e W E) as T. pose proof (wf_used s W).
  pose proof (wf_added s W).
  split; [constructor|]; rewrite ?Hx, ?Ha.
  - rewrite length_insert. apply W.
  - lia.
  - lia.
  - intros j e' Hj Hu. destruct (decide (get_exe p rip = j)) as [<-|Hne].
    + rewrite list_lookup_insert_eq in Hj by easy. now injection Hj as <-.
    + rewrite list_lookup_insert_ne in Hj by easy. now apply (wf_slot s W).
  - apply Forall_insert; [apply W|]. unfold exe_typed, added_entry in *. simpl.
    intuition (auto; unfold is_s32, un_init; lia).
  - intros j e' Hj Hu. destruct (decide (get_exe p rip = j)) as [<-|Hne].
    + assert (e' = e) as -> by congruence. congruence.
    + rewrite Hx, list_lookup_insert_ne by easy. exists e'. unfold same_site. auto.
Qed.

(** Registration makes no site ready. *)
Lemma exe_add_ready p r s s' : exe_add p r s = Some s' -> same_ready s s'.
Proof.
  unfold exe_add. destruct (exes s !! get_exe p r) as [e|] eqn:E; [|easy].
  destruct (negb (status_code e =? un_used)) eqn:U; [now intros [= <-]|].
  destruct (62 <? added s); [now intros [= <-]|].
  unfold with_exe, log, set_exes, set_added. cbn [exes].
  rewrite list_lookup_insert_eq by (now apply lookup_lt_Some in E).
  intros [= <-] me ip. unfold ready. cbn [exes]. rewrite list_insert_insert_eq.
  destruct (decide (get_exe p r = get_exe me ip)) as [<-|N].
  - rewrite list_lookup_insert_eq by (now apply lookup_lt_Some in E). rewrite E.
    bool_prop. rewrite U. easy.
  - now rewrite list_lookup_insert_ne.
Qed.

(** *** exe_on_call *)

Lemma account_miss_ok arg0 ip e :
  used e = true -> is_u64 arg0 -> is_u64 ip -> exe_typed e ->
  used (account_miss arg0 ip e) = true /\ same_site e (account_miss arg0 ip e) /\
  exe_typed (account_miss arg0 ip e).
Proof.
  intros U Ha Hi T. unfold account_miss, same_site, exe_typed in *.
  destruct (success_cnt e <? fail_cnt e); simpl; [destruct (arg0 =? call_miss)|];
    simpl; intuition (auto with word; try (unfold is_s32, call_miss, ij_miss; lia)).
Qed.

Lemma enter_syscall_wf regs : wf_regs regs -> wf_regs (enter_syscall regs).
Proof. intros H. unfold enter_syscall. auto 20 with word. Qed.

Lemma combined_syscall_wf p e regs s :
  exe_wf s -> wf_regs regs -> exes s !! p = Some e -> used e = true ->
  exists regs' s', combined_syscall p regs s = Some (regs', s') /\
    wf_regs regs' /\ exe_wf s' /\ table_le s s'.
Proof.
  intros W R E U. apply enter_syscall_wf in R. unfold combined_syscall.
  destruct ((_ <=? 436) && _); [|now exists (enter_syscall regs), s].
  set (fn := mem_read64 _ _).
  destruct (syscall_run _ _ _) as [[ax regs'] s'] eqn:ES.
  apply syscall_run_ok in ES; [|auto with word|easy].
  destruct ES as (Hax & R' & W' & L'). destruct (L' p e E U) as (e' & E' & U' & S').
  pose proof (wf_entry_typed s' p e' W' E') as T.
  destruct (with_exe p (fun e => set_success_cnt (u64 (success_cnt e + 1)) e) s')
    as [s2|] eqn:E2; [|unfold with_exe in E2; rewrite E' in E2; easy].
  apply with_exe_wf with (e := e') in E2; try easy;
    [|unfold exe_typed in *; simpl; intuition auto with word].
  destruct E2 as [W2 L2]. exists (rset AX ax regs'), s2.
  split; [reflexivity|]. split; [auto with word|]. split; [easy|].
  transitivity s'; [|easy]. transitivity (log (EvSyscall fn) s); auto with word.
Qed.

Lemma report_wf p e s :
  exe_wf s -> exes s !! p = Some e ->
  exists s', report p s = Some s' /\ exes s' = exes s /\ exe_wf s' /\ table_le s s'.
Proof.
  intros W E. unfold report. rewrite E.
  destruct (_ =? 1); eexists; (split; [reflexivity|]); auto with word.
  split; [easy|]. split; [easy|reflexivity].
Qed.

Lemma ready_used s me ip e :
  ready s me ip = Some e ->
  exes s !! get_exe me ip = Some e /\ used e = true /\ status_code e = normal /\
  RIP e = ip /\ pid e = me.
Proof.
  unfold ready. destruct (exes s !! _) as [e'|] eqn:E; [|easy].
  case_if; [|easy]. intros [= <-]. bool_prop. repeat split; try easy.
  apply used_not_un_used. unfold normal, un_used in *. lia.
Qed.

Lemma chain_body_miss me c :
  exe_wf (c_exe c) -> ready (c_exe c) me (rget (c_regs c) IP) = None ->
  chain_body me c = Break c.
Proof.
  intros W H. unfold chain_body, ready in *.
  destruct (exe_slot (c_exe c) me (rget (c_regs c) IP) W) as [e E]. rewrite E in *.
  destruct (status_code e =? normal), (RIP e =? _), (pid e =? me); easy.
Qed.

Lemma chain_body_hit me c e :
  exe_wf (c_exe c) -> wf_regs (c_regs c) ->
  ready (c_exe c) me (rget (c_regs c) IP) = Some e ->
  exists c', chain_body me c = Continue c' /\ exe_wf (c_exe c') /\
    table_le (c_exe c) (c_exe c') /\ wf_regs (c_regs c').
Proof.
  intros W R H. destruct (ready_used _ _ _ _ H) as (E & U & Hs & Hr & Hp).
  unfold chain_body. rewrite E, Hs, Hr, Hp, !Z.eqb_refl. simpl.
  set (s0 := log _ _). destruct (code_run _ _ _ _) as [[regs args] s] eqn:EC.
  apply code_run_ok in EC; [|now apply exe_wf_log|easy].
  destruct EC as (R1 & A1 & W1 & L1). fold s0 in L1.
  assert (L0 : table_le (c_exe c) s) by (transitivity s0; [apply table_le_log|easy]).
  destruct (L0 _ e E U) as (e1 & E1 & U1 & S1).
  assert (Ha : is_u64 (default 0 (args !! 0%nat))).
  { destruct (args !! 0%nat) as [a|] eqn:Ea; simpl; [|word_range].
    now apply (Forall_lookup_1 _ _ _ _ A1 Ea). }
  set (a0 := default 0 _) in *.
  assert (Hr2 : exists regs2 s2,
    (if a0 =? normal then combined_syscall (get_exe me (rget (c_regs c) IP)) regs s
     else match with_exe (get_exe me (rget (c_regs c) IP))
                  (account_miss a0 (rget regs IP)) s with
          | Some s => Some (regs, s) | None => None end) = Some (regs2, s2) /\
    wf_regs regs2 /\ exe_wf s2 /\ table_le s s2).
  { destruct (a0 =? normal); [now apply combined_syscall_wf with (e := e1)|].
    pose proof (account_miss_ok a0 (rget regs IP) e1 U1 Ha (rget_range IP _ R1)
                  (wf_entry_typed _ _ _ W1 E1)) as (U2 & S2 & T2).
    destruct (with_exe _ _ s) as [s2|] eqn:E2.
    - destruct (with_exe_wf _ _ _ _ _ W1 E1 U1 U2 S2 T2 E2). now exists regs, s2.
    - unfold with_exe in E2. now rewrite E1 in E2. }
  destruct Hr2 as (regs2 & s2 & -> & R2 & W2 & L2).
  destruct (L2 _ e1 E1 U1) as (e2 & E2 & _ & _).
  destruct (report_wf _ e2 s2 W2 E2) as (s3 & -> & _ & W3 & L3).
  eexists. split; [reflexivity|]. simpl. repeat split; try apply W3; try apply R2.
  etransitivity; [exact L0|]. now transitivity s2.
Qed.

(** What every round of the loop maintains. *)
Definition chain_inv (s0 : estate) (c : cstate) : Prop :=
  exe_wf (c_exe c) /\ table_le s0 (c_exe c) /\ wf_regs (c_regs c).

Lemma chain_body_inv me s0 c :
  chain_inv s0 c ->
  chain_body me c <> Undef /\
  (forall c', chain_body me c = Continue c' -> chain_inv s0 c') /\
  (forall c', chain_body me c = Break c' ->
     c' = c /\ ready (c_exe c) me (rget (c_regs c) IP) = None).
Proof.
  intros (W & L & R).
  destruct (ready (c_exe c) me (rget (c_regs c) IP)) as [e|] eqn:E.
  - destruct (chain_body_hit me c e W R E) as (c1 & -> & W1 & L1 & R1).
    split; [easy|]. split; [|easy]. intros c' [= <-].
    split; [easy|]. split; [|easy]. now transitivity (c_exe c).
  - rewrite (chain_body_miss me c W E). split; [easy|]. split; [easy|].
    now intros c' [= <-].
Qed.

Lemma while_chain_inv me s0 n : forall c,
  chain_inv s0 c ->
  while n (chain_body me) c <> Stuck /\
  (forall c', while n (chain_body me) c = Done c' ->
     chain_inv s0 c' /\ ready (c_exe c') me (rget (c_regs c') IP) = None).
Proof.
  induction n as [|n IH]; intros c H; simpl; [easy|].
  destruct (chain_body_inv me s0 c H) as (Hu & Hc & Hb).
  destruct (chain_body me c) as [c1|c1|]; [now apply IH, Hc| |easy].
  split; [easy|]. intros c' [= <-]. destruct (Hb c1 eq_refl) as [-> Hr]. easy.
Qed.

(** *** Rounds without interference *)

(** While a code block or a system call runs, nobody else changes the table. *)
Definition quiet : Prop :=
  (forall s code regs args regs' args' s',
     code_run s code regs args = (regs', args', s') -> exes s' = exes s) /\
  (forall s fn regs ax regs' s',
     syscall_run s fn regs = (ax, regs', s') -> exes s' = exes s).

Lemma report_exes p s s' : report p s = Some s' -> exes s' = exes s.
Proof.
  unfold report. destruct (exes s !! p); [|easy].
  case_if; intros [= <-]; reflexivity.
Qed.

Lemma with_exe_exes i f s s' e :
  exes s !! i = Some e -> with_exe i f s = Some s' -> exes s' = <[i := f e]> (exes s).
Proof. unfold with_exe. now intros -> [= <-]. Qed.

(** The effect of one round on the table: the entry that ran, and how. *)
Lemma chain_round_exes me c c' e :
  quiet -> ready (c_exe c) me (rget (c_regs c) IP) = Some e ->
  chain_body me c = Continue c' ->
  exists e', exes (c_exe c') = <[get_exe me (rget (c_regs c) IP) := e']> (exes (c_exe c)) /\
    exists regs args s,
      code_run (log (EvRun (code_block e)) (c_exe c)) (code_block e) (c_regs c)
        [x86_fsbase_read_cpu (log (EvRun (code_block e)) (c_exe c)); 0] = (regs, args, s) /\
      let a0 := default 0 (args !! 0%nat) in
      if a0 =? normal
      then e' = set_success_cnt (u64 (success_cnt e + 1)) e \/ e' = e
      else e' = account_miss a0 (rget regs IP) e.
Proof.
  intros [Q1 Q2] H HC. destruct (ready_used _ _ _ _ H) as (E & U & Hs & Hr & Hp).
  unfold chain_body in HC. rewrite E, Hs, Hr, Hp, !Z.eqb_refl in HC. simpl in HC.
  set (p := get_exe me (rget (c_regs c) IP)) in *.
  destruct (code_run _ _ _ _) as [[regs args] s] eqn:EC.
  pose proof (Q1 _ _ _ _ _ _ _ EC) as X. simpl in X.
  set (a0 := default 0 _) in *. destruct (a0 =? normal) eqn:Ea.
  - destruct (combined_syscall p regs s) as [[regs2 s2]|] eqn:ES; [|easy].
    destruct (report p s2) as [s3|] eqn:ER; [|easy]. injection HC as <-.
    apply report_exes in ER. unfold combined_syscall in ES.
    destruct (_ && _).
    + destruct (syscall_run _ _ _) as [[ax regs3] s4] eqn:EY.
      pose proof (Q2 _ _ _ _ _ _ EY) as Y. simpl in Y.
      destruct (with_exe p _ s4) as [s5|] eqn:E5; [|easy].
      injection ES as <- <-. apply with_exe_exes with (e := e) in E5; [|congruence].
      eexists. split; [simpl; rewrite ER, E5, Y, X; reflexivity|].
      exists regs, args, s. split; [easy|]. cbv zeta. fold a0. rewrite Ea. auto.
    + injection ES as <- <-. exists e. split.
      * simpl. rewrite ER, X. symmetry. now apply list_insert_id.
      * exists regs, args, s. split; [easy|]. cbv zeta. fold a0. rewrite Ea. auto.
  - destruct (with_exe p _ s) as [s5|] eqn:E5; [|easy].
    destruct (report p s5) as [s3|] eqn:ER; [|easy]. injection HC as <-.
    apply report_exes in ER. apply with_exe_exes with (e := e) in E5; [|congruence].
    eexists. split; [simpl; rewrite ER, E5, X; reflexivity|].
    exists regs, args, s. split; [easy|]. cbv zeta. fold a0. now rewrite Ea.
Qed.

(** Rounds left in a chain of blocks that never reach a system call. *)
Definition miss_budget (e : exe_info) : nat :=
  if status_code e =? normal then S (Z.to_nat (success_cnt e - fail_cnt e + 1)) else 0.

Lemma account_miss_budget a0 ip e :
  exe_typed e -> success_cnt e < 2 ^ 64 - 1 -> status_code e = normal ->
  (miss_budget (account_miss a0 ip e) < miss_budget e)%nat.
Proof.
  intros T Hs Hn. unfold miss_budget, account_miss. rewrite Hn, Z.eqb_refl.
  destruct (Z.ltb_spec (success_cnt e) (fail_cnt e)); simpl.
  - destruct (a0 =? call_miss); simpl; lia.
  - rewrite Hn, Z.eqb_refl. unfold exe_typed in T. rewrite u64_small by word_range. lia.
Qed.

Lemma account_miss_success a0 ip e : success_cnt (account_miss a0 ip e) = success_cnt e.
Proof.
  unfold account_miss. destruct (success_cnt e <? fail_cnt e); simpl; [|easy].
  now destruct (a0 =? call_miss).
Qed.
End ExeFacts.

(** ** A decision procedure for the invariant *)

Definition in_range (lo hi z : Z) : bool := (lo <=? z) && (z <? hi).
Definition u64b (z : Z) : bool := in_range 0 (2 ^ 64) z.
Definition s32b (z : Z) : bool := in_range (- 2 ^ 31) (2 ^ 31) z.

Definition exe_typedb (e : exe_info) : bool :=
  s32b (status_code e) && s32b (pid e) && u64b (RIP e) && u64b (code_block e) &&
  u64b (jump_from e) && u64b (tgt_addr e) && u64b (success_cnt e) && u64b (fail_cnt e).

Definition in_slotb (i : nat) (e : exe_info) : bool :=
  negb (used e) || (get_exe (pid e) (RIP e) =? i)%nat.

Definition exe_wfb (s : estate) : bool :=
  (length (exes s) =? 511)%nat && (0 <=? added s) && (added s <=? 63) &&
  (Z.of_nat (count_used (exes s)) <=? added s) &&
  forallb id (imap in_slotb (exes s)) && forallb exe_typedb (exes s).

Lemma exe_wfb_sound s : exe_wfb s = true -> exe_wf s.
Proof.
  unfold exe_wfb. intros H. bool_prop. rewrite forallb_forall in *.
  constructor; try lia.
  - now apply Nat.eqb_eq.
  - intros i e E U.
    assert (Hin : In (in_slotb i e) (imap in_slotb (exes s))).
    { apply list_elem_of_In, list_elem_of_lookup. exists i. rewrite list_lookup_imap, E. easy. }
    apply H1 in Hin. unfold in_slotb in Hin. rewrite U in Hin. now apply Nat.eqb_eq.
  - apply Forall_forall. intros e He. apply list_elem_of_In, H0 in He.
    unfold exe_typedb, u64b, s32b, in_range in He. bool_prop.
    unfold exe_typed, is_s32, is_u64. lia.
Qed.

(** ** A concrete environment and table for the examples *)

Module Demo.
Definition site : Z := 0x7ffff7e5232f.
Definition task : Z := 1234.
Definition block : Z := 0xffffc90000400000.

Definition blank : exe_info := ExeInfo un_used 0 0 0 0 0 0 0.
Definition blanks : list exe_info := replicate 511 blank.
Definition hot (ok bad : Z) : exe_info := ExeInfo normal task site block 0 0 ok bad.

Definition table (e : exe_info) : estate :=
  EState (<[get_exe task site := e]> blanks) 1 0xffffffff82000280 ∅ [].
Definition empty_table : estate := EState blanks 0 0xffffffff82000280 ∅ [].

Definition regs : pt_regs := rset IP site (rset AX 1 (replicate 21 0)).

(** Code blocks that leave at [0x401000], reporting [a0]. *)
Definition env (a0 : Z) : ExeEnv := {|
  vmalloc_exes := blanks;
  vmalloc_ptr _ _ := block;
  x86_fsbase_read_cpu _ := 0x7ffff7d8a740;
  mem_read64 _ addr := addr;
  code_run s _ regs _ := (rset IP 0x401000 regs, [u64 a0; 0], s);
  syscall_run s fn regs := (7, regs, s)
|}.

Lemma env_ok a0 : ExeEnvOk (env a0).
Proof.
  constructor; simpl.
  - reflexivity.
  - unfold blanks. apply Forall_replicate. repeat split; vm_compute; congruence.
  - intros. unfold is_u64, block. lia.
  - intros s code r args r' args' s' W R [= <- <- <-].
    split; [apply wf_rset; [easy|word_range]|]. split; [|easy].
    constructor; [auto with word|]. constructor; [word_range|constructor].
  - intros s fn r ax r' s' W R [= <- <- <-]. split; [word_range|easy].
Qed.

Lemma regs_wf : wf_regs regs.
Proof.
  split; [reflexivity|]. repeat constructor; unfold site; lia.
Qed.
End Demo.

(** ** Properties *)

(** C16. [exe_add pid rip] implements "register the site if its slot is free and
    fewer than 63 sites were registered": it never fails, keeps the invariant
    and every registered site; a registration leaves the site findable under
    its own key, un-initialised, on a fresh executable block of 160 pages, with
    every other key unaffected; a refusal leaves the module unchanged. *)
Theorem exe_add_correct (env : ExeEnv) (ok : ExeEnvOk env) s p rip :
  exe_wf s -> is_s32 p -> is_u64 rip ->
  exists s', exe_add p rip s = Some s' /\ exe_wf s' /\ table_le s s' /\
  if can_add s p rip then
    (exists e mem, find s' p rip = Some e /\ status_code e = un_init /\ code_block e = mem /\
       elog s' = EvSetMemoryX mem num_pg :: EvVmalloc (4096 * num_pg) mem :: elog s) /\
    added s' = added s + 1 /\
    (forall p' rip', (p', rip') <> (p, rip) -> find s' p' rip' = find s p' rip')
  else s' = s.
Proof.
  intros W Hp Hr. destruct (can_add s p rip) eqn:C.
  2:{ exists s. now rewrite exe_add_refused. }
  destruct (exe_slot s p rip W) as [e E].
  destruct (exe_add_accepted s p rip e W E C) as (s' & mem & H & Hm & Hx & Ha & _ & Hl).
  destruct (exe_add_wf s s' p rip W Hp Hr H) as [W' L'].
  pose proof (lookup_lt_Some _ _ _ E) as Hlt.
  exists s'. do 3 (split; [easy|]). split; [|split; [easy|]].
  - exists (added_entry s p rip mem e), mem. unfold find.
    rewrite Hx, list_lookup_insert_eq by easy. simpl. rewrite !Z.eqb_refl. auto.
  - intros p' rip' Hne. unfold find. rewrite Hx.
    destruct (decide (get_exe p rip = get_exe p' rip')) as [Heq|Hd].
    + rewrite <- Heq, list_lookup_insert_eq, E by easy.
      unfold can_add in C. rewrite E in C. bool_prop. rewrite H0. simpl.
      destruct (Z.eqb_spec p p'), (Z.eqb_spec rip rip'); simpl; congruence.
    + now rewrite list_lookup_insert_ne.
Qed.

Lemma exe_add_correct_witness :
  exists s', @exe_add (Demo.env 0) Demo.task Demo.site Demo.empty_table = Some s' /\ exe_wf s'.
Proof.
  destruct (exe_add_correct (Demo.env 0) (Demo.env_ok 0) Demo.empty_table Demo.task Demo.site)
    as (s' & H1 & H2 & _).
  - apply exe_wfb_sound. vm_compute. reflexivity.
  - unfold is_s32, Demo.task. lia.
  - unfold is_u64, Demo.site. lia.
  - exists s'. now split.
Defined.

(** C15. For any chain length, [exe_on_call] never dereferences outside the
    table; when it returns, user access is disabled again (AC clear), the
    registers are complete, the table is well formed and still has every
    registered site, and the site at the final [ip] is not ready to run. *)
Theorem exe_on_call_safe (env : ExeEnv) (ok : ExeEnvOk env) fuel me c :
  exe_wf (c_exe c) -> wf_regs (c_regs c) ->
  exe_on_call fuel me c <> Stuck /\
  (forall c', exe_on_call fuel me c = Done c' ->
     c_ac c' = false /\ exe_wf (c_exe c') /\ table_le (c_exe c) (c_exe c') /\
     wf_regs (c_regs c') /\ ready (c_exe c') me (rget (c_regs c') IP) = None).
Proof.
  intros W R.
  destruct (while_chain_inv me (c_exe c) fuel c) as [H1 H2]; [now split|].
  unfold exe_on_call. destruct (while _ _ _) as [c1| |]; split; try easy.
  intros c' [= <-]. destruct (H2 c1 eq_refl) as ((? & ? & ?) & ?). easy.
Qed.

Lemma exe_on_call_safe_witness :
  @exe_on_call (Demo.env 0) 5 Demo.task (CState (Demo.table (Demo.hot 0 0)) Demo.regs false)
  <> Stuck.
Proof.
  refine (proj1 (exe_on_call_safe (Demo.env 0) (Demo.env_ok 0) 5 Demo.task
    (CState (Demo.table (Demo.hot 0 0)) Demo.regs false) _ _)).
  - apply exe_wfb_sound. vm_compute. reflexivity.
  - apply Demo.regs_wf.
Defined.

(** Transparency: a system call returning to a site with no ready code block
    of this very (pid, ip) leaves [exe_on_call] after one lookup with registers,
    table, memory and log untouched. *)
Theorem exe_on_call_transparent (env : ExeEnv) fuel me c :
  exe_wf (c_exe c) -> ready (c_exe c) me (rget (c_regs c) IP) = None ->
  exe_on_call (S fuel) me c = Done (CState (c_exe c) (c_regs c) false).
Proof.
  intros W H. unfold exe_on_call. simpl. now rewrite chain_body_miss.
Qed.

Lemma exe_on_call_transparent_witness :
  @exe_on_call (Demo.env 0) 1 4321 (CState (Demo.table (Demo.hot 0 0)) Demo.regs true) =
  Done (CState (Demo.table (Demo.hot 0 0)) Demo.regs false).
Proof.
  apply (exe_on_call_transparent (Demo.env 0) 0 4321
           (CState (Demo.table (Demo.hot 0 0)) Demo.regs true)).
  - apply exe_wfb_sound. vm_compute. reflexivity.
  - vm_compute. reflexivity.
Defined.

(** Accounting of one round, when nobody else changes the table meanwhile: only
    the entry that ran changes, it keeps its site, and either its success
    counter or its failure counter goes up by one (or nothing changes: the
    block asked for a system call number above 436). Its status leaves
    [normal] exactly when a miss happens with more failures than successes
    behind it. *)
Theorem chain_round_accounting (env : ExeEnv) me c c' e :
  quiet -> ready (c_exe c) me (rget (c_regs c) IP) = Some e ->
  chain_body me c = Continue c' ->
  exists e', exes (c_exe c') = <[get_exe me (rget (c_regs c) IP) := e']> (exes (c_exe c)) /\
    same_site e e' /\
    ((e' = set_success_cnt (u64 (success_cnt e + 1)) e \/ e' = e) \/
     (success_cnt e' = success_cnt e /\ fail_cnt e' = u64 (fail_cnt e + 1) /\
      (status_code e' = normal <-> fail_cnt e <= success_cnt e) /\
      (status_code e' = normal \/
       (status_code e' = call_miss \/ status_code e' = ij_miss) /\
       exists regs args s,
         code_run (log (EvRun (code_block e)) (c_exe c)) (code_block e) (c_regs c)
           [x86_fsbase_read_cpu (log (EvRun (code_block e)) (c_exe c)); 0] = (regs, args, s) /\
         tgt_addr e' = rget regs IP))).
Proof.
  intros Q H HC. destruct (ready_used _ _ _ _ H) as (_ & _ & Hn & _).
  destruct (chain_round_exes me c c' e Q H HC) as (e' & Hx & regs & args & s & HR & HE).
  exists e'. split; [easy|]. cbv zeta in HE.
  set (a0 := default 0 _) in *. destruct (a0 =? normal).
  - split; [|now left]. now destruct HE as [-> | ->].
  - subst e'. unfold account_miss, same_site.
    destruct (Z.ltb_spec (success_cnt e) (fail_cnt e)); simpl;
      [destruct (a0 =? call_miss); simpl|].
    + split; [easy|]. right. do 2 (split; [easy|]).
      split; [split; [discriminate|lia]|]. right. split; [now left|]. eauto.
    + split; [easy|]. right. do 2 (split; [easy|]).
      split; [split; [discriminate|lia]|]. right. split; [now right|]. eauto.
    + rewrite Hn. split; [easy|]. right. do 2 (split; [easy|]). split; [easy|]. now left.
Qed.

Lemma chain_round_accounting_witness :
  exists c' e', @chain_body (Demo.env 1) Demo.task
      (CState (Demo.table (Demo.hot 0 1)) Demo.regs false) = Continue c' /\
    exes (c_exe c') = <[get_exe Demo.task Demo.site := e']> (exes (Demo.table (Demo.hot 0 1))).
Proof.
  destruct (@chain_body (Demo.env 1) Demo.task
      (CState (Demo.table (Demo.hot 0 1)) Demo.regs false)) as [c'| |] eqn:E;
    [|vm_compute in E; discriminate|vm_compute in E; discriminate].
  exists c'.
  destruct (chain_round_accounting (Demo.env 1) Demo.task
      (CState (Demo.table (Demo.hot 0 1)) Demo.regs false) c' (Demo.hot 0 1))
    as (e' & He & _); [split; simpl; congruence|vm_compute; reflexivity|exact E|].
  exists e'. split; [reflexivity|]. exact He.
Defined.

(** C33. Termination: if no code block reaches a system call, a chain ends. Each round
    then uses up failures until the block is taken out of service, so the number
    of rounds is bounded by the counters of the normal entries. *)
Theorem missing_chain_terminates (env : ExeEnv) (ok : ExeEnvOk env) me c :
  exe_wf (c_exe c) -> wf_regs (c_regs c) -> quiet ->
  (forall s code regs args regs' args' s',
     code_run s code regs args = (regs', args', s') -> default 0 (args' !! 0%nat) <> normal) ->
  Forall (fun e => success_cnt e < 2 ^ 64 - 1) (exes (c_exe c)) ->
  exists c', exe_on_call (S (sum_list_with miss_budget (exes (c_exe c)))) me c = Done c'.
Proof.
  intros W R Q Hmiss Hsat.
  destruct (while_measure (chain_body me)
    (fun c1 => chain_inv (c_exe c) c1 /\
               Forall (fun e => success_cnt e < 2 ^ 64 - 1) (exes (c_exe c1)))
    (fun c1 => sum_list_with miss_budget (exes (c_exe c1)))) with
    (n := S (sum_list_with miss_budget (exes (c_exe c)))) (s := c) as [c' E].
  - intros c1 [I _]. apply (chain_body_inv me _ _ I).
  - intros c1 c2 [I S] E. pose proof (proj1 (proj2 (chain_body_inv me _ c1 I)) _ E) as I2.
    destruct I as (W1 & L1 & R1).
    destruct (ready (c_exe c1) me (rget (c_regs c1) IP)) as [e|] eqn:Hr;
      [|rewrite chain_body_miss in E; easy].
    destruct (ready_used _ _ _ _ Hr) as (E1 & _ & Hn & _).
    destruct (chain_round_exes me c1 c2 e Q Hr E) as (e' & Hx & regs & args & s & HR & HE).
    cbv zeta in HE. pose proof (Hmiss _ _ _ _ _ _ _ HR) as Hne.
    destruct (Z.eqb_spec (default 0 (args !! 0%nat)) normal); [easy|]. subst e'.
    pose proof (Forall_lookup_1 _ _ _ _ S E1) as Hs. simpl in Hs.
    split; [split; [easy|]|]; rewrite Hx.
    + apply Forall_insert; [easy|]. now rewrite account_miss_success.
    + pose proof (sum_list_with_insert miss_budget _ _ _
        (account_miss (default 0 (args !! 0%nat)) (rget regs IP) e) E1) as Hsum.
      pose proof (account_miss_budget (default 0 (args !! 0%nat)) (rget regs IP) e
        (wf_entry_typed _ _ _ W1 E1) Hs Hn). lia.
  - split; [now split|easy].
  - lia.
  - exists (clac c'). unfold exe_on_call. now rewrite E.
Qed.

Lemma missing_chain_terminates_witness :
  exists c', @exe_on_call (Demo.env 1) 5 Demo.task
    (CState (Demo.table (Demo.hot 2 0)) Demo.regs false) = Done c'.
Proof.
  apply (missing_chain_terminates (Demo.env 1) (Demo.env_ok 1) Demo.task
           (CState (Demo.table (Demo.hot 2 0)) Demo.regs false)).
  - apply exe_wfb_sound. vm_compute. reflexivity.
  - apply Demo.regs_wf.
  - split; simpl; congruence.
  - intros s code r args r' args' s' [= <- <- <-]. vm_compute. discriminate.
  - apply Forall_insert; [|vm_compute; reflexivity].
    unfold Demo.blanks. apply Forall_replicate. vm_compute. reflexivity.
Defined.
