(* ===== verification/Stat.v ===== *)
(** The hot-site detector of the kernel module: [zz_lkm/stat.h] and
    [zz_lkm/stat.c].

    Each CPU counts, in 16 slots, how often the user code following a system
    call site issued the next system call quickly; every 30001 calls the slots
    are harvested and the hot sites handed to [exe_add]. *)
From Stdlib Require Import ZArith Lia Bool.
From stdpp Require Import base list gmap.
From S2P Require Import Prelude Regs Exe.

Local Open Scope Z_scope.

(** ** Data *)

Definition max_caller : Z := 16.

Record caller_info : Type := CallerInfo {
  rip : Z;              (* unsigned long *)
  caller_pid : Z;       (* int *)
  cnt : Z               (* unsigned long *)
}.

Record per_cpu_info : Type := PerCpuInfo {
  last_caller : Z;      (* unsigned long *)
  last_ts : Z;          (* unsigned long *)
  call_cnt : Z;         (* unsigned long *)
  milestone_ts : Z;     (* unsigned long *)
  caller : list caller_info;
  interested : bool
}.

Definition set_cnt v c := CallerInfo (rip c) (caller_pid c) v.
Definition set_call_cnt v i :=
  PerCpuInfo (last_caller i) (last_ts i) v (milestone_ts i) (caller i) (interested i).
Definition set_caller v i :=
  PerCpuInfo (last_caller i) (last_ts i) (call_cnt i) (milestone_ts i) v (interested i).

Definition syscall_short_th : Z := 1300.
Definition hot_caller_th : Z := 900.
Definition milestone_cnt : Z := 30000.
Definition milestone_duration_th : Z := 1000000000.

(** The globals of [stat.c]; [info] is indexed by the CPU number. *)
Record sstate : Type := SState { info : list per_cpu_info; num_cpus : Z }.

(** ** Operations *)

Definition zero_caller : caller_info := CallerInfo 0 0 0.
Definition zero_info : per_cpu_info :=
  PerCpuInfo 0 0 0 0 (replicate (Z.to_nat max_caller) zero_caller) false.

Definition stat_init (online : Z) : sstate :=
  SState (replicate (Z.to_nat online) zero_info) online.

(** The slot of a (pid, rip) pair, line 57. *)
Definition caller_slot (p r : Z) : nat := Z.to_nat (zz_hash p r mod max_caller).

(** Lines 60-65 on the entry [c]. *)
Definition bump_caller (p last : Z) (c : caller_info) : caller_info :=
  let c := if cnt c =? 0 then CallerInfo last p (cnt c) else c in
  if rip c =? last then set_cnt (u64 (cnt c + 1)) c else c.

(** Lines 57-65: one short system call of task [p] after the site [last]. *)
Definition bump (p last : Z) (cs : list caller_info) : option (list caller_info) :=
  let pos := caller_slot p last in
  match cs !! pos with
  | Some c => Some (<[pos := bump_caller p last c]> cs)
  | None => None
  end.

Section Stat.
Context {env : ExeEnv}.

(** Lines 41-46: the loop body at [pos]. *)
Definition harvest (pos : nat) (a : list caller_info * estate)
  : option (list caller_info * estate) :=
  let '(cs, es) := a in
  match cs !! pos with
  | None => None
  | Some c =>
      match (if hot_caller_th <? cnt c then exe_add (caller_pid c) (rip c) es
             else Some es) with
      | Some es => Some (<[pos := set_cnt 0 c]> cs, es)
      | None => None
      end
  end.

(** Lines 39-52. *)
Definition milestone (now : Z) (i : per_cpu_info) (es : estate)
  : option (per_cpu_info * estate) :=
  match (if interested i then for_opt harvest 0 (Z.to_nat max_caller) (caller i, es)
         else Some (caller i, es)) with
  | None => None
  | Some (cs, es) =>
      Some (PerCpuInfo (last_caller i) (last_ts i) 0 now cs
              (u64 (now - milestone_ts i) <? milestone_duration_th), es)
  end.

(** Lines 55-69. *)
Definition observe (now p ip ts : Z) (i : per_cpu_info) : option per_cpu_info :=
  if interested i then
    match (if u64 (ts - last_ts i) <? syscall_short_th
           then bump p (last_caller i) (caller i) else Some (caller i)) with
    | None => None
    | Some cs =>
        Some (PerCpuInfo ip now (call_cnt i) (milestone_ts i) cs (interested i))
    end
  else Some i.

Definition stat_cpu (now p ip ts : Z) (i : per_cpu_info) (es : estate)
  : option (per_cpu_info * estate) :=
  let i := set_call_cnt (u64 (call_cnt i + 1)) i in
  match (if milestone_cnt <? call_cnt i then milestone now i es else Some (i, es)) with
  | None => None
  | Some (i, es) =>
      match observe now p ip ts i with
      | Some i => Some (i, es)
      | None => None
      end
  end.

(** [cpu], [now] and [p] are what [smp_processor_id], [ktime_get_boottime_ns]
    and [task_pid_nr(current)] answer. *)
Definition stat_func (cpu now p : Z) (regs : pt_regs) (ts : Z) (ss : sstate) (es : estate)
  : option (sstate * estate) :=
  match info ss !! Z.to_nat cpu with
  | None => None
  | Some i =>
      match stat_cpu now p (rget regs IP) ts i es with
      | None => None
      | Some (i, es) => Some (SState (<[Z.to_nat cpu := i]> (info ss)) (num_cpus ss), es)
      end
  end.
End Stat.

(** ** Invariant *)

Definition caller_typed (c : caller_info) : Prop :=
  is_u64 (rip c) /\ is_s32 (caller_pid c) /\ 0 <= cnt c.

Definition cnt_nat (c : caller_info) : nat := Z.to_nat (cnt c).

Definition total (cs : list caller_info) : Z := Z.of_nat (sum_list_with cnt_nat cs).

(** 16 slots that never count more calls than the window has seen, and count
    nothing while the CPU is not being watched. *)
Record cpu_wf (i : per_cpu_info) : Prop := {
  cw_len : length (caller i) = 16%nat;
  cw_typed : Forall caller_typed (caller i);
  cw_last : is_u64 (last_caller i);
  cw_calls : 0 <= call_cnt i <= milestone_cnt;
  cw_total : total (caller i) <= call_cnt i + 1;
  cw_idle : interested i = false -> total (caller i) = 0
}.

Definition stat_wf (s : sstate) : Prop :=
  length (info s) = Z.to_nat (num_cpus s) /\ Forall cpu_wf (info s).

(** ** Lemmas *)

Lemma caller_slot_lt p r : (caller_slot p r < 16)%nat.
Proof.
  unfold caller_slot, max_caller. pose proof (Z.mod_pos_bound (zz_hash p r) 16). lia.
Qed.

Lemma total_insert cs pos c c' :
  cs !! pos = Some c -> 0 <= cnt c -> 0 <= cnt c' ->
  total (<[pos := c']> cs) = total cs - cnt c + cnt c'.
Proof.
  intros H H1 H2. unfold total.
  pose proof (sum_list_with_insert cnt_nat cs pos c c' H). unfold cnt_nat in *. lia.
Qed.

Lemma total_ge cs pos c :
  Forall caller_typed cs -> cs !! pos = Some c -> cnt c <= total cs.
Proof.
  intros T H. pose proof (Forall_lookup_1 _ _ _ _ T H) as (_ & _ & Hc).
  pose proof (sum_list_with_insert cnt_nat cs pos c (set_cnt 0 c) H) as E.
  change (cnt_nat (set_cnt 0 c)) with 0%nat in E. unfold total, cnt_nat in *. lia.
Qed.

Lemma total_zero cs :
  Forall caller_typed cs -> total cs = 0 -> Forall (fun c => cnt c = 0) cs.
Proof.
  intros T H. apply Forall_lookup. intros i c E.
  pose proof (total_ge cs i c T E). apply (Forall_lookup_1 _ _ _ _ T) in E.
  destruct E as (_ & _ & ?). lia.
Qed.

Lemma bump_caller_typed p last c :
  is_s32 p -> is_u64 last -> caller_typed c -> caller_typed (bump_caller p last c) /\
  cnt (bump_caller p last c) <= cnt c + 1.
Proof.
  intros Hp Hl (H1 & H2 & H3). unfold bump_caller, caller_typed.
  pose proof (u64_range (cnt c + 1)) as [Hu _].
  assert (u64 (cnt c + 1) <= cnt c + 1) by (apply Z.mod_le; lia).
  destruct (cnt c =? 0); simpl; [rewrite Z.eqb_refl|destruct (rip c =? last)];
    simpl; intuition lia.
Qed.

Lemma bump_ok p last cs :
  length cs = 16%nat -> Forall caller_typed cs -> is_s32 p -> is_u64 last ->
  exists cs', bump p last cs = Some cs' /\ length cs' = 16%nat /\
    Forall caller_typed cs' /\ total cs' <= total cs + 1.
Proof.
  intros L T Hp Hl. unfold bump.
  destruct (lookup_lt_is_Some_2 cs (caller_slot p last)) as [c E];
    [rewrite L; apply caller_slot_lt|].
  rewrite E. eexists. split; [reflexivity|]. rewrite length_insert.
  pose proof (Forall_lookup_1 _ _ _ _ T E) as Tc.
  destruct (bump_caller_typed p last c Hp Hl Tc) as [T' B'].
  split; [easy|]. split; [now apply Forall_insert|].
  destruct Tc as (_ & _ & ?), T' as (_ & _ & ?).
  rewrite (total_insert cs _ c) by easy. lia.
Qed.

Section StatFacts.
Context {env : ExeEnv}.

(** *** The harvest as one pass over the slots *)

Definition hot_callers (cs : list caller_info) : list caller_info :=
  filter (fun c => hot_caller_th < cnt c) cs.

Fixpoint exe_adds (l : list caller_info) (es : estate) : option estate :=
  match l with
  | [] => Some es
  | c :: l => match exe_add (caller_pid c) (rip c) es with
              | Some es => exe_adds l es
              | None => None
              end
  end.

Lemma harvest_loop rest : forall pre es,
  for_opt harvest (length pre) (length rest) (pre ++ rest, es) =
  match exe_adds (hot_callers rest) es with
  | Some es' => Some (pre ++ map (set_cnt 0) rest, es')
  | None => None
  end.
Proof.
  induction rest as [|c rest IH]; intros pre es; [easy|].
  cbn [length for_opt]. unfold harvest at 1.
  rewrite lookup_app_r, Nat.sub_diag by lia. cbn [lookup list_lookup].
  assert (E : forall es', for_opt harvest (S (length pre)) (length rest)
      (<[length pre := set_cnt 0 c]> (pre ++ c :: rest), es') =
      match exe_adds (hot_callers rest) es' with
      | Some es'' => Some (pre ++ map (set_cnt 0) (c :: rest), es'')
      | None => None end).
  { intros es'. rewrite insert_app_r_alt, Nat.sub_diag by lia. simpl.
    specialize (IH (pre ++ [set_cnt 0 c]) es').
    rewrite length_app, <- !app_assoc in IH. simpl in IH.
    replace (length pre + 1)%nat with (S (length pre)) in IH by lia. exact IH. }
  unfold hot_callers. rewrite filter_cons.
  destruct (Z.ltb_spec hot_caller_th (cnt c)) as [Hh|Hh].
  - rewrite decide_True by easy. cbn [exe_adds].
    destruct (exe_add _ _ es) as [es'|]; [apply E|reflexivity].
  - rewrite decide_False by lia. apply E.
Qed.

Lemma total_reset cs : total (map (set_cnt 0) cs) = 0.
Proof. unfold total. induction cs as [|c cs IH]; simpl; lia. Qed.

Lemma typed_reset cs : Forall caller_typed cs -> Forall caller_typed (map (set_cnt 0) cs).
Proof.
  intros H. apply Forall_map. eapply Forall_impl; [exact H|].
  intros c (? & ? & ?). unfold caller_typed. simpl. intuition lia.
Qed.

Context {env_ok : ExeEnvOk env}.

Lemma exe_adds_ok l : forall es,
  Forall caller_typed l -> exe_wf es ->
  exists es', exe_adds l es = Some es' /\ exe_wf es' /\ table_le es es'.
Proof.
  induction l as [|c l IH]; intros es T W; simpl; [now exists es|].
  inversion T as [|? ? (Hr & Hp & _) T']; subst.
  destruct (exe_add (caller_pid c) (rip c) es) as [es1|] eqn:E.
  - destruct (exe_add_wf es es1 _ _ W Hp Hr E) as [W1 L1].
    destruct (IH es1 T' W1) as (es' & H1 & H2 & H3).
    exists es'. split; [easy|]. split; [easy|]. now transitivity es1.
  - destruct (can_add es (caller_pid c) (rip c)) eqn:C.
    + destruct (exe_slot es (caller_pid c) (rip c) W) as [e Ee].
      destruct (exe_add_accepted es _ _ e W Ee C) as (s' & ? & ? & _). congruence.
    + rewrite exe_add_refused in E by easy. discriminate.
Qed.

(** What the milestone does, on every branch. *)
Lemma milestone_ok now i es :
  length (caller i) = 16%nat -> Forall caller_typed (caller i) -> exe_wf es ->
  (interested i = false -> total (caller i) = 0) ->
  exists es', exe_adds (if interested i then hot_callers (caller i) else []) es = Some es' /\
    milestone now i es =
      Some (PerCpuInfo (last_caller i) (last_ts i) 0 now
              (if interested i then map (set_cnt 0) (caller i) else caller i)
              (u64 (now - milestone_ts i) <? milestone_duration_th), es') /\
    exe_wf es' /\ table_le es es'.
Proof.
  intros L T W I. unfold milestone. destruct (interested i).
  - assert (Th : Forall caller_typed (hot_callers (caller i)))
      by now apply Forall_filter_weaken.
    destruct (exe_adds_ok _ es Th W) as (es' & E & W' & L').
    pose proof (harvest_loop (caller i) [] es) as H. rewrite L, E in H.
    cbn [app length] in H.
    exists es'. change (Z.to_nat max_caller) with 16%nat. now rewrite H.
  - now exists es.
Qed.

Lemma observe_ok now p ip ts i :
  is_s32 p -> is_u64 ip -> length (caller i) = 16%nat -> Forall caller_typed (caller i) ->
  is_u64 (last_caller i) -> 0 <= call_cnt i <= milestone_cnt ->
  total (caller i) <= call_cnt i -> (interested i = false -> total (caller i) = 0) ->
  exists i', observe now p ip ts i = Some i' /\ cpu_wf i'.
Proof.
  intros Hp Hi L T Hl Hc Ht I. unfold observe. destruct (interested i) eqn:Ei.
  2:{ exists i. split; [easy|]. constructor; auto; lia. }
  destruct (u64 (ts - last_ts i) <? syscall_short_th).
  - destruct (bump_ok p (last_caller i) (caller i) L T Hp Hl) as (cs & -> & L' & T' & B').
    eexists. split; [reflexivity|]. constructor; simpl; auto; try lia; easy.
  - eexists. split; [reflexivity|]. constructor; simpl; auto; try lia; easy.
Qed.

Lemma stat_cpu_ok now p ip ts i es :
  cpu_wf i -> exe_wf es -> is_s32 p -> is_u64 ip ->
  exists i' es', stat_cpu now p ip ts i es = Some (i', es') /\
    cpu_wf i' /\ exe_wf es' /\ table_le es es'.
Proof.
  intros W We Hp Hi. pose proof (cw_calls i W) as Hc. pose proof (cw_total i W) as Ht.
  pose proof (cw_idle i W) as Hidle. unfold milestone_cnt in Hc.
  assert (E : u64 (call_cnt i + 1) = call_cnt i + 1) by (apply u64_small; word_range).
  unfold stat_cpu. rewrite E. simpl.
  destruct (Z.ltb_spec milestone_cnt (call_cnt i + 1)).
  - destruct (milestone_ok now (set_call_cnt (call_cnt i + 1) i) es)
      as (es' & _ & -> & We' & Le'); try easy; try apply W.
    simpl. set (cs := if interested i then _ else _).
    assert (Hcs : length cs = 16%nat /\ Forall caller_typed cs /\ total cs = 0).
    { unfold cs. destruct (interested i).
      - rewrite length_map, total_reset. split; [apply W|].
        split; [apply typed_reset, W|easy].
      - split; [apply W|]. split; [apply W|auto]. }
    destruct Hcs as (L & T & Z0).
    edestruct (observe_ok now p ip ts) as (i' & -> & W'); [easy|easy|..].
    7: exists i', es'; easy.
    all: simpl; try apply W; try easy; try lia.
  - edestruct (observe_ok now p ip ts) as (i' & -> & W'); [easy|easy|..].
    7: exists i', es; easy.
    all: simpl; try apply W; try lia.
Qed.
End StatFacts.

(** ** The slots count the sites: a reference definition *)

(** The short system calls a window has seen, oldest first. *)
Abbreviation history := (list (Z * Z)).

Definition in_slot (pos : nat) (e : Z * Z) : bool := (caller_slot e.1 e.2 =? pos)%nat.

(** The first site that hashed to the slot owns it for the window. *)
Fixpoint owner (pos : nat) (h : history) : option (Z * Z) :=
  match h with
  | [] => None
  | e :: h => if in_slot pos e then Some e else owner pos h
  end.

(** The calls counted for it: those of its slot with its return address. *)
Definition counted (pos : nat) (r : Z) (h : history) : nat :=
  sum_list_with (fun e => Nat.b2n (in_slot pos e && (e.2 =? r))) h.

Fixpoint bumps (h : history) (cs : list caller_info) : option (list caller_info) :=
  match h with
  | [] => Some cs
  | (p, r) :: h => match bump p r cs with Some cs => bumps h cs | None => None end
  end.

(** Slot [pos] with content [c] after the history [h]. *)
Definition slot_counts (pos : nat) (h : history) (c : caller_info) : Prop :=
  match owner pos h with
  | None => cnt c = 0
  | Some (p, r) => caller_pid c = p /\ rip c = r /\ cnt c = Z.of_nat (counted pos r h)
  end.

Lemma owner_snoc pos h e :
  owner pos (h ++ [e]) =
  match owner pos h with
  | Some o => Some o
  | None => if in_slot pos e then Some e else None
  end.
Proof. induction h as [|x h IH]; simpl; [easy|]. now destruct (in_slot pos x). Qed.

Lemma counted_snoc pos r h e :
  counted pos r (h ++ [e]) = (counted pos r h + Nat.b2n (in_slot pos e && (e.2 =? r)%Z))%nat.
Proof. unfold counted. rewrite sum_list_with_app. simpl. lia. Qed.

Lemma counted_le pos r h : (counted pos r h <= length h)%nat.
Proof.
  unfold counted. induction h as [|e h IH]; simpl; [lia|].
  destruct (in_slot pos e && _); simpl; lia.
Qed.

Lemma counted_no_owner pos r h : owner pos h = None -> counted pos r h = 0%nat.
Proof.
  unfold counted. induction h as [|e h IH]; simpl; [easy|].
  destruct (in_slot pos e); [easy|]. intros H. now rewrite IH.
Qed.

Lemma counted_owner pos p r h : owner pos h = Some (p, r) -> (1 <= counted pos r h)%nat.
Proof.
  unfold counted. induction h as [|e h IH]; simpl; [easy|].
  destruct (in_slot pos e).
  - intros [= ->]. simpl. rewrite Z.eqb_refl. simpl. lia.
  - intros H. specialize (IH H). lia.
Qed.

Lemma bump_caller_counts pos h p r c :
  caller_slot p r = pos -> Z.of_nat (length h) < 2 ^ 64 - 1 ->
  slot_counts pos h c -> slot_counts pos (h ++ [(p, r)]) (bump_caller p r c).
Proof.
  intros Hp Hh. unfold slot_counts. rewrite owner_snoc.
  assert (Hi : in_slot pos (p, r) = true) by (unfold in_slot; simpl; now apply Nat.eqb_eq).
  rewrite Hi. destruct (owner pos h) as [[p0 r0]|] eqn:Ho.
  - intros (H1 & H2 & H3). rewrite counted_snoc, Hi. simpl.
    pose proof (counted_owner _ _ _ _ Ho). pose proof (counted_le pos r0 h).
    unfold bump_caller. destruct (Z.eqb_spec (cnt c) 0); [lia|].
    rewrite H2. destruct (Z.eqb_spec r0 r), (Z.eqb_spec r r0); simpl; try congruence.
    + rewrite u64_small by word_range. repeat split; try easy. lia.
    + repeat split; try easy. lia.
  - intros H0. rewrite counted_snoc, Hi, (counted_no_owner _ _ _ Ho). simpl.
    unfold bump_caller. rewrite H0. simpl. rewrite !Z.eqb_refl. simpl. easy.
Qed.

Lemma bump_counts h p r cs :
  length cs = 16%nat -> Z.of_nat (length h) < 2 ^ 64 - 1 ->
  (forall pos c, cs !! pos = Some c -> slot_counts pos h c) ->
  exists cs', bump p r cs = Some cs' /\ length cs' = 16%nat /\
    (forall pos c, cs' !! pos = Some c -> slot_counts pos (h ++ [(p, r)]) c).
Proof.
  intros L Hh H. unfold bump.
  destruct (lookup_lt_is_Some_2 cs (caller_slot p r)) as [c0 E];
    [rewrite L; apply caller_slot_lt|].
  rewrite E. eexists. split; [reflexivity|]. rewrite length_insert. split; [easy|].
  intros pos c Hc. destruct (decide (caller_slot p r = pos)) as [Hs|Hs].
  - subst pos. rewrite list_lookup_insert_eq in Hc by (apply lookup_lt_Some in E; easy).
    injection Hc as <-. apply bump_caller_counts; auto.
  - rewrite list_lookup_insert_ne in Hc by easy. specialize (H pos c Hc).
    assert (Hi : in_slot pos (p, r) = false)
      by (unfold in_slot; simpl; now apply Nat.eqb_neq).
    unfold slot_counts in *. rewrite owner_snoc, Hi.
    destruct (owner pos h) as [[p0 r0]|]; [|easy].
    rewrite counted_snoc, Hi, andb_false_l. simpl. now rewrite Nat.add_0_r.
Qed.

Lemma bumps_counts h2 : forall h1 cs,
  length cs = 16%nat -> Z.of_nat (length (h1 ++ h2)) < 2 ^ 64 ->
  (forall pos c, cs !! pos = Some c -> slot_counts pos h1 c) ->
  exists cs', bumps h2 cs = Some cs' /\ length cs' = 16%nat /\
    (forall pos c, cs' !! pos = Some c -> slot_counts pos (h1 ++ h2) c).
Proof.
  induction h2 as [|[p r] h2 IH]; intros h1 cs L Hh H; simpl.
  - exists cs. now rewrite app_nil_r.
  - rewrite length_app in Hh. simpl in Hh.
    destruct (bump_counts h1 p r cs L) as (cs1 & -> & L1 & H1); [lia|easy|].
    destruct (IH (h1 ++ [(p, r)]) cs1 L1) as (cs' & ? & ? & H2).
    + rewrite !length_app. simpl. lia.
    + easy.
    + exists cs'. rewrite <- app_assoc in H2. easy.
Qed.

Lemma zero_caller_typed : caller_typed zero_caller.
Proof. unfold caller_typed. simpl. repeat split; word_range. Qed.

Lemma zero_info_wf : cpu_wf zero_info.
Proof.
  constructor.
  - reflexivity.
  - apply Forall_replicate, zero_caller_typed.
  - simpl. word_range.
  - simpl. unfold milestone_cnt. lia.
  - vm_compute. discriminate.
  - intros _. reflexivity.
Qed.

Lemma stat_init_wf online : stat_wf (stat_init online).
Proof.
  split; simpl; [apply length_replicate|]. apply Forall_replicate, zero_info_wf.
Qed.

(** A watched CPU one call before its milestone, with one hot site. *)
Module StatDemo.
Definition hot_site : caller_info := CallerInfo Demo.site Demo.task 2500.
Definition callers : list caller_info :=
  <[caller_slot Demo.task Demo.site := hot_site]> (replicate 16 zero_caller).
Definition cpu0 : per_cpu_info := PerCpuInfo Demo.site 5000 30000 0 callers true.
Definition state : sstate := SState [cpu0] 1.

Lemma cpu0_wf : cpu_wf cpu0.
Proof.
  constructor.
  - reflexivity.
  - apply Forall_insert; [apply Forall_replicate, zero_caller_typed|].
    repeat split; vm_compute; congruence.
  - vm_compute. split; congruence.
  - simpl. unfold milestone_cnt. lia.
  - vm_compute. discriminate.
  - discriminate.
Qed.
End StatDemo.

(** ** Properties *)

(** [stat_func] is safe on every online CPU: it never leaves the arrays, keeps
    the invariants of the detector and of the code-block table, loses no
    registered site, and no slot ever counts more than 30001 calls, so the
    counters cannot overflow. *)
Theorem stat_func_safe (env : ExeEnv) (ok : ExeEnvOk env) cpu now p regs ts ss es :
  stat_wf ss -> exe_wf es -> 0 <= cpu < num_cpus ss -> is_s32 p -> wf_regs regs ->
  exists ss' es', stat_func cpu now p regs ts ss es = Some (ss', es') /\
    stat_wf ss' /\ exe_wf es' /\ table_le es es' /\
    Forall (fun i => Forall (fun c => 0 <= cnt c <= 30001) (caller i)) (info ss').
Proof.
  intros [L W] We Hc Hp Hr. unfold stat_func.
  destruct (lookup_lt_is_Some_2 (info ss) (Z.to_nat cpu)) as [i E]; [lia|]. rewrite E.
  pose proof (Forall_lookup_1 _ _ _ _ W E) as Wi.
  destruct (stat_cpu_ok now p (rget regs IP) ts i es Wi We Hp (rget_range IP _ Hr))
    as (i' & es' & -> & Wi' & We' & Le').
  assert (W' : Forall cpu_wf (<[Z.to_nat cpu := i']> (info ss))) by now apply Forall_insert.
  eexists _, es'. split; [reflexivity|]. simpl. split; [|split; [easy|split; [easy|]]].
  - split; simpl; [now rewrite length_insert|easy].
  - eapply Forall_impl; [exact W'|]. intros j Wj. apply Forall_lookup. intros k c Ek.
    pose proof (total_ge _ _ _ (cw_typed j Wj) Ek). pose proof (cw_total j Wj).
    pose proof (cw_calls j Wj). unfold milestone_cnt in *.
    apply (Forall_lookup_1 _ _ _ _ (cw_typed j Wj)) in Ek. destruct Ek as (_ & _ & ?). lia.
Qed.

Lemma stat_func_safe_witness :
  exists ss' es', @stat_func (Demo.env 0) 0 7000 Demo.task Demo.regs 6000
    StatDemo.state Demo.empty_table = Some (ss', es') /\ stat_wf ss' /\ exe_wf es'.
Proof.
  destruct (stat_func_safe (Demo.env 0) (Demo.env_ok 0) 0 7000 Demo.task Demo.regs 6000
    StatDemo.state Demo.empty_table) as (ss' & es' & H1 & H2 & H3 & _).
  - split; [reflexivity|]. repeat constructor; apply StatDemo.cpu0_wf.
  - apply exe_wfb_sound. vm_compute. reflexivity.
  - simpl. lia.
  - unfold is_s32, Demo.task. lia.
  - apply Demo.regs_wf.
  - exists ss', es'. now split.
Defined.

(** C32. Which sites get registered: a call hands to [exe_add], in slot order,
    exactly the slots that counted more than 900 short calls, and only at the
    30001st call of a watched window; the slots are then cleared (at most this
    very call is counted again) and the CPU is watched further exactly when the
    window took less than a second. Every other call registers nothing. *)
Theorem stat_cpu_registers (env : ExeEnv) (ok : ExeEnvOk env) now p ip ts i es :
  cpu_wf i -> exe_wf es -> is_s32 p -> is_u64 ip ->
  exists i' es', stat_cpu now p ip ts i es = Some (i', es') /\
    exe_adds (if (call_cnt i =? milestone_cnt) && interested i
              then hot_callers (caller i) else []) es = Some es' /\
    if call_cnt i =? milestone_cnt then
      call_cnt i' = 0 /\ total (caller i') <= 1 /\ milestone_ts i' = now /\
      interested i' = (u64 (now - milestone_ts i) <? milestone_duration_th)
    else call_cnt i' = call_cnt i + 1 /\ total (caller i) <= total (caller i') /\
      milestone_ts i' = milestone_ts i /\ interested i' = interested i.
Proof.
  intros W We Hp Hi. pose proof (cw_calls i W) as Hc. unfold milestone_cnt in Hc.
  destruct (stat_cpu_ok now p ip ts i es W We Hp Hi) as (i' & es' & E & W' & _).
  exists i', es'. split; [easy|]. unfold stat_cpu in E.
  rewrite u64_small in E by word_range.
  cbn [set_call_cnt call_cnt] in E. pose proof (cw_total i' W') as Ht.
  destruct (Z.eqb_spec (call_cnt i) milestone_cnt) as [Em|Em].
  - destruct (Z.ltb_spec milestone_cnt (call_cnt i + 1)); [|lia].
    destruct (milestone_ok now (set_call_cnt (call_cnt i + 1) i) es)
      as (es1 & Ha & Hm & _); try easy; try apply W.
    rewrite Hm in E. cbn [interested set_call_cnt caller] in Ha.
    unfold observe in E. simpl in E. simpl.
    destruct (u64 (now - milestone_ts i) <? milestone_duration_th).
    + destruct (if u64 _ <? syscall_short_th then _ else _) as [cs|]; [|easy].
      injection E as <- <-. simpl in *. split; [easy|]. repeat split; lia.
    + injection E as <- <-. simpl in *. split; [easy|]. repeat split; try lia.
  - destruct (Z.ltb_spec milestone_cnt (call_cnt i + 1)); [unfold milestone_cnt in *; lia|].
    simpl. unfold observe in E. simpl in E. destruct (interested i) eqn:Ei.
    + destruct (u64 _ <? syscall_short_th).
      * unfold bump in E. destruct (caller i !! caller_slot p (last_caller i)) as [c|] eqn:Ec;
          [|easy]. injection E as <- <-. simpl. split; [easy|].
        pose proof (Forall_lookup_1 _ _ _ _ (cw_typed i W) Ec) as Tc.
        pose proof (bump_caller_typed p (last_caller i) c Hp (cw_last i W) Tc) as [Tb _].
        assert (Hle : cnt c <= cnt (bump_caller p (last_caller i) c)).
        { pose proof (total_ge _ _ _ (cw_typed i W) Ec). pose proof (cw_total i W).
          unfold bump_caller. destruct Tc as (_ & _ & ?).
          assert (u64 (cnt c + 1) = cnt c + 1) by (apply u64_small; word_range).
          destruct (cnt c =? 0); simpl; [rewrite Z.eqb_refl|destruct (rip c =? _)];
            simpl; lia. }
        rewrite (total_insert _ _ c) by (try easy; apply Tc || apply Tb).
        repeat split; try easy; lia.
      * injection E as <- <-. simpl. repeat split; lia.
    + injection E as <- <-. simpl. repeat split; try easy; lia.
Qed.

Lemma stat_cpu_registers_witness :
  exists i' es', @stat_cpu (Demo.env 0) 7000 Demo.task Demo.site 6000 StatDemo.cpu0
      Demo.empty_table = Some (i', es') /\
    @exe_adds (Demo.env 0) [StatDemo.hot_site] Demo.empty_table = Some es'.
Proof.
  destruct (stat_cpu_registers (Demo.env 0) (Demo.env_ok 0) 7000 Demo.task Demo.site 6000
    StatDemo.cpu0 Demo.empty_table) as (i' & es' & H1 & H2 & _).
  - apply StatDemo.cpu0_wf.
  - apply exe_wfb_sound. vm_compute. reflexivity.
  - unfold is_s32, Demo.task. lia.
  - unfold is_u64, Demo.site. lia.
  - exists i', es'. split; [exact H1|]. exact H2.
Defined.

(** The slots implement a count per call site: after any sequence [h] of short
    system calls in a freshly cleared window, a slot belongs to the first
    (pid, rip) that hashed to it, and counts the calls of its slot that share
    that rip. *)
Theorem window_counts h cs :
  length cs = 16%nat -> Forall (fun c => cnt c = 0) cs -> Z.of_nat (length h) < 2 ^ 64 ->
  exists cs', bumps h cs = Some cs' /\ length cs' = 16%nat /\
    forall pos c, cs' !! pos = Some c -> slot_counts pos h c.
Proof.
  intros L Z0 Hh. apply (bumps_counts h [] cs L Hh).
  intros pos c E. exact (Forall_lookup_1 _ _ _ _ Z0 E).
Qed.

Lemma window_counts_witness :
  exists cs', bumps [(10, 0x1000); (26, 0x1000); (10, 0x2000)] (replicate 16 zero_caller)
    = Some cs' /\ length cs' = 16%nat.
Proof.
  destruct (window_counts [(10, 0x1000); (26, 0x1000); (10, 0x2000)]
    (replicate 16 zero_caller)) as (cs' & H1 & H2 & _).
  - reflexivity.
  - apply Forall_replicate. reflexivity.
  - simpl. lia.
  - exists cs'. now split.
Defined.
