(* ===== verification/Sysfs.v ===== *)
(** The control file of the kernel module, [zz_lkm/sys.c]: reading it dumps the
    used entries of the code-block table, writing it installs a piece of a code
    block. Also the binary layout of the two structures that cross it,
    [struct exe_info] and [struct recv_pkt] ([zz_lkm/exe.h], [zz_lkm/sys.c] and,
    on the daemon's side, [zz_daemon/exe.h]). *)
From Stdlib Require Import ZArith Lia Bool.
From stdpp Require Import base list gmap.
From S2P Require Import Prelude Regs Exe.

Local Open Scope Z_scope.

(** ** Binary layout (x86-64: little endian, int 4 bytes, long and pointers 8) *)

Definition sizeof_exe_info : nat := 56.

Definition encode_exe (e : exe_info) : list Z :=
  le_bytes 4 (status_code e) ++ le_bytes 4 (pid e) ++ le_bytes 8 (RIP e) ++
  le_bytes 8 (code_block e) ++ le_bytes 8 (jump_from e) ++ le_bytes 8 (tgt_addr e) ++
  le_bytes 8 (success_cnt e) ++ le_bytes 8 (fail_cnt e).

(** The field of [n] bytes at offset [o]. *)
Definition field (o n : nat) (bs : list Z) : Z := le_word (take n (drop o bs)).

Definition decode_exe (bs : list Z) : exe_info :=
  ExeInfo (s32 (field 0 4 bs)) (s32 (field 4 4 bs)) (field 8 8 bs) (field 16 8 bs)
          (field 24 8 bs) (field 32 8 bs) (field 40 8 bs) (field 48 8 bs).

Record recv_pkt : Type := RecvPkt {
  pkt_status_code : Z;  (* int *)
  pkt_pid : Z;          (* int *)
  pkt_RIP : Z;          (* unsigned long *)
  offset : Z            (* unsigned long *)
}.

Definition sizeof_recv_pkt : nat := 24.

Definition encode_pkt (k : recv_pkt) : list Z :=
  le_bytes 4 (pkt_status_code k) ++ le_bytes 4 (pkt_pid k) ++
  le_bytes 8 (pkt_RIP k) ++ le_bytes 8 (offset k).

Definition decode_pkt (bs : list Z) : recv_pkt :=
  RecvPkt (s32 (field 0 4 bs)) (s32 (field 4 4 bs)) (field 8 8 bs) (field 16 8 bs).

(** ** Operations *)

(** The bytes put into the page the kernel hands to the read handler, and the
    new value of [stat_flag]; the return value [len] is their number. *)
Definition sysfs_show (s : estate) (stat_flag : Z) : option (list Z * Z) :=
  match for_opt (fun i buf =>
          match exes s !! i with
          | None => None
          | Some e => Some (if negb (status_code e =? un_used) then buf ++ encode_exe e else buf)
          end) 0 (Z.to_nat max_exe) [] with
  | Some buf => Some (buf, s32 (stat_flag + 1))
  | None => None
  end.

(** [None]: fewer bytes than the header that is read unconditionally. The
    result is the new state and the return value. *)
Definition sysfs_store (buf : list Z) (s : estate) : option (estate * Z) :=
  let count := Z.of_nat (length buf) in
  if count <? Z.of_nat sizeof_recv_pkt then None
  else
    let head := decode_pkt buf in
    let payload := drop sizeof_recv_pkt buf in
    let p := get_exe (pkt_pid head) (pkt_RIP head) in
    match exes s !! p with
    | None => None
    | Some e =>
        if (RIP e =? pkt_RIP head) && (pid e =? pkt_pid head) then
          let s := set_kmem (mem_write (kmem s) (u64 (code_block e + offset head)) payload) s in
          let s := set_exes (<[p := set_status_code (pkt_status_code head) e]> (exes s)) s in
          Some (s, count)
        else Some (log (EvNotFound (pkt_pid head) (pkt_RIP head)) s, count)
    end.

(** ** Lemmas on the layout *)

Lemma length_encode_exe e : length (encode_exe e) = sizeof_exe_info.
Proof. unfold encode_exe. rewrite !length_app, !length_le_bytes. reflexivity. Qed.

Lemma length_encode_pkt k : length (encode_pkt k) = sizeof_recv_pkt.
Proof. unfold encode_pkt. rewrite !length_app, !length_le_bytes. reflexivity. Qed.

(** Skips the field in front of the one that is read. *)
Lemma field_app_r o n m bs1 bs2 :
  length bs1 = m -> (m <= o)%nat -> field o n (bs1 ++ bs2) = field (o - m) n bs2.
Proof. intros <- H. unfold field. now rewrite drop_app_ge. Qed.

Lemma field_here n bs1 bs2 : length bs1 = n -> field 0 n (bs1 ++ bs2) = le_word bs1.
Proof. intros <-. unfold field. simpl. now rewrite drop_0, take_app_length. Qed.

Lemma field_last n bs : length bs = n -> field 0 n bs = le_word bs.
Proof. intros <-. unfold field. now rewrite drop_0, firstn_all. Qed.

(** Reads the field of a concatenation of encoded scalars. *)
Ltac read_field :=
  repeat first [ rewrite (field_app_r _ _ 4) by (rewrite ?length_le_bytes; lia)
               | rewrite (field_app_r _ _ 8) by (rewrite ?length_le_bytes; lia) ];
  cbn [Nat.sub];
  first [ rewrite field_here by apply length_le_bytes
        | rewrite field_last by apply length_le_bytes ].

Lemma decode_encode_exe e rest :
  exe_typed e -> decode_exe (encode_exe e ++ rest) = e.
Proof.
  intros (T1 & T2 & T3 & T4 & T5 & T6 & T7 & T8). unfold decode_exe, encode_exe.
  rewrite <- !app_assoc. destruct e as [a b c d f g h i].
  cbn [status_code pid RIP code_block jump_from tgt_addr success_cnt fail_cnt] in *.
  f_equal; read_field; auto using le_word_4_s32, le_word_8.
Qed.

Definition pkt_typed (k : recv_pkt) : Prop :=
  is_s32 (pkt_status_code k) /\ is_s32 (pkt_pid k) /\ is_u64 (pkt_RIP k) /\ is_u64 (offset k).

Lemma decode_encode_pkt k rest :
  pkt_typed k -> decode_pkt (encode_pkt k ++ rest) = k.
Proof.
  intros (T1 & T2 & T3 & T4). unfold decode_pkt, encode_pkt.
  rewrite <- !app_assoc. destruct k as [a b c d].
  cbn [pkt_status_code pkt_pid pkt_RIP offset] in *.
  f_equal; read_field; auto using le_word_4_s32, le_word_8.
Qed.

(** ** Lemmas on the handlers *)

Definition used_entries (l : list exe_info) : list exe_info :=
  filter (fun e => used e = true) l.

Definition show_bytes (l : list exe_info) : list Z :=
  concat (map encode_exe (used_entries l)).

(** What a reader makes of [n] structures at the start of [bs]. *)
Fixpoint decode_exes (n : nat) (bs : list Z) : list exe_info :=
  match n with
  | O => []
  | S n => decode_exe bs :: decode_exes n (drop sizeof_exe_info bs)
  end.

Lemma used_entries_cons e l :
  used_entries (e :: l) = if used e then e :: used_entries l else used_entries l.
Proof.
  unfold used_entries. rewrite filter_cons.
  destruct (used e); [now rewrite decide_True|now rewrite decide_False].
Qed.

Lemma length_used_entries l : length (used_entries l) = count_used l.
Proof.
  induction l as [|e l IH]; [easy|]. rewrite used_entries_cons.
  unfold count_used in *. simpl. destruct (used e); simpl; lia.
Qed.

Lemma length_show_bytes l : length (show_bytes l) = (sizeof_exe_info * count_used l)%nat.
Proof.
  unfold show_bytes. rewrite <- length_used_entries.
  induction (used_entries l) as [|e u IH]; [easy|].
  cbn [map concat]. rewrite length_app, IH, length_encode_exe. simpl length. lia.
Qed.

Lemma decode_exes_encode l :
  Forall exe_typed l -> decode_exes (length l) (concat (map encode_exe l)) = l.
Proof.
  induction 1 as [|e l T _ IH]; [easy|]. cbn [length decode_exes map concat].
  rewrite decode_encode_exe by easy. f_equal.
  now rewrite drop_app_length' by (symmetry; apply length_encode_exe).
Qed.

Lemma show_loop s rest : forall pre buf,
  exes s = pre ++ rest ->
  for_opt (fun i buf =>
          match exes s !! i with
          | None => None
          | Some e => Some (if negb (status_code e =? un_used) then buf ++ encode_exe e else buf)
          end) (length pre) (length rest) buf = Some (buf ++ show_bytes rest).
Proof.
  induction rest as [|e rest IH]; intros pre buf H; cbn [length for_opt].
  - unfold show_bytes. simpl. now rewrite app_nil_r.
  - rewrite H at 1. rewrite lookup_app_r, Nat.sub_diag by lia. cbn [lookup list_lookup].
    specialize (IH (pre ++ [e])). rewrite length_app in IH. simpl length in IH.
    replace (length pre + 1)%nat with (S (length pre)) in IH by lia.
    rewrite IH by now rewrite <- app_assoc.
    unfold show_bytes. rewrite used_entries_cons. unfold used.
    destruct (negb (status_code e =? un_used)); [|easy].
    cbn [map concat]. now rewrite app_assoc.
Qed.

Lemma sysfs_show_spec s f :
  exe_wf s -> sysfs_show s f = Some (show_bytes (exes s), s32 (f + 1)).
Proof.
  intros W. unfold sysfs_show.
  pose proof (show_loop s (exes s) [] [] eq_refl) as H. rewrite (wf_len s W) in H.
  change (Z.to_nat max_exe) with 511%nat. cbn [length app] in H. now rewrite H.
Qed.

(** Split every 56 bytes, the dump is the list of the used entries. *)
Lemma dump_entries s f buf f' : exe_wf s -> sysfs_show s f = Some (buf, f') ->
  (length buf <= 3528)%nat /\ decode_exes (length buf / sizeof_exe_info) buf = used_entries (exes s).
Proof.
  intros W. rewrite sysfs_show_spec by easy. intros [= <- _].
  pose proof (wf_used s W). pose proof (wf_added s W). rewrite length_show_bytes. split; [unfold sizeof_exe_info; lia|].
  rewrite Nat.mul_comm, Nat.div_mul by easy. rewrite <- length_used_entries.
  apply decode_exes_encode, Forall_filter_weaken, (wf_typed s W).
Qed.

Lemma exe_wf_kmem s m : exe_wf s -> exe_wf (set_kmem m s).
Proof. intros []. now constructor. Qed.

Lemma find_used s p r e :
  find s p r = Some e ->
  exes s !! get_exe p r = Some e /\ used e = true /\ pid e = p /\ RIP e = r.
Proof.
  unfold find. destruct (exes s !! _) as [e'|]; [|easy].
  case_if; [|easy]. intros [= <-]. bool_prop. auto.
Qed.

(** A piece for a registered site. *)
Lemma sysfs_store_hit s k payload e :
  pkt_typed k -> find s (pkt_pid k) (pkt_RIP k) = Some e ->
  sysfs_store (encode_pkt k ++ payload) s =
  Some (set_exes (<[get_exe (pkt_pid k) (pkt_RIP k) := set_status_code (pkt_status_code k) e]>
                    (exes s))
          (set_kmem (mem_write (kmem s) (u64 (code_block e + offset k)) payload) s),
        24 + Z.of_nat (length payload)).
Proof.
  intros T F. destruct (find_used _ _ _ _ F) as (E & U & Hp & Hr).
  unfold sysfs_store. rewrite length_app, length_encode_pkt, decode_encode_pkt by easy.
  destruct (Z.ltb_spec (Z.of_nat (sizeof_recv_pkt + length payload)) (Z.of_nat sizeof_recv_pkt));
    [lia|].
  rewrite E, Hr, Hp, !Z.eqb_refl. cbn [andb].
  rewrite drop_app_length' by (symmetry; apply length_encode_pkt).
  do 2 f_equal. unfold sizeof_recv_pkt. lia.
Qed.

Lemma store_status_wf s p r st e m :
  exe_wf s -> find s p r = Some e -> is_s32 st -> st <> un_used ->
  let s' := set_exes (<[get_exe p r := set_status_code st e]> (exes s)) (set_kmem m s) in
  exe_wf s' /\ table_le s s' /\ find s' p r = Some (set_status_code st e) /\
  (forall p' r', (p', r') <> (p, r) -> find s' p' r' = find s p' r').
Proof.
  intros W F Hs Hn s'. destruct (find_used _ _ _ _ F) as (E & U & Hp & Hr).
  assert (H : with_exe (get_exe p r) (set_status_code st) (set_kmem m s) = Some s')
    by (unfold with_exe; simpl; now rewrite E).
  pose proof (wf_entry_typed s _ e W E) as T.
  pose proof (lookup_lt_Some _ _ _ E) as Hlt.
  apply with_exe_wf with (e := e) in H; try easy;
    [|now apply exe_wf_kmem|now apply used_not_un_used
     |unfold exe_typed in *; simpl; intuition auto].
  destruct H as [W' L']. split; [easy|]. split; [easy|]. split.
  - unfold find, s'. simpl. rewrite list_lookup_insert_eq by easy. simpl.
    rewrite Hp, Hr, !Z.eqb_refl, used_not_un_used by easy. easy.
  - intros p' r' Hne. unfold find, s'. simpl.
    destruct (decide (get_exe p r = get_exe p' r')) as [Heq|Hd].
    + rewrite <- Heq, list_lookup_insert_eq, E by easy. simpl. rewrite Hp, Hr.
      destruct (Z.eqb_spec p p'), (Z.eqb_spec r r'); try congruence;
        now rewrite !andb_false_r.
    + now rewrite list_lookup_insert_ne.
Qed.

(** A packet for a registered site, with entry [e], whose piece lies inside the 160
    pages of the block. [sysfs_store] does not check the last part. *)
Record inside_packet (s : estate) (k : recv_pkt) (payload : list Z) (e : exe_info) : Prop := {
  ip_typed : pkt_typed k;
  ip_site : find s (pkt_pid k) (pkt_RIP k) = Some e;
  ip_fit : code_block e + 4096 * num_pg <= 2 ^ 64;
  ip_inside : offset k + Z.of_nat (length payload) <= 4096 * num_pg
}.

(** A packet like those of the daemon: inside, and the site stays registered. *)
Definition proper_packet s k payload e : Prop :=
  inside_packet s k payload e /\ pkt_status_code k <> un_used.

(** [s'] is [s] after the piece [payload] at [off] of the block of [e], the entry
    of the site ([p], [r]), whose status becomes [st]. *)
Definition installs (s s' : estate) (p r : Z) (e : exe_info) (st off : Z) (payload : list Z)
  : Prop :=
  exe_wf s' /\ table_le s s' /\ find s' p r = Some (set_status_code st e) /\
  (forall p' r', (p', r') <> (p, r) -> find s' p' r' = find s p' r') /\
  (forall i b, payload !! i = Some b -> kmem s' !! (code_block e + off + Z.of_nat i) = Some b) /\
  (forall x, x < code_block e + off \/ code_block e + off + Z.of_nat (length payload) <= x ->
     kmem s' !! x = kmem s !! x) /\
  elog s' = elog s.

Lemma sysfs_store_piece s k payload e :
  exe_wf s -> pkt_typed k -> find s (pkt_pid k) (pkt_RIP k) = Some e ->
  pkt_status_code k <> un_used -> code_block e + 4096 * num_pg <= 2 ^ 64 ->
  offset k + Z.of_nat (length payload) <= 4096 * num_pg ->
  exists s', sysfs_store (encode_pkt k ++ payload) s =
               Some (s', 24 + Z.of_nat (length payload)) /\
    installs s s' (pkt_pid k) (pkt_RIP k) e (pkt_status_code k) (offset k) payload.
Proof.
  intros W T F Hn Hb Ho. destruct (find_used _ _ _ _ F) as (E & _ & _ & _).
  pose proof (wf_entry_typed s _ e W E) as (_ & _ & _ & Tc & _).
  destruct T as (T1 & T2 & T3 & T4). unfold is_u64, num_pg in *.
  rewrite sysfs_store_hit with (e := e) by easy. eexists. split; [reflexivity|].
  destruct (store_status_wf s (pkt_pid k) (pkt_RIP k) (pkt_status_code k) e
    (mem_write (kmem s) (u64 (code_block e + offset k)) payload) W F T1 Hn)
    as (W' & L' & F' & O').
  unfold installs. do 4 (split; [easy|]). simpl. split; [|split; [|easy]];
    destruct payload as [|b0 payload]; try easy; simpl length in *;
    rewrite u64_small by word_range.
  - intros i b Hi. apply mem_write_inside; simpl length; try easy; lia.
  - intros x Hx. apply mem_write_outside; simpl length; try easy; lia.
Qed.

(** Any status keeps the table in order, [un_used] too; but that drops the site. *)
Lemma count_used_drop l : forall i e st, l !! i = Some e ->
  (count_used (<[i := set_status_code st e]> l) <= count_used l + if used e then 0 else 1)%nat.
Proof.
  induction l as [|e0 l IH]; intros [|i] e st; cbn [lookup list_lookup]; try easy.
  - intros [= ->]. cbn [insert list_insert]. unfold count_used. simpl. destruct (used (set_status_code st e)), (used e); simpl; lia.
  - intros E. specialize (IH i e st E).
    change (<[S i := set_status_code st e]> (e0 :: l)) with (e0 :: <[i := set_status_code st e]> l).
    unfold count_used in *. cbn [sum_list_with]. lia.
Qed.

Lemma sysfs_store_wf s k payload e s' n :
  exe_wf s -> pkt_typed k -> find s (pkt_pid k) (pkt_RIP k) = Some e ->
  sysfs_store (encode_pkt k ++ payload) s = Some (s', n) -> exe_wf s'.
Proof.
  intros W T F. destruct (find_used _ _ _ _ F) as (E & U & Hp & Hr).
  rewrite (sysfs_store_hit s k payload e T F). intros [= <- _].
  pose proof (wf_entry_typed s _ e W E) as Te.
  constructor; cbn [exes set_exes set_kmem added].
  - rewrite length_insert. apply W.
  - apply (wf_added s W).
  - pose proof (count_used_drop _ _ _ (pkt_status_code k) E) as C. rewrite U in C.
    pose proof (wf_used s W). lia.
  - intros i e1 H U1. apply list_lookup_insert_Some in H as [(<- & <- & _)|[_ H]].
    + simpl. now rewrite Hp, Hr.
    + now apply (wf_slot s W).
  - apply Forall_insert; [apply (wf_typed s W)|]. destruct T as (T & _).
    unfold exe_typed in *. simpl. intuition auto.
Qed.

(** A packet whose key is not in its slot of the table is only logged. *)
Definition foreign (s : estate) (k : recv_pkt) : Prop :=
  exists e, exes s !! get_exe (pkt_pid k) (pkt_RIP k) = Some e /\
            (RIP e <> pkt_RIP k \/ pid e <> pkt_pid k).

Lemma sysfs_store_foreign s k payload :
  pkt_typed k -> foreign s k ->
  sysfs_store (encode_pkt k ++ payload) s =
  Some (log (EvNotFound (pkt_pid k) (pkt_RIP k)) s, 24 + Z.of_nat (length payload)).
Proof.
  intros T (e & E & N). unfold sysfs_store.
  rewrite length_app, length_encode_pkt, decode_encode_pkt by easy.
  destruct (Z.ltb_spec (Z.of_nat (sizeof_recv_pkt + length payload)) (Z.of_nat sizeof_recv_pkt));
    [lia|].
  rewrite E. assert (B : (RIP e =? pkt_RIP k) && (pid e =? pkt_pid k) = false)
    by (destruct N as [N|N]; apply Z.eqb_neq in N; rewrite N; [easy|apply andb_false_r]).
  rewrite B. do 2 f_equal. unfold sizeof_recv_pkt. lia.
Qed.

(** ** Properties *)

(** C31. Reading the control file: the dump never exceeds the 4096-byte page it is
    written to (at most 63 entries of 56 bytes), and a reader that splits it
    into structures of 56 bytes gets back exactly the used entries of the
    table, in table order. *)
Theorem sysfs_show_roundtrip s flag :
  exe_wf s ->
  exists buf, sysfs_show s flag = Some (buf, s32 (flag + 1)) /\
    (length buf <= 3528)%nat /\
    decode_exes (length buf / sizeof_exe_info) buf = used_entries (exes s).
Proof.
  intros W. exists (show_bytes (exes s)). pose proof (sysfs_show_spec s flag W) as E.
  split; [exact E|]. exact (dump_entries s flag _ _ W E).
Qed.

Lemma sysfs_show_roundtrip_witness :
  exists buf, sysfs_show (Demo.table (Demo.hot 3 1)) 1 = Some (buf, 2) /\
    decode_exes (length buf / sizeof_exe_info) buf = [Demo.hot 3 1].
Proof.
  destruct (sysfs_show_roundtrip (Demo.table (Demo.hot 3 1)) 1) as (buf & H1 & _ & H2).
  - apply exe_wfb_sound. vm_compute. reflexivity.
  - exists buf. split; [exact H1|]. exact H2.
Defined.

(** Writing the control file: a packet for a registered site whose piece lies
    inside the 160 pages of its block is accepted whole, puts exactly its
    payload at the requested offset of that block and changes no other byte,
    gives that site the requested status and leaves every other site alone. *)
Theorem sysfs_store_installs s k payload e :
  exe_wf s -> pkt_typed k -> find s (pkt_pid k) (pkt_RIP k) = Some e ->
  pkt_status_code k <> un_used -> code_block e + 4096 * num_pg <= 2 ^ 64 ->
  offset k + Z.of_nat (length payload) <= 4096 * num_pg ->
  exists s', sysfs_store (encode_pkt k ++ payload) s =
               Some (s', 24 + Z.of_nat (length payload)) /\
    exe_wf s' /\ table_le s s' /\
    find s' (pkt_pid k) (pkt_RIP k) = Some (set_status_code (pkt_status_code k) e) /\
    (forall p' r', (p', r') <> (pkt_pid k, pkt_RIP k) -> find s' p' r' = find s p' r') /\
    (forall i b, payload !! i = Some b ->
       kmem s' !! (code_block e + offset k + Z.of_nat i) = Some b) /\
    (forall x, x < code_block e + offset k \/
               code_block e + offset k + Z.of_nat (length payload) <= x ->
       kmem s' !! x = kmem s !! x).
Proof.
  intros W T F Hn Hb Ho.
  destruct (sysfs_store_piece s k payload e W T F Hn Hb Ho) as (s' & H1 & H2).
  exists s'. unfold installs in H2. intuition.
Qed.

Lemma sysfs_store_installs_witness :
  exists s', sysfs_store (encode_pkt (RecvPkt 0 Demo.task Demo.site 8) ++ [0x90; 0xc3])
      (Demo.table (set_status_code un_init (Demo.hot 0 0))) = Some (s', 26) /\
    find s' Demo.task Demo.site = Some (Demo.hot 0 0) /\
    kmem s' !! (Demo.block + 9) = Some 0xc3.
Proof.
  destruct (sysfs_store_installs (Demo.table (set_status_code un_init (Demo.hot 0 0)))
    (RecvPkt 0 Demo.task Demo.site 8) [0x90; 0xc3] (set_status_code un_init (Demo.hot 0 0)))
    as (s' & H1 & _ & _ & H2 & _ & H3 & _).
  - apply exe_wfb_sound. vm_compute. reflexivity.
  - repeat split; vm_compute; congruence.
  - vm_compute. reflexivity.
  - discriminate.
  - vm_compute. congruence.
  - vm_compute. congruence.
  - exists s'. split; [exact H1|]. split; [exact H2|]. exact (H3 1%nat 0xc3 eq_refl).
Defined.

(** A packet of status [un_used] is accepted like the others: the site is dropped,
    although its key has been counted against the quota. *)
Theorem unused_packet_drops_site s k payload e :
  exe_wf s -> pkt_typed k -> find s (pkt_pid k) (pkt_RIP k) = Some e ->
  pkt_status_code k = un_used ->
  exists s', sysfs_store (encode_pkt k ++ payload) s = Some (s', 24 + Z.of_nat (length payload)) /\
    find s' (pkt_pid k) (pkt_RIP k) = None /\ added s' = added s.
Proof.
  intros W T F Hs. destruct (find_used _ _ _ _ F) as (E & _).
  rewrite sysfs_store_hit with (e := e) by easy. eexists. split; [reflexivity|]. split; [|reflexivity].
  unfold find. cbn [exes set_exes]. rewrite list_lookup_insert_eq by (now apply lookup_lt_Some in E).
  unfold used. cbn [status_code set_status_code]. now rewrite Hs.
Qed.

Lemma unused_packet_drops_site_witness :
  exists s', sysfs_store (encode_pkt (RecvPkt un_used Demo.task Demo.site 0) ++ [0x90])
      (Demo.table (Demo.hot 0 0)) = Some (s', 25) /\
    find s' Demo.task Demo.site = None /\ added s' = added (Demo.table (Demo.hot 0 0)).
Proof.
  apply (unused_packet_drops_site (Demo.table (Demo.hot 0 0))
    (RecvPkt un_used Demo.task Demo.site 0) [0x90] (Demo.hot 0 0)).
  - apply exe_wfb_sound. vm_compute. reflexivity.
  - repeat split; vm_compute; congruence.
  - vm_compute. reflexivity.
  - reflexivity.
Defined.

(** C35. The offset of a packet is not checked against the size of the block: for a
    registered site, a one-byte packet with a larger offset is accepted like
    any other and writes a byte outside the 160 pages that were allocated. *)
Theorem sysfs_store_unchecked_offset s k b e :
  exe_wf s -> pkt_typed k -> find s (pkt_pid k) (pkt_RIP k) = Some e ->
  4096 * num_pg <= offset k -> code_block e + offset k < 2 ^ 64 ->
  exists s', sysfs_store (encode_pkt k ++ [b]) s = Some (s', 25) /\
    kmem s' !! (code_block e + offset k) = Some b.
Proof.
  intros W T F Ho Hb. destruct (find_used _ _ _ _ F) as (E & _ & _ & _).
  pose proof (wf_entry_typed s _ e W E) as (_ & _ & _ & Tc & _).
  destruct T as (T1 & T2 & T3 & T4). unfold is_u64, num_pg in *.
  rewrite sysfs_store_hit with (e := e) by easy. eexists. split; [reflexivity|].
  simpl. rewrite (u64_small (code_block e + offset k)) by word_range.
  rewrite u64_small by word_range. apply lookup_insert_eq.
Qed.

Lemma sysfs_store_unchecked_offset_witness :
  exists s', sysfs_store (encode_pkt (RecvPkt 0 Demo.task Demo.site 655360) ++ [0xcc])
      (Demo.table (Demo.hot 0 0)) = Some (s', 25) /\
    kmem s' !! (Demo.block + 655360) = Some 0xcc.
Proof.
  apply (sysfs_store_unchecked_offset (Demo.table (Demo.hot 0 0))
    (RecvPkt 0 Demo.task Demo.site 655360) 0xcc (Demo.hot 0 0)).
  - apply exe_wfb_sound. vm_compute. reflexivity.
  - repeat split; vm_compute; congruence.
  - vm_compute. reflexivity.
  - vm_compute. congruence.
  - vm_compute. reflexivity.
Defined.
