(* ===== verification/Daemon.v ===== *)
(** The user-space daemon, [zz_daemon/main.c]: it polls the control file of the
    kernel module, has the code blocks of the reported sites (re)compiled and
    writes them back in packets of at most 4000 bytes.

    The daemon is modelled against an interface of the control file, so that
    its theorems hold for any kernel side; [Boost.v] puts the module behind it. *)
From Stdlib Require Import ZArith Lia Bool String HexadecimalString NArith.
From stdpp Require Import base list gmap pretty strings.
From S2P Require Import Prelude Regs Exe Sysfs.

Local Open Scope Z_scope.

(** ** Outcomes of library and system calls *)

(** A call of the daemon returns, ends the process, or is undefined in C (a
    NULL stream, an index outside an array). *)
Inductive outcome (A : Type) : Type :=
| Ret (a : A)
| Exit (code : Z)
| Crash.
Arguments Ret {A} a.
Arguments Exit {A} code.
Arguments Crash {A}.

Definition obind {A B : Type} (m : outcome A) (k : A -> outcome B) : outcome B :=
  match m with
  | Ret a => k a
  | Exit c => Exit c
  | Crash => Crash
  end.

Notation "'let!' x := m 'in' k" := (obind m (fun x => k))
  (at level 10, x pattern, m at level 100, k at level 200) : ub_scope.
Local Open Scope ub_scope.

(** ** The kernel side, as the daemon sees it *)

(** Opening the control file may fail ([None]); otherwise a read gives its
    content, a write hands one buffer to the kernel. *)
Class SysFile (K : Type) := {
  sys_read : K -> option (list Z * K);
  sys_write : list Z -> K -> option K
}.

(** The files the shell commands leave, given all commands so far (latest
    first). *)
Class Shell := { read_file : list string -> string -> option (list Z) }.

(** ** State *)

Record dstate (K : Type) : Type := DState {
  records : list Z;             (* unsigned long records[1024] *)
  cnts : Z;                     (* int *)
  cmd_hist : list string;       (* the cmd_cnt strings of char* cmd_hist[1000] *)
  commands : list string;       (* commands given to system(), latest first *)
  kernel : K
}.
Arguments DState {K} _ _ _ _ _.
Arguments records {K} _.
Arguments cnts {K} _.
Arguments cmd_hist {K} _.
Arguments commands {K} _.
Arguments kernel {K} _.

Definition set_kernel {K} (k : K) (d : dstate K) : dstate K :=
  DState (records d) (cnts d) (cmd_hist d) (commands d) k.

Definition system {K} (cmd : string) (d : dstate K) : dstate K :=
  DState (records d) (cnts d) (cmd_hist d) (cmd :: commands d) (kernel d).

Definition targets : list Z :=
  [0x7ffff7fa1abb; 0x7ffff7de6487; 0x7ffff7df274e; 0x7ffff7de4fae; 0x7ffff7fa1437;
   0x7ffff7fa76ca; 0x7ffff7ed116a; 0x7ffff7e5232f].

Definition cmd_hist_size : Z := 1000.
Definition max_pay : Z := 4000.
Definition i_buf_size : Z := 4096 * 256.

(** ** Formatting *)

(** [%p] of glibc. *)
Definition fmt_p (z : Z) : string :=
  (if (z =? 0)%Z then "(nil)"
   else "0x" +:+ NilZero.string_of_uint (N.to_hex_uint (Z.to_N z)))%string.
Definition fmt_d (z : Z) : string := pretty z.

Definition init_cmd (rip : Z) : string :=
  ("mkdir -p ./" +:+ fmt_p rip +:+ " && cp -rf ./asm/ ./" +:+ fmt_p rip +:+ "/")%string.
Definition callee_cmd (tgt rip : Z) : string :=
  ("echo " +:+ fmt_p tgt +:+ " >> ./" +:+ fmt_p rip +:+ "/asm/callee_table.txt")%string.
Definition ij_cmd (from tgt rip : Z) : string :=
  ("echo '" +:+ fmt_p from +:+ " " +:+ fmt_p tgt +:+ "' >> ./" +:+ fmt_p rip
   +:+ "/asm/ij_table.txt")%string.
Definition compile_cmd (pid entry : Z) : string :=
  ("cd ./" +:+ fmt_p entry +:+ "/ && python3 ../../zz_disassem/disassem.py " +:+ fmt_d pid
   +:+ " " +:+ fmt_p entry)%string.
Definition jit_path (rip : Z) : string := ("./" +:+ fmt_p rip +:+ "/asm/jit.bin")%string.

(** ** Operations *)

Fixpoint scan (ip : Z) (l : list Z) : bool :=
  match l with
  | [] => false
  | x :: l => if ip =? x then true else scan ip l
  end.

Definition in_targets (ip : Z) : bool := scan ip targets.

Section Daemon.
Context {K : Type} {file : SysFile K} {shell : Shell}.

Definition in_records (ip : Z) (d : dstate K) : bool := scan ip (records d).

Fixpoint cmd_seen (cmd : string) (l : list string) : bool :=
  match l with
  | [] => false
  | c :: l => if String.eqb cmd c then true else cmd_seen cmd l
  end.

(** The answer, and the history with a new command appended. *)
Definition cmd_history (cmd : string) (d : dstate K) : outcome (bool * dstate K) :=
  if cmd_seen cmd (cmd_hist d) then Ret (true, d)
  else if Z.of_nat (length (cmd_hist d)) <? cmd_hist_size then
    Ret (false, DState (records d) (cnts d) (cmd_hist d ++ [cmd]) (commands d) (kernel d))
  else Crash.

Definition compile (pid entry : Z) (d : dstate K) : dstate K :=
  system (compile_cmd pid entry) d.

Definition read_sys (d : dstate K) : outcome (list Z * dstate K) :=
  match sys_read (kernel d) with
  | None => Exit (-1)
  | Some (buf, k) => Ret (take 4096 buf, set_kernel k d)
  end.

(** The locals of the loop of [write_sys]: [rest_len], [pkt.offset], and the
    kernel behind the file. *)
Record wstate : Type := WState { rest_len : Z; pkt_offset : Z; w_kernel : K }.

(** Lines 86-97. *)
Definition write_body (pid RIP : Z) (i_buf : list Z) (w : wstate) : iter wstate :=
  if 0 <? rest_len w then
    let status := if rest_len w <=? max_pay then 0 else -1 in
    let to_copy_len := if rest_len w <=? max_pay then rest_len w else max_pay in
    let o_buf := encode_pkt (RecvPkt status pid RIP (pkt_offset w)) ++
                 take (Z.to_nat to_copy_len) (drop (Z.to_nat (pkt_offset w)) i_buf) in
    match sys_write o_buf (w_kernel w) with
    | None => Undef
    | Some k => Continue (WState (rest_len w - to_copy_len) (pkt_offset w + to_copy_len) k)
    end
  else Break w.

Definition write_sys (pid RIP : Z) (d : dstate K) : outcome (dstate K) :=
  match read_file (commands d) (jit_path RIP) with
  | None => Crash
  | Some content =>
      let i_buf := take (Z.to_nat i_buf_size) content in
      match while (S (length i_buf)) (write_body pid RIP i_buf)
              (WState (Z.of_nat (length i_buf)) 0 (kernel d)) with
      | Done w => Ret (set_kernel (w_kernel w) d)
      | _ => Crash
      end
  end.

(** The command for a status, lines 120-135; [None] is [continue]. *)
Definition status_cmd (e : exe_info) : option string :=
  if status_code e =? 0 then None
  else if status_code e =? un_init then Some (init_cmd (RIP e))
  else if status_code e =? call_miss then Some (callee_cmd (tgt_addr e) (RIP e))
  else if status_code e =? ij_miss then Some (ij_cmd (jump_from e) (tgt_addr e) (RIP e))
  else None.

(** Lines 110-145. *)
Definition check_entry (e : exe_info) (d : dstate K) : outcome (dstate K) :=
  if negb (in_targets (RIP e)) then
    if negb (in_records (RIP e) d) then
      if (0 <=? cnts d) && (cnts d <? Z.of_nat (length (records d))) then
        Ret (DState (<[Z.to_nat (cnts d) := RIP e]> (records d)) (s32 (cnts d + 1))
               (cmd_hist d) (commands d) (kernel d))
      else Crash
    else Ret d
  else
    match status_cmd e with
    | None => Ret d
    | Some cmd =>
        let! (seen, d) := cmd_history cmd d in
        let d := if seen then d else compile (pid e) (RIP e) (system cmd d) in
        write_sys (pid e) (RIP e) d
    end.

Fixpoint check_entries (l : list exe_info) (d : dstate K) : outcome (dstate K) :=
  match l with
  | [] => Ret d
  | e :: l => let! d := check_entry e d in check_entries l d
  end.

Definition check (d : dstate K) : outcome (dstate K) :=
  let! (buffer, d) := read_sys d in
  check_entries (decode_exes (length buffer / sizeof_exe_info) buffer) d.

Definition daemon_init (k : K) : dstate K := DState (replicate 1024 0) 0 [] [] k.

(** [main], for [n] rounds of its endless loop. *)
Fixpoint rounds (n : nat) (d : dstate K) : outcome (dstate K) :=
  match n with
  | O => Ret d
  | S n => let! d := check d in rounds n d
  end.

Definition main (n : nat) (k : K) : outcome (dstate K) :=
  rounds n (system "rm -rf 0x*" (daemon_init k)).
End Daemon.

(** ** The packets of a code block: a reference definition *)

Definition n_packets (len : nat) : nat := (len + 3999) / 4000.

Definition packet_head (pid RIP : Z) (len i : nat) : recv_pkt :=
  RecvPkt (if (S i =? n_packets len)%nat then 0 else -1) pid RIP (4000 * Z.of_nat i).

Definition packet_data (content : list Z) (i : nat) : list Z :=
  take 4000 (drop (4000 * i) content).

Definition packets (pid RIP : Z) (content : list Z) : list (list Z) :=
  map (fun i => encode_pkt (packet_head pid RIP (length content) i) ++ packet_data content i)
      (seq 0 (n_packets (length content))).

Fixpoint writes {K : Type} {file : SysFile K} (l : list (list Z)) (k : K) : option K :=
  match l with
  | [] => Some k
  | b :: l => match sys_write b k with Some k => writes l k | None => None end
  end.

Lemma n_packets_bounds len :
  (4000 * n_packets len < len + 4000)%nat /\ (len <= 4000 * n_packets len)%nat.
Proof.
  unfold n_packets. pose proof (Nat.div_mod_eq (len + 3999) 4000).
  pose proof (Nat.mod_upper_bound (len + 3999) 4000). lia.
Qed.

(** The pieces make up the file. *)
Lemma packet_data_concat content i m :
  (i + m = n_packets (length content))%nat ->
  concat (map (packet_data content) (seq i m)) = drop (4000 * i) content.
Proof.
  revert i. induction m as [|m IH]; intros i H; cbn [seq map concat].
  - symmetry. apply drop_ge. pose proof (n_packets_bounds (length content)). lia.
  - rewrite IH by lia. unfold packet_data.
    replace (4000 * S i)%nat with (4000 * i + 4000)%nat by lia.
    rewrite <- drop_drop. apply take_drop.
Qed.

Section WriteSys.
Context {K : Type} {file : SysFile K}.
Variables (pid RIP : Z) (content : list Z).
Let len : nat := length content.

Lemma write_body_packet i (k : K) :
  (i < n_packets len)%nat ->
  write_body pid RIP content (WState (Z.of_nat len - 4000 * Z.of_nat i) (4000 * Z.of_nat i) k) =
  match sys_write (encode_pkt (packet_head pid RIP len i) ++ packet_data content i) k with
  | None => Undef
  | Some k' =>
      if (S i =? n_packets len)%nat then Continue (WState 0 (Z.of_nat len) k')
      else Continue (WState (Z.of_nat len - 4000 * Z.of_nat (S i))
                       (4000 * Z.of_nat (S i)) k')
  end.
Proof.
  intros Hi. pose proof (n_packets_bounds len) as [B1 B2].
  unfold write_body, packet_head, packet_data, max_pay. cbn [rest_len pkt_offset w_kernel].
  destruct (Z.ltb_spec 0 (Z.of_nat len - 4000 * Z.of_nat i)) as [_|]; [|lia].
  replace (Z.to_nat (4000 * Z.of_nat i)) with (4000 * i)%nat by lia.
  destruct (Nat.eqb_spec (S i) (n_packets len)) as [El|Nl];
    destruct (Z.leb_spec (Z.of_nat len - 4000 * Z.of_nat i) 4000) as [Hle|Hgt]; try lia.
  - replace (take (Z.to_nat (Z.of_nat len - 4000 * Z.of_nat i)) (drop (4000 * i) content))
      with (take 4000 (drop (4000 * i) content))
      by (rewrite !take_ge; [easy|..]; rewrite length_drop; fold len; lia).
    destruct (sys_write _ k); [|easy]. do 2 f_equal; lia.
  - change (Z.to_nat 4000) with 4000%nat.
    destruct (sys_write _ k); [|easy]. do 2 f_equal; lia.
Qed.

Lemma write_loop m : forall i (k : K) fuel,
  (i + S m = n_packets len)%nat -> (S m < fuel)%nat ->
  while fuel (write_body pid RIP content)
    (WState (Z.of_nat len - 4000 * Z.of_nat i) (4000 * Z.of_nat i) k) =
  match writes (map (fun i => encode_pkt (packet_head pid RIP len i) ++
                              packet_data content i) (seq i (S m))) k with
  | Some k' => Done (WState 0 (Z.of_nat len) k')
  | None => Stuck
  end.
Proof.
  induction m as [|m IH]; intros i k fuel Hi Hf;
    (destruct fuel as [|fuel]; [lia|]); cbn [while seq map writes];
    rewrite write_body_packet by lia; destruct (sys_write _ k) as [k'|]; try easy.
  - rewrite (proj2 (Nat.eqb_eq _ _)) by lia. destruct fuel as [|fuel]; [lia|]. reflexivity.
  - rewrite (proj2 (Nat.eqb_neq _ _)) by lia. rewrite IH by lia. reflexivity.
Qed.

Lemma write_loop_all (k : K) :
  while (S len) (write_body pid RIP content) (WState (Z.of_nat len) 0 k) =
  match writes (packets pid RIP content) k with
  | Some k' => Done (WState 0 (Z.of_nat len) k')
  | None => Stuck
  end.
Proof.
  pose proof (n_packets_bounds len) as [B1 B2]. unfold packets. fold len.
  destruct (n_packets len) as [|m] eqn:En.
  - replace len with 0%nat by lia. reflexivity.
  - pose proof (write_loop m 0 k (S len)) as H. rewrite En in H.
    replace (Z.of_nat len - 4000 * Z.of_nat 0) with (Z.of_nat len) in H by lia.
    change (4000 * Z.of_nat 0) with 0 in H. apply H; lia.
Qed.
End WriteSys.

Lemma write_sys_spec {K : Type} {file : SysFile K} {shell : Shell} pid RIP (d : dstate K) content :
  read_file (commands d) (jit_path RIP) = Some content ->
  Z.of_nat (length content) <= i_buf_size ->
  write_sys pid RIP d =
  match writes (packets pid RIP content) (kernel d) with
  | Some k => Ret (set_kernel k d)
  | None => Crash
  end.
Proof.
  intros H L. unfold write_sys. rewrite H.
  rewrite take_ge by lia. rewrite write_loop_all.
  now destruct (writes _ _).
Qed.

(** ** Lemmas on the bookkeeping *)

Lemma scan_In ip l : scan ip l = true <-> In ip l.
Proof.
  induction l as [|x l IH]; simpl; [easy|].
  destruct (Z.eqb_spec ip x); [intuition|]. rewrite IH. intuition congruence.
Qed.

Lemma cmd_seen_In cmd l : cmd_seen cmd l = true <-> In cmd l.
Proof.
  induction l as [|x l IH]; simpl; [easy|].
  destruct (String.eqb_spec cmd x); [intuition|]. rewrite IH. intuition congruence.
Qed.

(** [commands] is the initial clean-up followed, for each command of the
    history, by that command and one compilation. *)
Inductive built : list string -> list string -> Prop :=
| built_init : built [] ["rm -rf 0x*"%string]
| built_cmd hist cmds cmd p r :
    built hist cmds -> built (hist ++ [cmd]) (compile_cmd p r :: cmd :: cmds).

Definition daemon_inv {K : Type} (d : dstate K) : Prop :=
  NoDup (cmd_hist d) /\ built (cmd_hist d) (commands d) /\
  (length (cmd_hist d) <= 1000)%nat /\ length (records d) = 1024%nat /\ 0 <= cnts d <= 1024.

Section DaemonFacts.
Context {K : Type} {file : SysFile K} {shell : Shell}.
Implicit Types d : dstate K.

Lemma write_sys_bookkeeping pid RIP d d' :
  write_sys pid RIP d = Ret d' -> exists k, d' = set_kernel k d.
Proof.
  unfold write_sys. destruct (read_file _ _); [|easy].
  destruct (while _ _ _); try easy. intros [= <-]. eauto.
Qed.

Lemma check_entry_inv e d d' :
  daemon_inv d -> check_entry e d = Ret d' -> daemon_inv d'.
Proof.
  intros (N & B & L & R & C). unfold check_entry.
  destruct (negb (in_targets (RIP e))).
  - destruct (negb (in_records (RIP e) d)); [|intros [= <-]; now repeat split].
    destruct (Z.leb_spec 0 (cnts d)), (Z.ltb_spec (cnts d) (Z.of_nat (length (records d))));
      try easy. intros [= <-]. unfold daemon_inv. simpl. rewrite length_insert.
    rewrite s32_small by word_range. repeat split; try easy; lia.
  - destruct (status_cmd e) as [cmd|]; [|intros [= <-]; now repeat split].
    unfold cmd_history. destruct (cmd_seen cmd (cmd_hist d)) eqn:S; simpl.
    + intros (k & ->)%write_sys_bookkeeping. now repeat split.
    + destruct (Z.ltb_spec (Z.of_nat (length (cmd_hist d))) cmd_hist_size); [|easy]. simpl.
      intros (k & ->)%write_sys_bookkeeping. unfold daemon_inv. simpl.
      split; [|split; [now constructor|split; [|easy]]].
      * apply NoDup_app. split; [easy|]. split; [|apply NoDup_singleton].
        intros x Hx ->%list_elem_of_singleton. apply list_elem_of_In, cmd_seen_In in Hx.
        congruence.
      * unfold cmd_hist_size in *. rewrite length_app. simpl. lia.
Qed.

Lemma check_entries_inv l : forall d d',
  daemon_inv d -> check_entries l d = Ret d' -> daemon_inv d'.
Proof.
  induction l as [|e l IH]; intros d d' I; simpl; [now intros [= <-]|].
  destruct (check_entry e d) as [d1| |] eqn:E; try easy.
  simpl. apply IH. eauto using check_entry_inv.
Qed.

Lemma check_inv d d' : daemon_inv d -> check d = Ret d' -> daemon_inv d'.
Proof.
  intros I. unfold check, read_sys. destruct (sys_read _) as [[buf k]|]; [|easy].
  simpl. apply check_entries_inv. exact I.
Qed.

Lemma rounds_inv n : forall d d', daemon_inv d -> rounds n d = Ret d' -> daemon_inv d'.
Proof.
  induction n as [|n IH]; intros d d' I; simpl; [now intros [= <-]|].
  destruct (check d) as [d1| |] eqn:E; try easy. simpl. eauto using check_inv.
Qed.

Lemma daemon_start_inv k : daemon_inv (system "rm -rf 0x*" (daemon_init (K := K) k)).
Proof.
  repeat split; simpl; try lia; [constructor|constructor].
Qed.
End DaemonFacts.

(** ** Lemmas on the packets *)

Lemma packets_payload pid RIP content :
  concat (map (drop sizeof_recv_pkt) (packets pid RIP content)) = content.
Proof.
  unfold packets. rewrite map_map.
  transitivity (drop (4000 * 0) content); [|easy].
  rewrite <- (packet_data_concat content 0 (n_packets (length content)) eq_refl).
  apply (f_equal (@concat Z)), map_ext. intros i.
  now rewrite drop_app_length' by (symmetry; apply length_encode_pkt).
Qed.

Lemma packets_length pid RIP content :
  Forall (fun b => (length b <= 4024)%nat) (packets pid RIP content).
Proof.
  unfold packets. apply Forall_map, Forall_forall. intros i _.
  rewrite length_app, length_encode_pkt. unfold packet_data, sizeof_recv_pkt.
  rewrite length_take. lia.
Qed.

Lemma packet_head_typed pid RIP len i :
  is_s32 pid -> is_u64 RIP -> Z.of_nat len <= i_buf_size -> (i < n_packets len)%nat ->
  pkt_typed (packet_head pid RIP len i).
Proof.
  intros Hp Hr Hl Hi. pose proof (n_packets_bounds len).
  unfold i_buf_size in Hl. unfold pkt_typed, packet_head. simpl.
  split; [case_if; word_range|]. repeat split; try apply Hp; try apply Hr; lia.
Qed.

(** The entries of the sites outside the white-list. *)
Definition not_listed (e : exe_info) : Prop := in_targets (RIP e) = false.

Lemma check_entries_not_listed {K : Type} {file : SysFile K} {shell : Shell} l :
  forall d d' : dstate K,
  Forall not_listed l -> check_entries l d = Ret d' ->
  kernel d' = kernel d /\ commands d' = commands d /\ cmd_hist d' = cmd_hist d.
Proof.
  induction l as [|e l IH]; intros d d' H; simpl; [now intros [= <-]|].
  apply Forall_cons in H as [He Hl]. unfold check_entry, not_listed in *. rewrite He. simpl.
  destruct (in_records (RIP e) d); simpl; [now apply IH|].
  destruct ((0 <=? cnts d) && _); [|easy]. simpl. intros H%IH; [exact H|easy].
Qed.

(** ** Properties *)

Module DaemonDemo.
(** A kernel side that records what is written to it and reports one entry. *)
Definition recorder (dump : list Z) : SysFile (list (list Z)) :=
  {| sys_read k := Some (dump, k); sys_write b k := Some (k ++ [b]) |}.

(** A translator whose output is 5000 bytes. *)
Definition translator : Shell := {| read_file _ _ := Some (replicate 5000 0x90) |}.

Definition start : dstate (list (list Z)) := daemon_init [].
Definition unlisted : exe_info := ExeInfo un_init 77 0x401000 0 0 0 0 0.
End DaemonDemo.

(** Uploading a code block: the loop of [write_sys] ends, and does to the kernel
    exactly the writes of the reference list of packets; their payloads
    concatenate to the file, each packet fits into one page, and only the last
    one carries status 0 (all others -1, so the block is not run half
    written). *)
Theorem write_sys_packets (K : Type) (file : SysFile K) (shell : Shell) pid RIP
    (d : dstate K) content :
  read_file (commands d) (jit_path RIP) = Some content ->
  Z.of_nat (length content) <= i_buf_size ->
  write_sys pid RIP d =
    match writes (packets pid RIP content) (kernel d) with
    | Some k => Ret (set_kernel k d)
    | None => Crash
    end /\
  concat (map (drop sizeof_recv_pkt) (packets pid RIP content)) = content /\
  Forall (fun b => (length b <= 4024)%nat) (packets pid RIP content) /\
  forall i b, packets pid RIP content !! i = Some b -> is_s32 pid -> is_u64 RIP ->
    pkt_status_code (decode_pkt b) =
      if (S i =? length (packets pid RIP content))%nat then 0 else -1.
Proof.
  intros H L. split; [now apply write_sys_spec|].
  split; [apply packets_payload|]. split; [apply packets_length|].
  unfold packets at 1. intros i b Hb Hp Hr. apply list_lookup_fmap_Some in Hb.
  destruct Hb as (j & -> & Hj). apply lookup_seq in Hj as [-> Hj]. cbn [Nat.add] in *.
  rewrite decode_encode_pkt.
  - unfold packets. rewrite length_map, length_seq. reflexivity.
  - now apply packet_head_typed.
Qed.

Lemma write_sys_packets_witness :
  @write_sys _ (DaemonDemo.recorder []) DaemonDemo.translator 77 0x7ffff7fa1abb
    DaemonDemo.start =
  Ret (set_kernel (packets 77 0x7ffff7fa1abb (replicate 5000 0x90)) DaemonDemo.start).
Proof.
  rewrite (proj1 (write_sys_packets _ (DaemonDemo.recorder []) DaemonDemo.translator
    77 0x7ffff7fa1abb DaemonDemo.start (replicate 5000 0x90) eq_refl
    ltac:(vm_compute; congruence))).
  vm_compute. reflexivity.
Defined.

(** C34. Bookkeeping of the endless loop: after any number of rounds, against any
    kernel side and any translator, no shell command of the history was run
    twice, and the commands run are exactly the initial clean-up and, for each
    command of the history in order, that command followed by one compilation;
    the two fixed arrays were never indexed outside. *)
Theorem main_bookkeeping (K : Type) (file : SysFile K) (shell : Shell) n k (d : dstate K) :
  main n k = Ret d ->
  NoDup (cmd_hist d) /\ built (cmd_hist d) (commands d) /\
  (length (cmd_hist d) <= 1000)%nat /\ length (records d) = 1024%nat /\ 0 <= cnts d <= 1024.
Proof. intros H. exact (rounds_inv n _ _ (daemon_start_inv k) H). Qed.

Lemma main_bookkeeping_witness :
  exists d, @main _ (DaemonDemo.recorder (encode_exe (ExeInfo un_init 77 0x7ffff7fa1abb 0 0 0 0 0)))
      DaemonDemo.translator 2 [] = Ret d /\
    built (cmd_hist d) (commands d) /\ length (commands d) = 3%nat.
Proof.
  eexists. split; [vm_compute; reflexivity|].
  split; [|vm_compute; reflexivity].
  apply (main_bookkeeping _ (DaemonDemo.recorder
    (encode_exe (ExeInfo un_init 77 0x7ffff7fa1abb 0 0 0 0 0))) DaemonDemo.translator 2 []).
  vm_compute. reflexivity.
Defined.

(** The white-list: entries whose address is not one of the daemon's targets
    never cause a shell command, a history entry or a write to the kernel,
    whatever their status. *)
Theorem whitelist_enforced (K : Type) (file : SysFile K) (shell : Shell) l (d d' : dstate K) :
  Forall not_listed l -> check_entries l d = Ret d' ->
  kernel d' = kernel d /\ commands d' = commands d /\ cmd_hist d' = cmd_hist d.
Proof. apply check_entries_not_listed. Qed.

Lemma whitelist_enforced_witness :
  exists d', @check_entries _ (DaemonDemo.recorder []) DaemonDemo.translator
      [DaemonDemo.unlisted] DaemonDemo.start = Ret d' /\ commands d' = [] /\ cnts d' = 1.
Proof.
  eexists. split; [vm_compute; reflexivity|]. split; [|vm_compute; reflexivity].
  destruct (whitelist_enforced _ (DaemonDemo.recorder []) DaemonDemo.translator
    [DaemonDemo.unlisted] DaemonDemo.start
    (DState (0x401000 :: replicate 1023 0) 1 [] [] [])) as (_ & H & _).
  - constructor; [vm_compute; reflexivity|constructor].
  - vm_compute. reflexivity.
  - exact H.
Defined.
