(* ===== verification/Lkm.v ===== *)
(** The kernel module as a whole: [zz_lkm/zz_lkm_main.c] (load, unload, the
    system-call hook), the set-up of the control file in [zz_lkm/sys.c], the
    fault hooks of [zz_lkm/error_handler.h], and the module as a state machine
    whose steps are system calls, reads and writes of the control file. *)
From Stdlib Require Import ZArith Lia Bool String.
From stdpp Require Import base list relations gmap.
From S2P Require Import Prelude Regs Exe Stat Sysfs.

Local Open Scope Z_scope.

(** ** State *)

(** The globals of [sys.c]: [kobj_ref] (0 is NULL) and whether the attribute
    file exists under it. *)
Record kobj_state : Type := KObj { kobj_ref : Z; attr_file : bool; etx_value : Z }.

Record lkm : Type := Lkm {
  l_stat : sstate;
  l_exe : estate;
  l_kobj : kobj_state;
  stat_flag : Z;        (* int *)
  zz_var : bool         (* the hook of do_syscall_64 points to func *)
}.

Definition set_l_exe v l := Lkm (l_stat l) v (l_kobj l) (stat_flag l) (zz_var l).
Definition set_l_kobj v l := Lkm (l_stat l) (l_exe l) v (stat_flag l) (zz_var l).

(** Answers of the kernel to the set-up calls. *)
Class LkmEnv := {
  num_online_cpus : Z;
  filp_open_ok : bool;                  (* open("/sys/zz_sys") succeeds *)
  kobject_create_and_add : Z;           (* pointer, 0 on failure *)
  sysfs_create_file : Z;                (* 0 on success *)
  kallsyms_sys_call_table : Z           (* kallsyms_lookup_name("sys_call_table") *)
}.

(** Before [insmod]: static storage is zero, [stat_flag] is 1. *)
Definition unloaded : lkm :=
  Lkm (SState [] 0) (EState [] 0 0 ∅ []) (KObj 0 false 0) 1 false.

(** ** Operations *)

Section LkmOps.
Context {env : ExeEnv} {kenv : LkmEnv}.

Definition sys_init (k : kobj_state) : kobj_state :=
  if filp_open_ok then KObj (kobj_ref k) (attr_file k) 0
  else if kobject_create_and_add =? 0 then KObj 0 (attr_file k) 0
  else KObj kobject_create_and_add (sysfs_create_file =? 0) 0.

Definition sys_exit (k : kobj_state) : kobj_state :=
  if kobj_ref k =? 0 then k else KObj (kobj_ref k) false (etx_value k).

Definition set_call_table v s := EState (exes s) (added s) v (kmem s) (elog s).

(** The new state and the return value 0. *)
Definition zz_lkm_init (l : lkm) : option (lkm * Z) :=
  let ss := stat_init num_online_cpus in
  match exe_init (l_exe l) with
  | None => None
  | Some es =>
      let ks := sys_init (l_kobj l) in
      Some (Lkm ss (set_call_table kallsyms_sys_call_table es) ks (stat_flag l) true, 0)
  end.

(** Freed arrays hold no entries any more. *)
Definition stat_exit (s : sstate) : sstate := SState [] (num_cpus s).
Definition exe_exit (s : estate) : estate := set_exes [] s.

Definition zz_lkm_exit (l : lkm) : lkm :=
  Lkm (stat_exit (l_stat l)) (exe_exit (l_exe l)) (sys_exit (l_kobj l)) (stat_flag l) false.

(** The hook [func], run after each system call of task [me] on [cpu]. *)
Definition func (fuel : nat) (cpu now me : Z) (regs : pt_regs) (ts : Z) (l : lkm)
  : run (lkm * pt_regs) :=
  match exe_on_call fuel me (CState (l_exe l) regs false) with
  | Stuck => Stuck
  | OutOfFuel => OutOfFuel
  | Done c =>
      let l := set_l_exe (c_exe c) l in
      if stat_flag l <? 100 then
        match stat_func cpu now me (c_regs c) ts (l_stat l) (l_exe l) with
        | None => Stuck
        | Some (ss, es) =>
            Done (Lkm ss es (l_kobj l) (stat_flag l) (zz_var l), c_regs c)
        end
      else Done (l, c_regs c)
  end.
End LkmOps.

(** ** The fault hooks of error_handler.h *)

Definition UB_ERROR_MEMORY_ACCESS : Z := -0x200.
Definition UB_DEFAULT : Z := -0x300.

(** The addresses of the two labels inside [UB_error_handler]. *)
Class HandlerLabels := { UB_memory_access_error : Z; UB_default_error : Z }.

Definition UB_error_handler {labels : HandlerLabels} (error_type : Z) : Z :=
  if error_type =? UB_ERROR_MEMORY_ACCESS then UB_memory_access_error else UB_default_error.

(** The arguments are only printed, and only in debug builds. *)
Definition UB_fault_address_space (address user_r13 : Z) : Z := 1.

(** The functions of the module, as the kernel's symbol table knows them. *)
Definition lkm_symbols : list string :=
  ["UB_error_handler"; "UB_fault_address_space"; "func"; "zz_lkm_init"; "zz_lkm_exit";
   "get_exe"; "exe_init"; "exe_add"; "exe_exit"; "exe_on_call"; "stat_init"; "stat_exit";
   "stat_func"; "sysfs_show"; "sysfs_store"; "sys_init"; "sys_exit"]%string.

(** ** The loaded module *)

Definition lkm_wf (l : lkm) : Prop := stat_wf (l_stat l) /\ exe_wf (l_exe l).

Lemma init_loop es rest : forall pre,
  for_opt (fun i => with_exe i (set_status_code un_used)) (length pre) (length rest)
    (set_exes (pre ++ rest) es) =
  Some (set_exes (pre ++ map (set_status_code un_used) rest) es).
Proof.
  induction rest as [|e rest IH]; intros pre; [easy|].
  cbn [length for_opt map]. unfold with_exe at 1. cbn [exes set_exes].
  rewrite lookup_app_r, Nat.sub_diag by lia. cbn [lookup list_lookup].
  rewrite insert_app_r_alt, Nat.sub_diag by lia. cbn [insert list_insert].
  specialize (IH (pre ++ [set_status_code un_used e])).
  rewrite length_app, <- !app_assoc in IH. cbn [length app] in IH.
  replace (length pre + 1)%nat with (S (length pre)) in IH by lia. exact IH.
Qed.

Section LkmFacts.
Context {env : ExeEnv} {env_ok : ExeEnvOk env} {kenv : LkmEnv}.

Lemma exe_init_spec s :
  exe_init s = Some (set_exes (map (set_status_code un_used) vmalloc_exes) s).
Proof.
  unfold exe_init. pose proof (init_loop s vmalloc_exes []) as H.
  rewrite fresh_len in H. exact H.
Qed.

Lemma unused_none l : count_used (map (set_status_code un_used) l) = 0%nat.
Proof. unfold count_used. induction l as [|e l IH]; simpl; lia. Qed.

Lemma exe_init_wf s s' :
  0 <= added s <= 63 -> exe_init s = Some s' ->
  exe_wf s' /\ (forall p r, find s' p r = None) /\ (forall p r, ready s' p r = None).
Proof.
  intros Ha. rewrite exe_init_spec. intros [= <-].
  assert (Hu : forall i e, map (set_status_code un_used) vmalloc_exes !! i = Some e ->
               status_code e = un_used).
  { intros i e Hi. apply list_lookup_fmap_Some in Hi. now destruct Hi as (e' & -> & _). }
  split; [constructor; cbn [exes set_exes added]|split].
  - now rewrite length_map, fresh_len.
  - easy.
  - rewrite unused_none. lia.
  - intros i e Hi U. apply Hu in Hi. unfold used in U. now rewrite Hi in U.
  - apply Forall_map. eapply Forall_impl; [apply fresh_typed|].
    intros e T. unfold exe_typed in *. simpl. intuition (unfold is_s32, un_used; lia).
  - intros p r. unfold find. cbn [exes set_exes].
    destruct (_ !! _) as [e|] eqn:E; [|easy]. apply Hu in E. unfold used. now rewrite E.
  - intros p r. unfold ready. cbn [exes set_exes].
    destruct (_ !! _) as [e|] eqn:E; [|easy]. apply Hu in E. now rewrite E.
Qed.

Lemma set_call_table_wf v s : exe_wf s -> exe_wf (set_call_table v s).
Proof. intros []. now constructor. Qed.

Lemma lkm_init_wf l l' r :
  0 <= added (l_exe l) <= 63 -> zz_lkm_init l = Some (l', r) ->
  lkm_wf l' /\ (forall p ip, ready (l_exe l') p ip = None).
Proof.
  intros Ha. unfold zz_lkm_init. destruct (exe_init (l_exe l)) as [es|] eqn:E; [|easy].
  intros [= <- <-]. destruct (exe_init_wf _ _ Ha E) as (W & _ & R).
  split; [split; [apply stat_init_wf|now apply set_call_table_wf]|].
  intros p ip. apply R.
Qed.

Lemma func_ok fuel cpu now me regs ts l :
  lkm_wf l -> 0 <= cpu < num_cpus (l_stat l) -> is_s32 me -> wf_regs regs ->
  func fuel cpu now me regs ts l <> Stuck /\
  (forall l' regs', func fuel cpu now me regs ts l = Done (l', regs') ->
     lkm_wf l' /\ table_le (l_exe l) (l_exe l') /\ wf_regs regs' /\
     num_cpus (l_stat l') = num_cpus (l_stat l) /\ stat_flag l' = stat_flag l).
Proof.
  intros [Ws We] Hc Hm Hr. unfold func, exe_on_call.
  destruct (while_chain_inv me (l_exe l) fuel (CState (l_exe l) regs false))
    as [H1 H2]; [now split|].
  destruct (while _ _ _) as [c| |]; try easy.
  destruct (H2 c eq_refl) as ((Wc & Lc & Rc) & _). cbn [clac c_exe c_regs set_l_exe stat_flag].
  destruct (stat_flag l <? 100).
  2:{ split; [easy|]. intros l' regs' [= <- <-]. split; [now split|]. easy. }
  unfold stat_func, set_l_exe. simpl. destruct Ws as [Ls Wi].
  destruct (lookup_lt_is_Some_2 (info (l_stat l)) (Z.to_nat cpu)) as [i E]; [lia|].
  rewrite E. pose proof (Forall_lookup_1 _ _ _ _ Wi E) as Wcpu.
  destruct (stat_cpu_ok now me (rget (c_regs c) IP) ts i (c_exe c) Wcpu Wc Hm
    (rget_range IP _ Rc)) as (i' & es' & -> & Wi' & We' & Le').
  split; [easy|]. intros l' regs' [= <- <-]. simpl.
  split; [split; [split|easy]|].
  - simpl. now rewrite length_insert.
  - simpl. now apply Forall_insert.
  - split; [now transitivity (c_exe c)|easy].
Qed.
End LkmFacts.

(** ** The module as a state machine *)

Section Machine.
Context {env : ExeEnv} {kenv : LkmEnv}.

Definition set_stat_flag v l := Lkm (l_stat l) (l_exe l) (l_kobj l) v (zz_var l).

(** A system call of some task on an online CPU; a read of the control file; a
    write of a packet like the daemon's: for a registered site (it only answers for
    entries it has read), inside the block, and with a status other than [un_used]. *)
Inductive lkm_step (l : lkm) : lkm -> Prop :=
| step_call fuel cpu now me regs ts l' regs' :
    0 <= cpu < num_cpus (l_stat l) -> is_s32 me -> wf_regs regs ->
    func fuel cpu now me regs ts l = Done (l', regs') ->
    lkm_step l l'
| step_show buf f :
    sysfs_show (l_exe l) (stat_flag l) = Some (buf, f) ->
    lkm_step l (set_stat_flag f l)
| step_store k payload e es n :
    proper_packet (l_exe l) k payload e ->
    sysfs_store (encode_pkt k ++ payload) (l_exe l) = Some (es, n) ->
    lkm_step l (set_l_exe es l).

(** The file also takes other packets: any status, [un_used] too, inside the block
    of a registered site, and keys that are not in the table. What is left out are
    the packets [sysfs_store_unchecked_offset] is about, whose piece lies outside
    the block and can overwrite whatever the kernel has there, the table too, and
    those whose key is that of an unused entry, left over or never initialised. *)
Inductive file_step (l : lkm) : lkm -> Prop :=
| file_lkm l' : lkm_step l l' -> file_step l l'
| file_any k payload e es n :
    inside_packet (l_exe l) k payload e ->
    sysfs_store (encode_pkt k ++ payload) (l_exe l) = Some (es, n) ->
    file_step l (set_l_exe es l)
| file_foreign k payload es n :
    pkt_typed k -> foreign (l_exe l) k ->
    sysfs_store (encode_pkt k ++ payload) (l_exe l) = Some (es, n) ->
    file_step l (set_l_exe es l).

Inductive reachable : lkm -> Prop :=
| reach_load l : zz_lkm_init unloaded = Some (l, 0) -> reachable l
| reach_step l l' : reachable l -> lkm_step l l' -> reachable l'.

Context {env_ok : ExeEnvOk env}.

Lemma lkm_step_wf l l' :
  lkm_wf l -> lkm_step l l' -> lkm_wf l' /\ table_le (l_exe l) (l_exe l').
Proof.
  intros W H. destruct H as [fuel cpu now me regs ts l' regs' Hc Hm Hr H|buf f H
                            |k payload e es n [[T F _ _] Hn] H].
  - apply (func_ok fuel cpu now me regs ts l W Hc Hm Hr) in H. easy.
  - destruct W as [Ws We]. split; [now split|reflexivity].
  - destruct W as [Ws We]. rewrite sysfs_store_hit with (e := e) in H by easy.
    injection H as <- _. simpl.
    destruct (store_status_wf (l_exe l) _ _ (pkt_status_code k) e
      (mem_write (kmem (l_exe l)) (u64 (code_block e + offset k)) payload) We F)
      as (W' & L' & _); [apply T|easy|].
    split; [now split|easy].
Qed.

Lemma reachable_wf l : reachable l -> lkm_wf l.
Proof.
  induction 1 as [l H|l l' _ IH H].
  - apply lkm_init_wf in H; [apply H|simpl; lia].
  - apply lkm_step_wf in H; [apply H|easy].
Qed.

Lemma reachable_steps l l' : reachable l -> rtc lkm_step l l' -> reachable l'.
Proof. intros R H. revert R. induction H; eauto using reach_step. Qed.

Lemma file_step_wf l l' : lkm_wf l -> file_step l l' -> lkm_wf l'.
Proof.
  intros W H. destruct H as [l' H|k payload e es n [T F _ _] H|k payload es n T F H].
  - apply (lkm_step_wf l l' W H).
  - destruct W as [Ws We]. split; [easy|]. now apply (sysfs_store_wf (l_exe l) k payload e es n).
  - destruct W as [Ws We]. split; [easy|]. rewrite sysfs_store_foreign in H by easy.
    injection H as <- _. destruct We. now constructor.
Qed.

Lemma file_steps_wf l l' : lkm_wf l -> rtc file_step l l' -> lkm_wf l'.
Proof. intros W H. revert W. induction H as [l|l l1 l2 S _ IH]; [easy|]. intros W. apply IH. now apply (file_step_wf l). Qed.

(** [n] reads of the control file. *)
Fixpoint shows (n : nat) (l : lkm) : option lkm :=
  match n with
  | O => Some l
  | S n => match sysfs_show (l_exe l) (stat_flag l) with
           | Some (_, f) => shows n (set_stat_flag f l)
           | None => None
           end
  end.

Lemma shows_flag n : forall l,
  exe_wf (l_exe l) -> 0 <= stat_flag l -> stat_flag l + Z.of_nat n < 2 ^ 31 ->
  shows n l = Some (set_stat_flag (stat_flag l + Z.of_nat n) l).
Proof.
  induction n as [|n IH]; intros l W H1 H2; simpl shows.
  - destruct l. unfold set_stat_flag. cbn. do 2 f_equal. simpl. lia.
  - rewrite sysfs_show_spec by easy. cbn [fst snd].
    rewrite s32_small by word_range. rewrite IH.
    + unfold set_stat_flag. cbn [l_stat l_exe l_kobj stat_flag zz_var].
      do 2 f_equal. lia.
    + easy.
    + simpl. lia.
    + simpl stat_flag. lia.
Qed.
End Machine.

(** ** Properties *)

Module LkmDemo.
Definition kenv : LkmEnv := {|
  num_online_cpus := 2; filp_open_ok := false;
  kobject_create_and_add := 0xffff888100000000; sysfs_create_file := 0;
  kallsyms_sys_call_table := 0xffffffff82000280 |}.

(** The module right after loading. *)
Definition loaded : lkm :=
  Lkm (stat_init 2) (set_call_table 0xffffffff82000280 (EState Demo.blanks 0 0 ∅ []))
    (KObj 0xffff888100000000 true 0) 1 true.

Lemma loaded_eq : @zz_lkm_init (Demo.env 0) kenv unloaded = Some (loaded, 0).
Proof. vm_compute. reflexivity. Qed.
End LkmDemo.



(** A registered site is permanent: along any run of the loaded module in which the
    packets are like the daemon's (one of status [un_used] would drop its site) every
    used entry stays used, in its slot, with its key and its code block. *)
Theorem sites_are_permanent (env : ExeEnv) (ok : ExeEnvOk env) (kenv : LkmEnv) l l' :
  reachable l -> rtc lkm_step l l' -> table_le (l_exe l) (l_exe l').
Proof.
  intros R H. apply reachable_wf in R. revert R.
  induction H as [l|l l1 l2 H _ IH]; intros R; [reflexivity|].
  destruct (lkm_step_wf l l1 R H) as [R1 L1]. transitivity (l_exe l1); auto.
Qed.

Lemma sites_are_permanent_witness :
  table_le (l_exe LkmDemo.loaded) (l_exe LkmDemo.loaded).
Proof.
  apply (sites_are_permanent (Demo.env 0) (Demo.env_ok 0) LkmDemo.kenv).
  - apply reach_load. exact LkmDemo.loaded_eq.
  - reflexivity.
Defined.

(** Loading is safe although the hook is published before the address of the
    system-call table is known: until a code block is installed, the hook
    leaves the registers of every system call unchanged. *)
Theorem load_hook_harmless (env : ExeEnv) (ok : ExeEnvOk env) (kenv : LkmEnv)
    l fuel cpu now me regs ts table :
  zz_lkm_init unloaded = Some (l, 0) ->
  0 <= cpu < num_cpus (l_stat l) -> is_s32 me -> wf_regs regs ->
  exists l', func (S fuel) cpu now me regs ts
               (set_l_exe (set_call_table table (l_exe l)) l) = Done (l', regs).
Proof.
  intros H Hc Hm Hr. apply lkm_init_wf in H; [|simpl; lia].
  destruct H as [[Ws We] R]. unfold func, exe_on_call. cbn [while].
  rewrite chain_body_miss by (try apply set_call_table_wf; easy || apply R).
  simpl. destruct (stat_flag l <? 100); [|eauto].
  unfold stat_func. destruct Ws as [Ls Wi].
  destruct (lookup_lt_is_Some_2 (info (l_stat l)) (Z.to_nat cpu)) as [i E]; [lia|].
  rewrite E. pose proof (Forall_lookup_1 _ _ _ _ Wi E) as Wcpu.
  destruct (stat_cpu_ok now me (rget regs IP) ts i (set_call_table table (l_exe l)) Wcpu
    (set_call_table_wf _ _ We) Hm (rget_range IP _ Hr)) as (i' & es' & -> & _). eauto.
Qed.

Lemma load_hook_harmless_witness :
  exists l', @func (Demo.env 0) 1 0 7000 Demo.task Demo.regs 6000
    (set_l_exe (set_call_table 0 (l_exe LkmDemo.loaded)) LkmDemo.loaded) = Done (l', Demo.regs).
Proof.
  apply (load_hook_harmless (Demo.env 0) (Demo.env_ok 0) LkmDemo.kenv LkmDemo.loaded
           0 0 7000 Demo.task Demo.regs 6000 0).
  - exact LkmDemo.loaded_eq.
  - simpl. lia.
  - unfold is_s32, Demo.task. lia.
  - apply Demo.regs_wf.
Defined.

(** The detector stops: 99 reads of the control file after loading (and for as
    long as the read counter does not overflow) leave only the execution part
    of the hook in service, so no site is registered any more and the per-CPU
    counters are frozen. *)
Theorem detector_stops (env : ExeEnv) (ok : ExeEnvOk env) (kenv : LkmEnv) n l fuel cpu now me regs ts :
  zz_lkm_init unloaded = Some (l, 0) -> (99 <= n)%nat -> Z.of_nat n < 2 ^ 31 - 1 ->
  exists l', shows n l = Some l' /\
    func fuel cpu now me regs ts l' =
    match exe_on_call fuel me (CState (l_exe l') regs false) with
    | Done c => Done (set_l_exe (c_exe c) l', c_regs c)
    | Stuck => Stuck
    | OutOfFuel => OutOfFuel
    end.
Proof.
  intros H Hn Hb. assert (Hf : stat_flag l = 1).
  { unfold zz_lkm_init in H. destruct (exe_init _); [|easy]. now injection H as <-. }
  apply lkm_init_wf in H; [|simpl; lia]. destruct H as [[_ We] _].
  eexists. split; [apply shows_flag; [easy|lia..]|].
  unfold func. destruct (exe_on_call _ _ _) as [c| |]; [|easy..].
  rewrite Hf. simpl.
  destruct (Z.ltb_spec (1 + Z.of_nat n) 100); [lia|easy].
Qed.

Lemma detector_stops_witness :
  exists l', shows 99 LkmDemo.loaded = Some l' /\
    @func (Demo.env 0) 1 0 7000 Demo.task Demo.regs 6000 l' =
      Done (set_l_exe (l_exe l') l', Demo.regs).
Proof.
  destruct (detector_stops (Demo.env 0) (Demo.env_ok 0) LkmDemo.kenv 99 LkmDemo.loaded
    1 0 7000 Demo.task Demo.regs 6000) as (l' & H1 & H2).
  - exact LkmDemo.loaded_eq.
  - lia.
  - simpl. lia.
  - exists l'. split; [exact H1|]. rewrite H2.
    rewrite shows_flag in H1; [|apply exe_wfb_sound; vm_compute; reflexivity|simpl; lia|simpl; lia].
    injection H1 as <-. vm_compute. reflexivity.
Defined.
