(* ===== verification/Boost.v ===== *)
(** The daemon and the module together: the control file of [zz_lkm/sys.c]
    behind the interface the daemon of [zz_daemon/main.c] polls and writes. *)
From Stdlib Require Import ZArith Lia Bool String.
From stdpp Require Import base list gmap.
From S2P Require Import Prelude Regs Exe Stat Sysfs Lkm Daemon.

Local Open Scope Z_scope.

(** The attribute file exists between [sys_init] and [sys_exit]; its read
    handler is [sysfs_show], its write handler [sysfs_store]. *)
#[export] Instance lkm_file : SysFile lkm := {
  sys_read l :=
    if attr_file (l_kobj l) then
      match sysfs_show (l_exe l) (stat_flag l) with
      | Some (buf, f) => Some (buf, set_stat_flag f l)
      | None => None
      end
    else None;
  sys_write b l :=
    if attr_file (l_kobj l) then
      match sysfs_store b (l_exe l) with
      | Some (es, _) => Some (set_l_exe es l)
      | None => None
      end
    else None
}.

(** ** Uploading one block *)

Lemma writes_app {K : Type} {file : SysFile K} l1 l2 (k : K) :
  writes (l1 ++ l2) k = match writes l1 k with Some k' => writes l2 k' | None => None end.
Proof.
  revert k. induction l1 as [|b l1 IH]; intros k; [easy|]. simpl.
  destruct (sys_write b k); [apply IH|easy].
Qed.

Lemma lkm_write b es (l : lkm) :
  attr_file (l_kobj l) = true ->
  sys_write b (set_l_exe es l) =
  match sysfs_store b es with Some (es', _) => Some (set_l_exe es' l) | None => None end.
Proof. intros H. simpl. rewrite H. easy. Qed.

(** [s'] is [s] with the first [len] bytes of [content] in the block of [e], the
    entry of the site ([p], [r]), whose status is now [st]. *)
Record filled (s s' : estate) (p r : Z) (e : exe_info) (st : Z) (content : list Z) (len : nat)
  : Prop := {
  filled_wf : exe_wf s';
  filled_le : table_le s s';
  filled_find : find s' p r = Some (set_status_code st e);
  filled_others : forall p' r', (p', r') <> (p, r) -> find s' p' r' = find s p' r';
  filled_in : forall i b, (i < len)%nat -> content !! i = Some b ->
              kmem s' !! (code_block e + Z.of_nat i) = Some b;
  filled_out : forall x, x < code_block e \/ code_block e + Z.of_nat len <= x ->
               kmem s' !! x = kmem s !! x
}.

Lemma set_status_same e : set_status_code (status_code e) e = e.
Proof. now destruct e. Qed.

Lemma filled_nothing s p r e content :
  exe_wf s -> find s p r = Some e -> filled s s p r e (status_code e) content 0.
Proof.
  intros W F. split; try easy; try lia. now rewrite set_status_same.
Qed.

(** One more piece. *)
Lemma filled_piece s s1 s2 p r e st st' content n payload :
  filled s s1 p r e st content n ->
  installs s1 s2 p r (set_status_code st e) st' (Z.of_nat n) payload ->
  payload = take (length payload) (drop n content) ->
  filled s s2 p r e st' content (n + length payload).
Proof.
  intros F (W & L & Hf & Ho & Hin & Hout & _) Hp. destruct F as [W1 L1 F1 O1 I1 X1].
  cbn [code_block set_status_code] in *. split.
  - easy.
  - now transitivity s1.
  - exact Hf.
  - intros p' r' H. rewrite Ho, O1; easy.
  - intros i b Hi Hb. destruct (decide (i < n)%nat) as [Hlt|Hge].
    + rewrite Hout by lia. auto.
    + replace (code_block e + Z.of_nat i)
        with (code_block e + Z.of_nat n + Z.of_nat (i - n)) by lia.
      apply Hin. rewrite Hp, lookup_take_lt, lookup_drop by lia.
      now replace (n + (i - n))%nat with i by lia.
  - intros x Hx. rewrite Hout by lia. apply X1. lia.
Qed.

(** The status of a site after [i] of the [n] packets of its block. *)
Definition upload_status (i n : nat) (e : exe_info) : Z :=
  if (i =? 0)%nat then status_code e else if (i =? n)%nat then 0 else -1.

Section Upload.
Variables (l : lkm) (p r : Z) (e : exe_info) (content : list Z).
Hypothesis attr : attr_file (l_kobj l) = true.
Hypothesis wf : exe_wf (l_exe l).
Hypothesis site : find (l_exe l) p r = Some e.
Hypothesis block : code_block e + 4096 * num_pg <= 2 ^ 64.
Hypothesis size : Z.of_nat (length content) <= 4096 * num_pg.

Lemma site_typed : is_s32 p /\ is_u64 r.
Proof.
  destruct (find_used _ _ _ _ site) as (E & _ & <- & <-).
  now destruct (wf_entry_typed _ _ _ wf E) as (_ & ? & ? & _).
Qed.

Lemma upload_prefix i :
  (i <= n_packets (length content))%nat ->
  exists es, writes (take i (packets p r content)) l = Some (set_l_exe es l) /\
    filled (l_exe l) es p r e (upload_status i (n_packets (length content)) e) content
      (length content `min` (4000 * i)).
Proof.
  unfold num_pg in size. induction i as [|i IH]; intros Hi.
  - exists (l_exe l). rewrite take_0. simpl. split; [now destruct l|].
    rewrite Nat.min_0_r. now apply filled_nothing.
  - destruct IH as (es & Hw & F); [lia|].
    pose proof (n_packets_bounds (length content)) as [B1 B2].
    destruct site_typed as [Tp Tr].
    assert (Hl : packets p r content !! i =
      Some (encode_pkt (packet_head p r (length content) i) ++ packet_data content i)).
    { unfold packets. apply list_lookup_fmap_Some. exists i. split; [easy|].
      apply lookup_seq. lia. }
    rewrite (take_S_r _ _ _ Hl), writes_app, Hw. cbn [writes].
    rewrite lkm_write by exact attr.
    assert (Hd : length (packet_data content i) = ((length content - 4000 * i) `min` 4000)%nat).
    { unfold packet_data. rewrite length_take, length_drop. lia. }
    destruct (sysfs_store_piece es (packet_head p r (length content) i)
      (packet_data content i) (set_status_code
         (upload_status i (n_packets (length content)) e) e)) as (s2 & -> & Hs2).
    + apply (filled_wf _ _ _ _ _ _ _ _ F).
    + apply packet_head_typed; try easy. unfold i_buf_size. lia.
    + apply (filled_find _ _ _ _ _ _ _ _ F).
    + unfold packet_head, un_used. simpl. case_if; lia.
    + exact block.
    + unfold packet_head, num_pg. simpl. lia.
    + exists s2. split; [easy|].
      replace (length content `min` (4000 * S i))%nat
        with (length content `min` (4000 * i) + length (packet_data content i))%nat by lia.
      eapply filled_piece; [exact F| |].
      * replace (Z.of_nat (length content `min` (4000 * i)))
          with (offset (packet_head p r (length content) i)) by (simpl; lia).
        replace (upload_status (S i) (n_packets (length content)) e)
          with (pkt_status_code (packet_head p r (length content) i)) by easy.
        exact Hs2.
      * rewrite Hd. unfold packet_data.
        replace (length content `min` (4000 * i))%nat with (4000 * i)%nat by lia.
        destruct (decide (4000 <= length content - 4000 * i)%nat) as [Hle|Hgt].
        -- now rewrite Nat.min_r by lia.
        -- rewrite Nat.min_l by lia. rewrite !take_ge; [easy|..]; rewrite length_drop; lia.
Qed.

Lemma upload_all :
  content <> [] ->
  exists es, writes (packets p r content) l = Some (set_l_exe es l) /\
    filled (l_exe l) es p r e normal content (length content).
Proof.
  intros Hc. pose proof (n_packets_bounds (length content)) as [B1 B2].
  destruct (upload_prefix (n_packets (length content))) as (es & Hw & F); [easy|].
  assert (Hn : content <> [] -> (0 < length content)%nat) by (destruct content; simpl; lia || easy).
  specialize (Hn Hc). rewrite take_ge in Hw by (unfold packets; rewrite length_map, length_seq; lia).
  exists es. split; [easy|]. rewrite Nat.min_l in F by lia.
  unfold upload_status in F.
  rewrite (proj2 (Nat.eqb_neq _ _)), Nat.eqb_refl in F by lia. exact F.
Qed.
End Upload.

(** ** One polling round *)

(** What a round makes of an entry. *)
Definition boosted (e : exe_info) : exe_info :=
  if in_targets (RIP e) &&
     ((status_code e =? 0) || (status_code e =? un_init) || (status_code e =? call_miss)
      || (status_code e =? ij_miss))
  then set_status_code normal e else e.

Definition key (e : exe_info) : Z * Z := (pid e, RIP e).

Section Round.
Context {shell : Shell}.

(** The translator always leaves a block that fits. *)
Hypothesis translated : forall cmds r, exists c, read_file cmds (jit_path r) = Some c /\
  c <> [] /\ Z.of_nat (length c) <= 4096 * num_pg.

(** A round that still has to answer for the entries [todo] of the dump. *)
Record pending (d : dstate lkm) (todo : list exe_info) : Prop := {
  pend_attr : attr_file (l_kobj (kernel d)) = true;
  pend_wf : exe_wf (l_exe (kernel d));
  pend_find : Forall (fun e => find (l_exe (kernel d)) (pid e) (RIP e) = Some e) todo;
  pend_block : Forall (fun e => code_block e + 4096 * num_pg <= 2 ^ 64) todo;
  pend_keys : NoDup (map key todo);
  pend_hist : (length (cmd_hist d) + length todo <= 1000)%nat;
  pend_recs : length (records d) = 1024%nat /\
              0 <= cnts d /\ cnts d + Z.of_nat (length todo) <= 1024
}.

(** The daemon's part changed, the kernel did not. *)
Lemma pending_next d d' e todo :
  pending d (e :: todo) ->
  (exists es, kernel d' = set_l_exe es (kernel d) /\ exe_wf es /\
     forall p r, (p, r) <> key e -> find es p r = find (l_exe (kernel d)) p r) ->
  (length (cmd_hist d') <= S (length (cmd_hist d)))%nat ->
  length (records d') = 1024%nat -> 0 <= cnts d' <= cnts d + 1 ->
  pending d' todo.
Proof.
  intros [A W F B N H R] (es & Ek & We & Ho) Hh Hr Hc.
  apply Forall_cons in F as [_ F]. apply Forall_cons in B as [_ B].
  apply NoDup_cons in N as [Hn N]. simpl in H, R. split; rewrite ?Ek; simpl; try easy; try lia.
  rewrite Forall_forall in F |- *. intros e' He'. rewrite Ho; [auto|].
  intros E. apply Hn. change (e' ∈ todo) in He'. rewrite <- E.
  exact (list_elem_of_fmap_2 key todo e' He').
Qed.

(** An entry to be (re)built: its block is installed and it becomes ready. *)
Lemma check_entry_builds e d cmd todo :
  pending d (e :: todo) -> in_targets (RIP e) = true -> status_cmd e = Some cmd ->
  exists d', check_entry e d = Ret d' /\ pending d' todo /\
    find (l_exe (kernel d')) (pid e) (RIP e) = Some (set_status_code normal e) /\
    forall p r, (p, r) <> key e ->
      find (l_exe (kernel d')) p r = find (l_exe (kernel d)) p r.
Proof.
  intros P Ht Hs. pose proof P as [A W F B N H R].
  apply Forall_cons in F as [F _]. apply Forall_cons in B as [B _]. simpl in H, R.
  set (d1 := if cmd_seen cmd (cmd_hist d) then d
             else compile (pid e) (RIP e) (system cmd
               (DState (records d) (cnts d) (cmd_hist d ++ [cmd]) (commands d) (kernel d)))).
  assert (E : check_entry e d = write_sys (pid e) (RIP e) d1).
  { unfold check_entry. rewrite Ht, Hs. cbn [negb]. unfold cmd_history, d1.
    destruct (cmd_seen cmd (cmd_hist d)); [easy|].
    destruct (Z.ltb_spec (Z.of_nat (length (cmd_hist d))) cmd_hist_size); [easy|].
    unfold cmd_hist_size in *. lia. }
  assert (Hd1 : kernel d1 = kernel d /\ records d1 = records d /\ cnts d1 = cnts d /\
                (length (cmd_hist d1) <= S (length (cmd_hist d)))%nat).
  { unfold d1. destruct (cmd_seen cmd (cmd_hist d)); simpl; rewrite ?length_app; simpl;
      repeat split; lia. }
  destruct Hd1 as (K1 & R1 & C1 & L1).
  destruct (translated (commands d1) (RIP e)) as (c & Hc & Hne & Hlen).
  destruct (upload_all (kernel d) (pid e) (RIP e) e c A W F B Hlen Hne) as (es & Hw & Fi).
  destruct Fi as [W2 _ F2 O2 _ _].
  rewrite E, (write_sys_spec _ _ d1 c Hc) by (unfold i_buf_size, num_pg in *; lia).
  rewrite K1, Hw. eexists. split; [reflexivity|]. split; [|split; [easy|exact O2]].
  eapply pending_next; [exact P| | | |]; simpl; [|easy|now rewrite R1|lia].
  exists es. easy.
Qed.

(** Any other entry is left as it is. *)
Lemma check_entry_skips e d todo :
  pending d (e :: todo) -> in_targets (RIP e) = false \/ status_cmd e = None ->
  exists d', check_entry e d = Ret d' /\ pending d' todo /\ kernel d' = kernel d.
Proof.
  intros P Hs. pose proof P as [A W F B N H R]. simpl in H, R.
  assert (Hk : exists es, kernel d = set_l_exe es (kernel d) /\ exe_wf es /\
     forall p r, (p, r) <> key e -> find es p r = find (l_exe (kernel d)) p r)
    by (exists (l_exe (kernel d)); now destruct (kernel d)).
  unfold check_entry. destruct (in_targets (RIP e)) eqn:Ht; cbn [negb].
  - destruct Hs as [?| ->]; [easy|]. eexists. split; [reflexivity|]. split; [|easy].
    eapply pending_next; [exact P|exact Hk|lia|easy|lia].
  - destruct (in_records (RIP e) d); cbn [negb].
    + eexists. split; [reflexivity|]. split; [|easy].
      eapply pending_next; [exact P|exact Hk|lia|easy|lia].
    + destruct (Z.leb_spec 0 (cnts d)); [|lia].
      destruct (Z.ltb_spec (cnts d) (Z.of_nat (length (records d)))); [|lia]. simpl.
      eexists. split; [reflexivity|]. split; [|easy].
      eapply pending_next; [exact P|exact Hk|simpl; lia|simpl; now rewrite length_insert|].
      simpl. rewrite s32_small by word_range. lia.
Qed.

Lemma boosted_skip e :
  in_targets (RIP e) = false \/ status_cmd e = None -> boosted e = e.
Proof.
  unfold boosted, status_cmd. destruct (in_targets (RIP e)); [|easy].
  intros [?|H]; [easy|]. destruct (Z.eqb_spec (status_code e) 0) as [E|].
  - change normal with 0. simpl. rewrite <- E. apply set_status_same.
  - revert H. repeat case_if; easy.
Qed.

Lemma boosted_build e cmd :
  in_targets (RIP e) = true -> status_cmd e = Some cmd ->
  boosted e = set_status_code normal e.
Proof.
  unfold boosted, status_cmd. intros ->.
  destruct (status_code e =? 0), (status_code e =? un_init), (status_code e =? call_miss),
    (status_code e =? ij_miss); easy.
Qed.

Lemma check_entries_boost todo : forall d,
  pending d todo ->
  exists d', check_entries todo d = Ret d' /\
    Forall (fun e => find (l_exe (kernel d')) (pid e) (RIP e) = Some (boosted e)) todo /\
    (forall p r, (p, r) ∉ map key todo ->
       find (l_exe (kernel d')) p r = find (l_exe (kernel d)) p r).
Proof.
  induction todo as [|e todo IH]; intros d P.
  { exists d. now repeat split. }
  assert (S : exists d1, check_entry e d = Ret d1 /\ pending d1 todo /\
    find (l_exe (kernel d1)) (pid e) (RIP e) = Some (boosted e) /\
    forall p r, (p, r) <> key e ->
      find (l_exe (kernel d1)) p r = find (l_exe (kernel d)) p r).
  { destruct (in_targets (RIP e)) eqn:Ht; [destruct (status_cmd e) as [cmd|] eqn:Hs|].
    - rewrite (boosted_build e cmd Ht Hs). now apply check_entry_builds with (cmd := cmd).
    - destruct (check_entry_skips e d todo P) as (d1 & E1 & P1 & K1); [auto|].
      exists d1. rewrite K1, boosted_skip by auto. repeat split; try easy; try apply P1.
      pose proof (pend_find _ _ P) as F. now apply Forall_cons in F as [F _].
    - destruct (check_entry_skips e d todo P) as (d1 & E1 & P1 & K1); [auto|].
      exists d1. rewrite K1, boosted_skip by auto. repeat split; try easy; try apply P1.
      pose proof (pend_find _ _ P) as F. now apply Forall_cons in F as [F _]. }
  destruct S as (d1 & E1 & P1 & F1 & O1). destruct (IH d1 P1) as (d2 & E2 & F2 & O2).
  pose proof (pend_keys _ _ P) as N. apply NoDup_cons in N as [N _].
  exists d2. cbn [check_entries]. rewrite E1. split; [exact E2|]. split.
  - constructor; [|easy]. rewrite O2; [exact F1|exact N].
  - intros p r Hn. cbn [map] in Hn. rewrite not_elem_of_cons in Hn.
    destruct Hn as [H1 H2]. rewrite O2 by easy. now apply O1.
Qed.
End Round.

(** ** The dump lists distinct sites *)

Lemma used_entries_lookup s e :
  exe_wf s -> e ∈ used_entries (exes s) ->
  used e = true /\ exes s !! get_exe (pid e) (RIP e) = Some e.
Proof.
  intros W H. apply list_elem_of_filter in H as [U H]. split; [easy|].
  apply list_elem_of_lookup in H as [i Hi]. now rewrite (wf_slot s W i e Hi U).
Qed.

Lemma used_entries_find s e :
  exe_wf s -> e ∈ used_entries (exes s) -> find s (pid e) (RIP e) = Some e.
Proof.
  intros W H. destruct (used_entries_lookup s e W H) as [U E].
  unfold find. now rewrite E, U, !Z.eqb_refl.
Qed.

(** Keys are distinct when equal keys mean equal positions. *)
Lemma used_keys_NoDup (slot : exe_info -> nat) l : forall i0,
  (forall i e, l !! i = Some e -> used e = true -> slot e = (i0 + i)%nat) ->
  (forall e e', key e = key e' -> slot e = slot e') ->
  NoDup (map key (used_entries l)).
Proof.
  induction l as [|e l IH]; intros i0 Hs Hk; [constructor|].
  rewrite used_entries_cons. assert (IHl : NoDup (map key (used_entries l))).
  { apply (IH (S i0)); [|easy]. intros i e' Hi U. rewrite (Hs (S i) e' Hi U). lia. }
  destruct (used e) eqn:U; [|easy]. cbn [map]. apply NoDup_cons. split; [|easy].
  intros Hin. apply list_elem_of_fmap in Hin as (e' & E & He').
  apply list_elem_of_filter in He' as [U' He']. apply list_elem_of_lookup in He' as [i Hi].
  pose proof (Hs 0%nat e eq_refl U). pose proof (Hs (S i) e' Hi U'). apply Hk in E. lia.
Qed.

Lemma dump_keys_NoDup s : exe_wf s -> NoDup (map key (used_entries (exes s))).
Proof.
  intros W. apply (used_keys_NoDup (fun e => get_exe (pid e) (RIP e)) _ 0).
  - exact (wf_slot s W).
  - unfold key. now intros e e' [= -> ->].
Qed.

(** ** Properties *)

Module BoostDemo.
Definition waiting : exe_info := set_status_code un_init (Demo.hot 0 0).
Definition l0 : lkm :=
  Lkm (stat_init 2) (Demo.table waiting) (KObj 0xffff888100000000 true 0) 1 true.
Definition d0 : dstate lkm := daemon_init l0.
Definition code : list Z := replicate 5000 0x90.

Lemma l0_wf : exe_wf (l_exe l0).
Proof. apply exe_wfb_sound. vm_compute. reflexivity. Qed.
End BoostDemo.

(** C2. Installing a block end to end: for a registered site and a non-empty
    [jit.bin] that fits the 160 pages, the daemon's upload leaves exactly the
    bytes of the file at the start of the block and every other byte as it
    was, makes the site ready to run and leaves all other sites alone. *)
Theorem upload_installs_block (shell : Shell) p r (d : dstate lkm) e content :
  read_file (commands d) (jit_path r) = Some content -> content <> [] ->
  Z.of_nat (length content) <= 4096 * num_pg ->
  attr_file (l_kobj (kernel d)) = true -> exe_wf (l_exe (kernel d)) ->
  find (l_exe (kernel d)) p r = Some e -> code_block e + 4096 * num_pg <= 2 ^ 64 ->
  exists es, write_sys (file := lkm_file) p r d = Ret (set_kernel (set_l_exe es (kernel d)) d) /\
    exe_wf es /\ ready es p r = Some (set_status_code normal e) /\
    (forall p' r', (p', r') <> (p, r) ->
       find es p' r' = find (l_exe (kernel d)) p' r') /\
    (forall i b, content !! i = Some b -> kmem es !! (code_block e + Z.of_nat i) = Some b) /\
    (forall x, x < code_block e \/ code_block e + Z.of_nat (length content) <= x ->
       kmem es !! x = kmem (l_exe (kernel d)) !! x).
Proof.
  intros Hc Hne Hl A W F B.
  destruct (upload_all (kernel d) p r e content A W F B Hl Hne) as (es & Hw & Fi).
  destruct Fi as [W2 _ F2 O2 I2 X2].
  rewrite (write_sys_spec _ _ d content Hc) by (unfold i_buf_size, num_pg in *; lia).
  rewrite Hw. exists es. do 2 (split; [easy|]). split; [|split; [easy|split; [|easy]]].
  - destruct (find_used _ _ _ _ F2) as (E & _ & Hp & Hr). unfold ready.
    now rewrite E, Hp, Hr, !Z.eqb_refl.
  - intros i b Hb. apply I2; [|easy]. now apply lookup_lt_Some in Hb.
Qed.

Lemma upload_installs_block_witness :
  exists es, @write_sys _ _ DaemonDemo.translator Demo.task Demo.site BoostDemo.d0 =
      Ret (set_kernel (set_l_exe es BoostDemo.l0) BoostDemo.d0) /\
    ready es Demo.task Demo.site = Some (Demo.hot 0 0) /\
    kmem es !! (Demo.block + 4999) = Some 0x90.
Proof.
  destruct (upload_installs_block DaemonDemo.translator Demo.task Demo.site BoostDemo.d0
    BoostDemo.waiting BoostDemo.code) as (es & H1 & _ & H2 & _ & H3 & _).
  - reflexivity.
  - discriminate.
  - vm_compute. congruence.
  - reflexivity.
  - exact BoostDemo.l0_wf.
  - vm_compute. reflexivity.
  - vm_compute. congruence.
  - exists es. split; [exact H1|]. split; [exact H2|]. now apply (H3 4999%nat).
Defined.

(** No half-written block is ever run: between the first and the last packet of
    an upload, [exe_on_call] finds nothing ready for the site. *)
Theorem upload_partial_not_ready (l : lkm) p r e content i :
  attr_file (l_kobj l) = true -> exe_wf (l_exe l) -> find (l_exe l) p r = Some e ->
  code_block e + 4096 * num_pg <= 2 ^ 64 -> Z.of_nat (length content) <= 4096 * num_pg ->
  (0 < i < n_packets (length content))%nat ->
  exists es, writes (file := lkm_file) (take i (packets p r content)) l = Some (set_l_exe es l) /\
    ready es p r = None.
Proof.
  intros A W F B Hl Hi.
  destruct (upload_prefix l p r e content A W F B Hl i) as (es & Hw & Fi); [lia|].
  exists es. split; [easy|]. unfold upload_status in Fi.
  rewrite !(proj2 (Nat.eqb_neq _ _)) in Fi by lia. destruct Fi as [_ _ F2 _ _ _].
  destruct (find_used _ _ _ _ F2) as (E & _ & _ & _). unfold ready. now rewrite E.
Qed.

Lemma upload_partial_not_ready_witness :
  exists es, writes (take 1 (packets Demo.task Demo.site BoostDemo.code)) BoostDemo.l0 =
      Some (set_l_exe es BoostDemo.l0) /\ ready es Demo.task Demo.site = None.
Proof.
  apply (upload_partial_not_ready BoostDemo.l0 Demo.task Demo.site BoostDemo.waiting).
  - reflexivity.
  - exact BoostDemo.l0_wf.
  - vm_compute. reflexivity.
  - vm_compute. congruence.
  - vm_compute. congruence.
  - vm_compute. lia.
Defined.

(** C1. A polling round reaches every site: when the translator delivers a block
    for each request and the fixed arrays of the daemon have room for 63 more
    entries, one round of the daemon against the module returns, every
    reported white-listed site that was waiting for a block (new, missing call
    or missing jump) is ready to run afterwards, and every other site is as
    before. *)
Theorem round_boosts_all_sites (shell : Shell) (d : dstate lkm) :
  (forall cmds r, exists c, read_file cmds (jit_path r) = Some c /\ c <> [] /\
     Z.of_nat (length c) <= 4096 * num_pg) ->
  attr_file (l_kobj (kernel d)) = true -> exe_wf (l_exe (kernel d)) ->
  Forall (fun e => code_block e + 4096 * num_pg <= 2 ^ 64)
    (used_entries (exes (l_exe (kernel d)))) ->
  (length (cmd_hist d) + 63 <= 1000)%nat -> length (records d) = 1024%nat ->
  0 <= cnts d -> cnts d + 63 <= 1024 ->
  exists d', check d = Ret d' /\
    (forall p r e, find (l_exe (kernel d)) p r = Some e ->
       find (l_exe (kernel d')) p r = Some (boosted e)) /\
    (forall p r, find (l_exe (kernel d)) p r = None -> find (l_exe (kernel d')) p r = None).
Proof.
  intros Ht A W B Hh Hr Hc1 Hc2. unfold check, read_sys, sys_read, lkm_file.
  rewrite A. pose proof (sysfs_show_spec (l_exe (kernel d)) (stat_flag (kernel d)) W) as Sh. rewrite Sh. cbn [obind].
  pose proof (wf_used _ W) as U1. pose proof (wf_added _ W) as U2.
  destruct (dump_entries _ _ _ _ W Sh) as [Lb Db]. rewrite take_ge, Db by lia.
  rewrite <- length_used_entries in U1.
  destruct (check_entries_boost Ht (used_entries (exes (l_exe (kernel d))))
    (set_kernel (set_stat_flag (s32 (stat_flag (kernel d) + 1)) (kernel d)) d))
    as (d' & E & F & O).
  - split; simpl; try easy; try lia; [|now apply dump_keys_NoDup].
    apply Forall_forall. intros e He. now apply used_entries_find.
  - exists d'. split; [exact E|]. simpl in O. rewrite Forall_forall in F. split.
    + intros p r e Hf. destruct (find_used _ _ _ _ Hf) as (Hl & U & <- & <-).
      apply F. apply list_elem_of_filter. split; [easy|]. eapply list_elem_of_lookup_2, Hl.
    + intros p r Hf. rewrite <- Hf. apply O. intros Hin.
      apply list_elem_of_fmap in Hin as (e & [= -> ->] & He).
      rewrite used_entries_find in Hf by easy. discriminate.
Qed.

Lemma round_boosts_all_sites_witness :
  exists d', @check _ _ DaemonDemo.translator BoostDemo.d0 = Ret d' /\
    find (l_exe (kernel d')) Demo.task Demo.site = Some (Demo.hot 0 0).
Proof.
  destruct (round_boosts_all_sites DaemonDemo.translator BoostDemo.d0)
    as (d' & H1 & H2 & _).
  - intros cmds r. exists BoostDemo.code. split; [reflexivity|].
    split; [discriminate|]. vm_compute. congruence.
  - reflexivity.
  - exact BoostDemo.l0_wf.
  - replace (used_entries (exes (l_exe (kernel BoostDemo.d0)))) with [BoostDemo.waiting]
      by (vm_compute; reflexivity).
    constructor; [vm_compute; congruence|constructor].
  - simpl. lia.
  - reflexivity.
  - simpl. lia.
  - simpl. lia.
  - exists d'. split; [exact H1|].
    rewrite (H2 Demo.task Demo.site BoostDemo.waiting) by (vm_compute; reflexivity).
    vm_compute. reflexivity.
Defined.
