(* ===== verification/Entry.v ===== *)
(** The system-call entry and exit path of the patched kernel,
    [kernel_modify/common.c], with the hook [zz_var] the module is called
    through.

    The rest of the kernel is a parameter: a call of a function outside
    [common.c] is a [kcall], answered by the environment with a return value
    and the state it leaves (it may also not return); every such call is
    recorded in [calls]. The build options are those of [kernel_modify/.config]
    (64-bit with IA32 emulation and seccomp, without context tracking,
    DEBUG_ENTRY and PROVE_LOCKING); the x32 ABI, which depends on the
    toolchain, is a parameter. *)
From Stdlib Require Import ZArith Lia Bool.
From stdpp Require Import base list sets.
From S2P Require Import Prelude Regs Exe.

Local Open Scope Z_scope.
Local Open Scope ub_scope.

(** ** Constants and small helpers of the kernel headers *)

Class EntryConsts := {
  TIF_SYSCALL_TRACE : Z; TIF_SYSCALL_EMU : Z; TIF_SECCOMP : Z; TIF_SYSCALL_TRACEPOINT : Z;
  TIF_SYSCALL_AUDIT : Z; TIF_SINGLESTEP : Z; TIF_SIGPENDING : Z; TIF_NOTIFY_RESUME : Z;
  TIF_UPROBE : Z; TIF_NEED_RESCHED : Z; TIF_USER_RETURN_NOTIFY : Z; TIF_PATCH_PENDING : Z;
  TIF_NEED_FPU_LOAD : Z;
  TIF_WORK_SYSCALL_ENTRY : Z;           (* the mask _TIF_WORK_SYSCALL_ENTRY *)
  TS_COMPAT : Z; TS_I386_REGS_POKED : Z;
  AUDIT_ARCH_I386 : Z; AUDIT_ARCH_X86_64 : Z;
  NR_syscalls : Z; X32_NR_syscalls : Z; IA32_NR_syscalls : Z; X32_SYSCALL_BIT : Z;
  CONFIG_X86_X32_ABI : bool;
  EFAULT : Z; USER32_CS : Z; USER_DS : Z; X86_EFLAGS_RF : Z; X86_EFLAGS_TF : Z;
  array_index_nospec : Z -> Z -> Z
}.

(** The mask of a flag. *)
Definition tif (bit : Z) : Z := Z.shiftl 1 bit.

(** ** Calls out of common.c *)

Inductive table : Type := sys_call_table | x32_sys_call_table | ia32_sys_call_table.

Record seccomp_data : Type := SeccompData {
  sd_nr : Z; sd_arch : Z; instruction_pointer : Z; sd_args : list Z }.

Inductive kcall : Type :=
| interrupts                            (* taken when local_irq_enable opens the gate *)
| tracehook_report_syscall_entry
| secure_computing (sd : seccomp_data)
| trace_sys_enter (id : Z)
| audit_syscall_entry (major a1 a2 a3 a4 : Z)
| schedule | uprobe_notify_resume | klp_update_patch_state | do_signal
| tracehook_notify_resume | rseq_handle_notify_resume | fire_user_return_notifiers
| addr_limit_user_check | fpregs_assert_state_consistent | switch_fpu_return
| user_enter_irqoff | mds_user_clear_cpu_buffers
| audit_syscall_exit | trace_sys_exit (r : Z) | tracehook_report_syscall_exit (step : bool)
| rseq_syscall
| syscall_fn (t : table) (nr : Z)       (* t[nr](regs) *)
| zz_hook (ts : Z).                     (* ( *zz_var )(regs, ts) *)

#[export] Instance table_eq_dec : EqDecision table.
Proof. solve_decision. Defined.

(** ** State *)

Record tstate (W : Type) : Type := TState {
  t_regs : pt_regs;
  ti_flags : Z;         (* thread_info.flags, unsigned long *)
  ti_status : Z;        (* thread_info.status, u32 *)
  irqs_on : bool;
  zz_set : bool;        (* zz_var != NULL *)
  world : W;            (* the rest of the kernel *)
  calls : list kcall    (* most recent first *)
}.
Arguments TState {W} _ _ _ _ _ _ _.
Arguments t_regs {W} _.
Arguments ti_flags {W} _.
Arguments ti_status {W} _.
Arguments irqs_on {W} _.
Arguments zz_set {W} _.
Arguments world {W} _.
Arguments calls {W} _.

Section Setters.
Context {W : Type}.
Implicit Types s : tstate W.
Definition set_t_regs v s := TState v (ti_flags s) (ti_status s) (irqs_on s) (zz_set s) (world s) (calls s).
Definition set_ti_flags v s := TState (t_regs s) v (ti_status s) (irqs_on s) (zz_set s) (world s) (calls s).
Definition set_ti_status v s := TState (t_regs s) (ti_flags s) v (irqs_on s) (zz_set s) (world s) (calls s).
Definition set_irqs v s := TState (t_regs s) (ti_flags s) (ti_status s) v (zz_set s) (world s) (calls s).
Definition set_calls v s := TState (t_regs s) (ti_flags s) (ti_status s) (irqs_on s) (zz_set s) (world s) v.
End Setters.

(** What the rest of the kernel does. [get_user32 s a] is the 32-bit value at the
    user address [a], [None] when the access faults. *)
Class KernelEnv (W : Type) := {
  ext : kcall -> tstate W -> option (Z * tstate W);
  ktime_get_boottime_ns : tstate W -> Z;
  in_ia32_syscall : tstate W -> bool;
  get_user32 : tstate W -> Z -> option Z;
  vdso : Z;                             (* current->mm->context.vdso *)
  sym_int80_landing_pad : Z             (* of vdso_image_32 *)
}.

(** ** Operations *)

Section Entry.
Context {W : Type} {consts : EntryConsts} {kernel : KernelEnv W}.
Implicit Types s : tstate W.

(** A call out: its answer, with the call recorded. *)
Definition kcall_ret (c : kcall) : M (tstate W) Z := fun s =>
  match ext c s with
  | Some (r, s') => Some (r, set_calls (c :: calls s) s')
  | None => None
  end.
Definition kcall_ (c : kcall) : M (tstate W) unit := kcall_ret c ;; ret tt.

Definition local_irq_enable : M (tstate W) unit :=
  modify (set_irqs true) ;; kcall_ interrupts.
Definition local_irq_disable : M (tstate W) unit := modify (set_irqs false).

Definition reg_of (r : reg) : M (tstate W) Z := gets (fun s => rget (t_regs s) r).
Definition set_reg (r : reg) (v : Z) : M (tstate W) unit :=
  modify (fun s => set_t_regs (rset r v (t_regs s)) s).

(** [u32 work = READ_ONCE(ti->flags)] *)
Definition read_flags : M (tstate W) Z := gets (fun s => u32 (ti_flags s)).

Definition enter_from_user_mode : M (tstate W) unit := ret tt.

Definition do_audit_syscall_entry (arch : Z) : M (tstate W) unit :=
  let* regs := gets t_regs in
  if arch =? AUDIT_ARCH_X86_64 then
    kcall_ (audit_syscall_entry (rget regs ORIG_AX) (rget regs DI) (rget regs SI)
              (rget regs DX) (rget regs R10))
  else
    kcall_ (audit_syscall_entry (rget regs ORIG_AX) (rget regs BX) (rget regs CX)
              (rget regs DX) (rget regs SI)).

(** Lines 93-115. *)
Definition fill_seccomp_data (arch : Z) (regs : pt_regs) : seccomp_data :=
  SeccompData (s32 (rget regs ORIG_AX)) arch (rget regs IP)
    (map (rget regs) (if arch =? AUDIT_ARCH_X86_64 then [DI; SI; DX; R10; R8; R9]
                      else [BX; CX; DX; SI; DI; BP])).

(** The [unsigned long] that the [long] result becomes in the callers; an
    [int] answer is sign-extended. *)
Definition syscall_trace_enter : M (tstate W) Z :=
  let* ia32 := gets in_ia32_syscall in
  let arch := if ia32 : bool then AUDIT_ARCH_I386 else AUDIT_ARCH_X86_64 in
  let* work := read_flags in
  let* stop :=
    if work .& Z.lor (tif TIF_SYSCALL_TRACE) (tif TIF_SYSCALL_EMU) then
      let* r := kcall_ret tracehook_report_syscall_entry in
      ret (ctrue (u64 r) || (work .& tif TIF_SYSCALL_EMU))
    else ret false in
  if stop : bool then ret (u64 (-1))
  else
    let* r :=
      if work .& tif TIF_SECCOMP then
        let* regs := gets t_regs in
        kcall_ret (secure_computing (fill_seccomp_data arch regs))
      else ret 0 in
    if u64 r =? u64 (-1) then ret (u64 r)
    else
      let* flags := gets ti_flags in
      let* nr := reg_of ORIG_AX in
      (when flags .& tif TIF_SYSCALL_TRACEPOINT do kcall_ (trace_sys_enter nr)) ;;
      do_audit_syscall_entry arch ;;
      let* nr := reg_of ORIG_AX in
      ret (if ctrue (u64 r) then u64 r else nr).

Definition EXIT_TO_USERMODE_LOOP_FLAGS : Z :=
  Z.lor (tif TIF_SIGPENDING) (Z.lor (tif TIF_NOTIFY_RESUME) (Z.lor (tif TIF_UPROBE)
    (Z.lor (tif TIF_NEED_RESCHED)
       (Z.lor (tif TIF_USER_RETURN_NOTIFY) (tif TIF_PATCH_PENDING))))).

(** Lines 145-173: one round, with the flags that ask for the next one. *)
Definition exit_round (cached_flags : Z) : M (tstate W) Z :=
  local_irq_enable ;;
  (when cached_flags .& tif TIF_NEED_RESCHED do kcall_ schedule) ;;
  (when cached_flags .& tif TIF_UPROBE do kcall_ uprobe_notify_resume) ;;
  (when cached_flags .& tif TIF_PATCH_PENDING do kcall_ klp_update_patch_state) ;;
  (when cached_flags .& tif TIF_SIGPENDING do kcall_ do_signal) ;;
  (when cached_flags .& tif TIF_NOTIFY_RESUME do
     (modify (fun s => set_ti_flags (Z.ldiff (ti_flags s) (tif TIF_NOTIFY_RESUME)) s) ;;
      kcall_ tracehook_notify_resume ;;
      kcall_ rseq_handle_notify_resume)) ;;
  (when cached_flags .& tif TIF_USER_RETURN_NOTIFY do kcall_ fire_user_return_notifiers) ;;
  local_irq_disable ;;
  read_flags.

Fixpoint exit_to_usermode_loop (fuel : nat) (cached_flags : Z) : M (tstate W) unit :=
  match fuel with
  | O => diverge
  | S fuel =>
      let* cached_flags := exit_round cached_flags in
      if negb (cached_flags .& EXIT_TO_USERMODE_LOOP_FLAGS) then ret tt
      else exit_to_usermode_loop fuel cached_flags
  end.

Definition prepare_exit_to_usermode (fuel : nat) : M (tstate W) unit :=
  kcall_ addr_limit_user_check ;;
  let* cached_flags := read_flags in
  (when cached_flags .& EXIT_TO_USERMODE_LOOP_FLAGS do
     exit_to_usermode_loop fuel cached_flags) ;;
  let* cached_flags := read_flags in
  kcall_ fpregs_assert_state_consistent ;;
  (when cached_flags .& tif TIF_NEED_FPU_LOAD do kcall_ switch_fpu_return) ;;
  modify (fun s => set_ti_status (Z.ldiff (ti_status s) (Z.lor TS_COMPAT TS_I386_REGS_POKED)) s) ;;
  kcall_ user_enter_irqoff ;;
  kcall_ mds_user_clear_cpu_buffers.

Definition SYSCALL_EXIT_WORK_FLAGS : Z :=
  Z.lor (tif TIF_SYSCALL_TRACE) (Z.lor (tif TIF_SYSCALL_AUDIT)
    (Z.lor (tif TIF_SINGLESTEP) (tif TIF_SYSCALL_TRACEPOINT))).

Definition syscall_slow_exit_work (cached_flags : Z) : M (tstate W) unit :=
  kcall_ audit_syscall_exit ;;
  let* ax := reg_of AX in
  (when cached_flags .& tif TIF_SYSCALL_TRACEPOINT do kcall_ (trace_sys_exit ax)) ;;
  let step := Z.land cached_flags (Z.lor (tif TIF_SINGLESTEP) (tif TIF_SYSCALL_EMU))
              =? tif TIF_SINGLESTEP in
  when step || (cached_flags .& tif TIF_SYSCALL_TRACE) do
    kcall_ (tracehook_report_syscall_exit step).

Definition syscall_return_slowpath (fuel : nat) : M (tstate W) unit :=
  let* cached_flags := read_flags in
  kcall_ rseq_syscall ;;
  (when cached_flags .& SYSCALL_EXIT_WORK_FLAGS do syscall_slow_exit_work cached_flags) ;;
  local_irq_disable ;;
  prepare_exit_to_usermode fuel.

(** [regs->ax = t[nr](regs)] *)
Definition run_syscall (t : table) (nr : Z) : M (tstate W) unit :=
  let* ax := kcall_ret (syscall_fn t nr) in
  set_reg AX (u64 ax).

(** Lines 294-307. *)
Definition dispatch_64 (nr : Z) : M (tstate W) unit :=
  let* flags := gets ti_flags in
  let* nr := if flags .& TIF_WORK_SYSCALL_ENTRY then syscall_trace_enter else ret nr in
  if nr <? NR_syscalls then run_syscall sys_call_table (array_index_nospec nr NR_syscalls)
  else if CONFIG_X86_X32_ABI && (nr .& X32_SYSCALL_BIT) &&
          (Z.ldiff nr X32_SYSCALL_BIT <? X32_NR_syscalls) then
    run_syscall x32_sys_call_table
      (array_index_nospec (Z.ldiff nr X32_SYSCALL_BIT) X32_NR_syscalls)
  else ret tt.

Definition do_syscall_64 (fuel : nat) (nr : Z) : M (tstate W) unit :=
  let* ts := gets ktime_get_boottime_ns in
  enter_from_user_mode ;;
  local_irq_enable ;;
  dispatch_64 nr ;;
  let* hook := gets zz_set in
  (when hook do kcall_ (zz_hook ts)) ;;
  syscall_return_slowpath fuel.

Definition do_syscall_32_irqs_on (fuel : nat) : M (tstate W) unit :=
  let* orig_ax := reg_of ORIG_AX in
  let nr := u32 orig_ax in
  modify (fun s => set_ti_status (Z.lor (ti_status s) TS_COMPAT) s) ;;
  let* flags := gets ti_flags in
  let* nr := if flags .& TIF_WORK_SYSCALL_ENTRY then
               let* nr := syscall_trace_enter in ret (u32 nr)
             else ret nr in
  (when nr <? IA32_NR_syscalls do
     run_syscall ia32_sys_call_table (array_index_nospec nr IA32_NR_syscalls)) ;;
  syscall_return_slowpath fuel.

Definition do_int80_syscall_32 (fuel : nat) : M (tstate W) unit :=
  enter_from_user_mode ;;
  local_irq_enable ;;
  do_syscall_32_irqs_on fuel.

(** Writing the low half of a register. *)
Definition set_low32 (v old : Z) : Z := Z.lor (Z.ldiff old (2 ^ 32 - 1)) (u32 v).

(** The result 0 (IRET) or 1 (SYSRETL). *)
Definition do_fast_syscall_32 (fuel : nat) : M (tstate W) Z :=
  let landing_pad := u64 (vdso + sym_int80_landing_pad) in
  set_reg IP landing_pad ;;
  enter_from_user_mode ;;
  local_irq_enable ;;
  let* sp := reg_of SP in
  let* bp := reg_of BP in
  let* arg := gets (fun s => get_user32 s (u32 sp)) in
  match arg with
  | None =>                             (* the macro clears the destination *)
      set_reg BP (set_low32 0 bp) ;;
      local_irq_disable ;;
      set_reg AX (u64 (- EFAULT)) ;;
      prepare_exit_to_usermode fuel ;;
      ret 0
  | Some v =>
      set_reg BP (set_low32 v bp) ;;
      do_syscall_32_irqs_on fuel ;;
      let* regs := gets t_regs in
      ret (if (rget regs CS =? USER32_CS) && (rget regs SS =? USER_DS) &&
              (rget regs IP =? landing_pad) &&
              (Z.land (rget regs FLAGS) (Z.lor X86_EFLAGS_RF X86_EFLAGS_TF) =? 0)
           then 1 else 0)
  end.
End Entry.

(** ** What the code relies on *)

Definition exit_bits {consts : EntryConsts} : list Z :=
  [TIF_SIGPENDING; TIF_NOTIFY_RESUME; TIF_UPROBE; TIF_NEED_RESCHED;
   TIF_USER_RETURN_NOTIFY; TIF_PATCH_PENDING].

(** Flags are distinct bits of a 32-bit word; the tables are smaller than the
    x32 bit; [array_index_nospec] is the identity on valid indices. *)
Class EntryConstsOk (consts : EntryConsts) : Prop := {
  exit_bits_range : Forall (fun b => 0 <= b < 32) exit_bits;
  exit_bits_distinct : NoDup exit_bits;
  entry_bits_range : Forall (fun b => 0 <= b < 32)
    [TIF_SYSCALL_TRACE; TIF_SYSCALL_EMU; TIF_SECCOMP];
  x32_bit : X32_SYSCALL_BIT = 2 ^ 30;
  nr_bounds : 0 <= NR_syscalls <= 2 ^ 30 /\ 0 <= X32_NR_syscalls <= 2 ^ 30;
  nospec_valid : forall i n, 0 <= i < n -> array_index_nospec i n = i
}.

(** Pending work of the exit loop. *)
Definition exit_work {W : Type} {consts : EntryConsts} (s : tstate W) : Z :=
  Z.land (ti_flags s) EXIT_TO_USERMODE_LOOP_FLAGS.

(** A state from which the assembly code may switch to user mode. *)
Definition user_ready {W : Type} {consts : EntryConsts} (s : tstate W) : Prop :=
  irqs_on s = false /\ exit_work s = 0 /\
  Z.land (ti_status s) (Z.lor TS_COMPAT TS_I386_REGS_POKED) = 0.

(** The last calls before user mode run with IRQs off: they do not open the
    gate, and those after the exit loop raise no new work. *)
Class LateCallsOk {W : Type} {consts : EntryConsts} (kernel : KernelEnv W) : Prop := {
  late_irqs : forall c s r s',
    c ∈ [addr_limit_user_check; fpregs_assert_state_consistent; switch_fpu_return;
         user_enter_irqoff; mds_user_clear_cpu_buffers] ->
    ext c s = Some (r, s') -> irqs_on s' = irqs_on s;
  late_work : forall c s r s',
    c ∈ [fpregs_assert_state_consistent; switch_fpu_return; user_enter_irqoff;
         mds_user_clear_cpu_buffers] ->
    ext c s = Some (r, s') ->
    exit_work s' = exit_work s /\ ti_status s' = ti_status s
}.

(** ** Lemmas on flag words *)

Lemma tif_testbit b i : 0 <= b -> 0 <= i -> Z.testbit (tif b) i = (i =? b).
Proof.
  intros Hb Hi. unfold tif. rewrite Z.shiftl_1_l.
  rewrite Z.pow2_bits_eqb by easy. apply Z.eqb_sym.
Qed.

Lemma land_tif x b : 0 <= b -> (x .& tif b) = Z.testbit x b.
Proof.
  intros Hb. destruct (Z.testbit x b) eqn:E.
  - apply ctrue_true. intros H. assert (T : Z.testbit (Z.land x (tif b)) b = false)
      by (rewrite H; apply Z.bits_0).
    rewrite Z.land_spec, tif_testbit, Z.eqb_refl, E in T by lia. discriminate.
  - apply ctrue_false. apply Z.bits_inj'. intros i Hi.
    rewrite Z.land_spec, tif_testbit, Z.bits_0 by lia.
    destruct (Z.eqb_spec i b) as [->|]; [now rewrite E|apply andb_false_r].
Qed.

Lemma u32_testbit x i : 0 <= i < 32 -> Z.testbit (u32 x) i = Z.testbit x i.
Proof. intros H. unfold u32. now apply Z.mod_pow2_bits_low. Qed.

Section ExitMask.
Context {consts : EntryConsts} {ok : EntryConstsOk consts}.

Lemma exit_bit_range b : b ∈ exit_bits -> 0 <= b < 32.
Proof. intros H. pose proof exit_bits_range as F. rewrite Forall_forall in F. auto. Qed.

Lemma exit_mask_testbit i :
  0 <= i ->
  Z.testbit EXIT_TO_USERMODE_LOOP_FLAGS i = existsb (Z.eqb i) exit_bits.
Proof.
  intros Hi. pose proof exit_bits_range as F. unfold exit_bits in *.
  repeat (apply Forall_cons in F as [? F]).
  unfold EXIT_TO_USERMODE_LOOP_FLAGS. rewrite !Z.lor_spec, !tif_testbit by lia.
  cbn [existsb]. now rewrite orb_false_r.
Qed.

Lemma exit_mask_in b : b ∈ exit_bits -> Z.testbit EXIT_TO_USERMODE_LOOP_FLAGS b = true.
Proof.
  intros H. pose proof (exit_bit_range b H). rewrite exit_mask_testbit by lia.
  apply existsb_exists. exists b. split; [now apply list_elem_of_In|apply Z.eqb_refl].
Qed.

(** No work is pending when no bit of the mask is set. *)
Lemma exit_work_zero x :
  (forall b, b ∈ exit_bits -> Z.testbit x b = false) ->
  Z.land x EXIT_TO_USERMODE_LOOP_FLAGS = 0.
Proof.
  intros H. apply Z.bits_inj'. intros i Hi.
  rewrite Z.land_spec, exit_mask_testbit, Z.bits_0 by easy.
  destruct (existsb (Z.eqb i) exit_bits) eqn:E; [|apply andb_false_r].
  apply existsb_exists in E as (b & Hb & ->%Z.eqb_eq). rewrite H; [easy|].
  now apply list_elem_of_In.
Qed.

Lemma exit_work_bit x b :
  Z.land x EXIT_TO_USERMODE_LOOP_FLAGS = 0 -> b ∈ exit_bits -> Z.testbit x b = false.
Proof.
  intros H Hb. assert (T : Z.testbit (Z.land x EXIT_TO_USERMODE_LOOP_FLAGS) b = false)
    by (rewrite H; apply Z.bits_0).
  rewrite Z.land_spec, exit_mask_in, andb_true_r in T; easy.
Qed.

Lemma exit_work_u32 x :
  Z.land (u32 x) EXIT_TO_USERMODE_LOOP_FLAGS = Z.land x EXIT_TO_USERMODE_LOOP_FLAGS.
Proof.
  apply Z.bits_inj'. intros i Hi. rewrite !Z.land_spec, exit_mask_testbit by easy.
  destruct (existsb (Z.eqb i) exit_bits) eqn:E; [|now rewrite !andb_false_r].
  apply existsb_exists in E as (b & Hb & ->%Z.eqb_eq).
  rewrite u32_testbit; [easy|]. apply exit_bit_range. now apply list_elem_of_In.
Qed.
End ExitMask.

(** ** The way back to user mode *)

Section ExitFacts.
Context {W : Type} {consts : EntryConsts} {kernel : KernelEnv W}.
Context {consts_ok : EntryConstsOk consts} {late : LateCallsOk kernel}.
Implicit Types s : tstate W.

Lemma kcall_triple c (P Q : tstate W -> Prop) :
  (forall s r s', P s -> ext c s = Some (r, s') -> Q (set_calls (c :: calls s) s')) ->
  triple P (kcall_ c) (fun _ => Q).
Proof.
  intros H s a s' Hp E. unfold kcall_, kcall_ret, bind, ret in E.
  destruct (ext c s) as [[r s1]|] eqn:X; [|easy]. injection E as <- <-. eauto.
Qed.

Lemma triple_true {A : Type} (P : tstate W -> Prop) (m : M (tstate W) A) :
  triple P m (fun _ _ => True).
Proof. easy. Qed.

(** The loop is left with IRQs off and no work. *)
Lemma exit_loop_post fuel : forall flags P,
  triple P (exit_to_usermode_loop fuel flags)
    (fun _ s => irqs_on s = false /\ exit_work s = 0).
Proof.
  induction fuel as [|fuel IH]; intros flags P; [easy|]. cbn [exit_to_usermode_loop].
  eapply triple_bind with (R := fun f s => f = u32 (ti_flags s) /\ irqs_on s = false).
  - unfold exit_round. do 7 (eapply triple_bind; [apply triple_true|intros ?]).
    eapply triple_bind with (R := fun _ s => irqs_on s = false).
    + now apply triple_modify.
    + intros _. now apply triple_gets.
  - intros f. apply triple_if; intros E; [|apply IH].
    apply triple_ret. intros s [-> Hi]. split; [easy|]. apply negb_true_iff, ctrue_false in E.
    now rewrite exit_work_u32 in E.
Qed.

Lemma late_triple c (P : tstate W -> Prop) :
  c ∈ [fpregs_assert_state_consistent; switch_fpu_return; user_enter_irqoff;
       mds_user_clear_cpu_buffers] ->
  (forall s s', irqs_on s' = irqs_on s -> exit_work s' = exit_work s ->
     ti_status s' = ti_status s -> P s -> P s') ->
  triple P (kcall_ c) (fun _ => P).
Proof.
  intros Hc Hp. apply kcall_triple. intros s r s' H E.
  destruct (late_work c s r s' Hc E) as [H1 H2].
  assert (H3 : irqs_on s' = irqs_on s) by (eapply late_irqs, E; apply list_elem_of_further, Hc).
  eapply Hp; [..|exact H]; easy.
Qed.

Lemma prepare_exit_post fuel :
  triple (fun s => irqs_on s = false) (prepare_exit_to_usermode fuel) (fun _ => user_ready).
Proof.
  set (quiet := fun s => irqs_on s = false /\ exit_work s = 0).
  assert (Q : forall s s', irqs_on s' = irqs_on s -> exit_work s' = exit_work s ->
     ti_status s' = ti_status s -> quiet s -> quiet s')
    by (unfold quiet; intros; intuition congruence).
  assert (R : forall s s', irqs_on s' = irqs_on s -> exit_work s' = exit_work s ->
     ti_status s' = ti_status s -> user_ready s -> user_ready s')
    by (unfold user_ready; intros s s' -> -> ->; easy).
  unfold prepare_exit_to_usermode.
  eapply triple_bind with (R := fun _ s => irqs_on s = false).
  { apply kcall_triple. intros s r s' H E. simpl. rewrite <- H. eapply late_irqs, E. set_solver. }
  intros _. eapply triple_bind with (R := fun f s => irqs_on s = false /\ f = u32 (ti_flags s)).
  { now apply triple_gets. }
  intros f. eapply triple_bind with (R := fun _ => quiet).
  { apply triple_if; intros E; [apply exit_loop_post|]. apply triple_ret.
    intros s [H ->]. split; [easy|]. apply ctrue_false in E. now rewrite exit_work_u32 in E. }
  intros _. eapply triple_bind with (R := fun _ => quiet); [now apply triple_gets|].
  intros f2. apply triple_seq; [apply late_triple; [set_solver|exact Q]|]. intros _.
  apply triple_seq.
  { apply triple_if; intros _; [apply late_triple; [set_solver|exact Q]|now apply triple_ret]. }
  intros _. eapply triple_bind with (R := fun _ => user_ready).
  { apply triple_modify. intros s [H1 H2]. unfold user_ready, exit_work in *. simpl.
    rewrite land_ldiff_same. easy. }
  intros _. apply triple_seq; [apply late_triple; [set_solver|exact R]|]. intros _.
  apply late_triple; [set_solver|exact R].
Qed.

Lemma slowpath_post fuel P :
  triple P (syscall_return_slowpath fuel) (fun _ => user_ready).
Proof.
  unfold syscall_return_slowpath. do 3 (eapply triple_bind; [apply triple_true|intros ?]).
  eapply triple_bind with (R := fun _ s => irqs_on s = false).
  - now apply triple_modify.
  - intros _. apply prepare_exit_post.
Qed.

Lemma irqs_on_post fuel P :
  triple P (do_syscall_32_irqs_on fuel) (fun _ => user_ready).
Proof.
  unfold do_syscall_32_irqs_on. do 5 (eapply triple_bind; [apply triple_true|intros ?]).
  apply slowpath_post.
Qed.

Lemma do_syscall_64_ready fuel nr s s' :
  do_syscall_64 fuel nr s = Some (tt, s') -> user_ready s'.
Proof.
  apply (fun T => T s tt s' I). unfold do_syscall_64.
  do 6 (eapply triple_bind; [apply (triple_true (fun _ => True))|intros ?]). apply slowpath_post.
Qed.
End ExitFacts.

(** ** Which calls a piece of code can make *)

Definition logs {W A : Type} (P : kcall -> Prop) (m : M (tstate W) A) : Prop :=
  forall s a s', m s = Some (a, s') -> exists l, calls s' = l ++ calls s /\ Forall P l.

Section Logs.
Context {W : Type} {consts : EntryConsts} {kernel : KernelEnv W} (P : kcall -> Prop).

Lemma logs_ret {A} (a : A) : logs (W := W) P (ret a).
Proof. intros s a' s' [= <- <-]. now exists []. Qed.
Lemma logs_gets {A} (f : tstate W -> A) : logs P (gets f).
Proof. intros s a' s' [= <- <-]. now exists []. Qed.
Lemma logs_modify (f : tstate W -> tstate W) :
  (forall s, calls (f s) = calls s) -> logs P (modify f).
Proof. intros H s a' s' [= <- <-]. exists []. now rewrite H. Qed.
Lemma logs_diverge {A} : logs (W := W) (A := A) P diverge.
Proof. easy. Qed.
Lemma logs_kcall_ret c : P c -> logs P (kcall_ret c).
Proof.
  intros H s a s' E. unfold kcall_ret in E. destruct (ext c s) as [[r s1]|]; [|easy].
  injection E as <- <-. exists [c]. split; [easy|]. now repeat constructor.
Qed.
Lemma logs_bind {A B} (m : M (tstate W) A) (k : A -> M (tstate W) B) :
  logs P m -> (forall a, logs P (k a)) -> logs P (bind m k).
Proof.
  intros Hm Hk s b s' E. apply bind_inv in E as (a & s1 & E1 & E2).
  apply Hm in E1 as (l1 & L1 & F1). apply Hk in E2 as (l2 & L2 & F2).
  exists (l2 ++ l1). rewrite L2, L1, app_assoc. split; [easy|]. now apply Forall_app.
Qed.
Lemma logs_kcall c : P c -> logs P (kcall_ c).
Proof. intros H. apply logs_bind; [now apply logs_kcall_ret|intros; apply logs_ret]. Qed.
Lemma logs_if {A} (b : bool) (m1 m2 : M (tstate W) A) :
  logs P m1 -> logs P m2 -> logs P (if b then m1 else m2).
Proof. now destruct b. Qed.
End Logs.

Create HintDb logs discriminated.
#[export] Hint Resolve logs_ret logs_gets logs_diverge logs_kcall_ret logs_kcall logs_bind
  logs_if : logs.
#[export] Hint Extern 2 (logs _ (modify _)) => (apply logs_modify; reflexivity) : logs.

Definition is_hook (c : kcall) : Prop := match c with zz_hook _ => True | _ => False end.
Definition is_syscall (c : kcall) : Prop := match c with syscall_fn _ _ => True | _ => False end.
#[export] Instance is_syscall_dec c : Decision (is_syscall c).
Proof. destruct c; simpl; apply _. Defined.

(** Neither the hook nor a system-call handler. *)
Definition plain (c : kcall) : Prop := ~ is_hook c /\ ~ is_syscall c.
#[export] Hint Extern 1 (plain _) => (split; intros []) : logs.

Section LogFacts.
Context {W : Type} {consts : EntryConsts} {kernel : KernelEnv W}.

Ltac log_auto := auto 20 with logs.

Lemma irq_enable_logs : logs (W := W) plain local_irq_enable.
Proof. unfold local_irq_enable. log_auto. Qed.

Lemma trace_enter_logs : logs (W := W) plain syscall_trace_enter.
Proof.
  unfold syscall_trace_enter, do_audit_syscall_entry, read_flags, reg_of.
  repeat (apply logs_bind || intros || apply logs_if); log_auto.
Qed.

Lemma exit_loop_logs fuel : forall f, logs (W := W) plain (exit_to_usermode_loop fuel f).
Proof.
  induction fuel as [|fuel IH]; intros f; [apply logs_diverge|].
  cbn [exit_to_usermode_loop].
  unfold exit_round, local_irq_disable, local_irq_enable, read_flags.
  repeat (apply logs_bind || intros || apply logs_if); log_auto.
Qed.

Lemma slowpath_logs fuel : logs (W := W) plain (syscall_return_slowpath fuel).
Proof.
  unfold syscall_return_slowpath, prepare_exit_to_usermode, syscall_slow_exit_work,
    local_irq_disable, read_flags, reg_of.
  repeat (apply logs_bind || intros || apply logs_if); auto using exit_loop_logs with logs.
Qed.

Lemma run_syscall_logs t nr (s s' : tstate W) :
  run_syscall t nr s = Some (tt, s') -> calls s' = syscall_fn t nr :: calls s.
Proof.
  intros H. apply bind_inv in H as (ax & s1 & E1 & E2). injection E2 as <-.
  unfold kcall_ret in E1. destruct (ext _ s) as [[r s2]|]; [|easy]. now injection E1 as <- <-.
Qed.

(** At most one handler runs, and it is the last call. *)
Lemma dispatch_logs nr (s s' : tstate W) :
  dispatch_64 nr s = Some (tt, s') ->
  exists h l, calls s' = h ++ l ++ calls s /\ Forall plain l /\
    (h = [] \/ exists t n, h = [syscall_fn t n]).
Proof.
  intros H. apply bind_inv in H as (flags & s1 & E1 & H). injection E1 as <- <-.
  apply bind_inv in H as (nr' & s1 & E1 & H).
  assert (L : exists l, calls s1 = l ++ calls s /\ Forall plain l).
  { destruct (ti_flags s .& _) in E1; [now apply trace_enter_logs in E1|].
    injection E1 as <- <-. now exists []. }
  destruct L as (l & L & F). clear E1. revert H. repeat case_if; intros H.
  3:{ injection H as <-. exists [], l. auto. }
  all: apply run_syscall_logs in H; rewrite L in H; eexists [_], l; split; [exact H|eauto].
Qed.
End LogFacts.

(** ** A kernel that settles *)

Definition keeps_work {W : Type} {consts : EntryConsts} (s s' : tstate W) : Prop :=
  forall b, b ∈ exit_bits -> Z.testbit (ti_flags s') b = true ->
  Z.testbit (ti_flags s) b = true.

(** The flag a handler of the exit loop takes care of. *)
Definition handler_bit {consts : EntryConsts} (c : kcall) : option Z :=
  match c with
  | schedule => Some TIF_NEED_RESCHED
  | uprobe_notify_resume => Some TIF_UPROBE
  | klp_update_patch_state => Some TIF_PATCH_PENDING
  | do_signal => Some TIF_SIGPENDING
  | fire_user_return_notifiers => Some TIF_USER_RETURN_NOTIFY
  | _ => None
  end.

(** Calls return; a handler clears its flag. New exit work may come up at any call,
    with the interrupts that arrive during it or because the call itself asks for it,
    and a handler may leave its flag set for the next round ([do_signal], with more
    signals): but not for ever. [backlog] bounds how often that still happens, and
    a call that raises work or leaves its flag has used some of it up. *)
Class KernelSettles {W : Type} {consts : EntryConsts} (kernel : KernelEnv W)
    (backlog : W -> nat) : Prop := {
  settles_returns : forall c s, exists r s', ext c s = Some (r, s');
  settles_work : forall c s r s', ext c s = Some (r, s') ->
    (backlog (world s') <= backlog (world s))%nat /\
    (keeps_work s s' \/ (backlog (world s') < backlog (world s))%nat);
  settles_clears : forall c b s r s', handler_bit c = Some b -> ext c s = Some (r, s') ->
    Z.testbit (ti_flags s') b = false \/ (backlog (world s') < backlog (world s))%nat
}.

Section Total.
Context {W : Type} {consts : EntryConsts} {kernel : KernelEnv W}.
Context {backlog : W -> nat}.
Context {consts_ok : EntryConstsOk consts} {settles : KernelSettles kernel backlog}.
Implicit Types s : tstate W.

(** From a backlog of at most [n], the operation returns, with no more. *)
Definition returns (n : nat) {A : Type} (m : M (tstate W) A) : Prop :=
  forall s, (backlog (world s) <= n)%nat ->
  exists a s', m s = Some (a, s') /\ (backlog (world s') <= n)%nat.

Lemma returns_ret n {A} (a : A) : returns n (ret a).
Proof. intros s H. now eexists _, _. Qed.
Lemma returns_gets n {A} (f : tstate W -> A) : returns n (gets f).
Proof. intros s H. now eexists _, _. Qed.
Lemma returns_modify n (f : tstate W -> tstate W) :
  (forall s, world (f s) = world s) -> returns n (modify f).
Proof. intros E s H. exists tt, (f s). now rewrite E. Qed.
Lemma returns_kcall_ret n c : returns n (kcall_ret c).
Proof.
  intros s H. unfold kcall_ret. destruct (settles_returns c s) as (r & s' & E). rewrite E.
  destruct (settles_work c s r s' E) as [L _]. eexists _, _. split; [reflexivity|]. simpl. lia.
Qed.
Lemma returns_bind n {A B} (m : M (tstate W) A) (k : A -> M (tstate W) B) :
  returns n m -> (forall a, returns n (k a)) -> returns n (bind m k).
Proof.
  intros Hm Hk s H. unfold bind. destruct (Hm s H) as (a & s1 & -> & H1). now apply Hk.
Qed.
Lemma returns_kcall n c : returns n (kcall_ c).
Proof. apply returns_bind; [apply returns_kcall_ret|intros; apply returns_ret]. Qed.
Lemma returns_if n {A} (b : bool) (m1 m2 : M (tstate W) A) :
  returns n m1 -> returns n m2 -> returns n (if b then m1 else m2).
Proof. now destruct b. Qed.

(** All pending work is listed in [rem] and was asked for by [f], or some of the
    backlog [n] has been used up. *)
Definition pend (n : nat) (rem : list Z) (f : Z) (s : tstate W) : Prop :=
  (backlog (world s) <= n)%nat /\
  ((forall b, b ∈ exit_bits -> Z.testbit (ti_flags s) b = true -> b ∈ rem /\ Z.testbit f b = true) \/
   (backlog (world s) < n)%nat).

Lemma pend_kcall n rem f c : triple (pend n rem f) (kcall_ c) (fun _ => pend n rem f).
Proof.
  apply kcall_triple. intros s r s' [L H] E. destruct (settles_work c s r s' E) as [L' K].
  split; [simpl; lia|]. destruct H as [H|H]; [|right; simpl; lia].
  destruct K as [K|K]; [|right; simpl; lia]. left. intros b Hb Ht. apply H; [easy|]. now apply K.
Qed.

(** A flag that is not set can be struck off the list. *)
Lemma pend_strike n rem f b s :
  pend n rem f s -> Z.testbit (ti_flags s) b = false \/ Z.testbit f b = false ->
  pend n (filter (fun x => x <> b) rem) f s.
Proof.
  intros [L [H|H]] N; (split; [exact L|]); [left|now right]. intros b' Hb' Ht.
  destruct (H b' Hb' Ht) as [H1 H2]. split; [|easy]. apply list_elem_of_filter.
  split; [|easy]. intros ->. destruct N; congruence.
Qed.

(** A handler strikes its flag off the list. *)
Lemma pend_handler n rem f c b :
  handler_bit c = Some b -> b ∈ exit_bits ->
  triple (pend n rem f) (when f .& tif b do kcall_ c)
    (fun _ => pend n (filter (fun x => x <> b) rem) f).
Proof.
  intros Hc Hb. rewrite land_tif by (apply exit_bit_range in Hb; lia).
  apply triple_if; intros E.
  - intros s a s' H X. pose proof (pend_kcall n rem f c s a s' H X) as H'. revert H H' X.
    unfold kcall_, kcall_ret, bind, ret. destruct (ext c s) as [[r s1]|] eqn:X; [|easy].
    intros [L _] H' [= _ <-]. destruct (settles_clears c b s r s1 Hc X) as [Z|Z].
    + apply pend_strike; [exact H'|]. now left.
    + split; [apply H'|]. right. simpl. lia.
  - apply triple_ret. intros s H. apply pend_strike; auto.
Qed.

Lemma pend_notify n rem f :
  triple (pend n rem f)
    (when f .& tif TIF_NOTIFY_RESUME do
       (modify (fun s => set_ti_flags (Z.ldiff (ti_flags s) (tif TIF_NOTIFY_RESUME)) s) ;;
        kcall_ tracehook_notify_resume ;; kcall_ rseq_handle_notify_resume))
    (fun _ => pend n (filter (fun x => x <> TIF_NOTIFY_RESUME) rem) f).
Proof.
  assert (Hb : TIF_NOTIFY_RESUME ∈ exit_bits) by (unfold exit_bits; set_solver).
  apply exit_bit_range in Hb. rewrite land_tif by lia. apply triple_if; intros E.
  - eapply triple_bind
      with (R := fun _ => pend n (filter (fun x => x <> TIF_NOTIFY_RESUME) rem) f);
      [apply triple_modify|intros _; apply triple_seq;
        [apply pend_kcall|intros _; apply pend_kcall]].
    intros s [L H]. apply pend_strike.
    + split; [exact L|]. destruct H as [H|H]; [left|now right]. intros b' Hb' Ht. apply H; [easy|].
      pose proof (exit_bit_range b' Hb'). simpl in Ht. rewrite Z.ldiff_spec in Ht. now apply andb_prop in Ht as [Ht _].
    + left. simpl. rewrite Z.ldiff_spec, tif_testbit, Z.eqb_refl by lia. apply andb_false_r.
  - apply triple_ret. intros s H. apply pend_strike; auto.
Qed.

(** A round started with the current flags finishes all work, or uses up some of the
    backlog. *)
Lemma exit_round_finishes n f :
  triple (fun s => f = u32 (ti_flags s) /\ (backlog (world s) <= n)%nat) (exit_round f)
    (fun f' s => f' = u32 (ti_flags s) /\ (exit_work s = 0 \/ (backlog (world s) < n)%nat)).
Proof.
  unfold exit_round, local_irq_enable.
  eapply triple_bind with (R := fun _ => pend n exit_bits f).
  { eapply triple_bind with (R := fun _ => pend n exit_bits f); [|intros _; apply pend_kcall].
    apply triple_modify. intros s [-> L]. split; [exact L|]. left. intros b Hb Ht. split; [easy|].
    rewrite u32_testbit by now apply exit_bit_range. exact Ht. }
  intros ?. eapply triple_bind; [apply pend_handler; [reflexivity|unfold exit_bits; set_solver]|].
  intros ?. eapply triple_bind; [apply pend_handler; [reflexivity|unfold exit_bits; set_solver]|].
  intros ?. eapply triple_bind; [apply pend_handler; [reflexivity|unfold exit_bits; set_solver]|].
  intros ?. eapply triple_bind; [apply pend_handler; [reflexivity|unfold exit_bits; set_solver]|].
  intros ?. eapply triple_bind; [apply pend_notify|].
  intros ?. eapply triple_bind; [apply pend_handler; [reflexivity|unfold exit_bits; set_solver]|].
  intros ?. eapply triple_bind with (R := fun _ s => exit_work s = 0 \/ (backlog (world s) < n)%nat).
  - apply triple_modify. intros s [_ [H|H]]; [left|now right]. apply exit_work_zero. intros b Hb.
    destruct (Z.testbit _ b) eqn:E; [|easy]. destruct (H b Hb E) as [Hr _].
    exfalso. revert Hr. unfold exit_bits.
    rewrite !list_elem_of_filter, !elem_of_cons, elem_of_nil. intuition congruence.
  - intros _. now apply triple_gets.
Qed.

Ltac rets := repeat match goal with
  | |- forall _, returns _ _ => intros ?
  | |- returns _ (ret _) => apply returns_ret
  | |- returns _ (gets _) => apply returns_gets
  | |- returns _ (modify _) => apply returns_modify; reflexivity
  | |- returns _ (kcall_ret _) => apply returns_kcall_ret
  | |- returns _ (kcall_ _) => apply returns_kcall
  | |- returns _ (bind _ _) => apply returns_bind
  | |- returns _ (if _ then _ else _) => apply returns_if
  end.

Lemma exit_round_returns n f : returns n (exit_round f).
Proof. unfold exit_round, local_irq_enable, local_irq_disable, read_flags. rets. Qed.

Lemma exit_round_reads f (P : tstate W -> Prop) :
  triple P (exit_round f) (fun f' s => f' = u32 (ti_flags s)).
Proof.
  unfold exit_round. do 8 (eapply triple_bind; [now apply triple_true|intros ?]).
  now apply triple_gets.
Qed.

(** With the current flags, one round more than the backlog is enough. *)
Lemma exit_loop_settles n : forall fuel f s,
  f = u32 (ti_flags s) -> (backlog (world s) <= n)%nat ->
  exists s', exit_to_usermode_loop (S (n + fuel)) f s = Some (tt, s') /\ (backlog (world s') <= n)%nat.
Proof.
  induction n as [|n IH]; intros fuel f s Hf L; cbn [exit_to_usermode_loop]; unfold bind at 1;
    destruct (exit_round_returns _ f s L) as (f1 & s1 & E1 & L1); rewrite E1;
    destruct (exit_round_finishes _ f s f1 s1 (conj Hf L) E1) as [H1 [H2|H2]].
  - rewrite H1, exit_work_u32. unfold exit_work in H2. rewrite H2. now exists s1.
  - lia.
  - rewrite H1, exit_work_u32. unfold exit_work in H2. rewrite H2. now exists s1.
  - case_if; [now exists s1|]. destruct (IH fuel f1 s1 H1) as (s2 & E2 & L2); [lia|].
    exists s2. split; [exact E2|lia].
Qed.

(** Two rounds more from any flags. *)
Lemma exit_loop_returns n fuel f : returns n (exit_to_usermode_loop (S (S (n + fuel))) f).
Proof.
  intros s L. cbn [exit_to_usermode_loop]. unfold bind at 1.
  destruct (exit_round_returns n f s L) as (f1 & s1 & E1 & L1). rewrite E1.
  pose proof (exit_round_reads f (fun _ => True) s f1 s1 I E1) as H1. cbn beta in H1.
  case_if; [now exists tt, s1|]. exists tt. now apply (exit_loop_settles n fuel f1 s1).
Qed.

Lemma do_syscall_64_returns n fuel nr : returns n (do_syscall_64 (S (S (n + fuel))) nr).
Proof.
  unfold do_syscall_64, enter_from_user_mode, local_irq_enable, dispatch_64,
    syscall_trace_enter, do_audit_syscall_entry, run_syscall, set_reg,
    syscall_return_slowpath, syscall_slow_exit_work, prepare_exit_to_usermode,
    local_irq_disable, read_flags, reg_of.
  rets. apply exit_loop_returns.
Qed.
End Total.

(** ** The stock function

    The lines the patch removes from or leaves in [do_syscall_64]
    ([kernel_modify/linux-5.4.44.patch], 12-38): no time stamp, no hook. *)
Definition do_syscall_64_stock {W : Type} {consts : EntryConsts} {kernel : KernelEnv W}
    (fuel : nat) (nr : Z) : M (tstate W) unit :=
  enter_from_user_mode ;;
  local_irq_enable ;;
  dispatch_64 nr ;;
  syscall_return_slowpath fuel.

(** ** Properties *)

Module EntryDemo.
#[export] Instance consts : EntryConsts := {|
  TIF_SYSCALL_TRACE := 0; TIF_SYSCALL_EMU := 6; TIF_SECCOMP := 8; TIF_SYSCALL_TRACEPOINT := 28;
  TIF_SYSCALL_AUDIT := 7; TIF_SINGLESTEP := 4; TIF_SIGPENDING := 2; TIF_NOTIFY_RESUME := 1;
  TIF_UPROBE := 12; TIF_NEED_RESCHED := 3; TIF_USER_RETURN_NOTIFY := 11;
  TIF_PATCH_PENDING := 13; TIF_NEED_FPU_LOAD := 14; TIF_WORK_SYSCALL_ENTRY := 0x100001c1;
  TS_COMPAT := 2; TS_I386_REGS_POKED := 4;
  AUDIT_ARCH_I386 := 0x40000003; AUDIT_ARCH_X86_64 := 0xc000003e;
  NR_syscalls := 436; X32_NR_syscalls := 548; IA32_NR_syscalls := 436;
  X32_SYSCALL_BIT := 0x40000000; CONFIG_X86_X32_ABI := true;
  EFAULT := 14; USER32_CS := 0x23; USER_DS := 0x2b;
  X86_EFLAGS_RF := 0x10000; X86_EFLAGS_TF := 0x100;
  array_index_nospec i n := if (0 <=? i) && (i <? n) then i else 0 |}.

Lemma consts_ok : EntryConstsOk consts.
Proof.
  split; unfold exit_bits; simpl.
  - repeat constructor; lia.
  - apply (bool_decide_unpack _). vm_compute. exact I.
  - repeat constructor; lia.
  - reflexivity.
  - lia.
  - intros i n H. destruct (Z.leb_spec 0 i), (Z.ltb_spec i n); simpl; lia.
Qed.

(** A kernel whose handlers clear their flag, whose system calls return 7 and
    whose seccomp filter denies everything. *)
Definition answer (c : kcall) (s : tstate unit) : option (Z * tstate unit) :=
  let s' := match handler_bit c with
            | Some b => set_ti_flags (Z.clearbit (ti_flags s) b) s
            | None => s
            end in
  Some (match c with syscall_fn _ _ => 7 | secure_computing _ => -1 | _ => 0 end, s').

#[export] Instance kernel : KernelEnv unit := {|
  ext := answer; ktime_get_boottime_ns _ := 123456;
  in_ia32_syscall s := ctrue (Z.land (ti_status s) TS_COMPAT);
  get_user32 _ _ := None; vdso := 0xf7fc7000; sym_int80_landing_pad := 0xc99 |}.

Lemma late_ok : LateCallsOk kernel.
Proof.
  split; intros c s r s' Hc H; repeat (apply elem_of_cons in Hc as [->|Hc]);
    try (injection H as _ <-; auto); now apply elem_of_nil in Hc.
Qed.

(** The same kernel with [n] interrupts to come, each of which asks for the scheduler. *)
Definition answer_busy (c : kcall) (s : tstate nat) : option (Z * tstate nat) :=
  match c, world s with
  | interrupts, S n =>
      Some (0, TState (t_regs s) (Z.setbit (ti_flags s) TIF_NEED_RESCHED) (ti_status s) (irqs_on s)
                 (zz_set s) n (calls s))
  | _, _ =>
      let s' := match handler_bit c with
                | Some b => set_ti_flags (Z.clearbit (ti_flags s) b) s
                | None => s
                end in
      Some (match c with syscall_fn _ _ => 7 | secure_computing _ => -1 | _ => 0 end, s')
  end.

Definition busy : KernelEnv nat := {|
  ext := answer_busy; ktime_get_boottime_ns _ := 123456;
  in_ia32_syscall s := ctrue (Z.land (ti_status s) TS_COMPAT);
  get_user32 _ _ := None; vdso := 0xf7fc7000; sym_int80_landing_pad := 0xc99 |}.

Lemma busy_late_ok : LateCallsOk busy.
Proof.
  split; intros c s r s' Hc H; repeat (apply elem_of_cons in Hc as [->|Hc]);
    try (cbn in H; destruct (world s); injection H as _ <-; auto); now apply elem_of_nil in Hc.
Qed.

Lemma busy_settles : KernelSettles busy id.
Proof.
  assert (K : forall c s, (exists n s', c = interrupts /\ world s = S n /\
      ext (KernelEnv := busy) c s = Some (0, s') /\ world s' = n) \/
    ext (KernelEnv := busy) c s = Some (match c with syscall_fn _ _ => 7 | secure_computing _ => -1 | _ => 0 end,
      match handler_bit c with
      | Some b => set_ti_flags (Z.clearbit (ti_flags s) b) s
      | None => s
      end)).
  { intros c [rg fl st irq zz [|n] l]; destruct c; cbn; solve [right; reflexivity | left; eexists n, _; auto]. }
  split.
  - intros c s. destruct (K c s) as [(n & s' & _ & _ & E & _)|E]; eauto.
  - intros c s r s' H. destruct (K c s) as [(n & s1 & _ & E & X & Y)|X]; rewrite X in H; injection H as _ <-.
    + unfold id. lia.
    + split; [destruct (handler_bit c); simpl; lia|]. left.
      intros b Hb. destruct (handler_bit c) as [b'|]; [|easy]. simpl.
      rewrite Z.clearbit_eqb. now intros [H _]%andb_prop.
  - intros c b s r s' Hc H. destruct (K c s) as [(n & s1 & -> & _)|X]; [discriminate|].
    rewrite X, Hc in H. injection H as _ <-. left. apply Z.clearbit_eq.
Qed.

(** A task with a pending signal, inside a system call. *)
Definition s0 {W : Type} (flags : Z) (hook : bool) (w : W) : tstate W :=
  TState (rset ORIG_AX 1 Demo.regs) flags 0 false hook w [].
End EntryDemo.

(** C19. Leaving the kernel: whichever of the three entry points a system call came
    through, and whatever the rest of the kernel did meanwhile, when it
    returns interrupts are off, no exit work is pending and the marks of a
    32-bit system call are cleared. *)
Theorem entries_end_user_ready (W : Type) (consts : EntryConsts) (kernel : KernelEnv W)
    (ok : EntryConstsOk consts) (late : LateCallsOk kernel) fuel nr (s : tstate W) :
  (forall s', do_syscall_64 fuel nr s = Some (tt, s') -> user_ready s') /\
  (forall s', do_int80_syscall_32 fuel s = Some (tt, s') -> user_ready s') /\
  (forall r s', do_fast_syscall_32 fuel s = Some (r, s') -> user_ready s').
Proof.
  split; [|split].
  - intros s'. apply do_syscall_64_ready.
  - intros s' H. revert H. apply (fun T => T s tt s' I).
    unfold do_int80_syscall_32. do 2 (eapply triple_bind; [apply (triple_true (fun _ => True))|intros ?]).
    apply irqs_on_post.
  - intros r s' H. revert H. apply (fun T => T s r s' I).
    unfold do_fast_syscall_32.
    do 5 (eapply triple_bind; [apply (triple_true (fun _ => True))|intros ?]).
    eapply triple_bind; [apply triple_true|intros arg].
    destruct arg as [v|].
    + eapply triple_bind; [apply triple_true|intros ?].
      eapply triple_bind; [apply irqs_on_post|intros ?].
      eapply triple_bind; [now apply triple_gets with (Q := fun _ => user_ready)|intros ?].
      now apply triple_ret.
    + eapply triple_bind; [apply triple_true|intros ?].
      eapply triple_bind with (R := fun _ s => irqs_on s = false); [now apply triple_modify|intros ?].
      eapply triple_bind with (R := fun _ s => irqs_on s = false); [now apply triple_modify|intros ?].
      eapply triple_bind; [apply prepare_exit_post|intros ?]. now apply triple_ret.
Qed.

Lemma entries_end_user_ready_witness :
  exists s', @do_syscall_64 unit EntryDemo.consts EntryDemo.kernel 2 1 (EntryDemo.s0 4 true tt) = Some (tt, s') /\
    @user_ready unit EntryDemo.consts s'.
Proof.
  eexists. split; [vm_compute; reflexivity|].
  apply (proj1 (entries_end_user_ready unit EntryDemo.consts EntryDemo.kernel
    EntryDemo.consts_ok EntryDemo.late_ok 2 1 (EntryDemo.s0 4 true tt))).
  vm_compute. reflexivity.
Defined.

(** C18. A 64-bit system call completes: if every kernel function called returns (the
    task is not killed), the handlers of the exit loop clear the flag they handle, and
    new exit work, which interrupts and handlers may raise at any call, comes up at
    most [n] more times, then [do_syscall_64] returns, in a state ready for user mode;
    [n + 2] rounds of the exit loop are enough. *)
Theorem do_syscall_64_completes (W : Type) (consts : EntryConsts) (kernel : KernelEnv W)
    (backlog : W -> nat) (ok : EntryConstsOk consts) (late : LateCallsOk kernel)
    (settles : KernelSettles kernel backlog) n fuel nr (s : tstate W) :
  (backlog (world s) <= n)%nat ->
  exists s', do_syscall_64 (S (S (n + fuel))) nr s = Some (tt, s') /\ user_ready s'.
Proof.
  intros L. destruct (do_syscall_64_returns n fuel nr s L) as ([] & s' & H & _). exists s'. split; [easy|].
  now apply do_syscall_64_ready in H.
Qed.

Lemma do_syscall_64_completes_witness :
  exists s', @do_syscall_64 nat EntryDemo.consts EntryDemo.busy 7 1 (EntryDemo.s0 0x300e true 5%nat) = Some (tt, s') /\
    @user_ready nat EntryDemo.consts s'.
Proof.
  apply (do_syscall_64_completes nat EntryDemo.consts EntryDemo.busy id EntryDemo.consts_ok
    EntryDemo.busy_late_ok EntryDemo.busy_settles 5 0 1 (EntryDemo.s0 0x300e true 5%nat)).
  unfold id. cbn. lia.
Defined.

(** C17. The hook runs once per system call, at the right place: after the (at most
    one) handler of the system call has returned and before any exit work, and
    with the time stamp taken at entry; it does not run when the pointer is
    NULL after the handler returned. *)
Theorem hook_runs_once (W : Type) (consts : EntryConsts) (kernel : KernelEnv W)
    fuel nr (s s' : tstate W) :
  do_syscall_64 fuel nr s = Some (tt, s') ->
  exists s1 post handler pre,
    (local_irq_enable ;; dispatch_64 nr) s = Some (tt, s1) /\
    calls s1 = handler ++ pre ++ calls s /\
    calls s' = post ++ (if zz_set s1 then [zz_hook (ktime_get_boottime_ns s)] else []) ++ calls s1 /\
    Forall plain post /\ Forall plain pre /\
    (handler = [] \/ exists t n, handler = [syscall_fn t n]).
Proof.
  unfold do_syscall_64. intros H. apply bind_inv in H as (ts & s0 & E & H). injection E as <- <-.
  apply bind_inv in H as ([] & s0 & E & H). injection E as <-.
  apply bind_inv in H as ([] & s0 & E0 & H). apply bind_inv in H as ([] & s1 & E1 & H).
  apply bind_inv in H as (hook & s1' & E & H). injection E as <- <-.
  apply bind_inv in H as ([] & s2 & E2 & H).
  apply irq_enable_logs in E0 as I0. destruct I0 as (l0 & L0 & F0).
  apply dispatch_logs in E1 as I1. destruct I1 as (h & l1 & L1 & F1 & Hh).
  apply slowpath_logs in H as (post & L3 & F3).
  exists s1, post, h, (l1 ++ l0). unfold bind. rewrite E0.
  split; [exact E1|]. rewrite <- app_assoc, <- L0. split; [exact L1|].
  split; [|split; [easy|split; [now apply Forall_app|easy]]].
  rewrite L3. f_equal. destruct (zz_set s1); [|now injection E2 as <-].
  unfold kcall_, kcall_ret, bind in E2. destruct (ext _ s1) as [[r s3]|]; [|easy].
  now injection E2 as <-.
Qed.

Lemma hook_runs_once_witness :
  exists s', @do_syscall_64 unit EntryDemo.consts EntryDemo.kernel 2 1 (EntryDemo.s0 4 true tt) = Some (tt, s') /\
    exists post pre, calls s' = post ++ zz_hook 123456 :: pre.
Proof.
  eexists. split; [vm_compute; reflexivity|].
  match goal with |- exists post pre, calls ?s' = _ =>
    destruct (hook_runs_once unit EntryDemo.consts EntryDemo.kernel 2 1 (EntryDemo.s0 4 true tt) s')
      as (s1 & post & h & pre & E & _ & L & _)
  end.
  - vm_compute. reflexivity.
  - assert (Hz : zz_set s1 = true) by (vm_compute in E; now injection E as <-).
    rewrite Hz in L. exists post, (calls s1). exact L.
Defined.

(** With the hook pointer NULL the patched [do_syscall_64] behaves as the stock
    one: same result, same calls of the rest of the kernel. *)
Theorem unhooked_is_stock (W : Type) (consts : EntryConsts) (kernel : KernelEnv W)
    fuel nr (s : tstate W) :
  (forall s1, (local_irq_enable ;; dispatch_64 nr) s = Some (tt, s1) -> zz_set s1 = false) ->
  do_syscall_64 fuel nr s = do_syscall_64_stock fuel nr s.
Proof.
  intros H. unfold do_syscall_64, do_syscall_64_stock, enter_from_user_mode.
  unfold bind in *. cbn [gets ret] in *.
  destruct (local_irq_enable s) as [[[] s0]|]; [|easy].
  destruct (dispatch_64 nr s0) as [[[] s1]|]; [|easy]. now rewrite (H s1 eq_refl).
Qed.

Lemma unhooked_is_stock_witness :
  @do_syscall_64 unit EntryDemo.consts EntryDemo.kernel 2 1 (EntryDemo.s0 4 false tt) =
  @do_syscall_64_stock unit EntryDemo.consts EntryDemo.kernel 2 1 (EntryDemo.s0 4 false tt).
Proof.
  apply (unhooked_is_stock unit EntryDemo.consts EntryDemo.kernel).
  intros s1 H. vm_compute in H. now injection H as <-.
Defined.

(** A denied system call is not run: when the seccomp filter answers -1 for a
    task that is not traced, no handler of any table runs and the registers
    are as the filter left them. *)
Theorem seccomp_denial_skips_handler (W : Type) (consts : EntryConsts) (kernel : KernelEnv W)
    (ok : EntryConstsOk consts) nr (s s1 : tstate W) :
  (ti_flags s .& TIF_WORK_SYSCALL_ENTRY) = true ->
  Z.testbit (ti_flags s) TIF_SECCOMP = true ->
  Z.testbit (ti_flags s) TIF_SYSCALL_TRACE = false ->
  Z.testbit (ti_flags s) TIF_SYSCALL_EMU = false ->
  let sd := fill_seccomp_data (if in_ia32_syscall s then AUDIT_ARCH_I386 else AUDIT_ARCH_X86_64)
              (t_regs s) in
  ext (secure_computing sd) s = Some (-1, s1) ->
  dispatch_64 nr s = Some (tt, set_calls (secure_computing sd :: calls s) s1).
Proof.
  intros Hw Hs Ht He sd Hx. pose proof entry_bits_range as F.
  repeat (apply Forall_cons in F as [? F]). pose proof nr_bounds as [B1 B2].
  assert (T : syscall_trace_enter s =
              Some (u64 (-1), set_calls (secure_computing sd :: calls s) s1)).
  { unfold syscall_trace_enter, read_flags, bind, gets.
    assert (N : (u32 (ti_flags s) .& Z.lor (tif TIF_SYSCALL_TRACE) (tif TIF_SYSCALL_EMU)) = false).
    { apply ctrue_false. rewrite Z.land_lor_distr_r. apply Z.lor_eq_0_iff.
      split; apply ctrue_false; rewrite land_tif, u32_testbit by lia; easy. }
    rewrite N. cbn [ret]. rewrite land_tif, u32_testbit, Hs by lia.
    unfold kcall_ret. fold sd. rewrite Hx. reflexivity. }
  unfold dispatch_64, bind, gets. rewrite Hw, T. change (u64 (-1)) with (2 ^ 64 - 1).
  destruct (Z.ltb_spec (2 ^ 64 - 1) NR_syscalls); [lia|]. rewrite x32_bit.
  change (Z.ldiff (2 ^ 64 - 1) (2 ^ 30)) with (2 ^ 64 - 1 - 2 ^ 30).
  destruct (Z.ltb_spec (2 ^ 64 - 1 - 2 ^ 30) X32_NR_syscalls); [lia|].
  now rewrite andb_false_r.
Qed.

Lemma seccomp_denial_skips_handler_witness :
  exists sd s1, @dispatch_64 unit EntryDemo.consts EntryDemo.kernel 1 (EntryDemo.s0 0x100 true tt) =
    Some (tt, set_calls [secure_computing sd] s1).
Proof.
  eexists _, (EntryDemo.s0 0x100 true tt).
  apply (seccomp_denial_skips_handler unit EntryDemo.consts EntryDemo.kernel
    EntryDemo.consts_ok 1 (EntryDemo.s0 0x100 true tt)); vm_compute; reflexivity.
Defined.

(** What the SYSCALL instruction and the entry code hand to [do_syscall_64], for a
    caller with the registers [u]: the instruction saves the address behind
    itself, two bytes on, in RCX and the flags in R11; the entry code pushes
    them with the number in ORIG_AX and -ENOSYS in AX. *)
Definition syscall_entered (u k : pt_regs) : Prop :=
  wf_regs k /\
  forall r, rget k r =
    match r with
    | IP | CX => u64 (rget u IP + 2)
    | R11 => rget u FLAGS
    | ORIG_AX => rget u AX
    | AX => 2 ^ 64 - 38
    | _ => rget u r
    end.

(** The module's own entry does the same. *)
Lemma enter_syscall_entered u k : wf_regs u -> syscall_entered u k -> enter_syscall u = k.
Proof.
  intros Hu [Hk H]. apply regs_ext; [|easy|].
  - unfold enter_syscall. cbv zeta. repeat apply wf_rset; auto 10 with word.
  - intros r. rewrite H. unfold enter_syscall. cbv zeta.
    destruct r; repeat first
      [ rewrite rget_rset_eq by auto 10 with word | rewrite rget_rset_ne by congruence ]; easy.
Qed.

(** C20. A combined system call leaves the same registers as the system call it
    replaces: for a number inside the table, and a task without entry work,
    the module's inline entry followed by the handler agrees with a SYSCALL
    instruction followed by [do_syscall_64]'s dispatch, provided that both run
    the same handler. *)
Theorem inline_syscall_agrees (W : Type) (env : ExeEnv) (consts : EntryConsts)
    (kernel : KernelEnv W) (ok : EntryConstsOk consts) p e regs es es' regs' ax ax'
    (s s1 : tstate W) :
  let nr := rget regs AX in
  let fn := mem_read64 es (u64 (zz_sys_call_table es + 8 * nr)) in
  wf_regs regs -> nr < NR_syscalls -> NR_syscalls <= 437 ->
  (ti_flags s .& TIF_WORK_SYSCALL_ENTRY) = false -> syscall_entered regs (t_regs s) ->
  syscall_run (log (EvSyscall fn) es) fn (t_regs s) = (ax, regs', es') ->
  ext (syscall_fn sys_call_table nr) s = Some (ax', s1) ->
  t_regs s1 = regs' -> u64 ax' = ax -> exes es' !! p = Some e ->
  exists es2 s2,
    combined_syscall p regs es = Some (rset AX ax regs', es2) /\
    dispatch_64 nr s = Some (tt, s2) /\ t_regs s2 = rset AX ax regs'.
Proof.
  intros nr fn Hr Hn Hb Hw Hs Hrun Hext Hr1 Hax He.
  assert (On : rget (t_regs s) ORIG_AX = nr) by apply (proj2 Hs ORIG_AX).
  assert (Rn : 0 <= nr) by (apply (rget_range AX regs Hr)).
  assert (C : combined_syscall p regs es =
    Some (rset AX ax regs',
      set_exes (<[p := set_success_cnt (u64 (success_cnt e + 1)) e]> (exes es')) es')).
  { unfold combined_syscall. rewrite (enter_syscall_entered regs (t_regs s) Hr Hs), On. fold fn.
    destruct (Z.leb_spec nr 436); [|lia]. destruct (Z.leb_spec 0 nr); [|lia].
    cbn [andb]. rewrite Hrun. unfold with_exe. now rewrite He. }
  rewrite C. eexists _, _. split; [reflexivity|].
  unfold dispatch_64, bind, gets. rewrite Hw. cbn [ret].
  destruct (Z.ltb_spec nr NR_syscalls); [|lia]. rewrite nospec_valid by lia.
  unfold run_syscall, kcall_ret, bind. rewrite Hext. cbn [set_reg modify].
  split; [reflexivity|]. simpl. rewrite Hr1, Hax. easy.
Qed.

Lemma inline_syscall_agrees_witness :
  exists es2 s2,
    @combined_syscall (Demo.env 0) (get_exe Demo.task Demo.site) Demo.regs
      (Demo.table (Demo.hot 0 0)) = Some (rset AX 7 (enter_syscall Demo.regs), es2) /\
    @dispatch_64 unit EntryDemo.consts EntryDemo.kernel 1
      (set_t_regs (enter_syscall Demo.regs) (EntryDemo.s0 0 true tt)) = Some (tt, s2) /\
    t_regs s2 = rset AX 7 (enter_syscall Demo.regs).
Proof.
  eapply (inline_syscall_agrees unit (Demo.env 0) EntryDemo.consts EntryDemo.kernel
    EntryDemo.consts_ok (get_exe Demo.task Demo.site) (Demo.hot 0 0) Demo.regs
    (Demo.table (Demo.hot 0 0)) _ (enter_syscall Demo.regs) 7 7
    (set_t_regs (enter_syscall Demo.regs) (EntryDemo.s0 0 true tt))
    (set_t_regs (enter_syscall Demo.regs) (EntryDemo.s0 0 true tt))).
  - apply Demo.regs_wf.
  - reflexivity.
  - discriminate.
  - reflexivity.
  - split; [apply (bool_decide_unpack _); vm_compute; exact I|intros []; reflexivity].
  - vm_compute. reflexivity.
  - vm_compute. reflexivity.
  - reflexivity.
  - reflexivity.
  - vm_compute. reflexivity.
Defined.
