(* ===== verification/Paging.v ===== *)
(** The kernel page tables as [kernel_modify/fault.c] and
    [kernel_modify/pageattr.c] see them: memory of 64-bit entries, reached
    through the accessors of the kernel headers (parameters), and the table
    walk [lookup_address_in_pgd] of [pageattr.c]. *)
From Stdlib Require Import ZArith Lia Bool.
From stdpp Require Import base gmap.
From S2P Require Import Prelude.

Local Open Scope Z_scope.

(** The memory of the tables: entries by their address; a fresh one is 0. *)
Abbreviation ptmem := (gmap Z Z).
Definition rd (m : ptmem) (p : Z) : Z := default 0 (m !! p).

Inductive pg_level : Type :=
| PG_LEVEL_NONE | PG_LEVEL_4K | PG_LEVEL_2M | PG_LEVEL_1G | PG_LEVEL_512G.

#[export] Instance pg_level_eq_dec : EqDecision pg_level.
Proof. solve_decision. Defined.

(** Accessors of the headers. The [_offset] functions read the entry they are
    given a pointer to; [store_entry] is behind [set_pgd], [set_p4d], [set_pud],
    [set_pmd], [set_pte], [set_pte_atomic] and the [_clear] macros. *)
Class Paging := {
  pgtable_l5_enabled : bool;
  pgd_index : Z -> Z;
  init_mm_pgd : Z;
  p4d_offset : ptmem -> Z -> Z -> Z;
  pud_offset : ptmem -> Z -> Z -> Z;
  pmd_offset : ptmem -> Z -> Z -> Z;
  pte_offset_kernel : ptmem -> Z -> Z -> Z;
  pgd_none : Z -> bool; pgd_present : Z -> bool;
  p4d_none : Z -> bool; p4d_present : Z -> bool; p4d_large : Z -> bool;
  pud_none : Z -> bool; pud_present : Z -> bool; pud_large : Z -> bool;
  pmd_none : Z -> bool; pmd_present : Z -> bool; pmd_large : Z -> bool;
  pte_none : Z -> bool; pte_present : Z -> bool; pte_write : Z -> bool; pte_exec : Z -> bool;
  pgd_page_vaddr : Z -> Z; p4d_pfn : Z -> Z;
  store_entry : Z -> Z -> ptmem -> ptmem
}.

(** Documented behaviour of the accessors: with four levels the p4d level is
    folded into the pgd; otherwise an [_offset] depends on the table its entry
    points to and on the address only; a store changes the one entry. *)
Class PagingOk (paging : Paging) : Prop := {
  p4d_folded : forall m p a, pgtable_l5_enabled = false -> p4d_offset m p a = p;
  p4d_same_page : forall m m' p q a, pgtable_l5_enabled = true ->
    pgd_page_vaddr (rd m p) = pgd_page_vaddr (rd m' q) -> p4d_offset m p a = p4d_offset m' q a;
  pud_same_page : forall m m' p q a,
    p4d_pfn (rd m p) = p4d_pfn (rd m' q) -> pud_offset m p a = pud_offset m' q a;
  store_entry_insert : forall p v m, store_entry p v m = <[p := v]> m
}.

Section Lookup.
Context {paging : Paging}.

(** [pgd_t *pgd = base + pgd_index(address)] *)
Definition pgd_entry_of (base address : Z) : Z := base + 8 * pgd_index address.
Definition pgd_offset_k (address : Z) : Z := pgd_entry_of init_mm_pgd address.

(** The pointer ([None] is NULL) and the level. *)
Definition lookup_address_in_pgd (m : ptmem) (pgd address : Z) : option Z * pg_level :=
  if pgd_none (rd m pgd) then (None, PG_LEVEL_NONE)
  else
    let p4d := p4d_offset m pgd address in
    if p4d_none (rd m p4d) then (None, PG_LEVEL_NONE)
    else if p4d_large (rd m p4d) || negb (p4d_present (rd m p4d)) then (Some p4d, PG_LEVEL_512G)
    else
      let pud := pud_offset m p4d address in
      if pud_none (rd m pud) then (None, PG_LEVEL_512G)
      else if pud_large (rd m pud) || negb (pud_present (rd m pud)) then (Some pud, PG_LEVEL_1G)
      else
        let pmd := pmd_offset m pud address in
        if pmd_none (rd m pmd) then (None, PG_LEVEL_1G)
        else if pmd_large (rd m pmd) || negb (pmd_present (rd m pmd)) then (Some pmd, PG_LEVEL_2M)
        else (Some (pte_offset_kernel m pmd address), PG_LEVEL_4K).

Definition lookup_address (m : ptmem) (address : Z) : option Z * pg_level :=
  lookup_address_in_pgd m (pgd_offset_k address) address.
End Lookup.

Lemma rd_insert_eq m p v : rd (<[p := v]> m) p = v.
Proof. unfold rd. now rewrite lookup_insert_eq. Qed.
Lemma rd_insert_ne m p q v : p <> q -> rd (<[p := v]> m) q = rd m q.
Proof. intros H. unfold rd. now rewrite lookup_insert_ne. Qed.
