(* ===== verification/Fault.v ===== *)
(** The page-fault path of the patched kernel, [kernel_modify/fault.c], 64-bit
    part, with the hook through which a fault in a code block is to be handed
    to the module.

    As in [Entry.v] the rest of the kernel is a parameter: a call of a function
    outside [fault.c] that has an effect is an [fcall], answered by the
    environment and recorded; questions without effect are functions of the
    state. Build options as in [kernel_modify/.config]. *)
From Stdlib Require Import ZArith Lia Bool String.
From stdpp Require Import base list gmap.
From S2P Require Import Prelude Regs Exe Paging.

Local Open Scope Z_scope.
Local Open Scope ub_scope.

(** ** Constants of the kernel headers *)

Class FaultConsts := {
  X86_PF_PROT : Z; X86_PF_WRITE : Z; X86_PF_USER : Z; X86_PF_RSVD : Z; X86_PF_INSTR : Z;
  X86_PF_PK : Z;
  X86_TRAP_PF : Z; TASK_SIZE_MAX : Z; PAGE_SIZE : Z; PAGE_SHIFT : Z; THREAD_SIZE : Z;
  VSYSCALL_ADDR : Z; VMALLOC_START : Z; VMALLOC_END : Z; PGDIR_MASK : Z;
  MODULES_VADDR : Z; MODULES_END : Z; stext : Z; etext : Z; X86_VENDOR_AMD : Z;
  SIGSEGV : Z; SIGBUS : Z; SIGKILL : Z; SEGV_MAPERR : Z; SEGV_ACCERR : Z; SEGV_PKUERR : Z;
  BUS_ADRERR : Z; BUS_MCEERR_AR : Z; FUSER32_CS : Z; X86_EFLAGS_AC : Z; X86_EFLAGS_IF : Z;
  VM_FAULT_OOM : Z; VM_FAULT_SIGBUS : Z; VM_FAULT_MAJOR : Z; VM_FAULT_HWPOISON : Z;
  VM_FAULT_HWPOISON_LARGE : Z; VM_FAULT_SIGSEGV : Z; VM_FAULT_RETRY : Z; VM_FAULT_ERROR : Z;
  FAULT_FLAG_WRITE : Z; FAULT_FLAG_ALLOW_RETRY : Z; FAULT_FLAG_KILLABLE : Z;
  FAULT_FLAG_TRIED : Z; FAULT_FLAG_USER : Z; FAULT_FLAG_INSTRUCTION : Z;
  VM_READ : Z; VM_WRITE : Z; VM_EXEC : Z; VM_GROWSDOWN : Z;
  VM_FAULT_GET_HINDEX : Z -> Z; hstate_index_to_shift : Z -> Z
}.

(** [struct desc_ptr] and the fields of [struct ldttss_desc]. *)
Record desc_ptr : Type := DescPtr { desc_address : Z; desc_size : Z }.
Record ldttss_desc : Type := LdttssDesc {
  limit0 : Z; base0 : Z; base1 : Z; base2 : Z; limit1 : Z; base3 : Z }.

Record vma : Type := Vma { vm_start : Z; vm_flags : Z; vm_id : Z }.

(** What the kernel prints. *)
Inductive msg : Type :=
| msg_bad_pagetable (address : Z) | msg_stack_corrupted | msg_cr2 (address : Z)
| msg_errata93 | msg_mce_kill (address : Z)
| msg_segfault (address ip sp error_code : Z) | msg_vma_addr (ip : Z) | msg_opcodes
| msg_nx | msg_smep | msg_null_deref (address : Z) | msg_bad_address (address : Z)
| msg_access (user instr write user_regs : bool)
| msg_reason (error_code reason : Z)     (* 0 not present, 1 reserved bit, 2 pkey, 3 permission *)
| msg_tables (idt gdt : desc_ptr)
| msg_seg_null (name : string) | msg_seg_bounds (name : string) (index : Z)
| msg_seg_unreadable (name : string) (index : Z)
| msg_seg (name : string) (index base limit : Z)
| msg_pgd (v : Z) | msg_p4d (v : Z) | msg_pud (v : Z) | msg_pmd (v : Z)
| msg_pte (v : Z) | msg_nl | msg_bad
| msg_pmd_warning | msg_pk_warning.

Inductive perf_event : Type := PAGE_FAULTS | PAGE_FAULTS_MAJ | PAGE_FAULTS_MIN.

(** ** Calls out of fault.c *)

Inductive fcall : Type :=
| firq_enable                                (* interrupts taken after local_irq_enable *)
| kmmio_handler (addr : Z)
| kprobe_page_fault
| fixup_exception (error_code address : Z)
| force_sig_fault (sig code address : Z)
| force_sig_pkuerr (address pkey : Z)
| force_sig_mceerr (code address lsb : Z)
| call_UB_fault_address_space (fn address r13 : Z)
| call_UB_SFI_error_handler (fn error_type : Z)
| handle_stack_overflow (address : Z)
| efi_recover_from_page_fault (address : Z)
| oops_begin | die | oops_end (sig : Z)
| pr (m : msg)
| pagefault_out_of_memory
| sync_global_pgds (start end_ : Z)
| arch_flush_lazy_mmu_mode
| perf_sw_event (e : perf_event) (address : Z)
| emulate_vsyscall (error_code address : Z)
| down_read | up_read | might_sleep
| expand_stack (v : vma) (address : Z)
| handle_mm_fault (v : vma) (address flags : Z)
| exception_enter | exception_exit (prev_state : Z)
| trace_page_fault_user (address error_code : Z)
| trace_page_fault_kernel (address error_code : Z).

(** ** State *)

(** [mmap_sem]: how many times this task holds the semaphore for reading. *)
Record fstate (W : Type) : Type := FState {
  f_regs : pt_regs;
  mmap_sem : Z;
  trap_nr : Z; thread_error_code : Z; cr2 : Z;     (* tsk->thread *)
  maj_flt : Z; min_flt : Z;
  pagetable : ptmem;
  f_world : W;
  f_calls : list fcall                             (* most recent first *)
}.
Arguments FState {W} _ _ _ _ _ _ _ _ _ _.
Arguments f_regs {W} _.
Arguments mmap_sem {W} _.
Arguments trap_nr {W} _.
Arguments thread_error_code {W} _.
Arguments cr2 {W} _.
Arguments maj_flt {W} _.
Arguments min_flt {W} _.
Arguments pagetable {W} _.
Arguments f_world {W} _.
Arguments f_calls {W} _.

Section FaultSetters.
Context {W : Type}.
Implicit Types s : fstate W.
Definition set_f_regs v s := FState v (mmap_sem s) (trap_nr s) (thread_error_code s) (cr2 s)
  (maj_flt s) (min_flt s) (pagetable s) (f_world s) (f_calls s).
Definition set_mmap_sem v s := FState (f_regs s) v (trap_nr s) (thread_error_code s) (cr2 s)
  (maj_flt s) (min_flt s) (pagetable s) (f_world s) (f_calls s).
Definition set_thread t e c s := FState (f_regs s) (mmap_sem s) t e c
  (maj_flt s) (min_flt s) (pagetable s) (f_world s) (f_calls s).
Definition set_flt j n s := FState (f_regs s) (mmap_sem s) (trap_nr s) (thread_error_code s)
  (cr2 s) j n (pagetable s) (f_world s) (f_calls s).
Definition set_pagetable v s := FState (f_regs s) (mmap_sem s) (trap_nr s) (thread_error_code s)
  (cr2 s) (maj_flt s) (min_flt s) v (f_world s) (f_calls s).
Definition set_f_calls v s := FState (f_regs s) (mmap_sem s) (trap_nr s) (thread_error_code s)
  (cr2 s) (maj_flt s) (min_flt s) (pagetable s) (f_world s) v.
End FaultSetters.

(** What the rest of the kernel answers. [down_read_trylock] takes the
    semaphore on success, so it has its own entry; pointers of functions looked
    up by name are 0 when there is no such symbol. *)
Class FaultEnv (W : Type) := {
  fext : fcall -> fstate W -> option (Z * fstate W);
  down_read_trylock : fstate W -> bool;
  is_kmmio_active : fstate W -> bool;
  user_mode : pt_regs -> bool;
  user_64bit_mode : pt_regs -> bool;
  probe_kernel_byte : fstate W -> Z -> option Z;   (* probe_kernel_address of a char; None: fault *)
  probe_kernel_long : fstate W -> Z -> option Z;
  convert_ip_to_linear : fstate W -> Z;
  read_cr3_va : fstate W -> Z;                     (* __va(read_cr3_pa()) *)
  x86_vendor : Z; x86_family : Z;                  (* boot_cpu_data *)
  in_interrupt : fstate W -> bool;
  sig_on_uaccess_err : fstate W -> bool;
  kallsyms_lookup_name : string -> Z;
  is_vmalloc_addr : Z -> bool;
  task_stack : Z;
  task_stack_end_corrupted : fstate W -> bool;
  oops_may_print : fstate W -> bool;
  store_idt : desc_ptr; native_store_gdt : desc_ptr; store_ldt : Z; store_tr : Z;
  probe_kernel_desc : fstate W -> Z -> option ldttss_desc;
  smep_enabled : bool; pgd_user : Z -> bool;       (* pgd_flags & _PAGE_USER *)
  show_unhandled_signals : bool;
  unhandled_signal : fstate W -> Z -> bool;
  printk_ratelimit : fstate W -> bool;
  fatal_signal_pending : fstate W -> bool;
  has_ospke : bool; has_smap : bool;
  arch_vma_access_permitted : fstate W -> vma -> bool -> bool -> bool -> bool;
  vma_pkey : vma -> Z;
  faulthandler_disabled : fstate W -> bool;
  has_mm : fstate W -> bool;                       (* current->mm != NULL *)
  search_exception_tables : Z -> bool;
  find_vma : fstate W -> Z -> option vma;
  trace_pagefault_enabled : fstate W -> bool
}.

(** ** Operations *)

Section Fault.
Context {W : Type} {consts : FaultConsts} {paging : Paging} {kernel : FaultEnv W}.
Abbreviation FM := (M (fstate W)).
Implicit Types s : fstate W.

Definition fcall_ret (c : fcall) : FM Z := fun s =>
  match fext c s with
  | Some (r, s') => Some (r, set_f_calls (c :: f_calls s) s')
  | None => None
  end.
Definition fcall_ (c : fcall) : FM unit := fcall_ret c ;; ret tt.

Definition freg (r : reg) : FM Z := gets (fun s => rget (f_regs s) r).
Definition set_ip (v : Z) : FM unit := modify (fun s => set_f_regs (rset IP v (f_regs s)) s).
Definition in_user_mode : FM bool := gets (fun s => user_mode (f_regs s)).

Definition kmmio_fault (addr : Z) : FM Z :=
  let* active := gets is_kmmio_active in
  if active : bool then
    let* r := fcall_ret (kmmio_handler addr) in
    ret (if r =? 1 then -1 else 0)
  else ret 0.

(** The answer and the new value of [*prefetch]; [instr] is the address of the
    byte after [opcode]. *)
Definition check_prefetch_opcode (s : fstate W) (instr opcode prefetch : Z) : bool * Z :=
  let instr_hi := Z.land opcode 0xf0 in
  let instr_lo := Z.land opcode 0x0f in
  if (instr_hi =? 0x20) || (instr_hi =? 0x30) then (Z.land instr_lo 7 =? 0x6, prefetch)
  else if instr_hi =? 0x40 then
    (negb (user_mode (f_regs s)) || user_64bit_mode (f_regs s), prefetch)
  else if instr_hi =? 0x60 then (Z.land instr_lo 0xC =? 0x4, prefetch)
  else if instr_hi =? 0xF0 then ((instr_lo =? 0) || (Z.shiftr instr_lo 1 =? 1), prefetch)
  else if instr_hi =? 0x00 then
    match probe_kernel_byte s instr with
    | None => (false, prefetch)
    | Some opcode =>
        (false, if (instr_lo =? 0xF) && ((opcode =? 0x0D) || (opcode =? 0x18)) then 1 else 0)
    end
  else (false, prefetch).

(** Lines 131-141, with [k] = [max_instr - instr] bytes left. *)
Fixpoint prefetch_loop (s : fstate W) (k : nat) (instr prefetch : Z) : Z :=
  match k with
  | O => prefetch
  | S k =>
      match probe_kernel_byte s instr with
      | None => prefetch
      | Some opcode =>
          match check_prefetch_opcode s (u64 (instr + 1)) opcode prefetch with
          | (true, prefetch) => prefetch_loop s k (u64 (instr + 1)) prefetch
          | (false, prefetch) => prefetch
          end
      end
  end.

(** [instr < max_instr] compares pointers: near the end of the address space
    [max_instr] wraps and the loop is not entered. *)
Definition is_prefetch (s : fstate W) (error_code addr : Z) : bool :=
  if error_code .& X86_PF_INSTR then false
  else
    let instr := convert_ip_to_linear s in
    let max_instr := u64 (instr + 15) in
    if user_mode (f_regs s) && (TASK_SIZE_MAX <=? instr) then false
    else if instr <? max_instr then ctrue (prefetch_loop s 15 instr 0)
    else false.

Definition vmalloc_sync_mappings : FM unit :=
  fcall_ (sync_global_pgds (Z.land VMALLOC_START PGDIR_MASK) VMALLOC_END).
Definition vmalloc_sync_unmappings : FM unit := ret tt.

(** [*p] of a table entry, and [BUG_ON]. *)
Definition entry (p : Z) : FM Z := gets (fun s => rd (pagetable s) p).
Definition set_entry (p v : Z) : FM unit :=
  modify (fun s => set_pagetable (store_entry p v (pagetable s)) s).
Definition BUG_ON (b : bool) : FM unit := if b then diverge else ret tt.

(** Lines 375-382: the top level, with five levels. *)
Definition sync_pgd (pgd pgd_k : Z) : FM unit :=
  if pgtable_l5_enabled then
    let* e := entry pgd in
    let* ek := entry pgd_k in
    if pgd_none e then set_entry pgd ek ;; fcall_ arch_flush_lazy_mmu_mode
    else BUG_ON (negb (pgd_page_vaddr e =? pgd_page_vaddr ek))
  else ret tt.

(** Lines 390-395. *)
Definition sync_p4d (p4d p4d_k : Z) : FM unit :=
  let* e := entry p4d in
  let* ek := entry p4d_k in
  if p4d_none e && negb pgtable_l5_enabled then
    set_entry p4d ek ;; fcall_ arch_flush_lazy_mmu_mode
  else BUG_ON (negb (p4d_pfn e =? p4d_pfn ek)).

(** Lines 399-417. *)
Definition present_below (p4d address : Z) : FM Z :=
  let* m := gets pagetable in
  let pud := pud_offset m p4d address in
  ret (if pud_none (rd m pud) then -1
       else if pud_large (rd m pud) then 0
       else
         let pmd := pmd_offset m pud address in
         if pmd_none (rd m pmd) then -1
         else if pmd_large (rd m pmd) then 0
         else if negb (pte_present (rd m (pte_offset_kernel m pmd address))) then -1
         else 0).

Definition vmalloc_fault (address : Z) : FM Z :=
  if negb ((VMALLOC_START <=? address) && (address <? VMALLOC_END)) then ret (-1)
  else
    let* base := gets read_cr3_va in
    let pgd := pgd_entry_of base address in
    let pgd_k := pgd_offset_k address in
    let* ek := entry pgd_k in
    if pgd_none ek then ret (-1)
    else
      sync_pgd pgd pgd_k ;;
      let* m := gets pagetable in
      let p4d := p4d_offset m pgd address in
      let p4d_k := p4d_offset m pgd_k address in
      let* ek := entry p4d_k in
      if p4d_none ek then ret (-1)
      else
        sync_p4d p4d p4d_k ;;
        present_below p4d address.

Definition bad_address (s : fstate W) (p : Z) : bool :=
  match probe_kernel_long s p with None => true | Some _ => false end.

(** What [dump_pagetable] prints: the entries on the way, and how it ends. *)
Definition dump_messages (s : fstate W) (address : Z) : list msg :=
  let m := pagetable s in
  let pgd := pgd_entry_of (read_cr3_va s) address in
  if bad_address s pgd then [msg_bad]
  else msg_pgd (rd m pgd) ::
    (if negb (pgd_present (rd m pgd)) then [msg_nl]
     else
       let p4d := p4d_offset m pgd address in
       if bad_address s p4d then [msg_bad]
       else msg_p4d (rd m p4d) ::
         (if negb (p4d_present (rd m p4d)) || p4d_large (rd m p4d) then [msg_nl]
          else
            let pud := pud_offset m p4d address in
            if bad_address s pud then [msg_bad]
            else msg_pud (rd m pud) ::
              (if negb (pud_present (rd m pud)) || pud_large (rd m pud) then [msg_nl]
               else
                 let pmd := pmd_offset m pud address in
                 if bad_address s pmd then [msg_bad]
                 else msg_pmd (rd m pmd) ::
                   (if negb (pmd_present (rd m pmd)) || pmd_large (rd m pmd) then [msg_nl]
                    else
                      let pte := pte_offset_kernel m pmd address in
                      if bad_address s pte then [msg_bad]
                      else [msg_pte (rd m pte); msg_nl])))).

Fixpoint print_all (l : list msg) : FM unit :=
  match l with
  | [] => ret tt
  | m :: l => fcall_ (pr m) ;; print_all l
  end.

Definition dump_pagetable (address : Z) : FM unit :=
  let* l := gets (fun s => dump_messages s address) in
  print_all l.

Definition is_errata93 (address : Z) : FM bool :=
  if negb (x86_vendor =? X86_VENDOR_AMD) || negb (x86_family =? 0xf) then ret false
  else
    let* ip := freg IP in
    if negb (address =? ip) then ret false
    else if negb (Z.shiftr address 32 =? 0) then ret false
    else
      let address := Z.lor address (Z.shiftl 0xffffffff 32) in
      if ((stext <=? address) && (address <=? etext)) ||
         ((MODULES_VADDR <=? address) && (address <=? MODULES_END)) then
        fcall_ (pr msg_errata93) ;; set_ip address ;; ret true
      else ret false.

Definition is_errata100 (regs : pt_regs) (address : Z) : bool :=
  ((rget regs CS =? FUSER32_CS) || (rget regs CS .& Z.shiftl 1 2)) &&
  ctrue (Z.shiftr address 32).

Definition is_f00f_bug (address : Z) : bool := false.

Definition show_ldttss (s : fstate W) (gdt : desc_ptr) (name : string) (index : Z) : msg :=
  let offset := u32 (Z.shiftr index 3 * 8) in
  if index =? 0 then msg_seg_null name
  else if desc_size gdt <=? offset + 16 then msg_seg_bounds name index
  else
    match probe_kernel_desc s (u64 (desc_address gdt + offset)) with
    | None => msg_seg_unreadable name index
    | Some d =>
        msg_seg name index
          (Z.lor (Z.lor (Z.lor (base0 d) (Z.shiftl (base1 d) 16)) (Z.shiftl (base2 d) 24))
                 (Z.shiftl (base3 d) 32))
          (Z.lor (limit0 d) (Z.shiftl (limit1 d) 16))
    end.

(** The three messages about the access, lines 613-650. *)
Definition oops_messages (s : fstate W) (error_code address : Z) : list msg :=
  (if error_code .& X86_PF_INSTR then
     let pgd := pgd_entry_of (read_cr3_va s) address in
     match lookup_address_in_pgd (pagetable s) pgd address with
     | (Some pte, _) =>
         let e := rd (pagetable s) pte in
         (if pte_present e && negb (pte_exec e) then [msg_nx] else []) ++
         (if pte_present e && pte_exec e && pgd_user (rd (pagetable s) pgd) && smep_enabled
          then [msg_smep] else [])
     | (None, _) => []
     end
   else []) ++
  [if (address <? PAGE_SIZE) && negb (user_mode (f_regs s)) then msg_null_deref address
   else msg_bad_address address;
   msg_access (error_code .& X86_PF_USER) (error_code .& X86_PF_INSTR)
     (error_code .& X86_PF_WRITE) (user_mode (f_regs s));
   msg_reason error_code
     (if negb (error_code .& X86_PF_PROT) then 0
      else if error_code .& X86_PF_RSVD then 1
      else if error_code .& X86_PF_PK then 2 else 3)].

Definition show_fault_oops (error_code address : Z) : FM unit :=
  let* may := gets oops_may_print in
  if negb may then ret tt
  else
    let* l := gets (fun s => oops_messages s error_code address) in
    print_all l ;;
    let* l := gets (fun s =>
      if negb (error_code .& X86_PF_USER) && user_mode (f_regs s) then
        [msg_tables store_idt native_store_gdt;
         show_ldttss s native_store_gdt "LDTR" store_ldt;
         show_ldttss s native_store_gdt "TR" store_tr]
      else []) in
    print_all l ;;
    dump_pagetable address.

Definition pgtable_bad (error_code address : Z) : FM unit :=
  fcall_ oops_begin ;;
  fcall_ (pr (msg_bad_pagetable address)) ;;
  dump_pagetable address ;;
  let* r := fcall_ret die in
  fcall_ (oops_end (if ctrue r then 0 else SIGKILL)).

Definition set_signal_archinfo (address error_code : Z) : FM unit :=
  let error_code := if TASK_SIZE_MAX <=? address then Z.lor error_code X86_PF_PROT
                    else error_code in
  modify (set_thread X86_TRAP_PF (Z.lor error_code X86_PF_USER) address).

(** The added lines 774-800: true when the fault was handed to the module. *)
Definition ub_hook (address : Z) : FM bool :=
  let fn := kallsyms_lookup_name "UB_fault_address_space" in
  if negb (fn =? 0) then
    let* r13 := freg R13 in
    let* r := fcall_ret (call_UB_fault_address_space fn address r13) in
    if r =? 1 then
      let handler := kallsyms_lookup_name "UB_SFI_error_handler" in
      if negb (handler =? 0) then
        let* ip := fcall_ret (call_UB_SFI_error_handler handler (-0x200)) in
        set_ip (u64 ip) ;; ret true
      else ret false
    else ret false
  else ret false.

(** Lines 808-810. *)
Definition stack_guard_hit (address : Z) : bool :=
  is_vmalloc_addr address &&
  ((u64 (task_stack - 1 - address) <? PAGE_SIZE) ||
   (u64 (address - (task_stack + THREAD_SIZE)) <? PAGE_SIZE)).

(** Lines 857-877, from the label [oops]. *)
Definition oops (error_code address : Z) : FM unit :=
  fcall_ oops_begin ;;
  show_fault_oops error_code address ;;
  let* corrupted := gets task_stack_end_corrupted in
  (when corrupted do fcall_ (pr msg_stack_corrupted)) ;;
  let* r := fcall_ret die in
  fcall_ (pr (msg_cr2 address)) ;;
  fcall_ (oops_end (if ctrue r then 0 else SIGKILL)).

(** Lines 802-877: what follows the added lines. *)
Definition no_context_tail (error_code address : Z) : FM unit :=
  if stack_guard_hit address then fcall_ (handle_stack_overflow address) ;; diverge
  else
    let* pf := gets (fun s => is_prefetch s error_code address) in
    if pf : bool then ret tt
    else
      let* e93 := is_errata93 address in
      if e93 : bool then ret tt
      else
        fcall_ (efi_recover_from_page_fault address) ;;
        oops error_code address.

(** Lines 746-773: true when there was a fixup. *)
Definition try_fixup (error_code address signal si_code : Z) : FM bool :=
  let* fixed := fcall_ret (fixup_exception error_code address) in
  if ctrue fixed then
    let* irq := gets in_interrupt in
    if irq : bool then ret true
    else
      let* sig := gets sig_on_uaccess_err in
      (when sig && ctrue signal do
         (set_signal_archinfo address error_code ;;
          fcall_ (force_sig_fault signal si_code address))) ;;
      ret true
  else ret false.

Definition no_context (error_code address signal si_code : Z) : FM unit :=
  let* user := in_user_mode in
  if user : bool then oops error_code address
  else
    let* fixed := try_fixup error_code address signal si_code in
    if fixed : bool then ret tt
    else
      let* handed := ub_hook address in
      if handed : bool then ret tt
      else no_context_tail error_code address.

Definition show_signal_msg (error_code address : Z) : FM unit :=
  let* fatal := gets (fun s => unhandled_signal s SIGSEGV) in
  if negb fatal then ret tt
  else
    let* ok := gets printk_ratelimit in
    if negb ok then ret tt
    else
      let* regs := gets f_regs in
      fcall_ (pr (msg_segfault address (rget regs IP) (rget regs SP) error_code)) ;;
      fcall_ (pr (msg_vma_addr (rget regs IP))) ;;
      fcall_ (pr msg_nl) ;;
      fcall_ (pr msg_opcodes).

Definition is_vsyscall_vaddr (vaddr : Z) : bool :=
  Z.ldiff vaddr (PAGE_SIZE - 1) =? VSYSCALL_ADDR.

Definition bad_area_user (error_code address pkey si_code : Z) : FM unit :=
  fcall_ firq_enable ;;
  let* pf := gets (fun s => is_prefetch s error_code address) in
  if pf : bool then ret tt
  else
    let* regs := gets f_regs in
    if is_errata100 regs address then ret tt
    else
      let error_code := if TASK_SIZE_MAX <=? address then Z.lor error_code X86_PF_PROT
                        else error_code in
      (when show_unhandled_signals do show_signal_msg error_code address) ;;
      set_signal_archinfo address error_code ;;
      (when si_code =? SEGV_PKUERR do fcall_ (force_sig_pkuerr address pkey)) ;;
      fcall_ (force_sig_fault SIGSEGV si_code address).

Definition __bad_area_nosemaphore (error_code address pkey si_code : Z) : FM unit :=
  let* user := in_user_mode in
  if user && (error_code .& X86_PF_USER) then bad_area_user error_code address pkey si_code
  else if is_f00f_bug address then ret tt
  else no_context error_code address SIGSEGV si_code.

Definition bad_area_nosemaphore (error_code address : Z) : FM unit :=
  __bad_area_nosemaphore error_code address 0 SEGV_MAPERR.

Definition __bad_area (error_code address pkey si_code : Z) : FM unit :=
  fcall_ up_read ;;
  __bad_area_nosemaphore error_code address pkey si_code.

Definition bad_area (error_code address : Z) : FM unit :=
  __bad_area error_code address 0 SEGV_MAPERR.

Definition bad_area_access_from_pkeys (s : fstate W) (error_code : Z) (v : vma) : bool :=
  if negb has_ospke then false
  else if error_code .& X86_PF_PK then true
  else negb (arch_vma_access_permitted s v (error_code .& X86_PF_WRITE)
               (error_code .& X86_PF_INSTR) false).

Definition bad_area_access_error (error_code address : Z) (v : vma) : FM unit :=
  let* pk := gets (fun s => bad_area_access_from_pkeys s error_code v) in
  if pk : bool then __bad_area error_code address (vma_pkey v) SEGV_PKUERR
  else __bad_area error_code address 0 SEGV_ACCERR.

Definition do_sigbus (error_code address fault : Z) : FM unit :=
  if negb (error_code .& X86_PF_USER) then no_context error_code address SIGBUS BUS_ADRERR
  else
    let* pf := gets (fun s => is_prefetch s error_code address) in
    if pf : bool then ret tt
    else
      set_signal_archinfo address error_code ;;
      if fault .& Z.lor VM_FAULT_HWPOISON VM_FAULT_HWPOISON_LARGE then
        fcall_ (pr (msg_mce_kill address)) ;;
        let lsb := if fault .& VM_FAULT_HWPOISON_LARGE
                   then hstate_index_to_shift (VM_FAULT_GET_HINDEX fault) else 0 in
        let lsb := if fault .& VM_FAULT_HWPOISON then PAGE_SHIFT else lsb in
        fcall_ (force_sig_mceerr BUS_MCEERR_AR address lsb)
      else fcall_ (force_sig_fault SIGBUS BUS_ADRERR address).

Definition mm_fault_error (error_code address fault : Z) : FM unit :=
  let* fatal := gets fatal_signal_pending in
  if fatal && negb (error_code .& X86_PF_USER) then no_context error_code address 0 0
  else if fault .& VM_FAULT_OOM then
    if negb (error_code .& X86_PF_USER) then no_context error_code address SIGSEGV SEGV_MAPERR
    else fcall_ pagefault_out_of_memory
  else if fault .& Z.lor VM_FAULT_SIGBUS (Z.lor VM_FAULT_HWPOISON VM_FAULT_HWPOISON_LARGE) then
    do_sigbus error_code address fault
  else if fault .& VM_FAULT_SIGSEGV then bad_area_nosemaphore error_code address
  else BUG_ON true.

Definition spurious_kernel_fault_check (error_code e : Z) : bool :=
  if (error_code .& X86_PF_WRITE) && negb (pte_write e) then false
  else if (error_code .& X86_PF_INSTR) && negb (pte_exec e) then false
  else true.

(** The answer, and whether [WARN_ONCE] fires. *)
Definition spurious_lookup (m : ptmem) (error_code address : Z) : bool * bool :=
  let check e := spurious_kernel_fault_check error_code e in
  let pgd := pgd_offset_k address in
  if negb (pgd_present (rd m pgd)) then (false, false)
  else
    let p4d := p4d_offset m pgd address in
    if negb (p4d_present (rd m p4d)) then (false, false)
    else if p4d_large (rd m p4d) then (check (rd m p4d), false)
    else
      let pud := pud_offset m p4d address in
      if negb (pud_present (rd m pud)) then (false, false)
      else if pud_large (rd m pud) then (check (rd m pud), false)
      else
        let pmd := pmd_offset m pud address in
        if negb (pmd_present (rd m pmd)) then (false, false)
        else if pmd_large (rd m pmd) then (check (rd m pmd), false)
        else
          let pte := pte_offset_kernel m pmd address in
          if negb (pte_present (rd m pte)) then (false, false)
          else if negb (check (rd m pte)) then (false, false)
          else (check (rd m pmd), negb (check (rd m pmd))).

Definition spurious_kernel_fault (error_code address : Z) : FM bool :=
  if negb (error_code =? Z.lor X86_PF_WRITE X86_PF_PROT) &&
     negb (error_code =? Z.lor X86_PF_INSTR X86_PF_PROT) then ret false
  else
    let* r := gets (fun s => spurious_lookup (pagetable s) error_code address) in
    (when snd r do fcall_ (pr msg_pmd_warning)) ;;
    ret (fst r).

Definition access_error (s : fstate W) (error_code : Z) (v : vma) : bool :=
  if error_code .& X86_PF_PK then true
  else if negb (arch_vma_access_permitted s v (error_code .& X86_PF_WRITE)
                  (error_code .& X86_PF_INSTR) false) then true
  else if error_code .& X86_PF_WRITE then negb (vm_flags v .& VM_WRITE)
  else if error_code .& X86_PF_PROT then true
  else negb (vm_flags v .& Z.lor VM_READ (Z.lor VM_EXEC VM_WRITE)).

Definition fault_in_kernel_space (address : Z) : bool :=
  if is_vsyscall_vaddr address then false else TASK_SIZE_MAX <=? address.

Definition do_kern_addr_fault (hw_error_code address : Z) : FM unit :=
  (when hw_error_code .& X86_PF_PK do fcall_ (pr msg_pk_warning)) ;;
  let* synced :=
    if negb (hw_error_code .& Z.lor X86_PF_RSVD (Z.lor X86_PF_USER X86_PF_PROT)) then
      let* r := vmalloc_fault address in ret (0 <=? r)
    else ret false in
  if synced : bool then ret tt
  else
    let* spurious := spurious_kernel_fault hw_error_code address in
    if spurious : bool then ret tt
    else
      let* probe := fcall_ret kprobe_page_fault in
      if ctrue probe then ret tt
      else bad_area_nosemaphore hw_error_code address.

(** Lines 1452-1476: the area of the address, [None] when the access is bad
    (and has been dealt with). *)
Definition good_area (hw_error_code address : Z) : FM (option vma) :=
  let* v := gets (fun s => find_vma s address) in
  match v with
  | None => bad_area hw_error_code address ;; ret None
  | Some v =>
      let* ok :=
        if vm_start v <=? address then ret true
        else if negb (vm_flags v .& VM_GROWSDOWN) then ret false
        else let* r := fcall_ret (expand_stack v address) in ret (negb (ctrue r)) in
      if negb ok then bad_area hw_error_code address ;; ret None
      else
        let* denied := gets (fun s => access_error s hw_error_code v) in
        if denied : bool then bad_area_access_error hw_error_code address v ;; ret None
        else ret (Some v)
  end.

(** Lines 1523-1536: accounting of a fault that was resolved. *)
Definition account (address major : Z) : FM unit :=
  if ctrue major then
    modify (fun s => set_flt (u64 (maj_flt s + 1)) (min_flt s) s) ;;
    fcall_ (perf_sw_event PAGE_FAULTS_MAJ address)
  else
    modify (fun s => set_flt (maj_flt s) (u64 (min_flt s + 1)) s) ;;
    fcall_ (perf_sw_event PAGE_FAULTS_MIN address).

(** Lines 1441-1536 with the semaphore held; the label [retry] is reached again
    through the fuel. *)
Fixpoint fault_attempt (fuel : nat) (hw_error_code address flags major : Z) : FM unit :=
  match fuel with
  | O => diverge
  | S fuel =>
      let* v := good_area hw_error_code address in
      match v with
      | None => ret tt
      | Some v =>
          let* fault := fcall_ret (handle_mm_fault v address flags) in
          let major := Z.lor major (Z.land fault VM_FAULT_MAJOR) in
          if fault .& VM_FAULT_RETRY then
            let allowed := flags .& FAULT_FLAG_ALLOW_RETRY in
            let flags := if allowed
                         then Z.lor (Z.ldiff flags FAULT_FLAG_ALLOW_RETRY) FAULT_FLAG_TRIED
                         else flags in
            let* fatal := gets fatal_signal_pending in
            if allowed && negb fatal then
              fcall_ down_read ;;
              fault_attempt fuel hw_error_code address flags major
            else if flags .& FAULT_FLAG_USER then ret tt
            else no_context hw_error_code address SIGBUS BUS_ADRERR
          else
            fcall_ up_read ;;
            if fault .& VM_FAULT_ERROR then mm_fault_error hw_error_code address fault
            else account address major
      end
  end.

(** Lines 1432-1450: taking the semaphore; false when the fault was refused. *)
Definition lock_mmap (hw_error_code address : Z) : FM bool :=
  let* got := gets down_read_trylock in
  if negb got then
    let* regs := gets f_regs in
    if negb (user_mode regs) && negb (search_exception_tables (rget regs IP)) then
      bad_area_nosemaphore hw_error_code address ;; ret false
    else fcall_ down_read ;; ret true
  else
    modify (fun s => set_mmap_sem (mmap_sem s + 1) s) ;;
    fcall_ might_sleep ;; ret true.

(** Lines 1387-1393, 1397-1400: the flags of the fault. *)
Definition fault_flags (user : bool) (hw_error_code : Z) : Z :=
  let flags := Z.lor FAULT_FLAG_ALLOW_RETRY FAULT_FLAG_KILLABLE in
  let flags := if user then Z.lor flags FAULT_FLAG_USER else flags in
  let flags := if hw_error_code .& X86_PF_WRITE then Z.lor flags FAULT_FLAG_WRITE else flags in
  if hw_error_code .& X86_PF_INSTR then Z.lor flags FAULT_FLAG_INSTRUCTION else flags.

(** Lines 1353-1378: true when the fault may be handled. *)
Definition user_fault_allowed (hw_error_code address : Z) : FM bool :=
  (when hw_error_code .& X86_PF_RSVD do pgtable_bad hw_error_code address) ;;
  let* rflags := freg FLAGS in
  if has_smap && negb (hw_error_code .& X86_PF_USER) && negb (rflags .& X86_EFLAGS_AC) then
    bad_area_nosemaphore hw_error_code address ;; ret false
  else
    let* disabled := gets faulthandler_disabled in
    let* mm := gets has_mm in
    if disabled || negb mm then bad_area_nosemaphore hw_error_code address ;; ret false
    else ret true.

Definition do_user_addr_fault (fuel : nat) (hw_error_code address : Z) : FM unit :=
  let* probe := fcall_ret kprobe_page_fault in
  if ctrue probe then ret tt
  else
    let* allowed := user_fault_allowed hw_error_code address in
    if negb allowed then ret tt
    else
      let* regs := gets f_regs in
      let user := user_mode regs in
      (when user || (rget regs FLAGS .& X86_EFLAGS_IF) do fcall_ firq_enable) ;;
      fcall_ (perf_sw_event PAGE_FAULTS address) ;;
      let flags := fault_flags user hw_error_code in
      let* emulated :=
        if is_vsyscall_vaddr address then
          let* r := fcall_ret (emulate_vsyscall hw_error_code address) in ret (ctrue r)
        else ret false in
      if emulated : bool then ret tt
      else
        let* locked := lock_mmap hw_error_code address in
        if negb locked then ret tt
        else fault_attempt fuel hw_error_code address flags 0.

Definition __do_page_fault (fuel : nat) (hw_error_code address : Z) : FM unit :=
  let* r := kmmio_fault address in
  if ctrue r then ret tt
  else if fault_in_kernel_space address then do_kern_addr_fault hw_error_code address
  else do_user_addr_fault fuel hw_error_code address.

Definition trace_page_fault_entries (error_code address : Z) : FM unit :=
  let* on := gets trace_pagefault_enabled in
  if negb on then ret tt
  else
    let* user := in_user_mode in
    if user : bool then fcall_ (trace_page_fault_user address error_code)
    else fcall_ (trace_page_fault_kernel address error_code).

Definition do_page_fault (fuel : nat) (error_code address : Z) : FM unit :=
  let* prev_state := fcall_ret exception_enter in
  trace_page_fault_entries error_code address ;;
  __do_page_fault fuel error_code address ;;
  fcall_ (exception_exit prev_state).
End Fault.

(** ** What the code relies on *)

(** Calls that deal with the semaphore. *)
Definition is_lock (c : fcall) : bool :=
  match c with
  | down_read | up_read | handle_mm_fault _ _ _ => true
  | _ => false
  end.

(** The emulation of a vsyscall, which accesses user memory for the task: faults of its
    own are counted, and unlike those of other kernel code they save signal information
    (the comment in [no_context]: nobody else sets [sig_on_uaccess_err]). *)
Definition is_emulation (c : fcall) : bool :=
  match c with emulate_vsyscall _ _ => true | _ => false end.

(** The lock is balanced by the calls as documented: [handle_mm_fault] has
    released it exactly when it answers VM_FAULT_RETRY. Nothing else touches the
    lock; and nothing but the emulation of vsyscalls the fault counters or the saved
    signal information of the task. *)
Class FaultEnvOk {W : Type} {consts : FaultConsts} (kernel : FaultEnv W) : Prop := {
  sem_other : forall c s r s', is_lock c = false -> fext c s = Some (r, s') ->
    mmap_sem s' = mmap_sem s;
  sem_down : forall s r s', fext down_read s = Some (r, s') -> mmap_sem s' = mmap_sem s + 1;
  sem_up : forall s r s', fext up_read s = Some (r, s') -> mmap_sem s' = mmap_sem s - 1;
  sem_handle : forall v a f s r s', fext (handle_mm_fault v a f) s = Some (r, s') ->
    mmap_sem s' = if r .& VM_FAULT_RETRY then mmap_sem s - 1 else mmap_sem s;
  counters_kept : forall c s r s', is_emulation c = false -> fext c s = Some (r, s') ->
    maj_flt s' = maj_flt s /\ min_flt s' = min_flt s;
  thread_kept : forall c s r s', is_emulation c = false -> fext c s = Some (r, s') ->
    trap_nr s' = trap_nr s /\ thread_error_code s' = thread_error_code s /\ cr2 s' = cr2 s;
  bytes_range : forall s a b, probe_kernel_byte s a = Some b -> 0 <= b < 256;
  retry_flags : Z.land FAULT_FLAG_TRIED FAULT_FLAG_ALLOW_RETRY = 0
}.

(** ** Code that neither locks nor counts *)

Section Frame.
Context {W : Type}.

(** The calls that deal with the semaphore, in order. *)
Definition locks (s : fstate W) : list fcall := filter (fun c => is_lock c = true) (f_calls s).

Definition frame (s s' : fstate W) : Prop :=
  mmap_sem s' = mmap_sem s /\ maj_flt s' = maj_flt s /\ min_flt s' = min_flt s /\
  locks s' = locks s.

#[export] Instance frame_preorder : PreOrder frame.
Proof.
  split.
  - intros s. now repeat split.
  - intros s1 s2 s3. unfold frame. intuition congruence.
Qed.

Context {consts : FaultConsts} {paging : Paging} {kernel : FaultEnv W}.
Context {env_ok : FaultEnvOk kernel}.

Lemma frame_fcall_ret c : is_lock c = false -> is_emulation c = false -> keeps frame (fcall_ret c).
Proof.
  intros Hc He s a s' H. unfold fcall_ret in H. destruct (fext c s) as [[r s1]|] eqn:E; [|easy].
  injection H as <- <-. destruct (counters_kept c s r s1 He E) as [H1 H2].
  unfold frame, locks. simpl. rewrite filter_cons_False by congruence.
  repeat split; try easy. eapply sem_other; eauto.
Qed.

Lemma frame_fcall c : is_lock c = false -> is_emulation c = false -> keeps frame (fcall_ c).
Proof.
  intros H He. unfold fcall_. apply keeps_bind; [exact _|now apply frame_fcall_ret|].
  intros. apply keeps_ret. exact _.
Qed.

Lemma frame_modify (f : fstate W -> fstate W) :
  (forall s, mmap_sem (f s) = mmap_sem s /\ maj_flt (f s) = maj_flt s /\
     min_flt (f s) = min_flt s /\ f_calls (f s) = f_calls s) ->
  keeps frame (modify f).
Proof.
  intros H. apply keeps_modify. intros s. destruct (H s) as (H1 & H2 & H3 & H4).
  unfold frame, locks. rewrite H4. easy.
Qed.
End Frame.

(** Solves [keeps frame] for code built from calls without locks. *)
Ltac frame_auto :=
  repeat first [ keeps_step
               | apply frame_fcall_ret; reflexivity
               | apply frame_fcall; reflexivity
               | apply frame_modify; intros; repeat split ].

Section FrameFacts.
Context {W : Type} {consts : FaultConsts} {paging : Paging} {kernel : FaultEnv W}.
Context {env_ok : FaultEnvOk kernel}.

Lemma print_all_frame l : keeps (@frame W) (print_all l).
Proof. induction l as [|m l IH]; simpl; [frame_auto|frame_auto; exact IH]. Qed.

Lemma dump_pagetable_frame a : keeps (@frame W) (dump_pagetable a).
Proof. unfold dump_pagetable. frame_auto. apply print_all_frame. Qed.

Lemma oops_frame e a : keeps (@frame W) (oops e a).
Proof.
  unfold oops, show_fault_oops. frame_auto; auto using print_all_frame, dump_pagetable_frame.
Qed.

Lemma no_context_frame e a sig code : keeps (@frame W) (no_context e a sig code).
Proof.
  unfold no_context, in_user_mode, try_fixup, set_signal_archinfo, ub_hook, no_context_tail,
    is_errata93, freg, set_ip.
  frame_auto; auto using oops_frame.
Qed.

Lemma bad_area_nosemaphore_frame' e a pk code :
  keeps (@frame W) (__bad_area_nosemaphore e a pk code).
Proof.
  unfold __bad_area_nosemaphore, bad_area_user, in_user_mode, show_signal_msg, set_signal_archinfo.
  frame_auto; auto using no_context_frame.
Qed.

Lemma bad_area_nosemaphore_frame e a : keeps (@frame W) (bad_area_nosemaphore e a).
Proof. apply bad_area_nosemaphore_frame'. Qed.

Lemma mm_fault_error_frame e a f : keeps (@frame W) (mm_fault_error e a f).
Proof.
  unfold mm_fault_error, do_sigbus, set_signal_archinfo, BUG_ON.
  frame_auto; auto using no_context_frame, bad_area_nosemaphore_frame.
Qed.

Lemma vmalloc_fault_frame a : keeps (@frame W) (vmalloc_fault a).
Proof.
  unfold vmalloc_fault, sync_pgd, sync_p4d, present_below, entry, set_entry, BUG_ON.
  frame_auto.
Qed.

Lemma do_kern_addr_fault_frame e a : keeps (@frame W) (do_kern_addr_fault e a).
Proof.
  unfold do_kern_addr_fault, spurious_kernel_fault.
  frame_auto; auto using vmalloc_fault_frame, bad_area_nosemaphore_frame.
Qed.

Lemma user_fault_allowed_frame e a : keeps (@frame W) (user_fault_allowed e a).
Proof.
  unfold user_fault_allowed, pgtable_bad, freg.
  frame_auto; auto using dump_pagetable_frame, bad_area_nosemaphore_frame.
Qed.
End FrameFacts.

(** ** One attempt to resolve a fault *)

Definition is_handle (c : fcall) : bool :=
  match c with handle_mm_fault _ _ _ => true | _ => false end.

Section Attempt.
Context {W : Type} {consts : FaultConsts} {paging : Paging} {kernel : FaultEnv W}.
Context {env_ok : FaultEnvOk kernel}.
Implicit Types s : fstate W.

(** How often [handle_mm_fault] was called. *)
Definition handled (s : fstate W) : nat := length (filter (fun c => is_handle c = true) (f_calls s)).

(** Same counters and as many calls of [handle_mm_fault]; the lock moved by [d]. *)
Definition moved (d : Z) (s s' : fstate W) : Prop :=
  mmap_sem s' = mmap_sem s + d /\ maj_flt s' = maj_flt s /\ min_flt s' = min_flt s /\
  handled s' = handled s.

Lemma handled_locks s :
  handled s = length (filter (fun c => is_handle c = true) (locks s)).
Proof.
  unfold handled, locks. induction (f_calls s) as [|c l IH]; [easy|].
  destruct c; simpl; rewrite ?filter_cons; simpl; auto.
Qed.

Lemma frame_moved s s' : frame s s' -> moved 0 s s'.
Proof.
  intros (H1 & H2 & H3 & H4). unfold moved. rewrite !handled_locks, H4. repeat split; auto; lia.
Qed.

Lemma moved_trans d1 d2 s1 s2 s3 : moved d1 s1 s2 -> moved d2 s2 s3 -> moved (d1 + d2) s1 s3.
Proof. unfold moved. intros (?&?&?&?) (?&?&?&?). repeat split; try lia; congruence. Qed.

Lemma fcall_inv c s r s' :
  fcall_ret c s = Some (r, s') ->
  exists s1, fext c s = Some (r, s1) /\ s' = set_f_calls (c :: f_calls s) s1.
Proof.
  unfold fcall_ret. destruct (fext c s) as [[r1 s1]|]; [|easy]. intros [= <- <-]. eauto.
Qed.

Lemma up_read_moved s u s' : fcall_ up_read s = Some (u, s') -> moved (-1) s s'.
Proof.
  intros H. apply bind_inv in H as (r & s1 & H & E). injection E as _ <-.
  apply fcall_inv in H as (s2 & E & ->). assert (K := fun H => counters_kept _ _ _ _ H E); destruct (K eq_refl).
  apply sem_up in E. unfold moved, handled. simpl. repeat split; easy || lia.
Qed.

Lemma down_read_moved s u s' : fcall_ down_read s = Some (u, s') -> moved 1 s s'.
Proof.
  intros H. apply bind_inv in H as (r & s1 & H & E). injection E as _ <-.
  apply fcall_inv in H as (s2 & E & ->). assert (K := fun H => counters_kept _ _ _ _ H E); destruct (K eq_refl).
  apply sem_down in E. unfold moved, handled. simpl. repeat split; easy || lia.
Qed.

Lemma bad_area_moved e a pk code s u s' :
  __bad_area e a pk code s = Some (u, s') -> moved (-1) s s'.
Proof.
  intros H. apply bind_inv in H as (r & s1 & H1 & H2). apply up_read_moved in H1.
  apply bad_area_nosemaphore_frame' in H2. apply frame_moved in H2.
  exact (moved_trans _ _ _ _ _ H1 H2).
Qed.

(** A bad access releases the lock; a good one keeps it. *)
Definition area_delta (r : option vma) : Z := match r with Some _ => 0 | None => -1 end.

Lemma good_area_moved e a s r s' :
  good_area e a s = Some (r, s') -> moved (area_delta r) s s'.
Proof.
  intros H. apply bind_inv in H as (v & s1 & E & H). injection E as <- <-.
  assert (B : forall pk code (s1 : fstate W),
    moved 0 s s1 -> forall r,
    (__bad_area e a pk code ;; ret None) s1 = Some (r, s') -> moved (area_delta r) s s').
  { intros pk code s1 M1 r' X. apply bind_inv in X as (u & s2 & E1 & E2). injection E2 as <- <-.
    apply bad_area_moved in E1. exact (moved_trans _ _ _ _ _ M1 E1). }
  destruct (find_vma s a) as [v|]; [|eapply B; [|exact H]; apply frame_moved; reflexivity].
  apply bind_inv in H as (ok & s1 & E & H).
  assert (M1 : moved 0 s s1).
  { apply frame_moved. refine ((_ : keeps frame _) s ok s1 E). frame_auto. }
  destruct ok; cbn [negb] in H; [|eapply B; eassumption].
  apply bind_inv in H as (d & s2 & E2 & H). injection E2 as <- <-.
  destruct (access_error s1 e v).
  - unfold bad_area_access_error in H. apply bind_inv in H as (u & s2 & E1 & E2).
    injection E2 as <- <-. apply bind_inv in E1 as (pk & s3 & E3 & E1). injection E3 as <- <-.
    destruct (bad_area_access_from_pkeys s1 e v); apply bad_area_moved in E1;
      exact (moved_trans _ _ _ _ _ M1 E1).
  - injection H as <- <-. exact M1.
Qed.

(** What an attempt leaves, when [handle_mm_fault] may be called [k] times: the
    lock is released and at most one counter is one higher. *)
Definition resolved (k : nat) (s s' : fstate W) : Prop :=
  mmap_sem s' = mmap_sem s - 1 /\ (handled s' <= handled s + k)%nat /\
  ((maj_flt s' = maj_flt s /\ min_flt s' = min_flt s) \/
   (maj_flt s' = u64 (maj_flt s + 1) /\ min_flt s' = min_flt s) \/
   (maj_flt s' = maj_flt s /\ min_flt s' = u64 (min_flt s + 1))).

Lemma moved_resolved d d' k k' s1 s2 s3 s4 :
  moved d s1 s2 -> mmap_sem s3 = mmap_sem s2 + d' -> maj_flt s3 = maj_flt s2 ->
  min_flt s3 = min_flt s2 -> (handled s3 <= handled s2 + k')%nat ->
  resolved k s3 s4 -> d + d' = 0 -> resolved (k' + k) s1 s4.
Proof.
  unfold moved, resolved. intros (A1 & A2 & A3 & A4) B1 B2 B3 B4 (C1 & C2 & C3) Hd.
  split; [lia|]. split; [lia|]. rewrite <- A2, <- A3, <- B2, <- B3. exact C3.
Qed.

Lemma released_resolved s s' : moved (-1) s s' -> resolved 0 s s'.
Proof. unfold moved, resolved. intros (H1 & H2 & H3 & H4). rewrite H2, H3, H4. split; [lia|]. split; [lia|auto]. Qed.

Lemma account_resolved a major s s1 s2 u :
  moved (-1) s s1 -> account a major s1 = Some (u, s2) -> resolved 0 s s2.
Proof.
  intros (M1 & M2 & M3 & M4) H. unfold account in H.
  destruct (ctrue major); apply bind_inv in H as ([] & s3 & E & H);
    injection E as <-; apply frame_fcall in H; try easy; apply frame_moved in H;
    destruct H as (H1 & H2 & H3 & H4); unfold handled in *; simpl in *;
    unfold resolved; unfold handled; rewrite H1, H2, H3, <- M2, <- M3; (split; [lia|]);
    (split; [lia|auto]).
Qed.

(** After [handle_mm_fault], without another retry. *)
Lemma after_fault_resolved e a flags major fault s s1 s' u :
  moved (if fault .& VM_FAULT_RETRY then -1 else 0) s s1 ->
  (if fault .& VM_FAULT_RETRY then
     if flags .& FAULT_FLAG_USER then ret tt else no_context e a SIGBUS BUS_ADRERR
   else
     fcall_ up_read ;;
     (if fault .& VM_FAULT_ERROR then mm_fault_error e a fault else account a major))
    s1 = Some (u, s') ->
  resolved 0 s s'.
Proof.
  intros M1 H. destruct (fault .& VM_FAULT_RETRY).
  - apply released_resolved. destruct (flags .& FAULT_FLAG_USER); [now injection H as _ <-|].
    apply no_context_frame, frame_moved in H. exact (moved_trans _ _ _ _ _ M1 H).
  - apply bind_inv in H as (u1 & s2 & E & H). apply up_read_moved in E.
    pose proof (moved_trans _ _ _ _ _ M1 E) as M2.
    destruct (fault .& VM_FAULT_ERROR); [|eapply account_resolved; eassumption].
    apply released_resolved. apply mm_fault_error_frame, frame_moved in H.
    exact (moved_trans _ _ _ _ _ M2 H).
Qed.

(** The call itself: one more, the lock as documented. *)
Lemma handle_call v a flags s fault s' :
  fcall_ret (handle_mm_fault v a flags) s = Some (fault, s') ->
  mmap_sem s' = mmap_sem s + (if fault .& VM_FAULT_RETRY then -1 else 0) /\
  maj_flt s' = maj_flt s /\ min_flt s' = min_flt s /\ handled s' = S (handled s).
Proof.
  intros H. apply fcall_inv in H as (s1 & E & ->). assert (K := fun H => counters_kept _ _ _ _ H E); destruct (K eq_refl).
  apply sem_handle in E. unfold handled.
  cbn [f_calls set_f_calls mmap_sem maj_flt min_flt]. rewrite filter_cons_True by easy.
  repeat split; try easy. rewrite E. case_if; lia.
Qed.

(** Without the right to retry there is one attempt, and no fuel beyond it. *)
Lemma attempt_final e a flags major fuel s :
  (flags .& FAULT_FLAG_ALLOW_RETRY) = false ->
  fault_attempt (S fuel) e a flags major s = fault_attempt 1 e a flags major s /\
  forall u s', fault_attempt 1 e a flags major s = Some (u, s') -> resolved 1 s s'.
Proof.
  intros Hf. split.
  - cbn [fault_attempt]. rewrite Hf. reflexivity.
  - intros u s' H. cbn [fault_attempt] in H. apply bind_inv in H as (v & s1 & E & H).
    apply good_area_moved in E. destruct v as [v|].
    2:{ injection H as _ <-. apply released_resolved in E. revert E. unfold resolved. intuition lia. }
    apply bind_inv in H as (fault & s2 & E2 & H).
    destruct (handle_call _ _ _ _ _ _ E2) as (C1 & C2 & C3 & C4). rewrite Hf in H. cbn [andb] in H.
    assert (R : resolved 0 (set_mmap_sem (mmap_sem s) s2) s').
    { eapply (after_fault_resolved e a flags _ fault _ s2).
      - destruct E as (E1 & E3 & E4 & E5). unfold moved, handled. simpl in *.
        repeat split; try easy. lia.
      - destruct (fault .& VM_FAULT_RETRY); [|exact H].
        apply bind_inv in H as (x & s3 & E3 & H). injection E3 as <- <-. exact H. }
    destruct E as (E1 & E3 & E4 & E5), R as (R1 & R2 & R3). unfold resolved, handled in *.
    simpl in *. rewrite <- E3, <- E4, <- C2, <- C3. split; [lia|]. split; [lia|exact R3].
Qed.

(** What is left after the first of two attempts. *)
Section Retry.
Variables (e a flags : Z).
Hypothesis allowed : (flags .& FAULT_FLAG_ALLOW_RETRY) = true.
Let flags' : Z := Z.lor (Z.ldiff flags FAULT_FLAG_ALLOW_RETRY) FAULT_FLAG_TRIED.

Lemma retry_not_allowed : (flags' .& FAULT_FLAG_ALLOW_RETRY) = false.
Proof.
  unfold flags'. apply ctrue_false.
  rewrite Z.land_lor_distr_l, land_ldiff_same, retry_flags. reflexivity.
Qed.

Lemma attempt_cong n m major s :
  (forall major s, fault_attempt n e a flags' major s = fault_attempt m e a flags' major s) ->
  fault_attempt (S n) e a flags major s = fault_attempt (S m) e a flags major s.
Proof.
  intros H. cbn [fault_attempt]. unfold bind.
  destruct (good_area e a s) as [[[v|] s1]|]; [|easy..].
  destruct (fcall_ret _ s1) as [[fault s2]|]; [|easy].
  destruct (fault .& VM_FAULT_RETRY); [|easy]. rewrite allowed. fold flags'. cbn [gets].
  destruct (true && negb (fatal_signal_pending s2)); [|easy].
  destruct (fcall_ down_read s2) as [[u s3]|]; [apply H|easy].
Qed.

Lemma attempt_retry n major s u s' :
  (forall major s u s', fault_attempt n e a flags' major s = Some (u, s') -> resolved 1 s s') ->
  fault_attempt (S n) e a flags major s = Some (u, s') -> resolved 2 s s'.
Proof.
  intros Hn H. cbn [fault_attempt] in H. apply bind_inv in H as (v & s1 & E & H).
  apply good_area_moved in E. destruct v as [v|].
  2:{ injection H as _ <-. apply released_resolved in E. revert E. unfold resolved. intuition lia. }
  apply bind_inv in H as (fault & s2 & E2 & H).
  destruct (handle_call _ _ _ _ _ _ E2) as (C1 & C2 & C3 & C4). rewrite allowed in H.
  fold flags' in H. destruct E as (E1 & E3 & E4 & E5). cbn [area_delta] in E1.
  assert (Last : (if fault .& VM_FAULT_RETRY then
       if flags' .& FAULT_FLAG_USER then ret tt else no_context e a SIGBUS BUS_ADRERR
     else fcall_ up_read ;;
       (if fault .& VM_FAULT_ERROR then mm_fault_error e a fault
        else account a (Z.lor major (Z.land fault VM_FAULT_MAJOR)))) s2 = Some (u, s') ->
     resolved 1 (set_mmap_sem (mmap_sem s) s2) s').
  { intros X. assert (R : resolved 0 (set_mmap_sem (mmap_sem s) s2) s').
    { eapply (after_fault_resolved e a flags' _ fault _ s2); [|exact X].
      unfold moved, handled. simpl. repeat split; lia. }
    revert R. unfold resolved. intuition lia. }
  assert (R : resolved 1 (set_mmap_sem (mmap_sem s) s2) s').
  { destruct (fault .& VM_FAULT_RETRY) eqn:Hr; [|exact (Last H)].
    apply bind_inv in H as (x & s3 & X & H). injection X as <- <-.
    destruct (true && negb (fatal_signal_pending s2)); [|exact (Last H)].
    apply bind_inv in H as (y & s3 & X & H). apply down_read_moved in X. apply Hn in H.
    destruct X as (X1 & X2 & X3 & X4), H as (H1 & H2 & H3). unfold resolved, handled in *.
    simpl in *. rewrite X2, X3 in H3. split; [lia|]. split; [lia|exact H3]. }
  destruct R as (R1 & R2 & R3). unfold resolved, handled in *.
  simpl in *. rewrite <- E3, <- E4, <- C2, <- C3. split; [lia|]. split; [lia|exact R3].
Qed.
End Retry.

(** Two attempts are enough, whatever the flags. *)
Lemma attempt_all e a flags major fuel s :
  fault_attempt (S (S fuel)) e a flags major s = fault_attempt 2 e a flags major s /\
  forall u s', fault_attempt 2 e a flags major s = Some (u, s') -> resolved 2 s s'.
Proof.
  destruct (flags .& FAULT_FLAG_ALLOW_RETRY) eqn:Hf.
  - pose proof (retry_not_allowed flags) as Hf'. split.
    + apply attempt_cong; [easy|]. intros. now apply attempt_final.
    + intros u s'. apply attempt_retry; [easy|]. intros ? ? ? ?.
      now apply (proj2 (attempt_final e a _ _ 0 _ Hf')).
  - split.
    + transitivity (fault_attempt 1 e a flags major s); [|symmetry]; now apply attempt_final.
    + intros u s' H. rewrite (proj1 (attempt_final e a flags major 1 s Hf)) in H.
      apply (proj2 (attempt_final e a flags major 0 s Hf)) in H.
      revert H. unfold resolved. intuition lia.
Qed.
End Attempt.

(** ** The whole handler *)

Section Handler.
Context {W : Type} {consts : FaultConsts} {paging : Paging} {kernel : FaultEnv W}.
Context {env_ok : FaultEnvOk kernel}.
Implicit Types s : fstate W.

Definition lock_delta (b : bool) : Z := if b then 1 else 0.

Lemma lock_mmap_moved e a s b s' : lock_mmap e a s = Some (b, s') -> moved (lock_delta b) s s'.
Proof.
  intros H. apply bind_inv in H as (got & s1 & E & H). injection E as <- <-.
  destruct (down_read_trylock s); cbn [negb] in H.
  - apply bind_inv in H as (u & s1 & E & H). injection E as _ <-.
    apply bind_inv in H as (u2 & s2 & E2 & H). injection H as <- <-.
    apply frame_fcall in E2; [|easy|easy]. apply frame_moved in E2.
    destruct E2 as (H1 & H2 & H3 & H4). unfold moved, handled in *. simpl in *.
    repeat split; try easy. lia.
  - apply bind_inv in H as (regs & s1 & E & H). injection E as <- <-.
    destruct (negb (user_mode (f_regs s)) && _).
    + apply bind_inv in H as (u & s1 & E & H). injection H as <- <-.
      apply bad_area_nosemaphore_frame in E. now apply frame_moved.
    + apply bind_inv in H as (u & s1 & E & H). injection H as <- <-.
      now apply down_read_moved in E.
Qed.

(** What a fault may do to the counters, if it is not on the page of the vsyscalls ([v]),
    and no lock left behind. *)
Definition settled (v : bool) (s s' : fstate W) : Prop :=
  mmap_sem s' = mmap_sem s /\ (handled s' <= handled s + 2)%nat /\
  (v = false ->
   (maj_flt s' = maj_flt s /\ min_flt s' = min_flt s) \/
   (maj_flt s' = u64 (maj_flt s + 1) /\ min_flt s' = min_flt s) \/
   (maj_flt s' = maj_flt s /\ min_flt s' = u64 (min_flt s + 1))).

Lemma moved_settled v s s' : moved 0 s s' -> settled v s s'.
Proof.
  unfold moved, settled. intros (H1 & H2 & H3 & H4). rewrite H2, H3. split; [lia|].
  split; [lia|auto].
Qed.

Lemma moved_settled_l v s s1 s' : moved 0 s s1 -> settled v s1 s' -> settled v s s'.
Proof.
  unfold moved, settled. intros (H1 & H2 & H3 & H4). rewrite H2, H3. intuition lia.
Qed.

Lemma settled_moved_r v s s1 s' : settled v s s1 -> moved 0 s1 s' -> settled v s s'.
Proof.
  unfold moved, settled. intros (R1 & R2 & R3) (H1 & H2 & H3 & H4). rewrite H2, H3.
  split; [lia|]. split; [lia|exact R3].
Qed.

(** Vsyscalls are emulated on their page only. *)
Lemma emulation_settled e a s r s1 s' :
  (if is_vsyscall_vaddr a then let* r := fcall_ret (emulate_vsyscall e a) in ret (ctrue r) else ret false) s
    = Some (r, s1) ->
  settled (is_vsyscall_vaddr a) s1 s' -> settled (is_vsyscall_vaddr a) s s'.
Proof.
  destruct (is_vsyscall_vaddr a); [|now intros [= _ <-]].
  intros H (R1 & R2 & _). apply bind_inv in H as (x & s2 & E & H). injection H as _ <-.
  apply fcall_inv in E as (s3 & E & ->). apply sem_other in E; [|easy].
  unfold settled, handled in *. cbn [mmap_sem f_calls set_f_calls] in *.
  rewrite filter_cons_False in R2 by easy. split; [congruence|]. split; [exact R2|easy].
Qed.

(** Everything before the attempts. *)
Lemma do_user_settled fuel e a s u s' :
  do_user_addr_fault (S (S fuel)) e a s = Some (u, s') -> settled (is_vsyscall_vaddr a) s s'.
Proof.
  intros H. apply bind_inv in H as (probe & s1 & E & H).
  apply frame_fcall_ret, frame_moved in E; [|easy|easy]. apply (moved_settled_l _ _ _ _ E). clear E.
  destruct (ctrue probe); [injection H as _ <-; apply moved_settled, frame_moved; reflexivity|].
  apply bind_inv in H as (ok & s2 & E & H). apply user_fault_allowed_frame, frame_moved in E.
  apply (moved_settled_l _ _ _ _ E). clear E.
  destruct ok; [|injection H as _ <-; apply moved_settled, frame_moved; reflexivity].
  cbn [negb] in H. apply bind_inv in H as (regs & s3 & E & H). injection E as <- <-.
  apply bind_inv in H as (u1 & s3 & E & H).
  assert (F3 : frame s2 s3) by (refine ((_ : keeps frame _) s2 u1 s3 E); frame_auto).
  apply frame_moved in F3. apply (moved_settled_l _ _ _ _ F3). clear E F3.
  apply bind_inv in H as (u2 & s4 & E & H). apply frame_fcall, frame_moved in E; [|easy|easy].
  apply (moved_settled_l _ _ _ _ E). clear E.
  apply bind_inv in H as (em & s5 & E & H).
  apply (emulation_settled _ _ _ _ _ _ E). clear E.
  destruct em; [injection H as _ <-; apply moved_settled, frame_moved; reflexivity|].
  apply bind_inv in H as (locked & s6 & E & H). apply lock_mmap_moved in E.
  destruct locked; cbn [negb lock_delta] in *.
  - rewrite (proj1 (attempt_all _ _ _ _ _ _)) in H.
    apply (proj2 (attempt_all _ _ _ _ 0 _)) in H.
    destruct E as (E1 & E2 & E3 & E4), H as (R1 & R2 & R3). unfold settled.
    rewrite <- E2, <- E3. split; [lia|]. split; [lia|intros _; exact R3].
  - injection H as _ <-. now apply moved_settled.
Qed.

Lemma __do_page_fault_settled fuel e a s u s' :
  __do_page_fault (S (S fuel)) e a s = Some (u, s') -> settled (is_vsyscall_vaddr a) s s'.
Proof.
  intros H. apply bind_inv in H as (r & s1 & E & H).
  assert (F : frame s s1).
  { unfold kmmio_fault in E. refine ((_ : keeps frame _) s r s1 E). frame_auto. }
  apply frame_moved in F. apply (moved_settled_l _ _ _ _ F).
  destruct (ctrue r); [injection H as _ <-; apply moved_settled, frame_moved; reflexivity|].
  destruct (fault_in_kernel_space a); [|now apply do_user_settled in H].
  apply do_kern_addr_fault_frame, frame_moved in H. now apply moved_settled.
Qed.

Lemma do_page_fault_settled fuel e a s u s' :
  do_page_fault (S (S fuel)) e a s = Some (u, s') -> settled (is_vsyscall_vaddr a) s s'.
Proof.
  intros H. apply bind_inv in H as (st & s1 & E & H).
  apply frame_fcall_ret, frame_moved in E; [|easy|easy]. apply (moved_settled_l _ _ _ _ E). clear E.
  apply bind_inv in H as (u1 & s2 & E & H).
  assert (F : frame s1 s2).
  { unfold trace_page_fault_entries, in_user_mode in E.
    refine ((_ : keeps frame _) s1 u1 s2 E). frame_auto. }
  apply frame_moved in F. apply (moved_settled_l _ _ _ _ F). clear E F.
  apply bind_inv in H as (u2 & s3 & E & H). apply __do_page_fault_settled in E.
  apply (settled_moved_r _ _ _ _ E). apply frame_fcall, frame_moved in H; easy.
Qed.

(** Fuel beyond two rounds is not used. *)
Lemma do_page_fault_fuel fuel e a s :
  do_page_fault (S (S fuel)) e a s = do_page_fault 2 e a s.
Proof.
  assert (U : forall s, do_user_addr_fault (S (S fuel)) e a s = do_user_addr_fault 2 e a s).
  { intros s0. apply bind_ext. intros probe s1. destruct (ctrue probe); [reflexivity|].
    apply bind_ext. intros [] s2; [|reflexivity]. do 3 (apply bind_ext; intros ? ?s).
    apply bind_ext. intros [] ?; [reflexivity|].
    apply bind_ext. intros [] ?; [apply attempt_all|reflexivity]. }
  apply bind_ext. intros st s1. apply bind_ext. intros u s2.
  unfold __do_page_fault, bind. destruct (kmmio_fault a s2) as [[r s3]|]; [|reflexivity].
  destruct (ctrue r); [reflexivity|]. destruct (fault_in_kernel_space a); [reflexivity|].
  now rewrite U.
Qed.
End Handler.
