(* ===== verification/FaultSpec.v ===== *)
(** Specifications of the page-fault path of [Fault.v] and the theorems that the
    code meets them: which instruction bytes count as a prefetch, when a kernel
    mapping is copied or a fault is spurious, what a task learns of a bad
    access, the lock and the counters, and where the hook of the module leads. *)
From Stdlib Require Import ZArith Lia Bool String.
From stdpp Require Import base list gmap.
From S2P Require Import Prelude Regs Exe Stat Sysfs Lkm Paging Fault.

Local Open Scope Z_scope.
Local Open Scope ub_scope.

(** ** Prefetch instructions *)

(** The instruction prefixes: segment overrides, operand and address size, lock
    and repeat, and in long mode REX. *)
Definition is_prefix (long : bool) (b : Z) : bool :=
  existsb (Z.eqb b) [0x26; 0x2e; 0x36; 0x3e; 0x64; 0x65; 0x66; 0x67; 0xf0; 0xf2; 0xf3]
  || (long && (0x40 <=? b) && (b <=? 0x4f)).

Section Prefetch.
Context {W : Type} {consts : FaultConsts} {kernel : FaultEnv W}.
Implicit Types s : fstate W.

Definition long_mode (s : fstate W) : bool :=
  negb (user_mode (f_regs s)) || user_64bit_mode (f_regs s).

(** Up to 14 prefixes, then 0F 0D or 0F 18, all readable. *)
Definition prefetch_at (s : fstate W) (len : nat) (ip : Z) : Prop :=
  exists j, (j < len)%nat /\
    (forall i, (i < j)%nat -> exists b, probe_kernel_byte s (ip + Z.of_nat i) = Some b /\
       is_prefix (long_mode s) b = true) /\
    probe_kernel_byte s (ip + Z.of_nat j) = Some 0x0f /\
    exists b, probe_kernel_byte s (ip + Z.of_nat j + 1) = Some b /\ (b = 0x0d \/ b = 0x18).

(** What the opcode test answers, byte by byte. *)
Definition opcode_spec (long : bool) (next : option Z) (b prefetch : Z) : bool * Z :=
  if is_prefix long b then (true, prefetch)
  else if b =? 0x0f then
    match next with
    | None => (false, prefetch)
    | Some o => (false, if (o =? 0x0D) || (o =? 0x18) then 1 else 0)
    end
  else if b <? 0x0f then match next with None => (false, prefetch) | Some _ => (false, 0) end
  else (false, prefetch).

Definition bytes : list Z := map Z.of_nat (seq 0 256).

Lemma in_bytes b : 0 <= b < 256 -> b ∈ bytes.
Proof.
  intros H. unfold bytes. apply list_elem_of_fmap. exists (Z.to_nat b). split; [lia|].
  apply elem_of_seq. lia.
Qed.

Lemma check_prefetch_opcode_spec s instr b prefetch :
  0 <= b < 256 ->
  check_prefetch_opcode s instr b prefetch =
  opcode_spec (long_mode s) (probe_kernel_byte s instr) b prefetch.
Proof.
  intros H. apply in_bytes in H. revert b H. apply Forall_forall.
  unfold check_prefetch_opcode. fold (long_mode s).
  generalize (probe_kernel_byte s instr) as next. generalize (long_mode s) as long.
  intros long next. unfold bytes.
  destruct long; repeat (apply Forall_cons; split; [destruct next; reflexivity|]);
    apply Forall_nil; exact I.
Qed.

(** The first byte is the opcode, or a prefix before a prefetch. *)
Lemma prefetch_at_cons s k ip b :
  probe_kernel_byte s ip = Some b ->
  prefetch_at s (S k) ip <->
  (b = 0x0f /\ exists o, probe_kernel_byte s (ip + 1) = Some o /\ (o = 0x0d \/ o = 0x18)) \/
  (is_prefix (long_mode s) b = true /\ prefetch_at s k (ip + 1)).
Proof.
  intros Hb. split.
  - intros (j & Hj & Hp & Ho & Hn). destruct j as [|j].
    + left. replace (ip + Z.of_nat 0) with ip in * by lia. split; [congruence|exact Hn].
    + right. split.
      * destruct (Hp 0%nat) as (b' & E & P); [lia|]. replace (ip + Z.of_nat 0) with ip in E by lia.
        congruence.
      * exists j. replace (ip + Z.of_nat (S j)) with (ip + 1 + Z.of_nat j) in * by lia.
        split; [lia|]. split; [|easy]. intros i Hi. destruct (Hp (S i)) as (b' & E & P); [lia|].
        replace (ip + Z.of_nat (S i)) with (ip + 1 + Z.of_nat i) in E by lia. eauto.
  - intros [[-> Hn]|[P (j & Hj & Hp & Ho & Hn)]].
    + exists 0%nat. replace (ip + Z.of_nat 0) with ip by lia.
      split; [lia|]. split; [lia|easy].
    + exists (S j). replace (ip + Z.of_nat (S j)) with (ip + 1 + Z.of_nat j) by lia.
      split; [lia|]. split; [|easy]. intros [|i] Hi.
      * replace (ip + Z.of_nat 0) with ip by lia. eauto.
      * replace (ip + Z.of_nat (S i)) with (ip + 1 + Z.of_nat i) by lia. apply Hp. lia.
Qed.

Context {env_ok : FaultEnvOk kernel}.

Lemma prefetch_loop_spec s k : forall ip,
  0 <= ip -> ip + Z.of_nat k < 2 ^ 64 ->
  (ctrue (prefetch_loop s k ip 0) = true <-> prefetch_at s k ip).
Proof.
  induction k as [|k IH]; intros ip H1 H2; cbn [prefetch_loop].
  { split; [discriminate|]. intros (j & Hj & _). lia. }
  rewrite u64_small by word_range. specialize (IH (ip + 1) ltac:(lia) ltac:(lia)).
  destruct (probe_kernel_byte s ip) as [b|] eqn:Eb.
  2:{ split; [discriminate|]. intros (j & Hj & Hp & Ho & Hn). exfalso. destruct j as [|j].
      - replace (ip + Z.of_nat 0) with ip in Ho by lia. congruence.
      - destruct (Hp 0%nat) as (b & E & _); [lia|]. replace (ip + Z.of_nat 0) with ip in E by lia.
        congruence. }
  rewrite (prefetch_at_cons s k ip b Eb), check_prefetch_opcode_spec by (eapply bytes_range; exact Eb).
  unfold opcode_spec. destruct (is_prefix (long_mode s) b) eqn:Ep.
  - rewrite IH. split; [auto|]. intros [[-> _]|[_ H]]; [|easy].
    exfalso. clear - Ep. unfold is_prefix in Ep. destruct (long_mode s); discriminate.
  - destruct (Z.eqb_spec b 0x0f) as [->|Hb].
    + destruct (probe_kernel_byte s (ip + 1)) as [o|] eqn:Eo.
      * destruct (Z.eqb_spec o 0x0d) as [->|H3]; [simpl; split; eauto 6|].
        destruct (Z.eqb_spec o 0x18) as [->|H4]; [simpl; split; eauto 6|].
        simpl. split; [discriminate|]. intros [[_ (o' & E & Ho')]|[E _]]; [|discriminate].
        injection E as <-. lia.
      * split; [discriminate|]. intros [[_ (o' & E & _)]|[E _]]; discriminate.
    + split.
      * intros H. exfalso. destruct (b <? 0x0f); [destruct (probe_kernel_byte s (ip + 1))|];
          discriminate H.
      * intros [[E _]|[E _]]; [easy|discriminate].
Qed.
End Prefetch.

(** ** Kernel mappings *)

(** Under the upper-level entry at [pud], the address is mapped. *)
Definition mapped_under {paging : Paging} (m : ptmem) (pud address : Z) : Prop :=
  pud_none (rd m pud) = false /\
  (pud_large (rd m pud) = true \/
   let pmd := pmd_offset m pud address in
   pmd_none (rd m pmd) = false /\
   (pmd_large (rd m pmd) = true \/
    pte_present (rd m (pte_offset_kernel m pmd address)) = true)).

(** The upper-level entry that a walk from the top-level entry [pgd] reaches. *)
Definition pud_from {paging : Paging} (m : ptmem) (pgd address : Z) : Z :=
  pud_offset m (p4d_offset m pgd address) address.

(** The present mapping of a kernel address: the entries that must permit an
    access to it. *)
Inductive kernel_leaf {paging : Paging} (m : ptmem) (address : Z) : list Z -> Prop :=
| leaf_p4d (p4d := p4d_offset m (pgd_offset_k address) address) :
    pgd_present (rd m (pgd_offset_k address)) = true ->
    p4d_present (rd m p4d) = true -> p4d_large (rd m p4d) = true ->
    kernel_leaf m address [rd m p4d]
| leaf_pud (p4d := p4d_offset m (pgd_offset_k address) address)
    (pud := pud_offset m p4d address) :
    pgd_present (rd m (pgd_offset_k address)) = true ->
    p4d_present (rd m p4d) = true -> p4d_large (rd m p4d) = false ->
    pud_present (rd m pud) = true -> pud_large (rd m pud) = true ->
    kernel_leaf m address [rd m pud]
| leaf_pmd (p4d := p4d_offset m (pgd_offset_k address) address)
    (pud := pud_offset m p4d address) (pmd := pmd_offset m pud address) :
    pgd_present (rd m (pgd_offset_k address)) = true ->
    p4d_present (rd m p4d) = true -> p4d_large (rd m p4d) = false ->
    pud_present (rd m pud) = true -> pud_large (rd m pud) = false ->
    pmd_present (rd m pmd) = true -> pmd_large (rd m pmd) = true ->
    kernel_leaf m address [rd m pmd]
| leaf_pte (p4d := p4d_offset m (pgd_offset_k address) address)
    (pud := pud_offset m p4d address) (pmd := pmd_offset m pud address)
    (pte := pte_offset_kernel m pmd address) :
    pgd_present (rd m (pgd_offset_k address)) = true ->
    p4d_present (rd m p4d) = true -> p4d_large (rd m p4d) = false ->
    pud_present (rd m pud) = true -> pud_large (rd m pud) = false ->
    pmd_present (rd m pmd) = true -> pmd_large (rd m pmd) = false ->
    pte_present (rd m pte) = true ->
    kernel_leaf m address [rd m pte; rd m pmd].

(** The entry allows what the fault was about. *)
Definition permits {consts : FaultConsts} {paging : Paging} (error_code e : Z) : Prop :=
  ((error_code .& X86_PF_WRITE) = true -> pte_write e = true) /\
  ((error_code .& X86_PF_INSTR) = true -> pte_exec e = true).

Section KernelMappings.
Context {W : Type} {consts : FaultConsts} {paging : Paging} {kernel : FaultEnv W}.
Context {paging_ok : PagingOk paging}.
Implicit Types s : fstate W.

Lemma check_permits error_code e :
  spurious_kernel_fault_check error_code e = true <-> permits error_code e.
Proof.
  unfold spurious_kernel_fault_check, permits.
  destruct (error_code .& X86_PF_WRITE), (error_code .& X86_PF_INSTR), (pte_write e), (pte_exec e);
    simpl; intuition congruence.
Qed.

Lemma spurious_lookup_spec m error_code address :
  fst (spurious_lookup m error_code address) = true <->
  exists es, kernel_leaf m address es /\ Forall (permits error_code) es.
Proof.
  unfold spurious_lookup. split.
  - intros H. repeat (case_if; simpl in H; bool_prop; try discriminate H);
      apply check_permits in H.
    + eexists. split; [apply leaf_p4d; easy|now apply Forall_singleton].
    + eexists. split; [apply leaf_pud; easy|now apply Forall_singleton].
    + eexists. split; [apply leaf_pmd; easy|now apply Forall_singleton].
    + eexists. split; [apply leaf_pte; easy|]. constructor; [now apply check_permits|].
      now apply Forall_singleton.
  - intros (es & L & F). destruct L; repeat (apply Forall_cons in F as [? F]);
      repeat match goal with x := _ : Z |- _ => subst x end;
      repeat match goal with
      | H : permits _ _ |- _ => apply check_permits in H
      | H : _ = true |- _ => rewrite H
      | H : _ = false |- _ => rewrite H
      end; reflexivity.
Qed.

(** The only outside call on the way leaves the tables alone. *)
Hypothesis flush_keeps : forall s r s',
  fext arch_flush_lazy_mmu_mode s = Some (r, s') -> pagetable s' = pagetable s.

Lemma flush_pagetable s u s' :
  fcall_ arch_flush_lazy_mmu_mode s = Some (u, s') -> pagetable s' = pagetable s.
Proof.
  intros H. apply bind_inv in H as (r & s1 & H & E). injection E as _ <-.
  apply fcall_inv in H as (s2 & E & ->). simpl. eauto.
Qed.

(** Afterwards the top-level entries lead to the same table; at most one was
    copied. *)
Lemma sync_pgd_spec pgd pgd_k s u s' :
  sync_pgd pgd pgd_k s = Some (u, s') ->
  (pagetable s' = pagetable s \/
   pgtable_l5_enabled = true /\ pagetable s' = <[pgd := rd (pagetable s) pgd_k]> (pagetable s)) /\
  (pgtable_l5_enabled = true ->
   pgd_page_vaddr (rd (pagetable s') pgd) = pgd_page_vaddr (rd (pagetable s') pgd_k)).
Proof.
  unfold sync_pgd. destruct pgtable_l5_enabled; [|intros [= _ <-]; auto; split; [auto|discriminate]].
  intros H. apply bind_inv in H as (e & s1 & E & H). injection E as <- <-.
  apply bind_inv in H as (ek & s1 & E & H). injection E as <- <-.
  destruct (pgd_none (rd (pagetable s) pgd)).
  - apply bind_inv in H as (u1 & s1 & E & H). injection E as _ <-.
    apply flush_pagetable in H. simpl in H. rewrite store_entry_insert in H. rewrite H.
    split; [auto|]. intros _. rewrite rd_insert_eq.
    destruct (decide (pgd = pgd_k)) as [->|N]; [now rewrite rd_insert_eq|].
    now rewrite rd_insert_ne.
  - unfold BUG_ON in H. destruct (Z.eqb_spec (pgd_page_vaddr (rd (pagetable s) pgd))
      (pgd_page_vaddr (rd (pagetable s) pgd_k))); [|discriminate].
    injection H as _ <-. auto.
Qed.

Lemma sync_p4d_spec p4d p4d_k s u s' :
  sync_p4d p4d p4d_k s = Some (u, s') ->
  (pagetable s' = pagetable s \/
   pgtable_l5_enabled = false /\ pagetable s' = <[p4d := rd (pagetable s) p4d_k]> (pagetable s)) /\
  p4d_pfn (rd (pagetable s') p4d) = p4d_pfn (rd (pagetable s') p4d_k).
Proof.
  intros H. apply bind_inv in H as (e & s1 & E & H). injection E as <- <-.
  apply bind_inv in H as (ek & s1 & E & H). injection E as <- <-.
  destruct (p4d_none (rd (pagetable s) p4d) && negb pgtable_l5_enabled) eqn:C.
  - apply bind_inv in H as (u1 & s1 & E & H). injection E as _ <-.
    apply flush_pagetable in H. simpl in H. rewrite store_entry_insert in H. rewrite H.
    bool_prop. split; [auto|]. rewrite rd_insert_eq.
    destruct (decide (p4d = p4d_k)) as [->|N]; [now rewrite rd_insert_eq|].
    now rewrite rd_insert_ne.
  - unfold BUG_ON in H. destruct (Z.eqb_spec (p4d_pfn (rd (pagetable s) p4d))
      (p4d_pfn (rd (pagetable s) p4d_k))); [|discriminate].
    injection H as _ <-. auto.
Qed.

Lemma present_below_spec p4d address s s' :
  present_below p4d address s = Some (0, s') ->
  s' = s /\ mapped_under (pagetable s) (pud_offset (pagetable s) p4d address) address.
Proof.
  intros H. apply bind_inv in H as (m & s1 & E & H). injection E as <- <-. injection H as H <-.
  split; [easy|]. unfold mapped_under. revert H. repeat case_if; try discriminate; auto.
  intros _. bool_prop. auto.
Qed.

Lemma vmalloc_fault_spec address s s' :
  vmalloc_fault address s = Some (0, s') ->
  let m := pagetable s in let m' := pagetable s' in
  let pgd := pgd_entry_of (read_cr3_va s) address in
  let pgd_k := pgd_offset_k address in
  VMALLOC_START <= address < VMALLOC_END /\
  pud_from m' pgd address = pud_from m' pgd_k address /\
  mapped_under m' (pud_from m' pgd_k address) address /\
  (m' = m \/ m' = <[pgd := rd m pgd_k]> m).
Proof.
  unfold vmalloc_fault. case_if; [discriminate|]. bool_prop. intros X.
  apply bind_inv in X as (base & s1 & Y & X). injection Y as <- <-.
  apply bind_inv in X as (ek & s1 & Y & X). injection Y as <- <-.
  case_if; [discriminate|]. apply bind_inv in X as (u & s1 & Y & X).
  apply sync_pgd_spec in Y as [M1 V1]. apply bind_inv in X as (m1 & s2 & Y & X).
  injection Y as <- <-. apply bind_inv in X as (ek & s2 & Y & X). injection Y as <- <-.
  case_if; [discriminate|]. apply bind_inv in X as (u2 & s2 & Y & X).
  apply sync_p4d_spec in Y as [M2 V2]. apply present_below_spec in X as [-> X].
  cbv zeta. unfold pud_from. split; [easy|].
  set (pgd := pgd_entry_of (read_cr3_va s) address) in *.
  destruct pgtable_l5_enabled eqn:L.
  - assert (E2 : pagetable s2 = pagetable s1) by (destruct M2 as [|[? _]]; congruence).
    rewrite E2 in *. assert (Ep : p4d_offset (pagetable s1) pgd address =
      p4d_offset (pagetable s1) (pgd_offset_k address) address)
      by (apply p4d_same_page; auto).
    rewrite Ep in *. destruct M1 as [M1|[_ M1]]; auto.
  - assert (E1 : pagetable s1 = pagetable s) by (destruct M1 as [|[? _]]; congruence).
    rewrite !p4d_folded in * by easy. rewrite <- E1.
    rewrite (pud_same_page _ (pagetable s2) _ (pgd_offset_k address)) in X |- * by easy.
    destruct M2 as [M2|[_ M2]]; auto.
Qed.
End KernelMappings.

(** ** What a task learns of a fault at a kernel address *)

Section Hides.
Context {W : Type} {consts : FaultConsts} {paging : Paging} {kernel : FaultEnv W}.
Context {env_ok : FaultEnvOk kernel}.
Variable a : Z.
Implicit Types s : fstate W.

(** The signal information of the task is as before, or describes a protection
    fault of a user access at [a]. *)
Definition hides (s s' : fstate W) : Prop :=
  (trap_nr s' = trap_nr s /\ thread_error_code s' = thread_error_code s /\ cr2 s' = cr2 s) \/
  (trap_nr s' = X86_TRAP_PF /\ cr2 s' = a /\
   Z.land (thread_error_code s') (Z.lor X86_PF_PROT X86_PF_USER) = Z.lor X86_PF_PROT X86_PF_USER).

#[local] Instance hides_preorder : PreOrder hides.
Proof.
  split.
  - intros s. now left.
  - intros s1 s2 s3 H12 [(E1 & E2 & E3)|H23]; [|now right]. unfold hides in *.
    rewrite E1, E2, E3. exact H12.
Qed.

Lemma hides_fcall_ret c : is_emulation c = false -> keeps hides (fcall_ret c).
Proof.
  intros Hc s r s' H. apply fcall_inv in H as (s1 & E & ->). apply thread_kept in E; [now left|easy].
Qed.
Lemma hides_fcall c : is_emulation c = false -> keeps hides (fcall_ c).
Proof.
  intros Hc. apply keeps_bind; [exact _|now apply hides_fcall_ret|intros; apply keeps_ret; exact _].
Qed.
Lemma hides_modify (f : fstate W -> fstate W) :
  (forall s, trap_nr (f s) = trap_nr s /\ thread_error_code (f s) = thread_error_code s /\
     cr2 (f s) = cr2 s) -> keeps hides (modify f).
Proof. intros H. apply keeps_modify. intros s. left. apply H. Qed.

Hypothesis kernel_address : TASK_SIZE_MAX <= a.
Hypothesis no_vsyscall : is_vsyscall_vaddr a = false.

Lemma hides_archinfo e : keeps hides (set_signal_archinfo a e).
Proof.
  apply keeps_modify. intros s. right. simpl.
  destruct (Z.leb_spec TASK_SIZE_MAX a); [|lia].
  rewrite <- Z.lor_assoc. rewrite land_lor_same. easy.
Qed.

Ltac hides_auto :=
  repeat first [ keeps_step | apply hides_fcall_ret; reflexivity | apply hides_fcall; reflexivity | apply hides_archinfo
               | apply hides_modify; intros; repeat split ].

Lemma hides_print l : keeps hides (print_all l).
Proof. induction l as [|m l IH]; simpl; hides_auto. exact IH. Qed.

Lemma hides_no_context e sig code : keeps hides (no_context e a sig code).
Proof.
  unfold no_context, in_user_mode, try_fixup, ub_hook, no_context_tail, is_errata93, freg,
    set_ip, oops, show_fault_oops, dump_pagetable.
  hides_auto; apply hides_print.
Qed.

Lemma hides_bad_area e pk code : keeps hides (__bad_area_nosemaphore e a pk code).
Proof.
  unfold __bad_area_nosemaphore, bad_area_user, in_user_mode, show_signal_msg.
  hides_auto. apply hides_no_context.
Qed.

Lemma hides_good_area e : keeps hides (good_area e a).
Proof.
  unfold good_area, bad_area, bad_area_access_error, __bad_area.
  hides_auto; apply hides_bad_area.
Qed.

Lemma hides_mm_fault_error e f : keeps hides (mm_fault_error e a f).
Proof.
  unfold mm_fault_error, do_sigbus, bad_area_nosemaphore, BUG_ON.
  hides_auto; apply hides_no_context || apply hides_bad_area.
Qed.

Lemma hides_attempt fuel e : forall flags major, keeps hides (fault_attempt fuel e a flags major).
Proof.
  induction fuel as [|fuel IH]; intros flags major; cbn [fault_attempt]; [apply keeps_diverge|].
  unfold account.
  hides_auto; apply hides_good_area || apply IH || apply hides_no_context
              || apply hides_mm_fault_error.
Qed.

Lemma hides_user_fault fuel e : keeps hides (do_user_addr_fault fuel e a).
Proof.
  unfold do_user_addr_fault, user_fault_allowed, pgtable_bad, dump_pagetable, lock_mmap,
    bad_area_nosemaphore, freg. rewrite no_vsyscall.
  hides_auto; apply hides_print || apply hides_bad_area || apply hides_attempt.
Qed.

Lemma hides_kern_fault e : keeps hides (do_kern_addr_fault e a).
Proof.
  unfold do_kern_addr_fault, vmalloc_fault, sync_pgd, sync_p4d, present_below, entry, set_entry,
    BUG_ON, spurious_kernel_fault, bad_area_nosemaphore.
  hides_auto. apply hides_bad_area.
Qed.

Lemma hides_page_fault fuel e : keeps hides (do_page_fault fuel e a).
Proof.
  unfold do_page_fault, trace_page_fault_entries, in_user_mode, __do_page_fault, kmmio_fault.
  hides_auto; apply hides_kern_fault || apply hides_user_fault.
Qed.
End Hides.

(** ** The hook for faults in code blocks *)

Section Hook.
Context {W : Type} {consts : FaultConsts} {paging : Paging} {kernel : FaultEnv W}.
Implicit Types s : fstate W.

(** The call of the module's predicate, when the symbol is known. *)
Definition ask_module (address : Z) : M (fstate W) unit :=
  if kallsyms_lookup_name "UB_fault_address_space" =? 0 then ret tt
  else
    let* r13 := freg R13 in
    fcall_ (call_UB_fault_address_space (kallsyms_lookup_name "UB_fault_address_space")
              address r13).

Lemma ub_hook_without_handler address s :
  kallsyms_lookup_name "UB_SFI_error_handler" = 0 ->
  ub_hook address s = (ask_module address ;; ret false) s.
Proof.
  intros H. unfold ub_hook, ask_module. rewrite H.
  destruct (Z.eqb_spec (kallsyms_lookup_name "UB_fault_address_space") 0); [easy|]. cbn [negb].
  unfold fcall_, bind, freg, gets. destruct (fcall_ret _ s) as [[r s1]|]; [|easy].
  destruct (r =? 1); reflexivity.
Qed.
End Hook.

(** ** Properties *)

Module FaultDemo.
#[export] Instance consts : FaultConsts := {|
  X86_PF_PROT := 1; X86_PF_WRITE := 2; X86_PF_USER := 4; X86_PF_RSVD := 8; X86_PF_INSTR := 16;
  X86_PF_PK := 32;
  X86_TRAP_PF := 14; TASK_SIZE_MAX := 0x7ffffffff000; PAGE_SIZE := 4096; PAGE_SHIFT := 12;
  THREAD_SIZE := 16384; VSYSCALL_ADDR := 0xffffffffff600000;
  VMALLOC_START := 0xffffc90000000000; VMALLOC_END := 0xffffe8ffffffffff;
  PGDIR_MASK := 0xffffff8000000000; MODULES_VADDR := 0xffffffffc0000000;
  MODULES_END := 0xffffffffff000000; stext := 0xffffffff81000000; etext := 0xffffffff81e00000;
  X86_VENDOR_AMD := 2; SIGSEGV := 11; SIGBUS := 7; SIGKILL := 9; SEGV_MAPERR := 1;
  SEGV_ACCERR := 2; SEGV_PKUERR := 4; BUS_ADRERR := 2; BUS_MCEERR_AR := 4; FUSER32_CS := 0x23;
  X86_EFLAGS_AC := 0x40000; X86_EFLAGS_IF := 0x200; VM_FAULT_OOM := 1; VM_FAULT_SIGBUS := 2;
  VM_FAULT_MAJOR := 4; VM_FAULT_HWPOISON := 0x10; VM_FAULT_HWPOISON_LARGE := 0x20;
  VM_FAULT_SIGSEGV := 0x40; VM_FAULT_RETRY := 0x400; VM_FAULT_ERROR := 0x873;
  FAULT_FLAG_WRITE := 1; FAULT_FLAG_ALLOW_RETRY := 4; FAULT_FLAG_KILLABLE := 0x10;
  FAULT_FLAG_TRIED := 0x20; FAULT_FLAG_USER := 0x40; FAULT_FLAG_INSTRUCTION := 0x100;
  VM_READ := 1; VM_WRITE := 2; VM_EXEC := 4; VM_GROWSDOWN := 0x100;
  VM_FAULT_GET_HINDEX f := Z.land (Z.shiftr f 16) 15; hstate_index_to_shift i := 21 |}.

(** Four levels; an entry is the address of the next table plus flag bits:
    1 present, 2 writable, 4 not executable, 8 large. *)
#[export] Instance paging : Paging := {|
  pgtable_l5_enabled := false; pgd_index a := Z.land (Z.shiftr a 39) 511; init_mm_pgd := 0x1000;
  p4d_offset m p a := p;
  pud_offset m p a := Z.land (rd m p) (-4096) + 8 * Z.land (Z.shiftr a 30) 511;
  pmd_offset m p a := Z.land (rd m p) (-4096) + 8 * Z.land (Z.shiftr a 21) 511;
  pte_offset_kernel m p a := Z.land (rd m p) (-4096) + 8 * Z.land (Z.shiftr a 12) 511;
  pgd_none v := v =? 0; pgd_present v := Z.testbit v 0;
  p4d_none v := v =? 0; p4d_present v := Z.testbit v 0; p4d_large v := Z.testbit v 3;
  pud_none v := v =? 0; pud_present v := Z.testbit v 0; pud_large v := Z.testbit v 3;
  pmd_none v := v =? 0; pmd_present v := Z.testbit v 0; pmd_large v := Z.testbit v 3;
  pte_none v := v =? 0; pte_present v := Z.testbit v 0; pte_write v := Z.testbit v 1;
  pte_exec v := negb (Z.testbit v 2);
  pgd_page_vaddr v := Z.land v (-4096); p4d_pfn v := Z.land v (-4096);
  store_entry p v m := <[p := v]> m |}.

Lemma paging_ok : PagingOk paging.
Proof.
  split; simpl; try easy. intros m m' p q a H. now rewrite H.
Qed.

(** A kernel in which the first attempt at a fault asks for a retry. *)
Definition answer (c : fcall) (s : fstate unit) : option (Z * fstate unit) :=
  match c with
  | down_read => Some (0, set_mmap_sem (mmap_sem s + 1) s)
  | up_read => Some (0, set_mmap_sem (mmap_sem s - 1) s)
  | handle_mm_fault _ _ flags =>
      if ctrue (Z.land flags 4) then Some (0x404, set_mmap_sem (mmap_sem s - 1) s)
      else Some (0, s)
  | call_UB_fault_address_space _ _ _ => Some (1, s)
  | emulate_vsyscall _ _ => Some (1, set_flt (maj_flt s) (min_flt s + 1) s)   (* one fault of its own *)
  | _ => Some (0, s)
  end.

(** The code at the faulting instruction: a REX prefix and PREFETCHT0. *)
Definition code (a : Z) : option Z :=
  if a =? 0x401000 then Some 0x48
  else if a =? 0x401001 then Some 0x0f
  else if a =? 0x401002 then Some 0x18 else None.

#[export] Instance kernel : FaultEnv unit := {|
  fext := answer; down_read_trylock _ := true; is_kmmio_active _ := false;
  user_mode r := rget r CS =? 0x33; user_64bit_mode r := rget r CS =? 0x33;
  probe_kernel_byte _ a := code a; probe_kernel_long _ _ := None;
  convert_ip_to_linear s := rget (f_regs s) IP; read_cr3_va _ := 0x2000;
  x86_vendor := 0; x86_family := 6; in_interrupt _ := false; sig_on_uaccess_err _ := false;
  kallsyms_lookup_name n :=
    if bool_decide (n ∈ lkm_symbols) then 0xffffffffc0001000 else 0;
  is_vmalloc_addr a := (0xffffc90000000000 <=? a) && (a <? 0xffffe8ffffffffff);
  task_stack := 0xffffc90000100000; task_stack_end_corrupted _ := false;
  oops_may_print _ := true;
  store_idt := DescPtr 0 0; native_store_gdt := DescPtr 0 0; store_ldt := 0; store_tr := 0;
  probe_kernel_desc _ _ := None; smep_enabled := true; pgd_user _ := false;
  show_unhandled_signals := true; unhandled_signal _ _ := true; printk_ratelimit _ := true;
  fatal_signal_pending _ := false; has_ospke := false; has_smap := true;
  arch_vma_access_permitted _ _ _ _ _ := true; vma_pkey _ := 0;
  faulthandler_disabled _ := false; has_mm _ := true; search_exception_tables _ := false;
  find_vma _ a := Some (Vma 0x400000 7 1); trace_pagefault_enabled _ := false |}.

Lemma kernel_ok : FaultEnvOk kernel.
Proof.
  split; simpl.
  - intros c s r s' Hc H. destruct c; try discriminate; now injection H as <- <-.
  - now intros s r s' [= <- <-].
  - now intros s r s' [= <- <-].
  - intros v a f s r s' H. destruct (ctrue (Z.land f 4)); now injection H as <- <-.
  - intros c s r s' Hc H. destruct c; try discriminate Hc; simpl in H; try case_if; injection H as <- <-; easy.
  - intros c s r s' Hc H. destruct c; try discriminate Hc; simpl in H; try case_if; injection H as <- <-; easy.
  - intros s a b. unfold code. repeat case_if; intros [= <-]; lia.
  - reflexivity.
Qed.

Definition start (cs ip : Z) : fstate unit :=
  FState (rset CS cs (rset IP ip (replicate 21 0))) 0 0 0 0 5 9 ∅ tt [].

(** The reference table maps one page of the vmalloc area; the task's top-level
    table has no entry for it. *)
Definition vaddr : Z := 0xffffc90000400000.
Definition tables : ptmem :=
  <[0x1000 + 8 * 402 := 0x3001]> (<[0x3000 := 0x4001]> (<[0x4010 := 0x5001]> (<[0x5000 := 0x7003]> ∅))).
End FaultDemo.

(** C26. The page-fault handler ends and leaves no lock behind: two rounds of the
    retry loop are always enough, and whenever it returns, the task holds
    [mmap_sem] exactly as often as before, [handle_mm_fault] ran at most twice,
    and at most one of the two fault counters went up, by one (besides the faults that
    the emulation of a vsyscall takes itself, on the page of the vsyscalls). *)
Theorem page_fault_settles (W : Type) (consts : FaultConsts) (paging : Paging)
    (kernel : FaultEnv W) (ok : FaultEnvOk kernel) fuel error_code address (s : fstate W) :
  (2 <= fuel)%nat ->
  do_page_fault fuel error_code address s = do_page_fault 2 error_code address s /\
  forall s', do_page_fault fuel error_code address s = Some (tt, s') ->
    mmap_sem s' = mmap_sem s /\ (handled s' <= handled s + 2)%nat /\
    (is_vsyscall_vaddr address = false ->
     (maj_flt s' = maj_flt s /\ min_flt s' = min_flt s) \/
     (maj_flt s' = u64 (maj_flt s + 1) /\ min_flt s' = min_flt s) \/
     (maj_flt s' = maj_flt s /\ min_flt s' = u64 (min_flt s + 1))).
Proof.
  intros H. destruct fuel as [|[|fuel]]; [lia..|]. split; [apply do_page_fault_fuel|].
  intros s'. apply do_page_fault_settled.
Qed.

Lemma page_fault_settles_witness :
  exists s', @do_page_fault unit FaultDemo.consts FaultDemo.paging FaultDemo.kernel 2 6 0x402000
      (FaultDemo.start 0x33 0x401000) = Some (tt, s') /\
    mmap_sem s' = 0 /\ maj_flt s' = 6 /\ min_flt s' = 9.
Proof.
  eexists. split; [vm_compute; reflexivity|]. split; [|split; reflexivity].
  apply (page_fault_settles unit FaultDemo.consts FaultDemo.paging FaultDemo.kernel
    FaultDemo.kernel_ok 2 6 0x402000 (FaultDemo.start 0x33 0x401000)); [lia|].
  vm_compute. reflexivity.
Defined.

(** A fault at a kernel address is handled without the semaphore: no call takes
    or releases [mmap_sem] and [handle_mm_fault] is not called. *)
Theorem kernel_fault_takes_no_lock (W : Type) (consts : FaultConsts) (paging : Paging)
    (kernel : FaultEnv W) (ok : FaultEnvOk kernel) error_code address (s s' : fstate W) :
  do_kern_addr_fault error_code address s = Some (tt, s') ->
  locks s' = locks s /\ mmap_sem s' = mmap_sem s.
Proof. intros H. apply do_kern_addr_fault_frame in H as (H1 & _ & _ & H2). easy. Qed.

Lemma kernel_fault_takes_no_lock_witness :
  exists s', @do_kern_addr_fault unit FaultDemo.consts FaultDemo.paging FaultDemo.kernel 0
      FaultDemo.vaddr (set_pagetable FaultDemo.tables (FaultDemo.start 0x10 0)) = Some (tt, s') /\
    locks s' = [].
Proof.
  eexists. split; [vm_compute; reflexivity|].
  eapply (kernel_fault_takes_no_lock unit FaultDemo.consts FaultDemo.paging FaultDemo.kernel
    FaultDemo.kernel_ok 0 FaultDemo.vaddr
    (set_pagetable FaultDemo.tables (FaultDemo.start 0x10 0))).
  vm_compute. reflexivity.
Defined.

(** C27. The kernel's layout is hidden: whatever a fault at an address above user
    space does, but for the page of the vsyscalls, the signal information of the task
    afterwards is the old one or describes a protection fault of a user access at that
    address, whether or not the address is mapped. (On the page of the vsyscalls their
    emulation may leave that of a fault of its own, at an address of the task.) *)
Theorem kernel_layout_hidden (W : Type) (consts : FaultConsts) (paging : Paging)
    (kernel : FaultEnv W) (ok : FaultEnvOk kernel) fuel error_code address (s s' : fstate W) :
  TASK_SIZE_MAX <= address -> is_vsyscall_vaddr address = false ->
  do_page_fault fuel error_code address s = Some (tt, s') -> hides address s s'.
Proof. intros Ha Hv. apply (hides_page_fault address Ha Hv). Qed.

Lemma kernel_layout_hidden_witness :
  exists s', @do_page_fault unit FaultDemo.consts FaultDemo.paging FaultDemo.kernel 2 4
      0xffff888000001000 (FaultDemo.start 0x33 0x402000) = Some (tt, s') /\
    thread_error_code s' = 5 /\
    @hides unit FaultDemo.consts 0xffff888000001000 (FaultDemo.start 0x33 0x402000) s'.
Proof.
  eexists. split; [vm_compute; reflexivity|]. split; [reflexivity|].
  apply (kernel_layout_hidden unit FaultDemo.consts FaultDemo.paging FaultDemo.kernel
    FaultDemo.kernel_ok 2 4).
  - vm_compute. congruence.
  - vm_compute. reflexivity.
  - vm_compute. reflexivity.
Defined.

(** A fault is attributed to a prefetch exactly when the access was no
    instruction fetch and the bytes at the instruction pointer, below the end
    of the address space (and in user space for a user fault), are at most 14
    prefixes valid in the current mode followed by 0F 0D or 0F 18. *)
Theorem is_prefetch_exact (W : Type) (consts : FaultConsts) (kernel : FaultEnv W)
    (ok : FaultEnvOk kernel) (s : fstate W) error_code address :
  0 <= convert_ip_to_linear s < 2 ^ 64 ->
  is_prefetch s error_code address = true <->
  (error_code .& X86_PF_INSTR) = false /\
  (user_mode (f_regs s) = true -> convert_ip_to_linear s < TASK_SIZE_MAX) /\
  convert_ip_to_linear s + 15 < 2 ^ 64 /\
  prefetch_at s 15 (convert_ip_to_linear s).
Proof.
  intros Hip. unfold is_prefetch. destruct (error_code .& X86_PF_INSTR); [split; [easy|intros [? _]; easy]|].
  destruct (user_mode (f_regs s)) eqn:Eu, (Z.leb_spec TASK_SIZE_MAX (convert_ip_to_linear s));
    cbn [andb]; try (split; [easy|intros (_ & Hu & _); specialize (Hu eq_refl); lia]).
  all: unfold u64; destruct (Z.lt_ge_cases (convert_ip_to_linear s + 15) (2 ^ 64)) as [Hs|Hl].
  all: try (rewrite (Z.mod_small (convert_ip_to_linear s + 15)) by lia;
    destruct (Z.ltb_spec (convert_ip_to_linear s) (convert_ip_to_linear s + 15)); [|lia];
    rewrite prefetch_loop_spec by lia; intuition discriminate).
  all: assert (E : (convert_ip_to_linear s + 15) mod 2 ^ 64 = convert_ip_to_linear s + 15 - 2 ^ 64)
    by (symmetry; apply Z.mod_unique with 1; lia).
  all: rewrite E; destruct (Z.ltb_spec (convert_ip_to_linear s)
    (convert_ip_to_linear s + 15 - 2 ^ 64)); [lia|].
  all: split; [easy|lia].
Qed.

Lemma is_prefetch_exact_witness :
  @prefetch_at unit FaultDemo.kernel (FaultDemo.start 0x33 0x401000) 15 0x401000.
Proof.
  apply (proj1 (is_prefetch_exact unit FaultDemo.consts FaultDemo.kernel FaultDemo.kernel_ok
    (FaultDemo.start 0x33 0x401000) 4 0 ltac:(vm_compute; split; congruence))).
  vm_compute. reflexivity.
Defined.

(** Copying a kernel mapping on demand: when [vmalloc_fault] reports success, the
    address lies in the vmalloc area, the page tables of the task and the
    reference tables lead to the same lower tables, in which the address is
    mapped, and at most the top-level entry of the task was written, with the
    reference entry. *)
Theorem vmalloc_fault_syncs (W : Type) (consts : FaultConsts) (paging : Paging)
    (kernel : FaultEnv W) (ok : PagingOk paging) address (s s' : fstate W) :
  (forall s r s', fext arch_flush_lazy_mmu_mode s = Some (r, s') -> pagetable s' = pagetable s) ->
  vmalloc_fault address s = Some (0, s') ->
  let m := pagetable s in let m' := pagetable s' in
  let pgd := pgd_entry_of (read_cr3_va s) address in
  let pgd_k := pgd_offset_k address in
  VMALLOC_START <= address < VMALLOC_END /\
  pud_from m' pgd address = pud_from m' pgd_k address /\
  mapped_under m' (pud_from m' pgd_k address) address /\
  (m' = m \/ m' = <[pgd := rd m pgd_k]> m).
Proof. intros Hf. now apply vmalloc_fault_spec. Qed.

Lemma vmalloc_fault_syncs_witness :
  exists s', @vmalloc_fault unit FaultDemo.consts FaultDemo.paging FaultDemo.kernel
      FaultDemo.vaddr (set_pagetable FaultDemo.tables (FaultDemo.start 0x10 0)) = Some (0, s') /\
    rd (pagetable s') (0x2000 + 8 * 402) = 0x3001 /\
    @mapped_under FaultDemo.paging (pagetable s') 0x3000 FaultDemo.vaddr.
Proof.
  eexists. split; [vm_compute; reflexivity|]. split; [vm_compute; reflexivity|].
  eapply (vmalloc_fault_syncs unit FaultDemo.consts FaultDemo.paging FaultDemo.kernel
    FaultDemo.paging_ok FaultDemo.vaddr
    (set_pagetable FaultDemo.tables (FaultDemo.start 0x10 0))).
  - now intros s r s' [= <- <-].
  - vm_compute. reflexivity.
Defined.

(** A fault counts as spurious exactly when it is a supervisor write or an
    instruction fetch on a present page, and the reference tables hold a
    present mapping of the address whose entries permit that access: a fault
    without a permitting mapping is never ignored. *)
Theorem spurious_fault_exact (W : Type) (consts : FaultConsts) (paging : Paging)
    (kernel : FaultEnv W) error_code address (s s' : fstate W) b :
  spurious_kernel_fault error_code address s = Some (b, s') ->
  b = true <->
  (error_code = Z.lor X86_PF_WRITE X86_PF_PROT \/ error_code = Z.lor X86_PF_INSTR X86_PF_PROT) /\
  exists es, kernel_leaf (pagetable s) address es /\ Forall (permits error_code) es.
Proof.
  unfold spurious_kernel_fault.
  destruct (Z.eqb_spec error_code (Z.lor X86_PF_WRITE X86_PF_PROT));
    destruct (Z.eqb_spec error_code (Z.lor X86_PF_INSTR X86_PF_PROT)); cbn [negb andb]; intros H.
  4:{ injection H as <- <-. intuition discriminate. }
  all: apply bind_inv in H as (r & s1 & E & H); injection E as <- <-;
    apply bind_inv in H as (u & s2 & E & H); injection H as <- _;
    rewrite spurious_lookup_spec; intuition auto.
Qed.

Lemma spurious_fault_exact_witness :
  exists es, @kernel_leaf FaultDemo.paging
      (<[0x4010 := 0x5003]> FaultDemo.tables) FaultDemo.vaddr es /\
    Forall (@permits FaultDemo.consts FaultDemo.paging 3) es.
Proof.
  refine (proj2 (proj1 (spurious_fault_exact unit FaultDemo.consts FaultDemo.paging
    FaultDemo.kernel 3 FaultDemo.vaddr
    (set_pagetable (<[0x4010 := 0x5003]> FaultDemo.tables) (FaultDemo.start 0x10 0))
    (set_pagetable (<[0x4010 := 0x5003]> FaultDemo.tables) (FaultDemo.start 0x10 0)) true _)
    eq_refl)).
  vm_compute. reflexivity.
Defined.

(** C28. The recovery of faults in code blocks never happens: the handler is looked up
    under a name that the module does not define, so when no symbol of that
    name exists, a kernel fault without a fixup goes the way of an unpatched
    kernel after one call of the module's predicate, and is not redirected. *)
Theorem fault_hook_never_redirects (W : Type) (consts : FaultConsts) (paging : Paging)
    (kernel : FaultEnv W) error_code address signal si_code (s s1 : fstate W) :
  kallsyms_lookup_name "UB_SFI_error_handler" = 0 ->
  user_mode (f_regs s) = false ->
  try_fixup error_code address signal si_code s = Some (false, s1) ->
  ("UB_SFI_error_handler"%string ∉ lkm_symbols) /\
  no_context error_code address signal si_code s =
  (ask_module address ;; no_context_tail error_code address) s1.
Proof.
  intros Hk Hu Hf. split; [apply (bool_decide_unpack _); vm_compute; exact I|].
  unfold no_context, in_user_mode, bind, gets. rewrite Hu, Hf, ub_hook_without_handler by easy.
  unfold bind. destruct (ask_module address s1) as [[u s2]|]; reflexivity.
Qed.

Lemma fault_hook_never_redirects_witness :
  @no_context unit FaultDemo.consts FaultDemo.paging FaultDemo.kernel 0 0x402000 11 1
    (FaultDemo.start 0x10 0xffffffffc0002000) =
  (@ask_module unit FaultDemo.kernel 0x402000 ;;
   @no_context_tail unit FaultDemo.consts FaultDemo.paging FaultDemo.kernel 0 0x402000)
    (set_f_calls [fixup_exception 0 0x402000] (FaultDemo.start 0x10 0xffffffffc0002000)).
Proof.
  apply (fault_hook_never_redirects unit FaultDemo.consts FaultDemo.paging FaultDemo.kernel
    0 0x402000 11 1 (FaultDemo.start 0x10 0xffffffffc0002000)).
  - vm_compute. reflexivity.
  - vm_compute. reflexivity.
  - vm_compute. reflexivity.
Defined.
