(* ===== verification/PageProt.v ===== *)
(** Page attributes of kernel mappings, first part of
    [kernel_modify/pageattr.c]: the request [struct cpa_data], the protections
    that a request may not take away, the lookups, and the flushing of TLBs and
    caches after a change. *)
From Stdlib Require Import ZArith Lia Bool String.
From stdpp Require Import base list gmap.
From S2P Require Import Prelude Paging.

Local Open Scope Z_scope.
Local Open Scope ub_scope.

(** ** Constants, layout and accessors of the kernel headers *)

Class PageConsts := {
  _PAGE_PRESENT : Z; _PAGE_RW : Z; _PAGE_NX : Z; _PAGE_PSE : Z; _PAGE_GLOBAL : Z; _PAGE_ENC : Z;
  _PAGE_CACHE_MASK : Z; _KERNPG_TABLE : Z;
  PAGE_SHIFT : Z; PMD_SHIFT : Z; PUD_SHIFT : Z; PTRS_PER_PTE : Z; PTRS_PER_PMD : Z;
  EINVAL : Z; ENOMEM : Z; EFAULT : Z;
  PAGE_OFFSET : Z; START_KERNEL_map : Z; phys_base : Z;
  _text : Z; _etext : Z; _brk_end : Z; __start_rodata : Z; __end_rodata : Z;
  __end_rodata_hpage_align : Z;
  __pa_symbol : Z -> Z; __pa : Z -> Z; __va : Z -> Z;
  pte_pgprot : Z -> Z; pmd_pgprot : Z -> Z; pud_pgprot : Z -> Z;
  pte_pfn : Z -> Z; pmd_pfn : Z -> Z; pud_pfn : Z -> Z;
  pfn_pte : Z -> Z -> Z; pfn_pmd : Z -> Z -> Z; pfn_pud : Z -> Z -> Z;
  pmd_mkhuge : Z -> Z; pud_mkhuge : Z -> Z; pmd_page_vaddr : Z -> Z; pud_page_vaddr : Z -> Z;
  pgprot_large_2_4k : Z -> Z; pgprot_4k_2_large : Z -> Z; canon_pgprot : Z -> Z;
  pgprot2cachemode : Z -> Z; cachemode2pgprot : Z -> Z; pgprot_encrypted : Z -> Z;
  _PAGE_CACHE_MODE_WC : Z; _PAGE_CACHE_MODE_UC_MINUS : Z; _PAGE_CACHE_MODE_WT : Z;
  page_address : Z -> Z; PageHighMem : Z -> bool; page_to_pfn : Z -> Z; mk_pte : Z -> Z -> Z;
  debug_pagealloc_enabled : bool
}.

Section Sizes.
Context {consts : PageConsts}.
Definition PAGE_SIZE : Z := Z.shiftl 1 PAGE_SHIFT.
Definition PMD_SIZE : Z := Z.shiftl 1 PMD_SHIFT.
Definition PUD_SIZE : Z := Z.shiftl 1 PUD_SHIFT.
Definition PFN_DOWN (x : Z) : Z := Z.shiftr x PAGE_SHIFT.

Definition page_level_size (l : pg_level) : Z :=
  match l with
  | PG_LEVEL_4K => PAGE_SIZE | PG_LEVEL_2M => PMD_SIZE | PG_LEVEL_1G => PUD_SIZE | _ => 0
  end.
(** [x & mask] for the mask of a power of two [size]. *)
Definition align_down (x size : Z) : Z := Z.ldiff x (size - 1).
End Sizes.

(** ** State *)

(** Calls out of [pageattr.c] with an effect. *)
Inductive pcall : Type :=
| alloc_pages                           (* a struct page, 0 on failure *)
| free_page_struct (page : Z)
| get_zeroed_page | free_page (addr : Z)
| paravirt_alloc_pte (pfn : Z)
| flush_tlb_all | flush_tlb_all_local | flush_tlb_one (addr : Z) | wbinvd | clflushopt (addr : Z) | mb
| preempt_disable | preempt_enable | debug_check_no_locks_freed (addr len : Z)
| kmap_flush_unused | vm_unmap_aliases | flush_lazy_mmu
| reserve_memtype (start end_ type : Z) | free_memtype (start end_ : Z)
| lock_misuse                           (* a held lock is taken, or a free one released *)
| warn (txt : string)
| warn_conflict (txt : string) (start end_ pfn prot val : Z).

Record pstate (W : Type) : Type := PState {
  p_mem : ptmem;
  direct_pages_count : pg_level -> Z;
  cpa_lock : bool; pgd_lock : bool;
  p_world : W;
  p_calls : list pcall                  (* most recent first *)
}.
Arguments PState {W} _ _ _ _ _ _.
Arguments p_mem {W} _.
Arguments direct_pages_count {W} _.
Arguments cpa_lock {W} _.
Arguments pgd_lock {W} _.
Arguments p_world {W} _.
Arguments p_calls {W} _.

Section PageSetters.
Context {W : Type}.
Implicit Types s : pstate W.
Definition set_p_mem v s :=
  PState v (direct_pages_count s) (cpa_lock s) (pgd_lock s) (p_world s) (p_calls s).
Definition set_count v s := PState (p_mem s) v (cpa_lock s) (pgd_lock s) (p_world s) (p_calls s).
Definition set_cpa_lock v s :=
  PState (p_mem s) (direct_pages_count s) v (pgd_lock s) (p_world s) (p_calls s).
Definition set_pgd_lock v s :=
  PState (p_mem s) (direct_pages_count s) (cpa_lock s) v (p_world s) (p_calls s).
Definition set_p_calls v s :=
  PState (p_mem s) (direct_pages_count s) (cpa_lock s) (pgd_lock s) (p_world s) v.
End PageSetters.

Class PageEnv (W : Type) := {
  pext : pcall -> pstate W -> option (Z * pstate W);
  kernel_set_to_readonly : pstate W -> bool;
  irqs_disabled : W -> bool; early_boot_irqs_disabled : W -> bool;
  max_pfn_mapped : Z;
  pfn_range_is_mapped : Z -> Z -> bool; virt_addr_valid : Z -> bool;
  has_clflush : bool; has_gbpages : bool; cpu_family : Z; x86_clflush_size : Z;
  tlb_single_page_flush_ceiling : Z;
  supported_pte_mask : Z; mem_encrypt_active : bool; direct_gbpages : bool;
  num_cpus_online : nat
}.

Record cpa_data : Type := CpaData {
  vaddr : list Z;                       (* the array vaddr points to *)
  cpa_pgd : Z;                          (* 0 is NULL *)
  mask_set : Z; mask_clr : Z;
  numpages : Z; curpage : Z; cpa_pfn : Z;
  cpa_flags : Z;
  force_split : bool; force_static_prot : bool; force_flush_all : bool;
  pages : list Z
}.

Definition set_numpages v c := CpaData (vaddr c) (cpa_pgd c) (mask_set c) (mask_clr c) v (curpage c)
  (cpa_pfn c) (cpa_flags c) (force_split c) (force_static_prot c) (force_flush_all c) (pages c).
Definition set_curpage v c := CpaData (vaddr c) (cpa_pgd c) (mask_set c) (mask_clr c) (numpages c) v
  (cpa_pfn c) (cpa_flags c) (force_split c) (force_static_prot c) (force_flush_all c) (pages c).
Definition set_cpa_pfn v c := CpaData (vaddr c) (cpa_pgd c) (mask_set c) (mask_clr c) (numpages c)
  (curpage c) v (cpa_flags c) (force_split c) (force_static_prot c) (force_flush_all c) (pages c).
Definition set_cpa_flags v c := CpaData (vaddr c) (cpa_pgd c) (mask_set c) (mask_clr c) (numpages c)
  (curpage c) (cpa_pfn c) v (force_split c) (force_static_prot c) (force_flush_all c) (pages c).
Definition set_force_static c := CpaData (vaddr c) (cpa_pgd c) (mask_set c) (mask_clr c) (numpages c)
  (curpage c) (cpa_pfn c) (cpa_flags c) (force_split c) true (force_flush_all c) (pages c).
Definition set_force_flush c := CpaData (vaddr c) (cpa_pgd c) (mask_set c) (mask_clr c) (numpages c)
  (curpage c) (cpa_pfn c) (cpa_flags c) (force_split c) (force_static_prot c) true (pages c).

(** The warning levels, in order. *)
Definition CPA_CONFLICT : Z := 0.
Definition CPA_PROTECT : Z := 1.
Definition CPA_DETECT : Z := 2.
Definition cpa_warn_level : Z := CPA_PROTECT.

Definition CPA_FLUSHTLB : Z := 1.
Definition CPA_ARRAY : Z := 2.
Definition CPA_PAGES_ARRAY : Z := 4.
Definition CPA_NO_CHECK_ALIAS : Z := 8.

(** ** Pure helpers *)

Definition within (addr start end_ : Z) : bool := (start <=? addr) && (addr <? end_).
Definition within_inclusive (addr start end_ : Z) : bool := (start <=? addr) && (addr <=? end_).
Definition overlaps (r1_start r1_end r2_start r2_end : Z) : bool :=
  ((r1_start <=? r2_end) && (r2_start <=? r1_end)) ||
  ((r2_start <=? r1_end) && (r1_start <=? r2_end)).

(** [(long)(addr << 1) >> 1]: the arithmetic shift copies bit 62 to the top. *)
Definition fix_addr (addr : Z) : Z :=
  let x := u64 (Z.shiftl addr 1) in
  let signed := if x <? 2 ^ 63 then x else x - 2 ^ 64 in
  u64 (Z.shiftr signed 1).

Definition conflicts (prot val : Z) : bool := negb (Z.ldiff prot val =? prot).

Section Pure.
Context {consts : PageConsts}.

Definition highmap_start_pfn : Z := Z.shiftr (__pa_symbol _text) PAGE_SHIFT.
(** [roundup(_brk_end, PMD_SIZE)] *)
Definition highmap_end_pfn : Z :=
  Z.shiftr (__pa_symbol ((_brk_end + PMD_SIZE - 1) / PMD_SIZE * PMD_SIZE - 1)) PAGE_SHIFT.
Definition __cpa_pfn_in_highmap (pfn : Z) : bool :=
  within_inclusive pfn highmap_start_pfn highmap_end_pfn.

(** [None]: an index outside the array. *)
Definition __cpa_addr (cpa : cpa_data) (idx : Z) : option Z :=
  if cpa_flags cpa .& CPA_PAGES_ARRAY then
    match pages cpa !! Z.to_nat idx with
    | None => None
    | Some page => Some (if PageHighMem page then 0 else page_address page)
    end
  else if cpa_flags cpa .& CPA_ARRAY then vaddr cpa !! Z.to_nat idx
  else match vaddr cpa with
       | [] => None
       | a :: _ => Some (u64 (a + idx * PAGE_SIZE))
       end.

Definition pgprot_clear_protnone_bits (prot : Z) : Z :=
  if negb (prot .& _PAGE_PRESENT) then Z.ldiff prot _PAGE_GLOBAL else prot.

Definition protect_pci_bios (spfn epfn : Z) : Z := 0.

Definition protect_kernel_text (start end_ : Z) : Z :=
  if overlaps start end_ _text (u64 (_etext - 1)) then _PAGE_NX else 0.

Definition protect_rodata (set_ro : bool) (spfn epfn : Z) : Z :=
  let spfn_ro := PFN_DOWN (__pa_symbol __start_rodata) in
  let epfn_ro := u64 (PFN_DOWN (__pa_symbol __end_rodata) - 1) in
  if set_ro && overlaps spfn epfn spfn_ro epfn_ro then _PAGE_RW else 0.

Context {paging : Paging}.

Definition protect_kernel_text_ro (set_ro : bool) (m : ptmem) (start end_ : Z) : Z :=
  let t_end := u64 (__end_rodata_hpage_align - 1) in
  if negb set_ro || negb (overlaps start end_ _text t_end) then 0
  else match lookup_address m start with
       | (Some _, level) => if decide (level = PG_LEVEL_4K) then 0 else _PAGE_RW
       | (None, _) => 0
       end.

Definition _lookup_address_cpa (m : ptmem) (cpa : cpa_data) (address : Z)
  : option Z * pg_level :=
  if negb (cpa_pgd cpa =? 0) then
    lookup_address_in_pgd m (pgd_entry_of (cpa_pgd cpa) address) address
  else lookup_address m address.

Definition lookup_pmd_address (m : ptmem) (address : Z) : option Z :=
  let pgd := pgd_offset_k address in
  if pgd_none (rd m pgd) then None
  else
    let p4d := p4d_offset m pgd address in
    let e := rd m p4d in
    if p4d_none e || p4d_large e || negb (p4d_present e) then None
    else
      let pud := pud_offset m p4d address in
      let e := rd m pud in
      if pud_none e || pud_large e || negb (pud_present e) then None
      else Some (pmd_offset m pud address).

(** [None]: the address is not mapped ([BUG_ON]). *)
Definition slow_virt_to_phys (m : ptmem) (virt_addr : Z) : option Z :=
  match lookup_address m virt_addr with
  | (None, _) => None
  | (Some pte, level) =>
      let phys_addr := u64 (Z.shiftl
        match level with
        | PG_LEVEL_1G => pud_pfn (rd m pte)
        | PG_LEVEL_2M => pmd_pfn (rd m pte)
        | _ => pte_pfn (rd m pte)
        end PAGE_SHIFT) in
      let offset := Z.land virt_addr
        (match level with
         | PG_LEVEL_1G => PUD_SIZE
         | PG_LEVEL_2M => PMD_SIZE
         | _ => PAGE_SIZE
         end - 1) in
      Some (Z.lor phys_addr offset)
  end.
End Pure.

(** ** Operations on the state *)

Section PageOps.
Context {W : Type} {consts : PageConsts} {paging : Paging} {env : PageEnv W}.
Abbreviation PM := (M (pstate W)).

Definition pcall_ret (c : pcall) : PM Z := fun s =>
  match pext c s with
  | Some (r, s') => Some (r, set_p_calls (c :: p_calls s) s')
  | None => None
  end.
Definition pcall_ (c : pcall) : PM unit := pcall_ret c ;; ret tt.

Definition of_option {A : Type} (o : option A) : PM A :=
  match o with Some a => ret a | None => diverge end.
Definition bug_on (b : bool) : PM unit := if b then diverge else ret tt.

(** The spinlocks, as held by this CPU. To take a lock that is held, which would never
    return, and to release one that is not, are errors that the log keeps. *)
Definition log_misuse (s : pstate W) : pstate W := set_p_calls (lock_misuse :: p_calls s) s.
Definition lock_pgd : PM unit :=
  modify (fun s => if pgd_lock s then log_misuse s else set_pgd_lock true s).
Definition unlock_pgd : PM unit :=
  modify (fun s => if pgd_lock s then set_pgd_lock false s else log_misuse s).
Definition lock_cpa : PM unit :=
  modify (fun s => if cpa_lock s then log_misuse s else set_cpa_lock true s).
Definition unlock_cpa : PM unit :=
  modify (fun s => if cpa_lock s then set_cpa_lock false s else log_misuse s).

(** [*p] and the [set_*] macros. *)
Definition load (p : Z) : PM Z := gets (fun s => rd (p_mem s) p).
Definition store (p v : Z) : PM unit := modify (fun s => set_p_mem (store_entry p v (p_mem s)) s).

Definition level_prev (l : pg_level) : pg_level :=
  match l with
  | PG_LEVEL_512G => PG_LEVEL_1G | PG_LEVEL_1G => PG_LEVEL_2M | PG_LEVEL_2M => PG_LEVEL_4K
  | _ => PG_LEVEL_NONE
  end.

Definition add_count (l : pg_level) (d : Z) (f : pg_level -> Z) : pg_level -> Z :=
  fun l' => if decide (l' = l) then u64 (f l' + d) else f l'.

Definition update_page_count (level : pg_level) (n : Z) : PM unit :=
  lock_pgd ;;
  modify (fun s => set_count (add_count level n (direct_pages_count s)) s) ;;
  unlock_pgd.

Definition split_page_count (level : pg_level) : PM unit :=
  let* n := gets (fun s => direct_pages_count s level) in
  if n =? 0 then ret tt
  else modify (fun s => set_count (add_count (level_prev level) PTRS_PER_PTE
                (add_count level (-1) (direct_pages_count s))) s).

(** The lines of /proc/meminfo: the three numbers, the last only with 1G pages. *)
Definition arch_report_meminfo : PM (list Z) :=
  let* count := gets direct_pages_count in
  ret ([u64 (Z.shiftl (count PG_LEVEL_4K) 2); u64 (Z.shiftl (count PG_LEVEL_2M) 11)] ++
       (if direct_gbpages then [u64 (Z.shiftl (count PG_LEVEL_1G) 20)] else [])).

Definition check_conflict (warnlvl prot val start end_ pfn : Z) (txt : string) : PM unit :=
  if (cpa_warn_level <? warnlvl) || negb (conflicts prot val) then ret tt
  else pcall_ (warn_conflict txt start end_ pfn prot val).

(** The bits that the range must not have, lines 533-558. *)
Definition forbidden_bits (set_ro : bool) (m : ptmem) (start pfn npg lpsize : Z) : list (string * Z) :=
  let end_ := u64 (start + npg * PAGE_SIZE - 1) in
  [("Text NX"%string, protect_kernel_text start end_)] ++
  (if negb (lpsize =? u64 (npg * PAGE_SIZE)) || (start .& u64 (lpsize - 1))
   then [("Text RO"%string, protect_kernel_text_ro set_ro m start end_)] else []) ++
  [("PCIBIOS NX"%string, protect_pci_bios pfn (u64 (pfn + npg - 1)));
   ("Rodata RO"%string, protect_rodata set_ro pfn (u64 (pfn + npg - 1)))].

Fixpoint check_conflicts (warnlvl prot start end_ pfn : Z) (l : list (string * Z)) : PM unit :=
  match l with
  | [] => ret tt
  | (txt, res) :: l =>
      check_conflict warnlvl prot res start end_ pfn txt ;;
      check_conflicts warnlvl prot start end_ pfn l
  end.

Definition all_bits (l : list (string * Z)) : Z := fold_right (fun x acc => Z.lor (snd x) acc) 0 l.

Definition static_protections (prot start pfn npg lpsize warnlvl : Z) : PM Z :=
  if negb (prot .& _PAGE_PRESENT) then ret prot
  else
    let end_ := u64 (start + npg * PAGE_SIZE - 1) in
    let* l := gets (fun s =>
      forbidden_bits (kernel_set_to_readonly s) (p_mem s) start pfn npg lpsize) in
    check_conflicts warnlvl prot start end_ pfn l ;;
    ret (Z.ldiff prot (all_bits l)).

(** ** Flushing *)

(** [for (; p < vend; p += clflush_size)], at most [fuel] times. *)
Fixpoint clflush_loop (fuel : nat) (p vend : Z) : PM unit :=
  match fuel with
  | O => diverge
  | S fuel =>
      if p <? vend then pcall_ (clflushopt p) ;; clflush_loop fuel (p + x86_clflush_size) vend
      else ret tt
  end.

Definition clflush_cache_range_opt (addr size : Z) : PM unit :=
  let p := Z.ldiff addr (x86_clflush_size - 1) in
  let vend := addr + size in
  if vend <=? p then ret tt
  else clflush_loop (S (Z.to_nat ((vend - p) / x86_clflush_size + 1))) p vend.

Definition clflush_cache_range (addr size : Z) : PM unit :=
  pcall_ mb ;; clflush_cache_range_opt addr size ;; pcall_ mb.

Definition arch_invalidate_pmem (addr size : Z) : PM unit := clflush_cache_range addr size.

Definition __cpa_flush_all (cache : bool) : PM unit :=
  pcall_ flush_tlb_all_local ;;
  when cache && (4 <=? cpu_family) do pcall_ wbinvd.

(** [on_each_cpu(f, ..., 1)]: every CPU runs [f]. *)
Fixpoint on_each_cpu (n : nat) (f : PM unit) : PM unit :=
  match n with
  | O => ret tt
  | S n => f ;; on_each_cpu n f
  end.

Definition cpa_flush_all (cache : bool) : PM unit :=
  let* off := gets (fun s => irqs_disabled (p_world s)) in
  let* early := gets (fun s => early_boot_irqs_disabled (p_world s)) in
  bug_on (off && negb early) ;;
  on_each_cpu num_cpus_online (__cpa_flush_all cache).

Fixpoint flush_tlb_loop (cpa : cpa_data) (i : Z) (n : nat) : PM unit :=
  match n with
  | O => ret tt
  | S n =>
      let* a := of_option (__cpa_addr cpa i) in
      pcall_ (flush_tlb_one (fix_addr a)) ;;
      flush_tlb_loop cpa (i + 1) n
  end.

Definition __cpa_flush_tlb (cpa : cpa_data) : PM unit :=
  flush_tlb_loop cpa 0 (Z.to_nat (numpages cpa)).

Fixpoint flush_cache_loop (cpa : cpa_data) (i : Z) (n : nat) : PM unit :=
  match n with
  | O => ret tt
  | S n =>
      let* a := of_option (__cpa_addr cpa i) in
      let* m := gets p_mem in
      (match lookup_address m a with
       | (Some pte, _) =>
           when rd m pte .& _PAGE_PRESENT do clflush_cache_range_opt (fix_addr a) PAGE_SIZE
       | (None, _) => ret tt
       end) ;;
      flush_cache_loop cpa (i + 1) n
  end.

Definition cpa_flush (cpa : cpa_data) (cache : bool) : PM unit :=
  let* off := gets (fun s => irqs_disabled (p_world s)) in
  let* early := gets (fun s => early_boot_irqs_disabled (p_world s)) in
  bug_on (off && negb early) ;;
  if cache && negb has_clflush then cpa_flush_all cache
  else
    (if force_flush_all cpa || (tlb_single_page_flush_ceiling <? numpages cpa)
     then pcall_ flush_tlb_all
     else on_each_cpu num_cpus_online (__cpa_flush_tlb cpa)) ;;
    if negb cache then ret tt
    else
      pcall_ mb ;;
      flush_cache_loop cpa 0 (Z.to_nat (numpages cpa)) ;;
      pcall_ mb.

Definition __set_pmd_pte (kpte pte : Z) : PM unit := store kpte pte.
End PageOps.
