(* ===== verification/Populate.v ===== *)
(** Creating and removing kernel mappings in a given page directory, the
    [populate_*] and [unmap_*] functions of [kernel_modify/pageattr.c]. *)
From Stdlib Require Import ZArith Lia Bool String.
From stdpp Require Import base list gmap.
From S2P Require Import Prelude Paging PageProt.

Local Open Scope Z_scope.
Local Open Scope ub_scope.

Section Populate.
Context {W : Type} {consts : PageConsts} {paging : Paging} {env : PageEnv W}.
Abbreviation PM := (M (pstate W)).

(** Iterations that a loop [while (start < end) start += size] needs at most. *)
Definition rounds_between (start end_ size : Z) : nat := S (Z.to_nat ((end_ - start) / size + 1)).

(** [for (i = 0; i < n; i++) if (!none(table[i])) return false;] *)
Fixpoint all_none (none : Z -> bool) (m : ptmem) (table : Z) (n : nat) : bool :=
  match n with
  | O => true
  | S n => none (rd m table) && all_none none m (table + 8) n
  end.

Definition try_to_free_pte_page (pte : Z) : PM bool :=
  let* m := gets p_mem in
  if all_none pte_none m pte (Z.to_nat PTRS_PER_PTE) then pcall_ (free_page pte) ;; ret true
  else ret false.

Definition try_to_free_pmd_page (pmd : Z) : PM bool :=
  let* m := gets p_mem in
  if all_none pmd_none m pmd (Z.to_nat PTRS_PER_PMD) then pcall_ (free_page pmd) ;; ret true
  else ret false.

Fixpoint clear_ptes (fuel : nat) (pte start end_ : Z) : PM unit :=
  match fuel with
  | O => diverge
  | S fuel =>
      if start <? end_ then
        store pte 0 ;; clear_ptes fuel (pte + 8) (u64 (start + PAGE_SIZE)) end_
      else ret tt
  end.

Definition unmap_pte_range (pmd start end_ : Z) : PM bool :=
  let* m := gets p_mem in
  clear_ptes (rounds_between start end_ PAGE_SIZE) (pte_offset_kernel m pmd start) start end_ ;;
  let* e := load pmd in
  let* freed := try_to_free_pte_page (pmd_page_vaddr e) in
  if freed : bool then store pmd 0 ;; ret true else ret false.

(** [if (try_to_free_pmd_page(...)) pud_clear(pud);] *)
Definition free_pmd_of (pud : Z) : PM unit :=
  let* e := load pud in
  let* freed := try_to_free_pmd_page (pud_page_vaddr e) in
  when freed do store pud 0.

Definition __unmap_pmd_range (pud pmd start end_ : Z) : PM unit :=
  let* freed := unmap_pte_range pmd start end_ in
  when freed do free_pmd_of pud.

(** Lines 1134-1142; the result is the new [start] and [pmd]. *)
Fixpoint unmap_pmd_chunks (fuel : nat) (pud pmd start end_ : Z) : PM (Z * Z) :=
  match fuel with
  | O => diverge
  | S fuel =>
      if PMD_SIZE <=? u64 (end_ - start) then
        let* e := load pmd in
        (if pmd_large e then store pmd 0
         else __unmap_pmd_range pud pmd start (u64 (start + PMD_SIZE))) ;;
        unmap_pmd_chunks fuel pud (pmd + 8) (u64 (start + PMD_SIZE)) end_
      else ret (start, pmd)
  end.

(** Lines 1134-1155: the chunks, and what is left of less than a chunk. *)
Definition unmap_pmd_rest (pud start end_ pmd : Z) : PM unit :=
  let* r := unmap_pmd_chunks (rounds_between start end_ PMD_SIZE) pud pmd start end_ in
  let '(start, pmd) := r in
  if start <? end_ then __unmap_pmd_range pud pmd start end_
  else
    let* e := load pud in
    when negb (pud_none e) do free_pmd_of pud.

Definition unmap_pmd_range (pud start end_ : Z) : PM unit :=
  let* m := gets p_mem in
  let pmd := pmd_offset m pud start in
  let* r :=
    if start .& (PMD_SIZE - 1) then
      let next_page := align_down (u64 (start + PMD_SIZE)) PMD_SIZE in
      let pre_end := Z.min end_ next_page in
      __unmap_pmd_range pud pmd start pre_end ;;
      ret (pre_end, pmd + 8)
    else ret (start, pmd) in
  unmap_pmd_rest pud (fst r) end_ (snd r).

Fixpoint unmap_pud_chunks (fuel : nat) (pud start end_ : Z) : PM (Z * Z) :=
  match fuel with
  | O => diverge
  | S fuel =>
      if PUD_SIZE <=? u64 (end_ - start) then
        let* e := load pud in
        (if pud_large e then store pud 0
         else unmap_pmd_range pud start (u64 (start + PUD_SIZE))) ;;
        unmap_pud_chunks fuel (pud + 8) (u64 (start + PUD_SIZE)) end_
      else ret (start, pud)
  end.

Definition unmap_pud_range (p4d start end_ : Z) : PM unit :=
  let* m := gets p_mem in
  let pud := pud_offset m p4d start in
  let* r :=
    if start .& (PUD_SIZE - 1) then
      let next_page := align_down (u64 (start + PUD_SIZE)) PUD_SIZE in
      let pre_end := Z.min end_ next_page in
      unmap_pmd_range pud start pre_end ;;
      ret (pre_end, pud + 8)
    else ret (start, pud) in
  let* r := unmap_pud_chunks (rounds_between (fst r) end_ PUD_SIZE) (snd r) (fst r) end_ in
  let '(start, pud) := r in
  when start <? end_ do unmap_pmd_range pud start end_.

(** [if (none( *p )) if (alloc(p)) return -1;]: false when out of memory. *)
Definition alloc_table (p : Z) : PM bool :=
  let* page := pcall_ret get_zeroed_page in
  if page =? 0 then ret false
  else store p (Z.lor (__pa page) _KERNPG_TABLE) ;; ret true.
Definition alloc_pte_page (pmd : Z) : PM Z :=
  let* ok := alloc_table pmd in ret (if ok : bool then 0 else -1).
Definition alloc_pmd_page (pud : Z) : PM Z :=
  let* ok := alloc_table pud in ret (if ok : bool then 0 else -1).

(** [while (num_pages-- && start < end)]; the result is the new [cpa->pfn]. *)
Fixpoint populate_ptes (num_pages : nat) (start end_ pte pfn pgprot : Z) : PM Z :=
  match num_pages with
  | O => ret pfn
  | S n =>
      if start <? end_ then
        store pte (pfn_pte pfn pgprot) ;;
        populate_ptes n (u64 (start + PAGE_SIZE)) end_ (pte + 8) (u64 (pfn + 1)) pgprot
      else ret pfn
  end.

Definition populate_pte (cpa : cpa_data) (start end_ num_pages pmd pgprot : Z) : PM cpa_data :=
  let* m := gets p_mem in
  let* pfn := populate_ptes (Z.to_nat num_pages) start end_ (pte_offset_kernel m pmd start)
                (cpa_pfn cpa) (pgprot_clear_protnone_bits pgprot) in
  ret (set_cpa_pfn pfn cpa).

(** Need a PTE (PMD) page? The answer is false when there is no memory. *)
Definition need_pte_page (pmd : Z) : PM bool :=
  let* e := load pmd in
  if pmd_none e then let* r := alloc_pte_page pmd in ret (r =? 0) else ret true.
Definition need_pmd_page (pud : Z) : PM bool :=
  let* e := load pud in
  if pud_none e then let* r := alloc_pmd_page pud in ret (r =? 0) else ret true.

(** Lines 1280-1297: 2M pages; the new [cur_pages] ([None]: return -1), [start]
    and [cpa]. *)
Fixpoint populate_2m (fuel : nat) (cpa : cpa_data) (start end_ cur_pages pud pmd_prot : Z)
  : PM (option Z * Z * cpa_data) :=
  match fuel with
  | O => diverge
  | S fuel =>
      if PMD_SIZE <=? u64 (end_ - start) then
        let* ok := need_pmd_page pud in
        if negb ok then ret (None, start, cpa)
        else
          let* m := gets p_mem in
          store (pmd_offset m pud start)
            (pmd_mkhuge (pfn_pmd (cpa_pfn cpa) (canon_pgprot pmd_prot))) ;;
          let n := Z.shiftr PMD_SIZE PAGE_SHIFT in
          populate_2m fuel (set_cpa_pfn (u64 (cpa_pfn cpa + n)) cpa) (u64 (start + PMD_SIZE)) end_
            (cur_pages + n) pud pmd_prot
      else ret (Some cur_pages, start, cpa)
  end.

(** Lines 1248-1270: the pages below the first 2M boundary; the new [cur_pages]
    ([None]: return -1), [start] and [cpa]. *)
Definition populate_pmd_head (cpa : cpa_data) (start num_pages pud pgprot : Z)
  : PM (option Z * Z * cpa_data) :=
  if start .& (PMD_SIZE - 1) then
    let pre_end := u64 (start + u32 (Z.shiftl num_pages PAGE_SHIFT)) in
    let next_page := align_down (u64 (start + PMD_SIZE)) PMD_SIZE in
    let pre_end := Z.min pre_end next_page in
    let cur_pages := Z.shiftr (u64 (pre_end - start)) PAGE_SHIFT in
    let cur_pages := Z.min num_pages (u32 cur_pages) in
    let* m := gets p_mem in
    let pmd := pmd_offset m pud start in
    let* ok := need_pte_page pmd in
    if negb ok then ret (None, start, cpa)
    else
      let* cpa := populate_pte cpa start pre_end cur_pages pmd pgprot in
      ret (Some cur_pages, pre_end, cpa)
  else ret (Some 0, start, cpa).

(** Lines 1278-1311. *)
Definition populate_pmd_rest (cpa : cpa_data) (start end_ num_pages cur_pages pud pgprot : Z)
  : PM (Z * cpa_data) :=
  let* r := populate_2m (rounds_between 0 (u64 (end_ - start)) PMD_SIZE) cpa start end_
              cur_pages pud (pgprot_4k_2_large pgprot) in
  match r with
  | (None, _, cpa) => ret (-1, cpa)
  | (Some cur_pages, start, cpa) =>
      if start <? end_ then
        let* m := gets p_mem in
        let pmd := pmd_offset m pud start in
        let* ok := need_pte_page pmd in
        if negb ok then ret (-1, cpa)
        else
          let* cpa := populate_pte cpa start end_ (u32 (num_pages - cur_pages)) pmd pgprot in
          ret (num_pages, cpa)
      else ret (num_pages, cpa)
  end.

(** The result [long] and the request; [num_pages] is an [unsigned]. *)
Definition populate_pmd (cpa : cpa_data) (start end_ num_pages pud pgprot : Z)
  : PM (Z * cpa_data) :=
  let* r := populate_pmd_head cpa start num_pages pud pgprot in
  match r with
  | (None, _, cpa) => ret (-1, cpa)
  | (Some cur_pages, start, cpa) =>
      if num_pages =? cur_pages then ret (cur_pages, cpa)
      else populate_pmd_rest cpa start end_ num_pages cur_pages pud pgprot
  end.

(** Lines 1363-1371: 1G pages. *)
Fixpoint populate_1g (fuel : nat) (cpa : cpa_data) (start end_ cur_pages pud pud_prot : Z)
  : PM (Z * Z * cpa_data) :=
  match fuel with
  | O => diverge
  | S fuel =>
      if has_gbpages && (PUD_SIZE <=? u64 (end_ - start)) then
        store pud (pud_mkhuge (pfn_pud (cpa_pfn cpa) (canon_pgprot pud_prot))) ;;
        let n := Z.shiftr PUD_SIZE PAGE_SHIFT in
        populate_1g fuel (set_cpa_pfn (u64 (cpa_pfn cpa + n)) cpa) (u64 (start + PUD_SIZE)) end_
          (cur_pages + n) (pud + 8) pud_prot
      else ret (cur_pages, start, cpa)
  end.

(** Lines 1357-1389, after the part below the first 1G boundary. *)
Definition populate_pud_rest (cpa : cpa_data) (start end_ cur_pages p4d pgprot : Z)
  : PM (Z * cpa_data) :=
  let* m := gets p_mem in
  let pud := pud_offset m p4d start in
  let* r := populate_1g (rounds_between 0 (u64 (end_ - start)) PUD_SIZE) cpa start end_
              cur_pages pud (pgprot_4k_2_large pgprot) in
  let '(cur_pages, start, cpa) := r in
  if start <? end_ then
    let* m := gets p_mem in
    let pud := pud_offset m p4d start in
    let* ok := need_pmd_page pud in
    if negb ok then ret (-1, cpa)
    else
      let* r := populate_pmd cpa start end_ (u32 (numpages cpa - cur_pages)) pud pgprot in
      let '(tmp, cpa) := r in
      if tmp <? 0 then ret (s32 cur_pages, cpa) else ret (s32 (cur_pages + tmp), cpa)
  else ret (s32 cur_pages, cpa).

(** The result is an [int]. *)
Definition populate_pud (cpa : cpa_data) (start p4d pgprot : Z) : PM (Z * cpa_data) :=
  let end_ := u64 (start + Z.shiftl (numpages cpa) PAGE_SHIFT) in
  if start .& (PUD_SIZE - 1) then
    let next_page := align_down (u64 (start + PUD_SIZE)) PUD_SIZE in
    let pre_end := Z.min end_ next_page in
    let cur_pages := Z.shiftr (u64 (pre_end - start)) PAGE_SHIFT in
    let cur_pages := Z.min (s32 (numpages cpa)) (s32 cur_pages) in
    let* m := gets p_mem in
    let pud := pud_offset m p4d start in
    let* ok := need_pmd_page pud in
    if negb ok then ret (-1, cpa)
    else
      let* r := populate_pmd cpa start pre_end (u32 cur_pages) pud pgprot in
      let '(cur_pages, cpa) := r in
      if cur_pages <? 0 then ret (s32 cur_pages, cpa)
      else if numpages cpa =? cur_pages then ret (s32 cur_pages, cpa)
      else populate_pud_rest cpa pre_end end_ cur_pages p4d pgprot
  else if numpages cpa =? 0 then ret (0, cpa)
  else populate_pud_rest cpa start end_ 0 p4d pgprot.

Definition populate_pgd (cpa : cpa_data) (addr : Z) : PM (Z * cpa_data) :=
  let pgd_entry := pgd_entry_of (cpa_pgd cpa) addr in
  let* e := load pgd_entry in
  let* ok := if pgd_none e then alloc_table pgd_entry else ret true in
  if negb ok then ret (-1, cpa)
  else
    let* m := gets p_mem in
    let p4d := p4d_offset m pgd_entry addr in
    let* e := load p4d in
    let* ok := if p4d_none e then alloc_table p4d else ret true in
    if negb ok then ret (-1, cpa)
    else
      let pgprot := Z.lor (Z.ldiff _KERNPG_TABLE (mask_clr cpa)) (mask_set cpa) in
      let* r := populate_pud cpa addr p4d pgprot in
      let '(res, cpa) := r in
      if res <? 0 then
        unmap_pud_range p4d addr (u64 (addr + Z.shiftl (numpages cpa) PAGE_SHIFT)) ;;
        ret (res, cpa)
      else ret (0, set_numpages res cpa).
End Populate.
