(* ===== verification/PageAttr.v ===== *)
(** Changing the attributes of kernel mappings, [kernel_modify/pageattr.c]: large
    pages kept or split, the change of one page, of a range with its aliases,
    and the [set_memory_*] interface, of which the module uses [set_memory_x]
    to make its code blocks executable. *)
From Stdlib Require Import ZArith Lia Bool String.
From stdpp Require Import base list gmap.
From S2P Require Import Prelude Paging PageProt Populate.

Local Open Scope Z_scope.
Local Open Scope ub_scope.

Section PageAttr.
Context {W : Type} {consts : PageConsts} {paging : Paging} {env : PageEnv W}.
Abbreviation PM := (M (pstate W)).

(** Lines 796-809: the requested protection of a large page. *)
Definition requested_large (cpa : cpa_data) (old_prot : Z) : Z :=
  let req_prot := pgprot_large_2_4k old_prot in
  let req_prot := Z.lor (Z.ldiff req_prot (mask_clr cpa)) (mask_set cpa) in
  let req_prot := pgprot_clear_protnone_bits (pgprot_4k_2_large req_prot) in
  if req_prot .& _PAGE_PRESENT then Z.lor req_prot _PAGE_PSE else req_prot.

(** Lines 777-886, for a large page of the given level. *)
Definition large_page_check (kpte address : Z) (cpa : cpa_data) (level : pg_level)
    (old_prot old_pfn : Z) : PM (Z * cpa_data) :=
  let psize := page_level_size level in
  let lpaddr := align_down (u64 (address + psize)) psize in
  let n := Z.shiftr (u64 (lpaddr - address)) PAGE_SHIFT in
  let cpa := if n <? numpages cpa then set_numpages n cpa else cpa in
  let req_prot := requested_large cpa old_prot in
  let pfn := u64 (old_pfn + Z.shiftr (Z.land address (psize - 1)) PAGE_SHIFT) in
  let cpa := set_cpa_pfn pfn cpa in
  let lpaddr := align_down address psize in
  let n := Z.shiftr psize PAGE_SHIFT in
  let* chk_prot := static_protections old_prot lpaddr old_pfn n psize CPA_CONFLICT in
  if negb (chk_prot =? old_prot) then
    pcall_ (warn "large page protection") ;;
    ret (1, set_force_static cpa)
  else if req_prot =? old_prot then ret (0, cpa)
  else if negb (address =? lpaddr) || negb (numpages cpa =? n) then ret (1, cpa)
  else
    let* new_prot := static_protections req_prot lpaddr old_pfn n psize CPA_DETECT in
    if negb (req_prot =? new_prot) then ret (1, cpa)
    else
      __set_pmd_pte kpte (pfn_pte old_pfn new_prot) ;;
      ret (0, set_cpa_flags (Z.lor (cpa_flags cpa) CPA_FLUSHTLB) cpa).

Definition __should_split_large_page (kpte address : Z) (cpa : cpa_data) : PM (Z * cpa_data) :=
  let* m := gets p_mem in
  let '(tmp, level) := _lookup_address_cpa m cpa address in
  if negb (bool_decide (tmp = Some kpte)) then ret (1, cpa)
  else
    let e := rd m kpte in
    match level with
    | PG_LEVEL_2M => large_page_check kpte address cpa level (pmd_pgprot e) (pmd_pfn e)
    | PG_LEVEL_1G => large_page_check kpte address cpa level (pud_pgprot e) (pud_pfn e)
    | _ => ret (- EINVAL, cpa)
    end.

Definition should_split_large_page (kpte address : Z) (cpa : cpa_data) : PM (Z * cpa_data) :=
  if force_split cpa then ret (1, cpa)
  else
    lock_pgd ;;
    let* r := __should_split_large_page kpte address cpa in
    unlock_pgd ;;
    ret r.

Definition split_set_pte (cpa : cpa_data) (pte pfn ref_prot address size : Z) : PM unit :=
  let npg := u32 (PFN_DOWN size) in
  let* ref_prot :=
    if negb (force_static_prot cpa) then ret ref_prot
    else
      let* prot := static_protections ref_prot address pfn npg 0 CPA_PROTECT in
      if prot =? ref_prot then ret ref_prot
      else if size =? PAGE_SIZE then ret prot
      else pcall_ (warn "CPA: Cannot fixup static protections for PUD split") ;; ret ref_prot in
  store pte (pfn_pte pfn ref_prot).

(** The loop of lines 1002-1003 over [n] entries. *)
Fixpoint split_loop (n : nat) (cpa : cpa_data) (pte pfn pfninc ref_prot lpaddr lpinc : Z)
  : PM unit :=
  match n with
  | O => ret tt
  | S n =>
      split_set_pte cpa pte pfn ref_prot lpaddr lpinc ;;
      split_loop n cpa (pte + 8) (u64 (pfn + pfninc)) pfninc ref_prot (u64 (lpaddr + lpinc)) lpinc
  end.

(** What the new table is filled with, lines 963-996: reference protection and
    frame, increments of frame and address, first address. *)
Definition split_params (level : pg_level) (e address : Z) : option (Z * Z * Z * Z * Z) :=
  match level with
  | PG_LEVEL_2M =>
      Some (pgprot_clear_protnone_bits (pgprot_large_2_4k (pmd_pgprot e)), pmd_pfn e, 1,
            align_down address PMD_SIZE, PAGE_SIZE)
  | PG_LEVEL_1G =>
      let ref_prot := pud_pgprot e in
      let ref_prot := if negb (ref_prot .& _PAGE_PRESENT) then Z.ldiff ref_prot _PAGE_PSE
                      else ref_prot in
      Some (pgprot_clear_protnone_bits ref_prot, pud_pfn e, Z.shiftr PMD_SIZE PAGE_SHIFT,
            align_down address PUD_SIZE, PMD_SIZE)
  | _ => None
  end.

Definition __split_large_page (cpa : cpa_data) (kpte address base : Z) : PM Z :=
  let pbase := page_address base in
  lock_pgd ;;
  let* m := gets p_mem in
  let '(tmp, level) := _lookup_address_cpa m cpa address in
  if negb (bool_decide (tmp = Some kpte)) then unlock_pgd ;; ret 1
  else
    pcall_ (paravirt_alloc_pte (page_to_pfn base)) ;;
    let* e := load kpte in
    match split_params level e address with
    | None => unlock_pgd ;; ret 1
    | Some (ref_prot, ref_pfn, pfninc, lpaddr, lpinc) =>
        split_loop (Z.to_nat PTRS_PER_PTE) cpa pbase ref_pfn pfninc ref_prot lpaddr lpinc ;;
        (when virt_addr_valid address &&
              pfn_range_is_mapped (PFN_DOWN (__pa address)) (PFN_DOWN (__pa address) + 1)
         do split_page_count level) ;;
        __set_pmd_pte kpte (mk_pte base _KERNPG_TABLE) ;;
        pcall_ flush_tlb_all ;;
        unlock_pgd ;;
        ret 0
    end.

Definition split_large_page (cpa : cpa_data) (kpte address : Z) : PM Z :=
  (when negb debug_pagealloc_enabled do unlock_cpa) ;;
  let* base := pcall_ret alloc_pages in
  (when negb debug_pagealloc_enabled do lock_cpa) ;;
  if base =? 0 then ret (- ENOMEM)
  else
    let* r := __split_large_page cpa kpte address base in
    (when ctrue r do pcall_ (free_page_struct base)) ;;
    ret 0.

Definition in_direct_map (a : Z) : bool :=
  within a PAGE_OFFSET (u64 (PAGE_OFFSET + Z.shiftl max_pfn_mapped PAGE_SHIFT)).

Definition __cpa_process_fault (cpa : cpa_data) (va : Z) (primary : bool) : PM (Z * cpa_data) :=
  if negb (cpa_pgd cpa =? 0) then populate_pgd cpa va
  else if negb primary then ret (0, set_numpages 1 cpa)
  else if in_direct_map va then
    ret (0, set_cpa_pfn (Z.shiftr (__pa va) PAGE_SHIFT) (set_numpages 1 cpa))
  else if __cpa_pfn_in_highmap (cpa_pfn cpa) then ret (- EFAULT, cpa)
  else pcall_ (warn "CPA: called for zero pte.") ;; ret (- EFAULT, cpa).

(** Lines 1508-1537: a 4K page. *)
Definition change_4k (cpa : cpa_data) (kpte old_pte address : Z) : PM (Z * cpa_data) :=
  let pfn := pte_pfn old_pte in
  let new_prot := Z.lor (Z.ldiff (pte_pgprot old_pte) (mask_clr cpa)) (mask_set cpa) in
  let* new_prot := static_protections new_prot address pfn 1 0 CPA_PROTECT in
  let new_prot := pgprot_clear_protnone_bits new_prot in
  let new_pte := pfn_pte pfn new_prot in
  let cpa := set_cpa_pfn pfn cpa in
  let* cpa :=
    if negb (old_pte =? new_pte) then
      store kpte new_pte ;;
      ret (set_cpa_flags (Z.lor (cpa_flags cpa) CPA_FLUSHTLB) cpa)
    else ret cpa in
  ret (0, set_numpages 1 cpa).

(** From the label [repeat]; every [goto repeat] takes fuel. *)
Fixpoint change_page_attr_at (fuel : nat) (cpa : cpa_data) (address : Z) (primary : bool)
  : PM (Z * cpa_data) :=
  match fuel with
  | O => diverge
  | S fuel =>
      let* m := gets p_mem in
      match _lookup_address_cpa m cpa address with
      | (None, _) => __cpa_process_fault cpa address primary
      | (Some kpte, level) =>
          let old_pte := rd m kpte in
          if pte_none old_pte then __cpa_process_fault cpa address primary
          else if decide (level = PG_LEVEL_4K) then change_4k cpa kpte old_pte address
          else
            let* r := should_split_large_page kpte address cpa in
            let '(do_split, cpa) := r in
            if do_split <=? 0 then ret (do_split, cpa)
            else
              let* err := split_large_page cpa kpte address in
              if err =? 0 then change_page_attr_at fuel cpa address primary
              else ret (err, cpa)
      end
  end.

Definition __change_page_attr (fuel : nat) (cpa : cpa_data) (primary : bool) : PM (Z * cpa_data) :=
  let* address := of_option (__cpa_addr cpa (curpage cpa)) in
  change_page_attr_at fuel cpa address primary.

(** Lines 1628-1660 with [rempages] left, for a given treatment of aliases; the
    result is [ret] and the request. *)
Fixpoint change_loop (n fuel : nat) (alias : cpa_data -> PM (Z * cpa_data)) (cpa : cpa_data)
    (checkalias : bool) (rempages : Z) : PM (Z * cpa_data) :=
  match n with
  | O => diverge
  | S n =>
      if rempages =? 0 then ret (0, cpa)
      else
        let cpa := set_numpages rempages cpa in
        let cpa := if cpa_flags cpa .& Z.lor CPA_ARRAY CPA_PAGES_ARRAY then set_numpages 1 cpa
                   else cpa in
        (when negb debug_pagealloc_enabled do lock_cpa) ;;
        let* r := __change_page_attr fuel cpa checkalias in
        let '(res, cpa) := r in
        (when negb debug_pagealloc_enabled do unlock_cpa) ;;
        if negb (res =? 0) then ret (res, cpa)
        else
          let* r := if checkalias then alias cpa else ret (0, cpa) in
          let '(res, cpa) := r in
          if negb (res =? 0) then ret (res, cpa)
          else
            bug_on ((rempages <? numpages cpa) || (numpages cpa =? 0)) ;;
            change_loop n fuel alias (set_curpage (u64 (curpage cpa + numpages cpa)) cpa)
              checkalias (rempages - numpages cpa)
  end.

(** [__change_page_attr_set_clr(cpa, 0)]: aliases are not followed. *)
Definition change_no_alias (fuel : nat) (cpa : cpa_data) : PM (Z * cpa_data) :=
  let* r := change_loop (S (Z.to_nat (numpages cpa))) fuel (fun c => ret (0, c)) cpa false
              (numpages cpa) in
  ret (fst r, set_numpages (numpages cpa) (snd r)).

(** [alias_cpa] for the address [a] of an alias. *)
Definition alias_of (cpa : cpa_data) (a : Z) : cpa_data :=
  CpaData [a] (cpa_pgd cpa) (mask_set cpa) (mask_clr cpa) (numpages cpa) 0 (cpa_pfn cpa)
    (Z.ldiff (cpa_flags cpa) (Z.lor CPA_PAGES_ARRAY CPA_ARRAY)) (force_split cpa)
    (force_static_prot cpa) (force_flush_all cpa) (pages cpa).

Definition cpa_process_alias (fuel : nat) (cpa : cpa_data) : PM (Z * cpa_data) :=
  let laddr := __va (u64 (Z.shiftl (cpa_pfn cpa) PAGE_SHIFT)) in
  if negb (pfn_range_is_mapped (cpa_pfn cpa) (u64 (cpa_pfn cpa + 1))) then ret (0, cpa)
  else
    let* va := of_option (__cpa_addr cpa (curpage cpa)) in
    let* r :=
      if negb (in_direct_map va) then
        let* r := change_no_alias fuel (alias_of cpa laddr) in
        ret (fst r, set_force_flush cpa)
      else ret (0, cpa) in
    let '(res, cpa) := r in
    if negb (res =? 0) then ret (res, cpa)
    else if negb (within va _text _brk_end) && __cpa_pfn_in_highmap (cpa_pfn cpa) then
      let temp_cpa_vaddr :=
        u64 (Z.shiftl (cpa_pfn cpa) PAGE_SHIFT + START_KERNEL_map - phys_base) in
      change_no_alias fuel (alias_of cpa temp_cpa_vaddr) ;;
      ret (0, set_force_flush cpa)
    else ret (0, cpa).

Definition __change_page_attr_set_clr (fuel : nat) (cpa : cpa_data) (checkalias : bool)
  : PM (Z * cpa_data) :=
  let* r := change_loop (S (Z.to_nat (numpages cpa))) fuel (cpa_process_alias fuel) cpa checkalias
              (numpages cpa) in
  ret (fst r, set_numpages (numpages cpa) (snd r)).

(** Lines 1688-1708: the addresses rounded down to pages, with a warning when
    that changes one. *)
Fixpoint align_addrs (l : list Z) : PM (list Z) :=
  match l with
  | [] => ret []
  | a :: l =>
      (when a .& (PAGE_SIZE - 1) do pcall_ (warn "unaligned address")) ;;
      let* l := align_addrs l in
      ret (align_down a PAGE_SIZE :: l)
  end.

Definition change_page_attr_set_clr (fuel : nat) (addr : list Z) (npages set clr : Z)
    (split : bool) (in_flag : Z) (pgs : list Z) : PM Z :=
  let set := canon_pgprot set in
  if (set =? 0) && (clr =? 0) && negb split then ret 0
  else
    let* addr :=
      if in_flag .& CPA_ARRAY then
        let* l := align_addrs (take (Z.to_nat npages) addr) in
        ret (l ++ drop (Z.to_nat npages) addr)
      else if negb (in_flag .& CPA_PAGES_ARRAY) then
        let* l := align_addrs (take 1 addr) in
        ret (l ++ drop 1 addr)
      else ret addr in
    pcall_ kmap_flush_unused ;;
    pcall_ vm_unmap_aliases ;;
    let flags := if in_flag .& Z.lor CPA_ARRAY CPA_PAGES_ARRAY then in_flag else 0 in
    let cpa := CpaData addr 0 set clr (u64 npages) 0 0 flags split false false pgs in
    let checkalias := negb (Z.lor set clr =? _PAGE_NX) && negb (in_flag .& CPA_NO_CHECK_ALIAS) in
    let* r := __change_page_attr_set_clr fuel cpa checkalias in
    let '(res, cpa) := r in
    if negb (cpa_flags cpa .& CPA_FLUSHTLB) then ret res
    else
      let cache := ctrue (pgprot2cachemode set) in
      (if negb (res =? 0) then cpa_flush_all cache else cpa_flush cpa cache) ;;
      ret res.

Definition change_page_attr_set (fuel : nat) (addr : list Z) (npages mask : Z) (array : bool) : PM Z :=
  change_page_attr_set_clr fuel addr npages mask 0 false (if array then CPA_ARRAY else 0) [].
Definition change_page_attr_clear (fuel : nat) (addr : list Z) (npages mask : Z) (array : bool) : PM Z :=
  change_page_attr_set_clr fuel addr npages 0 mask false (if array then CPA_ARRAY else 0) [].
Definition cpa_set_pages_array (fuel : nat) (pgs : list Z) (npages mask : Z) : PM Z :=
  change_page_attr_set_clr fuel [] npages mask 0 false CPA_PAGES_ARRAY pgs.
Definition cpa_clear_pages_array (fuel : nat) (pgs : list Z) (npages mask : Z) : PM Z :=
  change_page_attr_set_clr fuel [] npages 0 mask false CPA_PAGES_ARRAY pgs.

(** ** The interface *)

Definition _set_memory_uc (fuel : nat) (addr npages : Z) : PM Z :=
  change_page_attr_set fuel [addr] npages (cachemode2pgprot _PAGE_CACHE_MODE_UC_MINUS) false.

Definition mem_end (addr npages : Z) : Z := u64 (__pa addr + npages * PAGE_SIZE).

Definition set_memory_uc (fuel : nat) (addr npages : Z) : PM Z :=
  let* r := pcall_ret (reserve_memtype (__pa addr) (mem_end addr npages) _PAGE_CACHE_MODE_UC_MINUS) in
  if negb (r =? 0) then ret r
  else
    let* r := _set_memory_uc fuel addr npages in
    if negb (r =? 0) then pcall_ (free_memtype (__pa addr) (mem_end addr npages)) ;; ret r
    else ret 0.

Definition _set_memory_wc (fuel : nat) (addr npages : Z) : PM Z :=
  let* r := change_page_attr_set fuel [addr] npages
              (cachemode2pgprot _PAGE_CACHE_MODE_UC_MINUS) false in
  if r =? 0 then
    change_page_attr_set_clr fuel [align_down addr PAGE_SIZE] npages
      (cachemode2pgprot _PAGE_CACHE_MODE_WC) _PAGE_CACHE_MASK false 0 []
  else ret r.

Definition set_memory_wc (fuel : nat) (addr npages : Z) : PM Z :=
  let* r := pcall_ret (reserve_memtype (__pa addr) (mem_end addr npages) _PAGE_CACHE_MODE_WC) in
  if negb (r =? 0) then ret r
  else
    let* r := _set_memory_wc fuel addr npages in
    (when negb (r =? 0) do pcall_ (free_memtype (__pa addr) (mem_end addr npages))) ;;
    ret r.

Definition _set_memory_wt (fuel : nat) (addr npages : Z) : PM Z :=
  change_page_attr_set fuel [addr] npages (cachemode2pgprot _PAGE_CACHE_MODE_WT) false.
Definition _set_memory_wb (fuel : nat) (addr npages : Z) : PM Z :=
  change_page_attr_clear fuel [addr] npages _PAGE_CACHE_MASK false.

Definition set_memory_wb (fuel : nat) (addr npages : Z) : PM Z :=
  let* r := _set_memory_wb fuel addr npages in
  if negb (r =? 0) then ret r
  else pcall_ (free_memtype (__pa addr) (mem_end addr npages)) ;; ret 0.

Definition set_memory_x (fuel : nat) (addr npages : Z) : PM Z :=
  if negb (supported_pte_mask .& _PAGE_NX) then ret 0
  else change_page_attr_clear fuel [addr] npages _PAGE_NX false.
Definition set_memory_nx (fuel : nat) (addr npages : Z) : PM Z :=
  if negb (supported_pte_mask .& _PAGE_NX) then ret 0
  else change_page_attr_set fuel [addr] npages _PAGE_NX false.
Definition set_memory_ro (fuel : nat) (addr npages : Z) : PM Z :=
  change_page_attr_clear fuel [addr] npages _PAGE_RW false.
Definition set_memory_rw (fuel : nat) (addr npages : Z) : PM Z :=
  change_page_attr_set fuel [addr] npages _PAGE_RW false.
Definition set_memory_np (fuel : nat) (addr npages : Z) : PM Z :=
  change_page_attr_clear fuel [addr] npages _PAGE_PRESENT false.
Definition set_memory_np_noalias (fuel : nat) (addr npages : Z) : PM Z :=
  change_page_attr_set_clr fuel [addr] npages 0 _PAGE_PRESENT false CPA_NO_CHECK_ALIAS [].
Definition set_memory_4k (fuel : nat) (addr npages : Z) : PM Z :=
  change_page_attr_set_clr fuel [addr] npages 0 0 true 0 [].
Definition set_memory_nonglobal (fuel : nat) (addr npages : Z) : PM Z :=
  change_page_attr_clear fuel [addr] npages _PAGE_GLOBAL false.
Definition set_memory_global (fuel : nat) (addr npages : Z) : PM Z :=
  change_page_attr_set fuel [addr] npages _PAGE_GLOBAL false.

Definition __set_memory_enc_dec (fuel : nat) (addr npages : Z) (enc : bool) : PM Z :=
  if negb mem_encrypt_active then ret 0
  else
    (when addr .& (PAGE_SIZE - 1) do pcall_ (warn "misaligned address")) ;;
    let addr := align_down addr PAGE_SIZE in
    let cpa := CpaData [addr] init_mm_pgd (if enc then _PAGE_ENC else 0)
                 (if enc then 0 else _PAGE_ENC) (u64 npages) 0 0 0 false false false [] in
    pcall_ kmap_flush_unused ;;
    pcall_ vm_unmap_aliases ;;
    cpa_flush cpa true ;;
    let* r := __change_page_attr_set_clr fuel cpa true in
    cpa_flush (snd r) false ;;
    ret (fst r).
Definition set_memory_encrypted (fuel : nat) (addr npages : Z) : PM Z :=
  __set_memory_enc_dec fuel addr npages true.
Definition set_memory_decrypted (fuel : nat) (addr npages : Z) : PM Z :=
  __set_memory_enc_dec fuel addr npages false.

(** ** Pages and arrays of pages *)

Definition set_pages_uc (fuel : nat) (page npages : Z) : PM Z :=
  set_memory_uc fuel (page_address page) npages.
Definition set_pages_wb (fuel : nat) (page npages : Z) : PM Z :=
  set_memory_wb fuel (page_address page) npages.
Definition set_pages_ro (fuel : nat) (page npages : Z) : PM Z :=
  set_memory_ro fuel (page_address page) npages.
Definition set_pages_rw (fuel : nat) (page npages : Z) : PM Z :=
  set_memory_rw fuel (page_address page) npages.

Definition page_start (page : Z) : Z := u64 (Z.shiftl (page_to_pfn page) PAGE_SHIFT).
Definition page_end (page : Z) : Z := u64 (page_start page + PAGE_SIZE).

(** Lines 2016-2023 for [n] pages: the index [i] reached, and whether all were
    reserved. An index outside the array is undefined. *)
Fixpoint reserve_pages (n : nat) (pgs : list Z) (new_type : Z) : PM (nat * bool) :=
  match n, pgs with
  | O, _ => ret (O, true)
  | S n, page :: pgs =>
      let* r := if PageHighMem page then ret 0
                else pcall_ret (reserve_memtype (page_start page) (page_end page) new_type) in
      if negb (r =? 0) then ret (O, false)
      else
        let* i := reserve_pages n pgs new_type in
        ret (S (fst i), snd i)
  | S _, [] => diverge
  end.

Fixpoint free_pages (n : nat) (pgs : list Z) : PM unit :=
  match n, pgs with
  | O, _ => ret tt
  | S n, page :: pgs =>
      (when negb (PageHighMem page) do pcall_ (free_memtype (page_start page) (page_end page))) ;;
      free_pages n pgs
  | S _, [] => diverge
  end.

Definition _set_pages_array (fuel : nat) (pgs : list Z) (npages new_type : Z) : PM Z :=
  let* r := reserve_pages (Z.to_nat npages) pgs new_type in
  let '(i, reserved) := r in
  let* res :=
    if negb reserved then ret (- EINVAL)
    else
      let set_type := if new_type =? _PAGE_CACHE_MODE_WC then _PAGE_CACHE_MODE_UC_MINUS
                      else new_type in
      let* r := cpa_set_pages_array fuel pgs npages (cachemode2pgprot set_type) in
      if (r =? 0) && (new_type =? _PAGE_CACHE_MODE_WC) then
        change_page_attr_set_clr fuel [] npages (cachemode2pgprot _PAGE_CACHE_MODE_WC)
          _PAGE_CACHE_MASK false CPA_PAGES_ARRAY pgs
      else ret r in
  if res =? 0 then ret 0
  else free_pages i pgs ;; ret (- EINVAL).

Definition set_pages_array_uc (fuel : nat) (pgs : list Z) (npages : Z) : PM Z :=
  _set_pages_array fuel pgs npages _PAGE_CACHE_MODE_UC_MINUS.
Definition set_pages_array_wc (fuel : nat) (pgs : list Z) (npages : Z) : PM Z :=
  _set_pages_array fuel pgs npages _PAGE_CACHE_MODE_WC.
Definition set_pages_array_wt (fuel : nat) (pgs : list Z) (npages : Z) : PM Z :=
  _set_pages_array fuel pgs npages _PAGE_CACHE_MODE_WT.

Definition set_pages_array_wb (fuel : nat) (pgs : list Z) (npages : Z) : PM Z :=
  let* r := cpa_clear_pages_array fuel pgs npages _PAGE_CACHE_MASK in
  if negb (r =? 0) then ret r
  else free_pages (Z.to_nat npages) pgs ;; ret 0.

(** A request without aliases, in the directory [pgd]. *)
Definition plain_request (pgd addr npages pfn set clr : Z) : cpa_data :=
  CpaData [addr] pgd set clr (u64 npages) 0 pfn 0 false false false [].

Definition __set_pages_p (fuel : nat) (page npages : Z) : PM Z :=
  let* r := __change_page_attr_set_clr fuel
    (plain_request 0 (page_address page) npages 0 (Z.lor _PAGE_PRESENT _PAGE_RW) 0) false in
  ret (fst r).
Definition __set_pages_np (fuel : nat) (page npages : Z) : PM Z :=
  let* r := __change_page_attr_set_clr fuel
    (plain_request 0 (page_address page) npages 0 0 (Z.lor _PAGE_PRESENT _PAGE_RW)) false in
  ret (fst r).

Definition set_direct_map_invalid_noflush (fuel : nat) (page : Z) : PM Z :=
  __set_pages_np fuel page 1.
Definition set_direct_map_default_noflush (fuel : nat) (page : Z) : PM Z :=
  __set_pages_p fuel page 1.

Definition __kernel_map_pages (fuel : nat) (page npages : Z) (enable : bool) : PM unit :=
  if PageHighMem page then ret tt
  else
    (when negb enable do
       pcall_ (debug_check_no_locks_freed (page_address page) (u64 (npages * PAGE_SIZE)))) ;;
    (if enable then __set_pages_p fuel page npages else __set_pages_np fuel page npages) ;;
    pcall_ preempt_disable ;;
    pcall_ flush_tlb_all_local ;;
    pcall_ preempt_enable ;;
    pcall_ flush_lazy_mmu.

(** The entry is read without a test: no entry is undefined. *)
Definition kernel_page_present (page : Z) : PM bool :=
  if PageHighMem page then ret false
  else
    let* m := gets p_mem in
    let* pte := of_option (fst (lookup_address m (page_address page))) in
    ret (rd m pte .& _PAGE_PRESENT).

Definition kernel_map_pages_in_pgd (fuel : nat) (pgd pfn address npages page_flags : Z) : PM Z :=
  let clr := Z.ldiff (Z.lor _PAGE_NX _PAGE_RW) page_flags in
  (when (1 <? num_cpus_online)%nat do pcall_ (warn "Don't call after initializing SMP")) ;;
  if negb (supported_pte_mask .& _PAGE_NX) then ret (- EINVAL)
  else
    let clr := if negb (page_flags .& _PAGE_ENC) then pgprot_encrypted clr else clr in
    let* r := __change_page_attr_set_clr fuel
      (plain_request pgd address npages pfn (Z.lor _PAGE_PRESENT page_flags) clr) false in
    pcall_ flush_tlb_all_local ;;
    ret (fst r).

Definition kernel_unmap_pages_in_pgd (fuel : nat) (pgd address npages : Z) : PM Z :=
  (when (1 <? num_cpus_online)%nat do pcall_ (warn "Don't call after initializing SMP")) ;;
  let* r := __change_page_attr_set_clr fuel
    (plain_request pgd address npages 0 0 (Z.lor _PAGE_PRESENT _PAGE_RW)) false in
  pcall_ flush_tlb_all_local ;;
  ret (fst r).
End PageAttr.
