(* ===== verification/PageLaws.v ===== *)
(** What the theorems on [PageProt.v], [Populate.v] and [PageAttr.v] rely on: the
    documented behaviour of the headers and of the calls out of
    [kernel_modify/pageattr.c], and a small kernel, [PageDemo], that has it. *)
From Stdlib Require Import ZArith Lia Bool String.
From stdpp Require Import base list gmap.
From S2P Require Import Prelude Paging PageProt.

Local Open Scope Z_scope.
Local Open Scope ub_scope.

(** ** What the code relies on *)

(** Calls that allocate may run other users of the tables. *)
Definition is_alloc (c : pcall) : bool :=
  match c with alloc_pages | get_zeroed_page => true | _ => false end.

(** Interrupts allow the flushing calls. *)
Definition irq_ok {W : Type} {env : PageEnv W} (s : pstate W) : bool :=
  negb (irqs_disabled (p_world s) && negb (early_boot_irqs_disabled (p_world s))).

(** The locks of this file and the interrupt state. *)
Definition steady {W : Type} {env : PageEnv W} (s s' : pstate W) : Prop :=
  cpa_lock s' = cpa_lock s /\ pgd_lock s' = pgd_lock s /\ irq_ok s' = irq_ok s.

(** All other calls return and leave the tables alone; no call changes the two
    locks of this file or the interrupt state for good. *)
Class PageEnvOk {W : Type} (env : PageEnv W) : Prop := {
  quiet_returns : forall c s, is_alloc c = false -> exists r s', pext c s = Some (r, s');
  quiet_mem : forall c s r s', is_alloc c = false -> pext c s = Some (r, s') ->
    p_mem s' = p_mem s;
  calls_steady : forall c s r s', pext c s = Some (r, s') -> steady s s'
}.

(** Documented behaviour of the accessors and constants of the headers. *)
Class PageConstsOk (consts : PageConsts) (paging : Paging) : Prop := {
  page_shift : PAGE_SHIFT = 12;
  canon_zero : canon_pgprot 0 = 0;
  cachemode_zero : pgprot2cachemode 0 = 0;
  pte_exec_prot : forall e prot, pte_exec (pfn_pte (pte_pfn e) prot) = negb (prot .& _PAGE_NX);
  pte_pfn_range : forall e, 0 <= pte_pfn e < 2 ^ 40;
  pfn_pte_pfn : forall f prot, 0 <= f < 2 ^ 40 -> pte_pfn (pfn_pte f prot) = f;
  pmd_shift : PMD_SHIFT = 21;
  ptrs_per_pte : PTRS_PER_PTE = 512;
  (* a 2M page starts at a 2M boundary *)
  pmd_pfn_aligned : forall e, pmd_large e = true ->
    0 <= pmd_pfn e /\ pmd_pfn e + 512 <= 2 ^ 40 /\ pmd_pfn e mod 512 = 0
}.

(** ** A kernel that satisfies the laws *)

Module PageDemo.
(** Entries as on x86-64: bit 0 present, 1 writable, 7 large, 63 not executable,
    the frame from bit 12. *)
Definition frame (e : Z) : Z := (e / 4096) mod 2 ^ 40.
Definition nx (e : Z) : Z := (e / 2 ^ 63) mod 2.
Definition next (m : ptmem) (p i : Z) : Z := 4096 * frame (rd m p) + 8 * (i mod 512).
Definition entry (f prot : Z) : Z := (f mod 2 ^ 40) * 4096 + prot mod 4096 + nx prot * 2 ^ 63.

#[export] Instance paging : Paging := {|
  pgtable_l5_enabled := false; pgd_index a := (a / 2 ^ 39) mod 512; init_mm_pgd := 0x1000;
  p4d_offset m p a := p;
  pud_offset m p a := next m p (a / 2 ^ 30);
  pmd_offset m p a := next m p (a / 2 ^ 21);
  pte_offset_kernel m p a := next m p (a / 2 ^ 12);
  pgd_none v := v =? 0; pgd_present v := Z.testbit v 0;
  p4d_none v := v =? 0; p4d_present v := Z.testbit v 0; p4d_large v := Z.testbit v 7;
  pud_none v := v =? 0; pud_present v := Z.testbit v 0; pud_large v := Z.testbit v 7;
  pmd_none v := v =? 0; pmd_present v := Z.testbit v 0; pmd_large v := Z.testbit v 7;
  pte_none v := v =? 0; pte_present v := Z.testbit v 0; pte_write v := Z.testbit v 1;
  pte_exec v := nx v =? 0;
  pgd_page_vaddr v := 4096 * frame v; p4d_pfn v := frame v;
  store_entry p v m := <[p := v]> m |}.

Lemma demo_paging_ok : PagingOk paging.
Proof.
  split; simpl; try easy. intros m m' p q a H. unfold next. now rewrite H.
Qed.

(** Virtual and physical addresses agree; a struct page is its frame number. *)
#[export] Instance consts : PageConsts := {|
  _PAGE_PRESENT := 1; _PAGE_RW := 2; _PAGE_NX := 2 ^ 63; _PAGE_PSE := 128; _PAGE_GLOBAL := 256;
  _PAGE_ENC := 0; _PAGE_CACHE_MASK := 0x98; _KERNPG_TABLE := 0x63;
  PAGE_SHIFT := 12; PMD_SHIFT := 21; PUD_SHIFT := 30; PTRS_PER_PTE := 512; PTRS_PER_PMD := 512;
  EINVAL := 22; ENOMEM := 12; EFAULT := 14;
  PAGE_OFFSET := 0; START_KERNEL_map := 0; phys_base := 0;
  _text := 0x400000; _etext := 0x600000; _brk_end := 0xa00000;
  __start_rodata := 0x600000; __end_rodata := 0x800000; __end_rodata_hpage_align := 0x800000;
  __pa_symbol a := a; __pa a := a; __va a := a;
  pte_pgprot e := e mod 4096 + nx e * 2 ^ 63; pmd_pgprot e := e mod 4096 + nx e * 2 ^ 63;
  pud_pgprot e := e mod 4096 + nx e * 2 ^ 63;
  pte_pfn e := frame e; pmd_pfn e := frame e / 512 * 512; pud_pfn e := frame e / 2 ^ 18 * 2 ^ 18;
  pfn_pte := entry; pfn_pmd := entry; pfn_pud := entry;
  pmd_mkhuge e := Z.lor e 128; pud_mkhuge e := Z.lor e 128;
  pmd_page_vaddr e := 4096 * frame e; pud_page_vaddr e := 4096 * frame e;
  pgprot_large_2_4k p := Z.ldiff p 128; pgprot_4k_2_large p := p; canon_pgprot p := p;
  pgprot2cachemode p := Z.land (Z.shiftr p 3) 3; cachemode2pgprot c := Z.shiftl c 3;
  pgprot_encrypted p := p;
  _PAGE_CACHE_MODE_WC := 1; _PAGE_CACHE_MODE_UC_MINUS := 2; _PAGE_CACHE_MODE_WT := 3;
  page_address p := 4096 * p; PageHighMem _ := false; page_to_pfn p := p;
  mk_pte p prot := entry p prot; debug_pagealloc_enabled := false |}.

Lemma entry_parts f prot :
  0 <= f < 2 ^ 40 -> frame (entry f prot) = f /\ nx (entry f prot) = nx prot.
Proof.
  intros Hf. unfold entry. rewrite (Z.mod_small f) by easy.
  pose proof (Z.mod_pos_bound prot 4096 ltac:(lia)).
  pose proof (Z.mod_pos_bound (prot / 2 ^ 63) 2 ltac:(lia)) as B. fold (nx prot) in B. split.
  - unfold frame.
    replace (f * 4096 + prot mod 4096 + nx prot * 2 ^ 63)
      with (prot mod 4096 + (f + nx prot * 2 ^ 11 * 2 ^ 40) * 4096) by lia.
    rewrite Z.div_add, Z.div_small, Z.add_0_l, Z.mod_add, Z.mod_small by lia. easy.
  - unfold nx at 1. rewrite Z.div_add, Z.div_small, Z.add_0_l, Z.mod_small by lia. easy.
Qed.

Lemma nx_bit prot : (nx prot =? 0) = negb (prot .& 2 ^ 63).
Proof.
  unfold ctrue. rewrite negb_involutive. unfold nx. rewrite <- Z.testbit_spec' by lia.
  assert (B : forall i, 0 <= i -> Z.testbit (Z.land prot (2 ^ 63)) i = Z.testbit prot 63 && (63 =? i)).
  { intros i Hi. rewrite Z.land_spec, Z.pow2_bits_eqb by lia.
    destruct (Z.eqb_spec 63 i) as [<-|]; [easy|]. now rewrite !andb_false_r. }
  destruct (Z.testbit prot 63) eqn:E; cbn [Z.b2z Z.eqb]; symmetry.
  - apply Z.eqb_neq. intros H. specialize (B 63 ltac:(lia)). rewrite H, Z.bits_0 in B. easy.
  - apply Z.eqb_eq, Z.bits_inj'. intros i Hi. rewrite B, Z.bits_0 by easy. easy.
Qed.

Lemma frame_range e : 0 <= frame e < 2 ^ 40.
Proof. apply Z.mod_pos_bound. lia. Qed.

Lemma demo_consts_ok : PageConstsOk consts paging.
Proof.
  split; try reflexivity; simpl.
  - intros e prot. destruct (entry_parts (frame e) prot (frame_range e)) as [_ ->]. apply nx_bit.
  - apply frame_range.
  - intros f prot Hf. apply (entry_parts f prot Hf).
  - intros e _. pose proof (frame_range e). pose proof (Z.div_mod (frame e) 512 ltac:(lia)).
    pose proof (Z.mod_pos_bound (frame e) 512 ltac:(lia)).
    assert (frame e / 512 < 2 ^ 31) by (apply Z.div_lt_upper_bound; lia).
    assert (0 <= frame e / 512) by (apply Z.div_pos; lia).
    split; [lia|]. split; [lia|]. now rewrite Z.mod_mul.
Qed.

(** Every call returns at once; a free page is number 0x700. *)
Definition answer (c : pcall) (s : pstate unit) : option (Z * pstate unit) :=
  match c with
  | alloc_pages => Some (0x700, s)
  | get_zeroed_page => Some (0x700000, s)
  | _ => Some (0, s)
  end.

#[export] Instance kernel : PageEnv unit := {|
  pext := answer; kernel_set_to_readonly _ := true;
  irqs_disabled _ := false; early_boot_irqs_disabled _ := false; max_pfn_mapped := 0x100000;
  pfn_range_is_mapped _ _ := true; virt_addr_valid _ := true; has_clflush := true;
  has_gbpages := true; cpu_family := 6; x86_clflush_size := 64; tlb_single_page_flush_ceiling := 33;
  supported_pte_mask := 2 ^ 64 - 1; mem_encrypt_active := false; direct_gbpages := true;
  num_cpus_online := 2 |}.

Lemma demo_kernel_ok : PageEnvOk kernel.
Proof.
  assert (Same : forall c s r s', pext c s = Some (r, s') -> s' = s)
    by (intros c s r s' H; destruct c; now injection H as <- <-).
  split.
  - intros c s _. destruct c; eexists _, _; reflexivity.
  - intros c s r s' _ H. now rewrite (Same c s r s' H).
  - intros c s r s' H. now rewrite (Same c s r s' H).
Qed.

(** The first 2M of the address space as one large page, the next two pages as
    small ones; all not executable. *)
Definition tables : ptmem :=
  <[0x1000 := 0x2063]> (<[0x2000 := 0x3063]> (<[0x3000 := 0xa0000e3 + 2 ^ 63]>
  (<[0x3008 := 0x4063]> (<[0x4000 := 0x9000063 + 2 ^ 63]> (<[0x4008 := 0x9001063 + 2 ^ 63]> ∅))))).
Definition start : pstate unit := PState tables (fun _ => 7) false false tt [].

(** A walk down to the third and the fourth level. *)
Definition table_entry (e : Z) : Prop :=
  (e =? 0) = false /\ Z.testbit e 7 = false /\ Z.testbit e 0 = true.
Definition step (e i : Z) : Z := 4096 * frame e + 8 * (i mod 512).

Lemma walk_2m m a e1 e2 e3 :
  rd m (0x1000 + 8 * ((a / 2 ^ 39) mod 512)) = e1 -> table_entry e1 ->
  rd m (step e1 (a / 2 ^ 30)) = e2 -> table_entry e2 ->
  rd m (step e2 (a / 2 ^ 21)) = e3 -> (e3 =? 0) = false -> Z.testbit e3 7 = true ->
  @lookup_address paging m a = (Some (step e2 (a / 2 ^ 21)), PG_LEVEL_2M).
Proof.
  intros R1 (A1 & A2 & A3) R2 (B1 & B2 & B3) R3 C1 C2.
  unfold lookup_address, lookup_address_in_pgd, pgd_offset_k, pgd_entry_of.
  cbn [paging pgd_none p4d_none p4d_large p4d_present pud_none pud_large pud_present pmd_none
    pmd_large pmd_present pgd_index init_mm_pgd p4d_offset pud_offset pmd_offset pte_offset_kernel].
  unfold next.
  rewrite R1, A1, A2, A3. fold (step e1 (a / 2 ^ 30)). rewrite R2, B1, B2, B3.
  fold (step e2 (a / 2 ^ 21)). rewrite R3, C1, C2. easy.
Qed.

Lemma walk_4k m a e1 e2 e3 :
  rd m (0x1000 + 8 * ((a / 2 ^ 39) mod 512)) = e1 -> table_entry e1 ->
  rd m (step e1 (a / 2 ^ 30)) = e2 -> table_entry e2 ->
  rd m (step e2 (a / 2 ^ 21)) = e3 -> table_entry e3 ->
  @lookup_address paging m a = (Some (step e3 (a / 2 ^ 12)), PG_LEVEL_4K).
Proof.
  intros R1 (A1 & A2 & A3) R2 (B1 & B2 & B3) R3 (C1 & C2 & C3).
  unfold lookup_address, lookup_address_in_pgd, pgd_offset_k, pgd_entry_of.
  cbn [paging pgd_none p4d_none p4d_large p4d_present pud_none pud_large pud_present pmd_none
    pmd_large pmd_present pgd_index init_mm_pgd p4d_offset pud_offset pmd_offset pte_offset_kernel].
  unfold next.
  rewrite R1, A1, A2, A3. fold (step e1 (a / 2 ^ 30)). rewrite R2, B1, B2, B3.
  fold (step e2 (a / 2 ^ 21)). rewrite R3, C1, C2, C3. easy.
Qed.
End PageDemo.
