(* ===== verification/PopulateSpec.v ===== *)
(** Theorems on [Populate.v]: what [populate_pmd] of [kernel_modify/pageattr.c]
    does to the translation of the 1G region behind one entry of the third
    level. *)
From Stdlib Require Import ZArith Lia Bool String.
From stdpp Require Import base list gmap.
From S2P Require Import Prelude Paging PageProt Populate PageLaws.

Local Open Scope Z_scope.
Local Open Scope ub_scope.

(** ** What the code relies on *)

(** The page allocator: it hands out the free pages of the world in order,
    cleared, and 0 when there are none. *)
Class PageAlloc {W : Type} (env : PageEnv W) := {
  free_pages : W -> list Z;
  zeroed_none : forall s, free_pages (p_world s) = [] ->
    exists s', pext get_zeroed_page s = Some (0, s') /\
      p_mem s' = p_mem s /\ free_pages (p_world s') = [];
  zeroed_some : forall s r l, free_pages (p_world s) = r :: l ->
    exists s', pext get_zeroed_page s = Some (r, s') /\ free_pages (p_world s') = l /\
      (forall x, r <= x < r + 4096 -> rd (p_mem s') x = 0) /\
      (forall x, ~ r <= x < r + 4096 -> rd (p_mem s') x = rd (p_mem s) x)
}.

(** Pages come from, and tables are reached through, the kernel's mapping of all
    physical memory: 64 TB of virtual addresses from [PAGE_OFFSET] on. *)
Definition direct_map_page {consts : PageConsts} (r : Z) : Prop :=
  PAGE_OFFSET <= r < PAGE_OFFSET + 2 ^ 46.

(** Documented layout of the two lower levels on x86-64. *)
Class TableLaws (consts : PageConsts) (paging : Paging) : Prop := {
  tl_page_shift : PAGE_SHIFT = 12;
  tl_pmd_shift : PMD_SHIFT = 21;
  tl_ptrs : PTRS_PER_PTE = 512 /\ PTRS_PER_PMD = 512;
  pmd_offset_at : forall m p a, pmd_offset m p a = pud_page_vaddr (rd m p) + 8 * ((a / 2 ^ 21) mod 512);
  pte_offset_at : forall m p a,
    pte_offset_kernel m p a = pmd_page_vaddr (rd m p) + 8 * ((a / 2 ^ 12) mod 512);
  pte_none_zero : pte_none 0 = true;
  pmd_none_zero : pmd_none 0 = true /\ pmd_large 0 = false;
  pud_none_zero : pud_none 0 = true;
  pfn_pte_entry : forall f prot, 0 <= f < 2 ^ 40 -> (prot .& _PAGE_PRESENT) = true ->
    pte_none (pfn_pte f prot) = false /\ pte_pfn (pfn_pte f prot) = f;
  huge_entry : forall f prot, 0 <= f < 2 ^ 40 -> f mod 512 = 0 -> (prot .& _PAGE_PRESENT) = true ->
    let e := pmd_mkhuge (pfn_pmd f prot) in
    pmd_none e = false /\ pmd_large e = true /\ pmd_pfn e = f;
  table_entry : forall page, page <> 0 -> direct_map_page page -> page mod 4096 = 0 ->
    let e := Z.lor (__pa page) _KERNPG_TABLE in
    pmd_none e = false /\ pmd_large e = false /\ pmd_page_vaddr e = page;
  canon_present : forall prot, (prot .& _PAGE_PRESENT) = true ->
    (canon_pgprot prot .& _PAGE_PRESENT) = true;
  large_present : forall prot, (prot .& _PAGE_PRESENT) = true ->
    (pgprot_4k_2_large prot .& _PAGE_PRESENT) = true
}.

(** ** The region behind one entry *)

Section Region.
Context {W : Type} {consts : PageConsts} {paging : Paging} {env : PageEnv W}.
Context {alloc : PageAlloc env} {laws : TableLaws consts paging}.
Variable pud : Z.

(** The 512 entries of the second level, and the table behind one that has one. *)
Definition pmd_table (m : ptmem) : Z := pud_page_vaddr (rd m pud).
Definition pmd_at (m : ptmem) (j : Z) : Z := pmd_table m + 8 * j.
Definition table_of (m : ptmem) (j : Z) : option Z :=
  let e := rd m (pmd_at m j) in
  if pmd_none e || pmd_large e then None else Some (pmd_page_vaddr e).

(** The frame that page [q] of the region is mapped to. *)
Definition frame_of (m : ptmem) (q : Z) : option Z :=
  let e := rd m (pmd_at m (q / 512)) in
  if pmd_none e then None
  else if pmd_large e then Some (pmd_pfn e + q mod 512)
  else
    let p := rd m (pmd_page_vaddr e + 8 * (q mod 512)) in
    if pte_none p then None else Some (pte_pfn p).

Definition in_page (t x : Z) : Prop := t <= x < t + 4096.

(** The tables of the region are pages of their own; so are the free ones. *)
Record layout (m : ptmem) (free : list Z) : Prop := {
  lay_top : pmd_table m mod 4096 = 0 /\ ~ in_page (pmd_table m) pud;
  lay_table : forall j t, 0 <= j < 512 -> table_of m j = Some t ->
    t mod 4096 = 0 /\ t <> pmd_table m /\ ~ in_page t pud;
  lay_valid : forall j t, 0 <= j < 512 -> table_of m j = Some t -> t <> 0 /\ direct_map_page t;
  lay_distinct : forall i j t, 0 <= i < 512 -> 0 <= j < 512 ->
    table_of m i = Some t -> table_of m j = Some t -> i = j;
  lay_free : forall r, r ∈ free ->
    r <> 0 /\ direct_map_page r /\ r mod 4096 = 0 /\ r <> pmd_table m /\ ~ in_page r pud /\
    forall j, 0 <= j < 512 -> table_of m j <> Some r;
  lay_nodup : NoDup free;
  lay_top_valid : pmd_table m <> 0
}.

Lemma pages_apart t u i k :
  t mod 4096 = 0 -> u mod 4096 = 0 -> t <> u -> 0 <= i < 512 -> 0 <= k < 512 -> t + 8 * i <> u + 8 * k.
Proof.
  intros Ht Hu N Hi Hk. pose proof (Z.div_mod t 4096 ltac:(lia)).
  pose proof (Z.div_mod u 4096 ltac:(lia)). lia.
Qed.

Lemma not_in_other_page t u k :
  t mod 4096 = 0 -> u mod 4096 = 0 -> t <> u -> 0 <= k < 512 -> ~ in_page t (u + 8 * k).
Proof.
  intros Ht Hu N Hk. unfold in_page. pose proof (Z.div_mod t 4096 ltac:(lia)).
  pose proof (Z.div_mod u 4096 ltac:(lia)). lia.
Qed.

(** The entry and the table above are the same. *)
Definition same_upper (m m' : ptmem) : Prop :=
  rd m' pud = rd m pud /\ forall j, 0 <= j < 512 -> rd m' (pmd_at m j) = rd m (pmd_at m j).

Lemma same_upper_top m m' : rd m' pud = rd m pud -> pmd_table m' = pmd_table m.
Proof. unfold pmd_table. now intros ->. Qed.

Lemma pmd_at_same m m' j : pmd_table m' = pmd_table m -> pmd_at m' j = pmd_at m j.
Proof. unfold pmd_at. now intros ->. Qed.

Lemma table_of_same m m' j :
  pmd_table m' = pmd_table m -> rd m' (pmd_at m j) = rd m (pmd_at m j) ->
  table_of m' j = table_of m j.
Proof. intros E R. unfold table_of. now rewrite (pmd_at_same m m' j E), R. Qed.

Lemma same_upper_table m m' j : same_upper m m' -> 0 <= j < 512 -> table_of m' j = table_of m j.
Proof.
  intros [P U] Hj. apply table_of_same; [now apply same_upper_top|now apply U].
Qed.

Lemma same_upper_layout m m' free : same_upper m m' -> layout m free -> layout m' free.
Proof.
  intros S L. pose proof (same_upper_top m m' (proj1 S)) as E.
  split; rewrite ?E.
  - apply L.
  - intros j t Hj. rewrite (same_upper_table m m' j S Hj). now apply L.
  - intros j t Hj. rewrite (same_upper_table m m' j S Hj). now apply L.
  - intros i j t Hi Hj. rewrite !(same_upper_table m m') by easy. now apply L.
  - intros r Hr. destruct (lay_free _ _ L r Hr) as (A & B & C & D & F & G).
    repeat (split; [easy|]). intros j Hj. rewrite (same_upper_table m m') by easy. now apply G.
  - apply L.
  - apply (lay_top_valid _ _ L).
Qed.

(** A page entry is stored. *)
Lemma store_pte_region m free j t k v :
  layout m free -> 0 <= j < 512 -> table_of m j = Some t -> 0 <= k < 512 ->
  let m' := <[t + 8 * k := v]> m in
  same_upper m m' /\
  forall q, 0 <= q < 2 ^ 18 -> frame_of m' q =
    if q =? 512 * j + k then (if pte_none v then None else Some (pte_pfn v)) else frame_of m q.
Proof.
  intros L Hj Ht Hk m'. destruct (lay_table _ _ L j t Hj Ht) as (Tm & Tn & Tp).
  destruct (lay_top _ _ L) as [Pm _].
  assert (U : same_upper m m').
  { split; unfold m'; [|intros i Hi]; apply rd_insert_ne.
    - unfold in_page in Tp. lia.
    - now apply pages_apart. }
  split; [exact U|]. intros q Hq.
  assert (Hi : 0 <= q / 512 < 512) by (split; [apply Z.div_pos; lia|apply Z.div_lt_upper_bound; lia]).
  pose proof (Z.mod_pos_bound q 512 ltac:(lia)) as Hm. pose proof (Z.div_mod q 512 ltac:(lia)) as Hd.
  unfold frame_of. rewrite (pmd_at_same m m' _ (same_upper_top m m' (proj1 U))), (proj2 U _ Hi).
  pose proof (lay_table _ _ L (q / 512)) as Lq. pose proof (lay_distinct _ _ L (q / 512) j) as Dq.
  unfold table_of in Ht, Lq, Dq. set (e := rd m (pmd_at m (q / 512))) in *.
  destruct (Z.eqb_spec q (512 * j + k)) as [E|E].
  - assert (Ej : q / 512 = j) by (rewrite E, Z.add_comm, Z.mul_comm, Z.div_add, Z.div_small; lia).
    assert (Ek : q mod 512 = k) by lia. unfold e. rewrite Ej.
    destruct (pmd_none _); [easy|]. destruct (pmd_large _); [easy|].
    injection Ht as Ht. rewrite Ek, Ht. unfold m'. now rewrite rd_insert_eq.
  - destruct (pmd_none e); [easy|]. destruct (pmd_large e); [easy|]. cbn [orb] in *.
    unfold m'. rewrite rd_insert_ne; [easy|].
    destruct (decide (pmd_page_vaddr e = t)) as [Et|Et].
    + rewrite Et in *. intros X. apply E. rewrite <- (Dq t Hi Hj eq_refl Ht). lia.
    + apply pages_apart; try easy. now apply (Lq (pmd_page_vaddr e)).
Qed.

(** Only the entry of chunk [j] is stored. *)
Lemma store_pmd_upper m free j e :
  layout m free -> 0 <= j < 512 ->
  let m' := <[pmd_at m j := e]> m in
  pmd_table m' = pmd_table m /\ rd m' (pmd_at m j) = e /\
  (forall x, x <> pmd_at m j -> rd m' x = rd m x) /\
  (forall i, 0 <= i < 512 -> i <> j -> table_of m' i = table_of m i).
Proof.
  intros L Hj m'. destruct (lay_top _ _ L) as [_ Pp].
  assert (E : pmd_table m' = pmd_table m).
  { apply same_upper_top. unfold m', pmd_at. apply rd_insert_ne. unfold in_page in Pp. lia. }
  split; [exact E|]. split; [apply rd_insert_eq|]. split; [intros x N; now apply rd_insert_ne|].
  intros i Hi N. apply table_of_same; [exact E|]. unfold m'.
  apply rd_insert_ne. unfold pmd_at. lia.
Qed.

(** A large page is stored. *)
Lemma store_huge_region m free j e :
  layout m free -> 0 <= j < 512 -> pmd_none e = false -> pmd_large e = true ->
  let m' := <[pmd_at m j := e]> m in
  layout m' free /\ pmd_table m' = pmd_table m /\
  (forall i, 0 <= i < 512 -> i <> j -> rd m' (pmd_at m i) = rd m (pmd_at m i)) /\
  forall q, 0 <= q < 2 ^ 18 -> frame_of m' q =
    if q / 512 =? j then Some (pmd_pfn e + q mod 512) else frame_of m q.
Proof.
  intros L Hj En El m'.
  destruct (store_pmd_upper m free j e L Hj) as (Et & Ej & Ex & Eo). fold m' in Et, Ej, Ex, Eo.
  assert (Tj : table_of m' j = None).
  { unfold table_of. rewrite (pmd_at_same m m' j Et), Ej, El. now rewrite orb_true_r. }
  assert (Ti : forall i t, 0 <= i < 512 -> table_of m' i = Some t -> i <> j /\ table_of m i = Some t).
  { intros i t Hi H. destruct (decide (i = j)) as [->|N]; [congruence|].
    split; [easy|]. now rewrite <- Eo. }
  split; [|split; [easy|split]].
  - split; rewrite ?Et.
    + apply L.
    + intros i t Hi H. apply Ti in H as [_ H]; [|easy]. now apply (lay_table _ _ L i t).
    + intros i t Hi H. apply Ti in H as [_ H]; [|easy]. now apply (lay_valid _ _ L i t).
    + intros i k t Hi Hk H1 H2. apply Ti in H1 as [_ H1]; [|easy]. apply Ti in H2 as [_ H2]; [|easy].
      now apply (lay_distinct _ _ L i k t).
    + intros r Hr. destruct (lay_free _ _ L r Hr) as (A & B & C & D & F & G).
      repeat (split; [easy|]). intros i Hi H. apply Ti in H as [_ H]; [|easy]. now apply (G i).
    + apply L.
    + apply (lay_top_valid _ _ L).
  - intros i Hi N. apply Ex. unfold pmd_at. lia.
  - intros q Hq.
    assert (Hi : 0 <= q / 512 < 512) by (split; [apply Z.div_pos; lia|apply Z.div_lt_upper_bound; lia]).
    pose proof (Z.mod_pos_bound q 512 ltac:(lia)) as Hm.
    unfold frame_of. rewrite (pmd_at_same m m' _ Et).
    destruct (Z.eqb_spec (q / 512) j) as [->|N].
    + now rewrite Ej, En, El.
    + rewrite (Ex (pmd_at m (q / 512))) by (unfold pmd_at; lia).
      pose proof (lay_table _ _ L (q / 512)) as Lq. unfold table_of in Lq.
      set (x := rd m (pmd_at m (q / 512))) in *.
      destruct (pmd_none x); [easy|]. destruct (pmd_large x); [easy|].
      destruct (Lq (pmd_page_vaddr x) Hi eq_refl) as (Tm & Tn & _). rewrite Ex; [easy|].
      destruct (lay_top _ _ L) as [Pm _]. now apply pages_apart.
Qed.

(** A cleared page becomes the table of an empty chunk. *)
Lemma store_table_region m m1 free j r :
  layout m (r :: free) -> 0 <= j < 512 -> pmd_none (rd m (pmd_at m j)) = true ->
  (forall x, in_page r x -> rd m1 x = 0) -> (forall x, ~ in_page r x -> rd m1 x = rd m x) ->
  let m' := <[pmd_at m j := Z.lor (__pa r) _KERNPG_TABLE]> m1 in
  layout m' free /\ pmd_table m' = pmd_table m /\ table_of m' j = Some r /\
  (forall i, 0 <= i < 512 -> i <> j -> rd m' (pmd_at m i) = rd m (pmd_at m i)) /\
  forall q, 0 <= q < 2 ^ 18 -> frame_of m' q = frame_of m q.
Proof.
  intros L Hj En Hz Ho m'.
  destruct (lay_free _ _ L r ltac:(apply elem_of_cons; now left)) as (R0 & Rb & Rm & Rt & Rp & Rj).
  destruct (lay_top _ _ L) as [Pm Pp].
  assert (Up : forall i, 0 <= i < 512 -> ~ in_page r (pmd_at m i))
    by (intros i Hi; now apply not_in_other_page).
  assert (L1 : layout m1 (r :: free)).
  { apply (same_upper_layout m); [|easy]. split; [|intros i Hi]; apply Ho; [exact Rp|auto]. }
  assert (T1 : pmd_table m1 = pmd_table m) by (apply same_upper_top, Ho, Rp).
  destruct (table_entry r R0 Rb Rm) as (Nn & Nl & Nv).
  set (e := Z.lor (__pa r) _KERNPG_TABLE) in *.
  pose proof (store_pmd_upper m1 (r :: free) j e L1 Hj) as S.
  rewrite (pmd_at_same m m1 j T1) in S. destruct S as (Et & Ej & Ex & Eo). fold m' in Et, Ej, Ex, Eo.
  rewrite T1 in Et.
  assert (Tj : table_of m' j = Some r).
  { unfold table_of. rewrite (pmd_at_same m m' j Et), Ej, Nn, Nl. now rewrite Nv. }
  assert (Ti : forall i, 0 <= i < 512 -> i <> j -> table_of m' i = table_of m i).
  { intros i Hi N. rewrite Eo by easy. apply table_of_same; [easy|]. now apply Ho, Up. }
  pose proof (lay_nodup _ _ L) as ND. apply NoDup_cons in ND as [Nr ND].
  split; [|split; [easy|split; [easy|split]]].
  - split; rewrite ?Et; try easy.
    + intros i t Hi H. destruct (decide (i = j)) as [->|N].
      * rewrite Tj in H. injection H as <-. easy.
      * rewrite Ti in H by easy. now apply (lay_table _ _ L i t).
    + intros i t Hi H. destruct (decide (i = j)) as [->|N].
      * rewrite Tj in H. injection H as <-. easy.
      * rewrite Ti in H by easy. now apply (lay_valid _ _ L i t).
    + intros i k t Hi Hk H1 H2.
      destruct (decide (i = j)) as [->|Ni], (decide (k = j)) as [->|Nk]; [easy|..];
        rewrite ?Tj, ?Ti in H1 by easy; rewrite ?Tj, ?Ti in H2 by easy.
      * injection H1 as <-. exfalso. now apply (Rj k).
      * injection H2 as <-. exfalso. now apply (Rj i).
      * now apply (lay_distinct _ _ L i k t).
    + intros f Hf. destruct (lay_free _ _ L f ltac:(apply elem_of_cons; now right))
        as (A & B & C & D & F & G). repeat (split; [easy|]). intros i Hi H.
      destruct (decide (i = j)) as [->|N]; [|rewrite Ti in H by easy; now apply (G i)].
      rewrite Tj in H. injection H as <-. now apply Nr.
    + apply (lay_top_valid _ _ L).
  - intros i Hi N. rewrite Ex by (unfold pmd_at; lia). now apply Ho, Up.
  - intros q Hq.
    assert (Hi : 0 <= q / 512 < 512) by (split; [apply Z.div_pos; lia|apply Z.div_lt_upper_bound; lia]).
    pose proof (Z.mod_pos_bound q 512 ltac:(lia)) as Hm.
    unfold frame_of. rewrite (pmd_at_same m m' _ Et).
    destruct (decide (q / 512 = j)) as [->|N].
    + rewrite Ej, En, Nn, Nl, Nv. rewrite Ex; [|now apply pages_apart].
      rewrite Hz by (unfold in_page; lia). now rewrite pte_none_zero.
    + rewrite (Ex (pmd_at m (q / 512))) by (unfold pmd_at; lia). rewrite (Ho (pmd_at m (q / 512))) by auto.
      pose proof (lay_table _ _ L (q / 512)) as Lq. pose proof (Rj (q / 512) Hi) as Rq.
      unfold table_of in Lq, Rq. set (x := rd m (pmd_at m (q / 512))) in *.
      destruct (pmd_none x); [easy|]. destruct (pmd_large x); [easy|].
      destruct (Lq (pmd_page_vaddr x) Hi eq_refl) as (Tm & Tn & _).
      rewrite Ex by now apply pages_apart. rewrite Ho; [easy|].
      apply not_in_other_page; try easy. intros ->. now apply Rq.
Qed.

(** *** The code on the region *)

Context {paging_ok : PagingOk paging}.
Abbreviation state := (pstate W).

Definition region (s : state) : Prop := layout (p_mem s) (free_pages (p_world s)).

(** The pages [lo] to [hi] of the region are now as [g] says, the others as they
    were; the entries of chunks outside are the same, and there is no large page
    that is new and reaches outside. *)
Record changed (s s' : state) (lo hi : Z) (g : Z -> option Z) : Prop := {
  mp_region : region s';
  mp_pud : rd (p_mem s') pud = rd (p_mem s) pud;
  mp_frames : forall q, 0 <= q < 2 ^ 18 -> frame_of (p_mem s') q =
    if (lo <=? q) && (q <? hi) then g q else frame_of (p_mem s) q;
  mp_entries : forall j, 0 <= j < 512 -> 512 * (j + 1) <= lo \/ hi <= 512 * j ->
    rd (p_mem s') (pmd_at (p_mem s) j) = rd (p_mem s) (pmd_at (p_mem s) j);
  mp_large : forall j, 0 <= j < 512 ->
    pmd_large (rd (p_mem s') (pmd_at (p_mem s) j)) = true ->
    pmd_large (rd (p_mem s) (pmd_at (p_mem s) j)) = true \/ (lo <= 512 * j /\ 512 * (j + 1) <= hi)
}.

(** They are mapped to the frames from [f] on. *)
Definition mapped (s s' : state) (lo hi f : Z) : Prop :=
  changed s s' lo hi (fun q => Some (f + (q - lo))).

Lemma changed_nothing s lo g : region s -> changed s s lo lo g.
Proof.
  intros R. split; try easy.
  - intros q _. destruct (Z.leb_spec lo q), (Z.ltb_spec q lo); easy || lia.
  - now left.
Qed.

Lemma changed_pmd_at s s' lo hi g j :
  changed s s' lo hi g -> pmd_at (p_mem s') j = pmd_at (p_mem s) j.
Proof. intros H. apply pmd_at_same, same_upper_top, H. Qed.

Lemma changed_trans s s1 s2 lo mid hi g g1 g2 :
  changed s s1 lo mid g1 -> changed s1 s2 mid hi g2 -> lo <= mid <= hi ->
  (forall q, lo <= q < mid -> g1 q = g q) -> (forall q, mid <= q < hi -> g2 q = g q) ->
  changed s s2 lo hi g.
Proof.
  intros H1 H2 Hm G1 G2. split.
  - apply H2.
  - rewrite (mp_pud _ _ _ _ _ H2). apply H1.
  - intros q Hq. rewrite (mp_frames _ _ _ _ _ H2), (mp_frames _ _ _ _ _ H1) by easy.
    destruct (Z.leb_spec mid q), (Z.ltb_spec q hi), (Z.leb_spec lo q), (Z.ltb_spec q mid);
      cbn [andb]; try lia; try easy; auto.
  - intros j Hj Ho. rewrite <- (changed_pmd_at _ _ _ _ _ j H1), (mp_entries _ _ _ _ _ H2) by (easy || lia).
    rewrite (changed_pmd_at _ _ _ _ _ j H1). apply (mp_entries _ _ _ _ _ H1); [easy|lia].
  - intros j Hj Hl. rewrite <- (changed_pmd_at _ _ _ _ _ j H1) in Hl.
    destruct (mp_large _ _ _ _ _ H2 j Hj Hl) as [L|L]; [|lia].
    rewrite (changed_pmd_at _ _ _ _ _ j H1) in L.
    destruct (mp_large _ _ _ _ _ H1 j Hj L) as [L1|L1]; [now left|lia].
Qed.

Lemma mapped_nothing s lo f : region s -> mapped s s lo lo f.
Proof. apply changed_nothing. Qed.

Lemma mapped_pmd_at s s' lo hi f j :
  mapped s s' lo hi f -> pmd_at (p_mem s') j = pmd_at (p_mem s) j.
Proof. apply changed_pmd_at. Qed.

Lemma mapped_trans s s1 s2 lo mid hi f :
  mapped s s1 lo mid f -> mapped s1 s2 mid hi (f + (mid - lo)) -> lo <= mid <= hi ->
  mapped s s2 lo hi f.
Proof.
  intros H1 H2 Hm. apply (changed_trans _ _ _ _ _ _ _ _ _ H1 H2 Hm); [easy|].
  intros q _. f_equal. lia.
Qed.

Lemma page_size_4k : PAGE_SIZE = 4096.
Proof. unfold PAGE_SIZE. now rewrite tl_page_shift. Qed.
Lemma pmd_size_2m : PMD_SIZE = 2 ^ 21.
Proof. unfold PMD_SIZE. now rewrite tl_pmd_shift. Qed.

(** [need_pte_page] on a chunk that is not a large page. *)
Lemma need_pte_spec s j :
  region s -> 0 <= j < 512 -> pmd_large (rd (p_mem s) (pmd_at (p_mem s) j)) = false ->
  exists ok s', need_pte_page (pmd_at (p_mem s) j) s = Some (ok, s') /\
    region s' /\ rd (p_mem s') pud = rd (p_mem s) pud /\
    (forall q, 0 <= q < 2 ^ 18 -> frame_of (p_mem s') q = frame_of (p_mem s) q) /\
    (forall i, 0 <= i < 512 -> i <> j \/ ok = false ->
       rd (p_mem s') (pmd_at (p_mem s) i) = rd (p_mem s) (pmd_at (p_mem s) i)) /\
    (length (free_pages (p_world s)) <= length (free_pages (p_world s')) + 1)%nat /\
    (if ok : bool then exists t, table_of (p_mem s') j = Some t else free_pages (p_world s) = []).
Proof.
  intros R Hj Hl. unfold need_pte_page, load, bind at 1, gets at 1.
  destruct (pmd_none (rd (p_mem s) (pmd_at (p_mem s) j))) eqn:En.
  2:{ exists true, s. repeat (split; [easy|]). split; [lia|]. unfold table_of. rewrite En, Hl. eauto. }
  unfold alloc_pte_page, alloc_table, bind, pcall_ret.
  destruct (free_pages (p_world s)) as [|r free] eqn:Ef.
  - destruct (zeroed_none s Ef) as (s1 & E & M & F). rewrite E. cbn [Z.eqb ret].
    exists false, (set_p_calls (get_zeroed_page :: p_calls s) s1).
    unfold region in *. cbn [p_mem p_world set_p_calls]. rewrite M, F, <- Ef.
    repeat (split; [easy|]). split; [rewrite Ef; cbn; lia|easy].
  - destruct (zeroed_some s r free Ef) as (s1 & E & F & Mz & Mo). rewrite E.
    unfold region in R. rewrite Ef in R.
    destruct (lay_free _ _ R r ltac:(apply elem_of_cons; now left)) as (R0 & _ & _ & _ & Rp & _).
    destruct (Z.eqb_spec r 0); [easy|]. unfold store, modify. cbn [ret Z.eqb]. rewrite store_entry_insert.
    destruct (store_table_region (p_mem s) (p_mem s1) free j r R Hj En Mz Mo) as (R' & T' & Tj & U & Fr).
    eexists true, _. split; [reflexivity|]. unfold region. cbn [p_mem p_world set_p_mem set_p_calls].
    rewrite F. split; [exact R'|]. split; [|split; [exact Fr|split; [|split]]].
    + rewrite rd_insert_ne; [now apply Mo|]. destruct (lay_top _ _ R) as [_ Pp].
      unfold pmd_at, in_page in *. lia.
    + intros i Hi [N|N]; [now apply U|easy].
    + cbn [length]. lia.
    + now exists r.
Qed.

(** [n] page entries from index [k] of the table of chunk [j] on. *)
Lemma populate_ptes_spec j t prot n : forall k f s a,
  region s -> 0 <= j < 512 -> table_of (p_mem s) j = Some t ->
  0 <= k -> k + Z.of_nat n <= 512 -> 0 <= a -> a + 4096 * Z.of_nat n < 2 ^ 64 ->
  0 <= f -> f + Z.of_nat n <= 2 ^ 40 -> (prot .& _PAGE_PRESENT) = true ->
  exists s', populate_ptes n a (a + 4096 * Z.of_nat n) (t + 8 * k) f prot s = Some (f + Z.of_nat n, s') /\
    region s' /\ p_world s' = p_world s /\ same_upper (p_mem s) (p_mem s') /\
    forall q, 0 <= q < 2 ^ 18 -> frame_of (p_mem s') q =
      if (512 * j + k <=? q) && (q <? 512 * j + k + Z.of_nat n) then Some (f + (q - (512 * j + k)))
      else frame_of (p_mem s) q.
Proof.
  induction n as [|n IH]; intros k f s a R Hj Ht Hk Hn Ha Hb Hf Hg Hp; cbn [populate_ptes].
  - exists s. replace (f + Z.of_nat 0) with f by lia. repeat (split; [easy|]).
    intros q _. destruct (Z.leb_spec (512 * j + k) q), (Z.ltb_spec q (512 * j + k + Z.of_nat 0)); easy || lia.
  - destruct (Z.ltb_spec a (a + 4096 * Z.of_nat (S n))); [|lia].
    unfold bind at 1, store at 1, modify. rewrite store_entry_insert, page_size_4k.
    rewrite !u64_small by (unfold is_u64; lia).
    destruct (store_pte_region (p_mem s) (free_pages (p_world s)) j t k (pfn_pte f prot) R Hj Ht ltac:(lia))
      as (U & Fr). set (m1 := <[_ := _]> (p_mem s)) in *.
    assert (R1 : region (set_p_mem m1 s)) by exact (same_upper_layout _ _ _ U R).
    destruct (pfn_pte_entry f prot ltac:(lia) Hp) as [Pn Pf]. rewrite Pn, Pf in Fr.
    destruct (IH (k + 1) (f + 1) (set_p_mem m1 s) (a + 4096) R1 Hj) as (s' & E & R' & Wd & U' & Fr');
      [cbn; now rewrite (same_upper_table _ _ j U Hj)|lia..|easy|].
    exists s'. replace (a + 4096 * Z.of_nat (S n)) with (a + 4096 + 4096 * Z.of_nat n) by lia.
    replace (t + 8 * k + 8) with (t + 8 * (k + 1)) by lia.
    replace (f + Z.of_nat (S n)) with (f + 1 + Z.of_nat n) by lia. split; [exact E|].
    split; [exact R'|]. split; [exact Wd|]. cbn [p_mem set_p_mem] in *. split.
    + split; [rewrite (proj1 U'); apply U|]. intros i Hi.
      rewrite <- (pmd_at_same _ m1 i (same_upper_top _ _ (proj1 U))), (proj2 U') by easy.
      rewrite (pmd_at_same _ m1 i (same_upper_top _ _ (proj1 U))). now apply U.
    + intros q Hq. rewrite Fr', Fr by easy.
      destruct (Z.leb_spec (512 * j + (k + 1)) q),
        (Z.ltb_spec q (512 * j + (k + 1) + Z.of_nat n)), (Z.leb_spec (512 * j + k) q),
        (Z.ltb_spec q (512 * j + k + Z.of_nat (S n))), (Z.eqb_spec q (512 * j + k));
        cbn [andb]; try lia; try easy; f_equal; lia.
Qed.

(** *** One chunk *)

Lemma chunk_entry b j k : 0 <= j < 512 -> 0 <= k < 512 ->
  let a := 2 ^ 30 * b + 4096 * (512 * j + k) in
  (a / 2 ^ 21) mod 512 = j /\ (a / 2 ^ 12) mod 512 = k.
Proof.
  intros Hj Hk a. unfold a. split.
  - replace (2 ^ 30 * b + 4096 * (512 * j + k)) with (4096 * k + (512 * b + j) * 2 ^ 21) by lia.
    rewrite Z.div_add, Z.div_small, Z.add_0_l by lia.
    replace (512 * b + j) with (j + b * 512) by lia. rewrite Z.mod_add, Z.mod_small; lia.
  - replace (2 ^ 30 * b + 4096 * (512 * j + k)) with ((k + (2 ^ 9 * b + j) * 512) * 2 ^ 12) by lia.
    rewrite Z.div_mul, Z.mod_add, Z.mod_small; lia.
Qed.

Lemma pmd_offset_region m b j k : 0 <= j < 512 -> 0 <= k < 512 ->
  pmd_offset m pud (2 ^ 30 * b + 4096 * (512 * j + k)) = pmd_at m j.
Proof.
  intros Hj Hk. rewrite pmd_offset_at. destruct (chunk_entry b j k Hj Hk) as [E _].
  cbv zeta in E. now rewrite E.
Qed.

(** Where page [q] lies in its chunk, and where the next chunk starts. *)
Lemma chunk_boundary b q : 0 <= b -> 2 ^ 30 * b + 2 ^ 30 < 2 ^ 64 -> 0 <= q < 2 ^ 18 ->
  let start := 2 ^ 30 * b + 4096 * q in
  Z.land start (PMD_SIZE - 1) = 4096 * (q mod 512) /\
  align_down (u64 (start + PMD_SIZE)) PMD_SIZE = start + 4096 * (512 - q mod 512) /\
  0 <= q mod 512 < 512 /\ 0 <= q / 512 < 512 /\ q = 512 * (q / 512) + q mod 512.
Proof.
  intros Hb Hbb Hq start. pose proof (Z.div_mod q 512 ltac:(lia)).
  pose proof (Z.mod_pos_bound q 512 ltac:(lia)).
  assert (Ms : start mod 2 ^ 21 = 4096 * (q mod 512)).
  { symmetry. apply (Z.mod_unique_pos _ _ (512 * b + q / 512)); unfold start; lia. }
  rewrite pmd_size_2m, land_pow2 by lia. rewrite u64_small by (unfold is_u64, start; lia).
  split; [exact Ms|]. split; [|lia]. unfold align_down. rewrite align_pow2 by lia.
  replace (start + 2 ^ 21) with (start + 1 * 2 ^ 21) by lia. rewrite Z.mod_add, Ms by lia. lia.
Qed.

Lemma chunk_spec cpa b j k n prot s :
  region s -> 0 <= j < 512 -> 0 <= k -> 0 < n -> k + n <= 512 ->
  0 <= b -> 2 ^ 30 * b + 2 ^ 30 < 2 ^ 64 ->
  0 <= cpa_pfn cpa -> cpa_pfn cpa + n <= 2 ^ 40 -> (prot .& _PAGE_PRESENT) = true ->
  pmd_large (rd (p_mem s) (pmd_at (p_mem s) j)) = false ->
  let a := 2 ^ 30 * b + 4096 * (512 * j + k) in
  exists ok s1, need_pte_page (pmd_at (p_mem s) j) s = Some (ok, s1) /\
    (length (free_pages (p_world s)) <= length (free_pages (p_world s1)) + 1)%nat /\
    if ok : bool then
      exists s2, populate_pte cpa a (a + 4096 * n) n (pmd_at (p_mem s) j) prot s1 =
          Some (set_cpa_pfn (cpa_pfn cpa + n) cpa, s2) /\
        p_world s2 = p_world s1 /\ mapped s s2 (512 * j + k) (512 * j + k + n) (cpa_pfn cpa)
    else free_pages (p_world s) = [] /\ forall lo f, mapped s s1 lo lo f.
Proof.
  intros R Hj Hk Hn Hkn Hb Hbb Hf Hg Hp Hl a.
  destruct (need_pte_spec s j R Hj Hl) as (ok & s1 & E & R1 & P1 & F1 & U1 & N1 & Ok).
  exists ok, s1. split; [exact E|]. split; [exact N1|]. destruct ok.
  - destruct Ok as [t Ht]. unfold populate_pte, bind at 1, gets at 1.
    assert (T1 : pmd_table (p_mem s1) = pmd_table (p_mem s)) by now apply same_upper_top.
    rewrite <- (pmd_at_same _ _ j T1).
    rewrite pte_offset_at. destruct (chunk_entry b j k Hj ltac:(lia)) as [_ Ek]. fold a in Ek. rewrite Ek.
    assert (Et : pmd_page_vaddr (rd (p_mem s1) (pmd_at (p_mem s1) j)) = t).
    { unfold table_of in Ht. destruct (_ || _); [easy|]. now injection Ht. }
    rewrite Et. unfold pgprot_clear_protnone_bits. rewrite Hp. cbn [negb].
    destruct (populate_ptes_spec j t prot (Z.to_nat n) k (cpa_pfn cpa) s1 a R1 Hj Ht) as
      (s2 & E2 & R2 & W2 & U2 & F2); [lia|lia|unfold a; lia|unfold a; lia|lia|lia|easy|].
    rewrite Z2Nat.id in E2, F2 by lia. unfold bind. rewrite E2. exists s2.
    split; [easy|]. split; [easy|]. split; [easy| | | |].
    + rewrite (proj1 U2). exact P1.
    + intros q Hq. rewrite F2, F1 by easy. easy.
    + intros i Hi Ho. rewrite <- (pmd_at_same _ _ i T1). rewrite (proj2 U2) by easy.
      rewrite (pmd_at_same _ _ i T1). apply U1; [easy|]. left. lia.
    + intros i Hi Hla. left. revert Hla. rewrite <- (pmd_at_same _ _ i T1), (proj2 U2) by easy.
      destruct (decide (i = j)) as [->|N]; [|rewrite (pmd_at_same _ _ i T1), U1; auto].
      unfold table_of in Ht. destruct (pmd_large (rd (p_mem s1) _)); [|easy].
      now rewrite orb_true_r in Ht.
  - split; [easy|]. intros lo f. split; [easy|easy| | |].
    + intros q Hq. rewrite F1 by easy. destruct (Z.leb_spec lo q), (Z.ltb_spec q lo); easy || lia.
    + intros i Hi _. apply U1; [easy|now right].
    + intros i Hi Hla. left. now rewrite U1 in Hla by auto.
Qed.

(** *** Large pages *)

Lemma set_pfn_same c : set_cpa_pfn (cpa_pfn c) c = c.
Proof. now destruct c. Qed.

Lemma need_pmd_spec s : pud_none (rd (p_mem s) pud) = false ->
  need_pmd_page pud s = Some (true, s).
Proof. intros H. unfold need_pmd_page, load, bind, gets. now rewrite H. Qed.

Lemma populate_2m_spec b prot rest c : forall fuel cpa j cur s,
  region s -> pud_none (rd (p_mem s) pud) = false -> (c < fuel)%nat ->
  0 <= j -> j + Z.of_nat c <= 512 -> 0 <= rest < 2 ^ 21 ->
  0 <= b -> 2 ^ 30 * b + 2 ^ 21 * (j + Z.of_nat c) + rest < 2 ^ 64 ->
  0 <= cpa_pfn cpa -> cpa_pfn cpa mod 512 = 0 -> cpa_pfn cpa + 512 * Z.of_nat c <= 2 ^ 40 ->
  (prot .& _PAGE_PRESENT) = true ->
  let a := 2 ^ 30 * b + 2 ^ 21 * j in
  exists s', populate_2m fuel cpa a (a + 2 ^ 21 * Z.of_nat c + rest) cur pud prot s =
      Some ((Some (cur + 512 * Z.of_nat c), a + 2 ^ 21 * Z.of_nat c,
             set_cpa_pfn (cpa_pfn cpa + 512 * Z.of_nat c) cpa), s') /\
    p_world s' = p_world s /\
    mapped s s' (512 * j) (512 * (j + Z.of_nat c)) (cpa_pfn cpa).
Proof.
  induction c as [|c IH]; intros [|fuel] cpa j cur s R Hn Hfu Hj Hc Hr Hb Hbb Hf Hm Hg Hp a;
    try lia; cbn [populate_2m]; rewrite pmd_size_2m.
  - replace (a + 2 ^ 21 * Z.of_nat 0 + rest - a) with rest by lia.
    rewrite u64_small by (unfold is_u64; lia). destruct (Z.leb_spec (2 ^ 21) rest); [lia|].
    exists s. change (Z.of_nat 0) with 0. rewrite !Z.mul_0_r, !Z.add_0_r, set_pfn_same.
    split; [easy|]. split; [easy|]. now apply mapped_nothing.
  - replace (a + 2 ^ 21 * Z.of_nat (S c) + rest - a) with (2 ^ 21 * Z.of_nat (S c) + rest) by lia.
    rewrite u64_small by (unfold is_u64; lia).
    destruct (Z.leb_spec (2 ^ 21) (2 ^ 21 * Z.of_nat (S c) + rest)); [|lia].
    unfold bind at 1. rewrite need_pmd_spec by easy. cbn [negb]. unfold bind at 1, gets at 1.
    unfold bind at 1, store at 1, modify. rewrite store_entry_insert.
    replace (pmd_offset (p_mem s) pud a) with (pmd_at (p_mem s) j).
    2:{ replace a with (2 ^ 30 * b + 4096 * (512 * j + 0)) by (unfold a; lia).
        now rewrite pmd_offset_region by lia. }
    destruct (huge_entry (cpa_pfn cpa) (canon_pgprot prot) ltac:(lia) Hm (canon_present _ Hp))
      as (Hen & Hel & Hef). set (e := pmd_mkhuge _) in *.
    destruct (store_huge_region (p_mem s) (free_pages (p_world s)) j e R ltac:(lia) Hen Hel)
      as (R1 & T1 & U1 & F1). set (m1 := <[_ := e]> (p_mem s)) in *.
    assert (P1 : rd m1 pud = rd (p_mem s) pud).
    { apply rd_insert_ne. destruct (lay_top _ _ R) as [_ Pp]. unfold pmd_at, in_page in *. lia. }
    assert (M1 : mapped s (set_p_mem m1 s) (512 * j) (512 * (j + 1)) (cpa_pfn cpa)).
    { split; [exact R1|exact P1| | |].
      - intros q Hq. cbn [p_mem set_p_mem]. rewrite F1, Hef by easy.
        pose proof (Z.mod_pos_bound q 512 ltac:(lia)). pose proof (Z.div_mod q 512 ltac:(lia)).
        destruct (Z.eqb_spec (q / 512) j), (Z.leb_spec (512 * j) q), (Z.ltb_spec q (512 * (j + 1)));
          cbn [andb]; try lia; try easy. f_equal. lia.
      - intros i Hi Ho. apply U1; [easy|lia].
      - intros i Hi Hla. destruct (decide (i = j)) as [->|N]; [right; lia|left].
        rewrite <- (U1 i Hi N). exact Hla. }
    change (Z.shiftr (2 ^ 21) PAGE_SHIFT) with (Z.shiftr (2 ^ 21) PAGE_SHIFT).
    rewrite tl_page_shift. change (Z.shiftr (2 ^ 21) 12) with 512.
    rewrite !u64_small by (unfold is_u64, a; lia).
    destruct (IH fuel (set_cpa_pfn (cpa_pfn cpa + 512) cpa) (j + 1) (cur + 512) (set_p_mem m1 s))
      as (s' & E & Wd & M); cbn [p_mem set_p_mem cpa_pfn set_cpa_pfn] in *;
      try easy; try lia; [now rewrite P1|rewrite <- Hm; change 512 with (1 * 512) at 1; apply Z.mod_add; lia|].
    exists s'. replace (2 ^ 30 * b + 2 ^ 21 * (j + 1)) with (a + 2 ^ 21) in E by (unfold a; lia).
    replace (a + 2 ^ 21 * Z.of_nat (S c)) with (a + 2 ^ 21 + 2 ^ 21 * Z.of_nat c) by lia.
    replace (cur + 512 * Z.of_nat (S c)) with (cur + 512 + 512 * Z.of_nat c) by lia.
    replace (cpa_pfn cpa + 512 * Z.of_nat (S c)) with (cpa_pfn cpa + 512 + 512 * Z.of_nat c) by lia.
    split; [exact E|]. split; [exact Wd|].
    replace (j + Z.of_nat (S c)) with (j + 1 + Z.of_nat c) by lia.
    apply (mapped_trans s _ s' _ _ _ _ M1); [|lia].
    replace (cpa_pfn cpa + (512 * (j + 1) - 512 * j)) with (cpa_pfn cpa + 512) by lia. exact M.
Qed.

(** *** populate_pmd *)

(** The protections and frames of a request for [n] pages from page [q] of the
    region [b] on. *)
Record request_ok (cpa : cpa_data) (b q n prot : Z) : Prop := {
  ro_region : 0 <= b /\ 2 ^ 30 * b + 2 ^ 30 < 2 ^ 64;
  ro_pages : 0 <= q /\ 0 < n /\ q + n <= 2 ^ 18;
  ro_frames : 0 <= cpa_pfn cpa /\ cpa_pfn cpa + n <= 2 ^ 40;
  ro_aligned : (q - cpa_pfn cpa) mod 512 = 0;
  ro_present : (prot .& _PAGE_PRESENT) = true
}.

Definition small_chunk (s : state) (j : Z) : Prop :=
  pmd_large (rd (p_mem s) (pmd_at (p_mem s) j)) = false.

Lemma head_spec cpa b q n prot s :
  region s -> request_ok cpa b q n prot -> (q mod 512 <> 0 -> small_chunk s (q / 512)) ->
  let start := 2 ^ 30 * b + 4096 * q in
  let h := if q mod 512 =? 0 then 0 else Z.min n (512 - q mod 512) in
  exists r s1, populate_pmd_head cpa start n pud prot s = Some (r, s1) /\
    (length (free_pages (p_world s)) <= length (free_pages (p_world s1)) + 1)%nat /\
    ((r = (Some h, start + 4096 * h, set_cpa_pfn (cpa_pfn cpa + h) cpa) /\
      mapped s s1 q (q + h) (cpa_pfn cpa)) \/
     (r = (None, start, cpa) /\ free_pages (p_world s) = [] /\ mapped s s1 q q (cpa_pfn cpa))).
Proof.
  intros R [[B1 B2] [Q1 [Q2 Q3]] [F1 F2] _ P] Hs start h. unfold populate_pmd_head.
  destruct (chunk_boundary b q B1 B2 ltac:(lia)) as (Ms & Al & Mq & Hj & Dq). fold start in Ms, Al.
  rewrite Ms, tl_page_shift. unfold h. unfold ctrue. destruct (Z.eqb_spec (q mod 512) 0) as [E0|E0].
  - rewrite E0. cbn [Z.mul Z.eqb negb]. eexists _, s. split; [reflexivity|]. split; [lia|]. left.
    rewrite !Z.add_0_r, set_pfn_same. split; [reflexivity|]. now apply mapped_nothing.
  - destruct (Z.eqb_spec (4096 * (q mod 512)) 0); [lia|]. cbn [negb].
    rewrite (Z.shiftl_mul_pow2 n 12) by lia. rewrite u32_small by (unfold is_u32; lia).
    rewrite (u64_small (start + n * 2 ^ 12)) by (unfold is_u64, start; lia).
    rewrite Al. set (k := Z.min n (512 - q mod 512)).
    assert (Ek : Z.min (start + n * 2 ^ 12) (start + 4096 * (512 - q mod 512)) = start + 4096 * k)
      by (unfold k; lia).
    rewrite Ek. replace (start + 4096 * k - start) with (4096 * k) by lia.
    rewrite (u64_small (4096 * k)) by (unfold is_u64, k; lia).
    rewrite (Z.shiftr_div_pow2 _ 12) by lia. replace (4096 * k) with (k * 2 ^ 12) by lia.
    rewrite Z.div_mul by lia. rewrite u32_small by (unfold is_u32, k; lia).
    rewrite (Z.min_r n k) by (unfold k; lia). replace (k * 2 ^ 12) with (4096 * k) by lia.
    unfold bind at 1, gets at 1.
    assert (Es : start = 2 ^ 30 * b + 4096 * (512 * (q / 512) + q mod 512)) by (unfold start; lia).
    rewrite Es. rewrite pmd_offset_region by easy.
    destruct (chunk_spec cpa b (q / 512) (q mod 512) k prot s R Hj) as (ok & s1 & E1 & N1 & H1);
      try easy; try (unfold k; lia); [now apply Hs|].
    unfold bind at 1. rewrite E1. destruct ok.
    + destruct H1 as (s2 & E2 & W2 & M2). cbn [negb]. unfold bind. rewrite E2.
      eexists _, s2. split; [reflexivity|]. rewrite W2. split; [lia|]. left.
      split; [reflexivity|]. rewrite <- Dq in M2. exact M2.
    + eexists _, s1. split; [reflexivity|]. split; [lia|]. right. split; [reflexivity|]. split; apply H1.
Qed.

Lemma rest_spec cpa b q n cur total prot s :
  region s -> request_ok cpa b q n prot -> pud_none (rd (p_mem s) pud) = false ->
  q mod 512 = 0 -> 0 <= cur -> total = cur + n -> total <= 2 ^ 18 ->
  ((q + n) mod 512 <> 0 -> small_chunk s ((q + n) / 512)) ->
  let start := 2 ^ 30 * b + 4096 * q in
  exists r cpa' s1, populate_pmd_rest cpa start (start + 4096 * n) total cur pud prot s = Some ((r, cpa'), s1) /\
    ((r = total /\ cpa_pfn cpa' = cpa_pfn cpa + n /\ mapped s s1 q (q + n) (cpa_pfn cpa)) \/
     (r = -1 /\ free_pages (p_world s) = [] /\
      exists mid, q <= mid <= q + n /\ mapped s s1 q mid (cpa_pfn cpa))).
Proof.
  intros R [[B1 B2] [Q1 [Q2 Q3]] [F1 F2] A P] Hn Hq Hc Et Ht Hs start.
  pose proof (Z.div_mod q 512 ltac:(lia)) as Dq. rewrite Hq, Z.add_0_r in Dq.
  pose proof (Z.div_mod n 512 ltac:(lia)) as Dn. pose proof (Z.mod_pos_bound n 512 ltac:(lia)) as Mn.
  assert (Hd : 0 <= n / 512) by (apply Z.div_pos; lia).
  assert (Hj : 0 <= q / 512) by (apply Z.div_pos; lia).
  assert (Hf : cpa_pfn cpa mod 512 = 0).
  { replace (cpa_pfn cpa) with (q / 512 * 512 - (q - cpa_pfn cpa)) by lia.
    rewrite Zminus_mod, A, Z.mod_mul by lia. reflexivity. }
  unfold populate_pmd_rest. rewrite pmd_size_2m.
  replace (start + 4096 * n - start) with (4096 * n) by lia.
  rewrite u64_small by (unfold is_u64; lia).
  set (c := Z.to_nat (n / 512)).
  assert (Ec : Z.of_nat c = n / 512) by (unfold c; lia).
  assert (Hfu : (c < rounds_between 0 (4096 * n) (2 ^ 21))%nat).
  { unfold rounds_between, c. rewrite Z.sub_0_r.
    replace (4096 * n / 2 ^ 21) with (n / 512); [lia|].
    replace (2 ^ 21) with (4096 * 512) by lia. now rewrite Z.div_mul_cancel_l. }
  destruct (populate_2m_spec b (pgprot_4k_2_large prot) (4096 * (n mod 512)) c
    (rounds_between 0 (4096 * n) (2 ^ 21)) cpa (q / 512) cur s R Hn Hfu Hj) as (s1 & E1 & W1 & M1);
    try lia; [now apply large_present|].
  rewrite Ec in E1, M1.
  replace (2 ^ 30 * b + 2 ^ 21 * (q / 512)) with start in E1 by (unfold start; lia).
  replace (start + 2 ^ 21 * (n / 512) + 4096 * (n mod 512)) with (start + 4096 * n) in E1 by lia.
  unfold bind at 1. rewrite E1. rewrite <- Dq in M1.
  replace (512 * (q / 512 + n / 512)) with (q + 512 * (n / 512)) in M1 by lia.
  destruct (Z.ltb_spec (start + 2 ^ 21 * (n / 512)) (start + 4096 * n)) as [L|L].
  2:{ assert (n mod 512 = 0) by lia. eexists _, _, s1. split; [reflexivity|]. left.
      split; [easy|]. split; [cbn; lia|]. now replace (q + n) with (q + 512 * (n / 512)) by lia. }
  assert (Mr : n mod 512 <> 0) by lia. set (j := q / 512 + n / 512).
  assert (Eqn : q + n = 512 * j + n mod 512) by (unfold j; lia).
  assert (Hj2 : 0 <= j < 512) by lia.
  assert (Sj : small_chunk s1 j).
  { unfold small_chunk. rewrite (mapped_pmd_at _ _ _ _ _ j M1), (mp_entries _ _ _ _ _ M1) by lia.
    replace j with ((q + n) / 512).
    - apply Hs. rewrite Eqn, Z.mul_comm, Z.add_comm, Z.mod_add by lia. now rewrite Z.mod_small.
    - rewrite Eqn, Z.mul_comm, Z.add_comm, Z.div_add, Z.div_small; lia. }
  unfold bind at 1, gets at 1.
  replace (start + 2 ^ 21 * (n / 512)) with (2 ^ 30 * b + 4096 * (512 * j + 0)) by (unfold start, j; lia).
  rewrite pmd_offset_region by lia.
  destruct (chunk_spec (set_cpa_pfn (cpa_pfn cpa + 512 * (n / 512)) cpa) b j 0 (n mod 512) prot s1
    (mp_region _ _ _ _ _ M1) Hj2) as (ok & s2 & E2 & _ & H2); try easy; try (cbn; lia).
  cbn [cpa_pfn set_cpa_pfn] in H2. rewrite Z.add_0_r in *.
  unfold bind at 1. rewrite E2. destruct ok; cbn [negb].
  - destruct H2 as (s3 & E3 & W3 & M3). rewrite u32_small by (unfold is_u32; lia).
    replace (total - (cur + 512 * (n / 512))) with (n mod 512) by lia.
    replace (start + 4096 * n) with (2 ^ 30 * b + 4096 * (512 * j) + 4096 * (n mod 512)) by (unfold start; lia).
    unfold bind. rewrite E3. eexists _, _, s3. split; [reflexivity|]. left. split; [easy|].
    split; [cbn; lia|]. rewrite Eqn.
    apply (mapped_trans s s1 s3 _ _ _ _ M1); [|unfold j; lia].
    replace (cpa_pfn cpa + (q + 512 * (n / 512) - q)) with (cpa_pfn cpa + 512 * (n / 512)) by lia.
    replace (q + 512 * (n / 512)) with (512 * j) by (unfold j; lia). exact M3.
  - destruct H2 as [F M2]. eexists _, _, s2. split; [reflexivity|]. right. split; [easy|].
    split; [now rewrite <- W1|]. exists (q + 512 * (n / 512)). split; [lia|].
    apply (mapped_trans s s1 s2 _ _ _ _ M1); [apply M2|lia].
Qed.
Lemma populate_pmd_spec cpa b q n prot s :
  region s -> request_ok cpa b q n prot -> pud_none (rd (p_mem s) pud) = false ->
  (q mod 512 <> 0 -> small_chunk s (q / 512)) ->
  ((q + n) mod 512 <> 0 -> small_chunk s ((q + n) / 512)) ->
  let start := 2 ^ 30 * b + 4096 * q in
  exists r cpa' s', populate_pmd cpa start (start + 4096 * n) n pud prot s = Some ((r, cpa'), s') /\
    ((r = n /\ cpa_pfn cpa' = cpa_pfn cpa + n /\ mapped s s' q (q + n) (cpa_pfn cpa)) \/
     (r = -1 /\ (length (free_pages (p_world s)) < 2)%nat /\
      exists mid, q <= mid <= q + n /\ mapped s s' q mid (cpa_pfn cpa))).
Proof.
  intros R Q Hn Hh Ht start. pose proof Q as [[B1 B2] [Q1 [Q2 Q3]] [F1 F2] A P].
  unfold populate_pmd, bind at 1.
  destruct (head_spec cpa b q n prot s R Q Hh) as (r1 & s1 & E1 & N1 & H1). fold start in E1, H1.
  rewrite E1. destruct H1 as [[-> M1]|(-> & F & M1)].
  2:{ eexists _, _, s1. split; [reflexivity|]. right. split; [easy|]. split; [rewrite F; cbn; lia|].
      exists q. split; [lia|easy]. }
  pose proof (Z.mod_pos_bound q 512 ltac:(lia)). pose proof (Z.div_mod q 512 ltac:(lia)) as Dq.
  set (h := if q mod 512 =? 0 then 0 else _) in *.
  assert (Hb : 0 <= h <= n) by (unfold h; destruct (_ =? 0); lia).
  destruct (Z.eqb_spec n h) as [E|E].
  { eexists _, _, s1. split; [reflexivity|]. left. cbn [cpa_pfn set_cpa_pfn]. split; [easy|].
    split; [lia|]. rewrite E. exact M1. }
  assert (Hq : (q + h) mod 512 = 0).
  { revert E. unfold h. destruct (Z.eqb_spec (q mod 512) 0) as [E0|E0]; [now rewrite Z.add_0_r|].
    intros E. rewrite Z.min_r by lia. replace (q + (512 - q mod 512)) with ((q / 512 + 1) * 512) by lia.
    apply Z.mod_mul. lia. }
  destruct (rest_spec (set_cpa_pfn (cpa_pfn cpa + h) cpa) b (q + h) (n - h) h n prot s1)
    as (r & cpa' & s2 & E2 & H2); cbn [cpa_pfn set_cpa_pfn] in *; try lia.
  - apply M1.
  - split; cbn [cpa_pfn set_cpa_pfn]; try easy; try lia.
    now replace (q + h - (cpa_pfn cpa + h)) with (q - cpa_pfn cpa) by lia.
  - now rewrite (mp_pud _ _ _ _ _ M1).
  - replace (q + h + (n - h)) with (q + n) by lia. intros Hm. unfold small_chunk.
    assert (q + n <> 2 ^ 18) by (intros X; rewrite X in Hm; now apply Hm).
    assert (Hj : (q + h) / 512 <= (q + n) / 512 < 512)
      by (split; [apply Z.div_le_mono; lia|apply Z.div_lt_upper_bound; lia]).
    pose proof (Z.div_mod (q + h) 512 ltac:(lia)) as Dh. rewrite Hq in Dh.
    rewrite (mapped_pmd_at _ _ _ _ _ _ M1), (mp_entries _ _ _ _ _ M1); [now apply Ht| |lia].
    split; [apply Z.div_pos; lia|lia].
  - replace (2 ^ 30 * b + 4096 * (q + h)) with (start + 4096 * h) in E2 by (unfold start; lia).
    replace (start + 4096 * h + 4096 * (n - h)) with (start + 4096 * n) in E2 by lia.
    rewrite E2. exists r, cpa', s2. split; [easy|].
    destruct H2 as [(-> & Ec & M2)|(-> & F & mid & Hm & M2)]; [left|right].
    + split; [easy|]. split; [lia|]. apply (mapped_trans _ _ _ _ _ _ _ M1); [|lia].
      replace (q + h + (n - h)) with (q + n) in M2 by lia.
      now replace (cpa_pfn cpa + (q + h - q)) with (cpa_pfn cpa + h) by lia.
    + split; [easy|]. split; [rewrite F in N1; cbn in N1; lia|]. exists mid. split; [lia|].
      apply (mapped_trans _ _ _ _ _ _ _ M1); [|lia].
      now replace (cpa_pfn cpa + (q + h - q)) with (cpa_pfn cpa + h) by lia.
Qed.
End Region.

(** ** A kernel with free pages *)

Module PopulateDemo.
Import PageDemo.

(** The kernel of [PageDemo] with its physical memory mapped where Linux maps it. *)
Definition base : Z := 0xffff888000000000.
Definition next_at (m : ptmem) (p i : Z) : Z := base + 4096 * frame (rd m p) + 8 * (i mod 512).

#[export] Instance paging : Paging := {|
  pgtable_l5_enabled := false; pgd_index a := (a / 2 ^ 39) mod 512; init_mm_pgd := base + 0x1000;
  p4d_offset m p a := p;
  pud_offset m p a := next_at m p (a / 2 ^ 30);
  pmd_offset m p a := next_at m p (a / 2 ^ 21);
  pte_offset_kernel m p a := next_at m p (a / 2 ^ 12);
  pgd_none v := v =? 0; pgd_present v := Z.testbit v 0;
  p4d_none v := v =? 0; p4d_present v := Z.testbit v 0; p4d_large v := Z.testbit v 7;
  pud_none v := v =? 0; pud_present v := Z.testbit v 0; pud_large v := Z.testbit v 7;
  pmd_none v := v =? 0; pmd_present v := Z.testbit v 0; pmd_large v := Z.testbit v 7;
  pte_none v := v =? 0; pte_present v := Z.testbit v 0; pte_write v := Z.testbit v 1;
  pte_exec v := nx v =? 0;
  pgd_page_vaddr v := base + 4096 * frame v; p4d_pfn v := frame v;
  store_entry p v m := <[p := v]> m |}.

Lemma direct_paging_ok : PagingOk paging.
Proof.
  split; simpl; try easy. intros m m' p q a H. unfold next_at. now rewrite H.
Qed.

#[export] Instance consts : PageConsts := {|
  _PAGE_PRESENT := 1; _PAGE_RW := 2; _PAGE_NX := 2 ^ 63; _PAGE_PSE := 128; _PAGE_GLOBAL := 256;
  _PAGE_ENC := 0; _PAGE_CACHE_MASK := 0x98; _KERNPG_TABLE := 0x63;
  PAGE_SHIFT := 12; PMD_SHIFT := 21; PUD_SHIFT := 30; PTRS_PER_PTE := 512; PTRS_PER_PMD := 512;
  EINVAL := 22; ENOMEM := 12; EFAULT := 14;
  PAGE_OFFSET := base; START_KERNEL_map := 0xffffffff80000000; phys_base := 0;
  _text := 0xffffffff81000000; _etext := 0xffffffff81c00000; _brk_end := 0xffffffff82a00000;
  __start_rodata := 0xffffffff81e00000; __end_rodata := 0xffffffff82200000;
  __end_rodata_hpage_align := 0xffffffff82200000;
  __pa_symbol a := a - 0xffffffff80000000; __pa a := a - base; __va a := a + base;
  pte_pgprot e := e mod 4096 + nx e * 2 ^ 63; pmd_pgprot e := e mod 4096 + nx e * 2 ^ 63;
  pud_pgprot e := e mod 4096 + nx e * 2 ^ 63;
  pte_pfn e := frame e; pmd_pfn e := frame e / 512 * 512; pud_pfn e := frame e / 2 ^ 18 * 2 ^ 18;
  pfn_pte := entry; pfn_pmd := entry; pfn_pud := entry;
  pmd_mkhuge e := Z.lor e 128; pud_mkhuge e := Z.lor e 128;
  pmd_page_vaddr e := base + 4096 * frame e; pud_page_vaddr e := base + 4096 * frame e;
  pgprot_large_2_4k p := Z.ldiff p 128; pgprot_4k_2_large p := p; canon_pgprot p := p;
  pgprot2cachemode p := Z.land (Z.shiftr p 3) 3; cachemode2pgprot c := Z.shiftl c 3;
  pgprot_encrypted p := p;
  _PAGE_CACHE_MODE_WC := 1; _PAGE_CACHE_MODE_UC_MINUS := 2; _PAGE_CACHE_MODE_WT := 3;
  page_address p := base + 4096 * p; PageHighMem _ := false; page_to_pfn p := p;
  mk_pte p prot := entry p prot; debug_pagealloc_enabled := false |}.

(** The frame behind an address of the mapping. *)
Lemma direct_frame page : direct_map_page page -> page mod 4096 = 0 ->
  (page - base) mod 4096 = 0 /\ base + 4096 * frame (page - base) = page.
Proof.
  unfold direct_map_page. cbn [PAGE_OFFSET consts]. intros Hb Hm.
  assert (E : (page - base) mod 4096 = 0).
  { rewrite Zminus_mod, Hm. reflexivity. }
  split; [exact E|]. unfold frame. pose proof (Z.div_mod (page - base) 4096 ltac:(lia)).
  rewrite Z.mod_small; [lia|]. split; [apply Z.div_pos; lia|apply Z.div_lt_upper_bound; lia].
Qed.

Lemma table_laws : TableLaws consts paging.
Proof.
  assert (Odd : forall prot, (prot .& _PAGE_PRESENT) = true -> prot mod 4096 <> 0).
  { intros prot H E. apply ctrue_true in H. apply H. cbn. change 1 with (Z.ones 1).
    rewrite Z.land_ones by lia. change (2 ^ 1) with 2.
    rewrite (Z.div_mod prot 4096), E by lia.
    replace (4096 * (prot / 4096) + 0) with (2048 * (prot / 4096) * 2) by lia.
    now rewrite Z.mod_mul. }
  assert (Pos : forall f prot, 0 <= f < 2 ^ 40 -> (prot .& _PAGE_PRESENT) = true -> 0 < entry f prot).
  { intros f prot Hf Hp. apply Odd in Hp. unfold entry, nx.
    pose proof (Z.mod_pos_bound prot 4096 ltac:(lia)). rewrite (Z.mod_small f) by easy.
    pose proof (Z.mod_pos_bound (prot / 2 ^ 63) 2 ltac:(lia)). lia. }
  assert (Top : forall x c, 0 <= c < 4096 -> frame (Z.lor x c) = frame x).
  { intros x c Hc. unfold frame. f_equal. change 4096 with (2 ^ 12).
    rewrite <- !Z.shiftr_div_pow2, Z.shiftr_lor by lia.
    rewrite (Z.shiftr_div_pow2 c), (Z.div_small c), Z.lor_0_r by lia. easy. }
  assert (Some_ : forall x c, 0 < c -> (Z.lor x c =? 0) = false).
  { intros x c Hc. apply Z.eqb_neq. intros E. apply Z.lor_eq_0_iff in E. lia. }
  split; try reflexivity; try (split; reflexivity).
  - intros f prot Hf Hp. destruct (entry_parts f prot Hf) as [E _]. split; [|exact E].
    cbn. apply Z.eqb_neq. specialize (Pos f prot Hf Hp). lia.
  - intros f prot Hf Hm Hp. cbv zeta. destruct (entry_parts f prot Hf) as [E _].
    cbn [pmd_mkhuge pfn_pmd consts pmd_none pmd_large paging pmd_pfn].
    split; [now apply Some_|]. split; [rewrite Z.lor_spec; now rewrite orb_true_r|].
    rewrite Top, E by lia. pose proof (Z.div_mod f 512 ltac:(lia)). lia.
  - intros page H0 Hb Hm. cbv zeta. cbn [__pa _KERNPG_TABLE consts pmd_none pmd_large paging pmd_page_vaddr].
    destruct (direct_frame page Hb Hm) as [Em Ef]. split; [now apply Some_|]. split.
    + rewrite Z.lor_spec. rewrite <- (Z.mod_pow2_bits_low (page - base) 12 7) by lia.
      change (2 ^ 12) with 4096. now rewrite Em.
    + rewrite Top by lia. exact Ef.
  - easy.
  - easy.
Qed.

(** The page at [r], cleared. *)
Definition clear_page (r : Z) (m : ptmem) : ptmem := filter (fun e => ~ (r <= e.1 < r + 4096)) m.

Lemma rd_clear r m x : rd (clear_page r m) x = if decide (r <= x < r + 4096) then 0 else rd m x.
Proof.
  unfold rd, clear_page. case_decide as D.
  - rewrite (proj2 (map_lookup_filter_None _ _ _)); [easy|]. right. intros v _ H. now apply H.
  - destruct (m !! x) as [v|] eqn:E.
    + now rewrite (proj2 (map_lookup_filter_Some _ _ _ _) (conj E D)).
    + rewrite (proj2 (map_lookup_filter_None _ _ _)); [easy|now left].
Qed.

Definition answer_pages (c : pcall) (s : pstate (list Z)) : option (Z * pstate (list Z)) :=
  match c, p_world s with
  | get_zeroed_page, r :: l =>
      Some (r, PState (clear_page r (p_mem s)) (direct_pages_count s) (cpa_lock s) (pgd_lock s) l (p_calls s))
  | free_page r, l =>
      Some (0, PState (p_mem s) (direct_pages_count s) (cpa_lock s) (pgd_lock s) (r :: l) (p_calls s))
  | _, _ => Some (0, s)
  end.

#[export] Instance pages_kernel : PageEnv (list Z) := {|
  pext := answer_pages; kernel_set_to_readonly _ := true;
  irqs_disabled _ := false; early_boot_irqs_disabled _ := false; max_pfn_mapped := 0x100000;
  pfn_range_is_mapped _ _ := true; virt_addr_valid _ := true; has_clflush := true;
  has_gbpages := true; cpu_family := 6; x86_clflush_size := 64; tlb_single_page_flush_ceiling := 33;
  supported_pte_mask := 2 ^ 64 - 1; mem_encrypt_active := false; direct_gbpages := true;
  num_cpus_online := 1 |}.

#[export] Instance pages_alloc : PageAlloc pages_kernel.
Proof.
  refine {| free_pages := fun l : list Z => l |}.
  - intros s E. exists s. cbn. unfold answer_pages. now rewrite E.
  - intros s r l E. eexists. cbn. unfold answer_pages. rewrite E. split; [reflexivity|].
    split; [easy|]. cbn [p_mem]. split; intros x Hx; rewrite rd_clear; now case_decide.
Defined.

(** An empty second-level table in frame 3 behind an entry in frame 2; two free pages. *)
Definition pud : Z := base + 0x2000.
Definition empty_region : pstate (list Z) :=
  PState {[pud := 0x3063]} (fun _ => 0) false false [base + 0x10000; base + 0x11000] [].

Lemma empty_layout : region pud empty_region.
Proof.
  assert (T : pmd_table pud (p_mem empty_region) = base + 0x3000) by (vm_compute; reflexivity).
  assert (N : forall j, 0 <= j < 512 -> table_of pud (p_mem empty_region) j = None).
  { intros j Hj. unfold table_of, pmd_at. rewrite T. unfold rd. cbn [p_mem empty_region].
    rewrite lookup_singleton_ne; [easy|]. unfold pud. lia. }
  split; rewrite ?T.
  - split; [easy|]. unfold in_page, pud. lia.
  - intros j t Hj H. now rewrite N in H.
  - intros j t Hj H. now rewrite N in H.
  - intros i j t Hi _ H. now rewrite N in H.
  - intros r Hr. assert (B : r = base + 0x10000 \/ r = base + 0x11000) by
      (cbn [free_pages pages_alloc p_world empty_region] in Hr;
       rewrite !elem_of_cons, elem_of_nil in Hr; destruct Hr as [->|[->|[]]]; auto).
    assert (D : direct_map_page r) by (unfold direct_map_page; cbn [PAGE_OFFSET consts]; lia).
    repeat split; try exact (proj1 D); try exact (proj2 D);
      try (destruct B as [-> | ->]; easy || (unfold in_page, pud, base; lia)).
    intros j Hj. now rewrite N.
  - apply (bool_decide_unpack _). vm_compute. exact I.
  - easy.
Qed.
End PopulateDemo.

(** ** Properties *)

(** C23. Creating mappings inside the 1G region behind a third-level entry that has a
    table: [populate_pmd] maps the [n] pages from page [q] of the region on to
    consecutive frames, with small pages up to the first 2M boundary, large
    pages while whole ones fit and small pages after them, and leaves the
    translation of every other page of the region as it was. It fails only
    when a page table cannot be allocated, which needs fewer than two free
    pages; then a prefix of the range is mapped. The range lies in the region, its
    frames and addresses agree modulo 2M, and no large page is there already where
    it starts or ends inside 2M; tables and free pages are pages of their own in
    the kernel's mapping of physical memory. *)
Theorem populate_pmd_maps (W : Type) (consts : PageConsts) (paging : Paging) (env : PageEnv W)
    (alloc : PageAlloc env) (laws : TableLaws consts paging) (paging_ok : PagingOk paging)
    pud cpa b q n prot (s : pstate W) :
  region pud s -> request_ok cpa b q n prot -> pud_none (rd (p_mem s) pud) = false ->
  (q mod 512 <> 0 -> small_chunk pud s (q / 512)) ->
  ((q + n) mod 512 <> 0 -> small_chunk pud s ((q + n) / 512)) ->
  let start := 2 ^ 30 * b + 4096 * q in
  exists r cpa' s', populate_pmd cpa start (start + 4096 * n) n pud prot s = Some ((r, cpa'), s') /\
    ((r = n /\ cpa_pfn cpa' = cpa_pfn cpa + n /\ mapped pud s s' q (q + n) (cpa_pfn cpa)) \/
     (r = -1 /\ (length (free_pages (p_world s)) < 2)%nat /\
      exists mid, q <= mid <= q + n /\ mapped pud s s' q mid (cpa_pfn cpa))).
Proof. exact (populate_pmd_spec pud cpa b q n prot s). Qed.

(** Pages 510 to 1026 of the region: two small ones, one large one and three small ones. *)
Lemma populate_pmd_maps_witness :
  exists r cpa' s', populate_pmd (consts := PopulateDemo.consts) (paging := PopulateDemo.paging)
      (env := PopulateDemo.pages_kernel) (CpaData [] 0x1000 0 0 517 0 510 0 false false false [])
      (4096 * 510) (4096 * 1027) 517 PopulateDemo.pud 1
      PopulateDemo.empty_region = Some ((r, cpa'), s') /\
    r = 517 /\ frame_of (consts := PopulateDemo.consts) (paging := PopulateDemo.paging)
      PopulateDemo.pud (p_mem s') 1000 = Some 1000.
Proof.
  destruct (populate_pmd_maps (list Z) PopulateDemo.consts PopulateDemo.paging PopulateDemo.pages_kernel
    PopulateDemo.pages_alloc PopulateDemo.table_laws PopulateDemo.direct_paging_ok PopulateDemo.pud
    (CpaData [] 0x1000 0 0 517 0 510 0 false false false []) 0 510 517 1 PopulateDemo.empty_region)
    as (r & cpa' & s' & E & H).
  - exact PopulateDemo.empty_layout.
  - split; cbn; lia || reflexivity.
  - vm_compute. reflexivity.
  - intros _. vm_compute. reflexivity.
  - intros _. vm_compute. reflexivity.
  - exists r, cpa', s'. split; [exact E|]. destruct H as [(-> & _ & M)|(_ & F & _)].
    + split; [reflexivity|]. rewrite (mp_frames _ _ _ _ _ _ M) by lia. reflexivity.
    + cbn in F. lia.
Defined.
