(* ===== verification/UnmapSpec.v ===== *)
(** Theorems on [Populate.v]: what [unmap_pmd_range] of [kernel_modify/pageattr.c]
    does to the translation of the 1G region behind one entry of the third
    level, that it undoes [populate_pmd], and what the two do when memory runs
    out halfway. *)
From Stdlib Require Import ZArith Lia Bool String.
From stdpp Require Import base list gmap.
From S2P Require Import Prelude Paging PageProt Populate PageAttr PageLaws PopulateSpec.

Local Open Scope Z_scope.
Local Open Scope ub_scope.

(** A freed page is free; its contents may change. *)
Class PageFree {W : Type} (env : PageEnv W) (alloc : PageAlloc env) : Prop := {
  page_freed : forall s r, r <> 0 -> r mod 4096 = 0 -> r ∉ free_pages (p_world s) ->
    exists v s', pext (free_page r) s = Some (v, s') /\
      free_pages (p_world s') ≡ₚ r :: free_pages (p_world s) /\
      forall x, ~ in_page r x -> rd (p_mem s') x = rd (p_mem s) x
}.

Section Unmap.
Context {W : Type} {consts : PageConsts} {paging : Paging} {env : PageEnv W}.
Context {alloc : PageAlloc env} {laws : TableLaws consts paging} {free_ok : PageFree env alloc}.
Variable pud : Z.
Abbreviation state := (pstate W).
Abbreviation region := (region pud).
Abbreviation layout := (layout pud).
Abbreviation pmd_table := (pmd_table pud).
Abbreviation pmd_at := (pmd_at pud).
Abbreviation table_of := (table_of pud).
Abbreviation frame_of := (frame_of pud).
Abbreviation changed := (changed pud).

Lemma all_none_spec none m n : forall t,
  all_none none m t n = true <-> forall i, 0 <= i < Z.of_nat n -> none (rd m (t + 8 * i)) = true.
Proof.
  induction n as [|n IH]; intros t; cbn [all_none].
  - split; [intros _ i Hi; lia|easy].
  - rewrite andb_true_iff, IH. split.
    + intros [H0 H] i Hi. destruct (decide (i = 0)) as [->|N]; [now rewrite Z.mul_0_r, Z.add_0_r|].
      replace (t + 8 * i) with (t + 8 + 8 * (i - 1)) by lia. apply H. lia.
    + intros H. split; [rewrite <- (Z.add_0_r t); apply (H 0); lia|]. intros i Hi.
      replace (t + 8 + 8 * i) with (t + 8 * (i + 1)) by lia. apply H. lia.
Qed.

Lemma all_none_false none m n : forall t, all_none none m t n = false ->
  exists i, 0 <= i < Z.of_nat n /\ none (rd m (t + 8 * i)) = false.
Proof.
  induction n as [|n IH]; intros t; cbn [all_none]; [easy|]. intros [H|H]%andb_false_iff.
  - exists 0. rewrite Z.mul_0_r, Z.add_0_r. split; [lia|exact H].
  - destruct (IH _ H) as (i & Hi & E). exists (i + 1). split; [lia|].
    now replace (t + 8 * (i + 1)) with (t + 8 + 8 * i) by lia.
Qed.

(** The free pages after the table of chunk [j] has been given back. *)
Lemma drop_free m free free' j :
  layout m free -> 0 <= j < 512 ->
  free' ≡ₚ match table_of m j with Some t => t :: free | None => free end ->
  (forall r, r ∈ free' -> r <> 0 /\ direct_map_page r /\ r mod 4096 = 0 /\ r <> pmd_table m /\
     ~ in_page r pud /\ forall i, 0 <= i < 512 -> i <> j -> table_of m i <> Some r) /\ NoDup free'.
Proof.
  intros L Hj F. rewrite F. destruct (table_of m j) as [t|] eqn:Ht.
  - destruct (lay_table _ _ _ L j t Hj Ht) as (A & B & C). destruct (lay_valid _ _ _ L j t Hj Ht) as [D E].
    split.
    + intros r Hr. rewrite F in Hr. apply elem_of_cons in Hr as [->|Hr].
      * repeat (split; [easy|]). intros i Hi N X. now apply N, (lay_distinct _ _ _ L i j t).
      * destruct (lay_free _ _ _ L r Hr) as (? & ? & ? & ? & ? & H). repeat (split; [easy|]).
        intros i Hi _. now apply H.
    + apply NoDup_cons. split; [|apply L]. intros X.
      destruct (lay_free _ _ _ L t X) as (_ & _ & _ & _ & _ & H). now apply (H j).
  - split; [|apply L]. intros r Hr. rewrite F in Hr.
    destruct (lay_free _ _ _ L r Hr) as (? & ? & ? & ? & ? & H). repeat (split; [easy|]).
    intros i Hi _. now apply H.
Qed.

(** The entry of chunk [j] is cleared, after the page of its table, if it has one,
    has been given back. *)
Lemma drop_entry_region m m1 free free' j :
  layout m free -> 0 <= j < 512 ->
  (forall x, (forall t, table_of m j = Some t -> ~ in_page t x) -> rd m1 x = rd m x) ->
  free' ≡ₚ match table_of m j with Some t => t :: free | None => free end ->
  let m' := <[pmd_at m j := 0]> m1 in
  layout m' free' /\ rd m' pud = rd m pud /\ rd m' (pmd_at m j) = 0 /\
  (forall i, 0 <= i < 512 -> i <> j -> rd m' (pmd_at m i) = rd m (pmd_at m i)) /\
  forall q, 0 <= q < 2 ^ 18 -> frame_of m' q = if q / 512 =? j then None else frame_of m q.
Proof.
  intros L Hj O F m'. destruct (lay_top _ _ _ L) as [Pm Pp].
  assert (Op : rd m1 pud = rd m pud) by (apply O; intros t Ht; now apply (lay_table _ _ _ L j t)).
  assert (Ou : forall i, 0 <= i < 512 -> rd m1 (pmd_at m i) = rd m (pmd_at m i)).
  { intros i Hi. apply O. intros t Ht. destruct (lay_table _ _ _ L j t Hj Ht) as (Tm & Tn & _).
    now apply not_in_other_page. }
  assert (U : same_upper pud m m1) by now split.
  assert (L1 : layout m1 free) by exact (same_upper_layout _ _ _ _ U L).
  assert (T1 : pmd_table m1 = pmd_table m) by now apply same_upper_top.
  pose proof (store_pmd_upper pud m1 free j 0 L1 Hj) as S.
  rewrite (pmd_at_same _ m m1 j T1) in S. destruct S as (Et & Ej & Ex & Eo).
  fold m' in Et, Ej, Ex, Eo. rewrite T1 in Et.
  assert (P' : rd m' pud = rd m pud).
  { rewrite Ex; [exact Op|]. unfold pmd_at, in_page in *. lia. }
  assert (E' : forall i, 0 <= i < 512 -> i <> j -> rd m' (pmd_at m i) = rd m (pmd_at m i))
    by (intros i Hi N; rewrite Ex by (unfold pmd_at; lia); now apply Ou).
  assert (Tj : table_of m' j = None).
  { unfold table_of. rewrite (pmd_at_same _ m m' j Et), Ej. now rewrite (proj1 pmd_none_zero). }
  assert (Ti : forall i t, 0 <= i < 512 -> table_of m' i = Some t -> i <> j /\ table_of m i = Some t).
  { intros i t Hi H. destruct (decide (i = j)) as [->|N]; [congruence|]. split; [easy|].
    rewrite Eo in H by easy. now rewrite (same_upper_table _ _ _ i U) in H. }
  split; [|split; [easy|split; [easy|split; [easy|]]]].
  - destruct (drop_free m free free' j L Hj F) as [Fr Nd].
    split; rewrite ?Et; try easy.
    + intros i t Hi H. apply Ti in H as [_ H]; [|easy]. now apply (lay_table _ _ _ L i t).
    + intros i t Hi H. apply Ti in H as [_ H]; [|easy]. now apply (lay_valid _ _ _ L i t).
    + intros i k t Hi Hk H1 H2. apply Ti in H1 as [_ H1]; [|easy]. apply Ti in H2 as [_ H2]; [|easy].
      now apply (lay_distinct _ _ _ L i k t).
    + intros r Hr. destruct (Fr r Hr) as (A & B & C & D & G & H). repeat (split; [easy|]).
      intros i Hi X. apply Ti in X as [N X]; [|easy]. now apply (H i).
    + apply (lay_top_valid _ _ _ L).
  - intros q Hq.
    assert (Hi : 0 <= q / 512 < 512) by (split; [apply Z.div_pos; lia|apply Z.div_lt_upper_bound; lia]).
    pose proof (Z.mod_pos_bound q 512 ltac:(lia)) as Hm.
    unfold frame_of. rewrite (pmd_at_same _ m m' _ Et).
    destruct (Z.eqb_spec (q / 512) j) as [->|N]; [now rewrite Ej, (proj1 pmd_none_zero)|].
    rewrite E' by easy. pose proof (lay_table _ _ _ L (q / 512)) as Lq.
    pose proof (lay_distinct _ _ _ L (q / 512) j) as Dq.
    unfold table_of at 1 in Lq. unfold table_of at 1 in Dq.
    set (x := rd m (pmd_at m (q / 512))) in *.
    destruct (pmd_none x); [easy|]. destruct (pmd_large x); [easy|].
    destruct (Lq (pmd_page_vaddr x) Hi eq_refl) as (Tm & Tn & _).
    rewrite Ex by now apply pages_apart. rewrite O; [easy|]. intros t Ht.
    destruct (lay_table _ _ _ L j t Hj Ht) as (Um & _).
    apply not_in_other_page; try easy. intros X. apply N, (Dq t); try easy. now rewrite X.
Qed.
(** *** The pages of the tables *)

(** The tables of the region, and with the page above them. *)
Definition tables_of (m : ptmem) : list Z := omap (table_of m) (seqZ 0 512).
Definition owned (m : ptmem) : list Z := pmd_table m :: tables_of m.

Lemma tables_of_same m m' :
  (forall i, 0 <= i < 512 -> table_of m' i = table_of m i) -> tables_of m' = tables_of m.
Proof.
  intros H. unfold tables_of. assert (F : Forall (fun i => table_of m' i = table_of m i) (seqZ 0 512)).
  { apply Forall_forall. intros i Hi. apply H. apply elem_of_seqZ in Hi. lia. }
  induction F as [|i l E _ IH]; [easy|]. cbn [omap list_omap]. now rewrite E, IH.
Qed.

(** One table less. *)
Lemma tables_of_drop m m' j :
  0 <= j < 512 -> (forall i, 0 <= i < 512 -> i <> j -> table_of m' i = table_of m i) ->
  table_of m' j = None ->
  match table_of m j with Some t => [t] | None => [] end ++ tables_of m' ≡ₚ tables_of m.
Proof.
  intros Hj H Hn. unfold tables_of.
  assert (Ej : j ∈ seqZ 0 512) by (apply elem_of_seqZ; lia).
  pose proof (NoDup_seqZ 0 512) as ND.
  assert (In : forall i, i ∈ seqZ 0 512 -> 0 <= i < 512) by (intros i Hi; apply elem_of_seqZ in Hi; lia).
  apply list_elem_of_split in Ej as (l1 & l2 & E). rewrite E in *.
  apply NoDup_app in ND as (_ & N1 & N2). apply NoDup_cons in N2 as [N2 _].
  assert (Same : forall l : list Z, (forall i, i ∈ l -> i ∈ l1 ++ j :: l2 /\ i <> j) ->
    omap (table_of m') l = omap (table_of m) l).
  { induction l as [|i l IH]; intros Hl; [easy|]. cbn [omap list_omap].
    destruct (Hl i ltac:(now left)) as [I1 I2]. rewrite H by auto. rewrite IH; [easy|].
    intros k Hk. apply Hl. now right. }
  rewrite !omap_app. cbn [omap list_omap]. rewrite Hn.
  rewrite (Same l1), (Same l2).
  - destruct (table_of m j) as [t|]; [|easy]. cbn [app]. apply Permutation_middle.
  - intros i Hi. split; [apply elem_of_app; right; now right|]. intros ->. contradiction.
  - intros i Hi. split; [apply elem_of_app; now left|]. intros ->. apply (N1 j Hi). now left.
Qed.

(** *** The code on the region *)

Context {paging_ok : PagingOk paging}.

(** Pages are neither lost nor made. *)
Definition conserves (s s' : state) : Prop :=
  free_pages (p_world s') ++ tables_of (p_mem s') ≡ₚ free_pages (p_world s) ++ tables_of (p_mem s).

Lemma conserves_trans s s1 s2 : conserves s s1 -> conserves s1 s2 -> conserves s s2.
Proof. unfold conserves. intros H1 H2. now rewrite H2. Qed.

Lemma conserves_upper s s' :
  p_world s' = p_world s -> same_upper pud (p_mem s) (p_mem s') -> conserves s s'.
Proof.
  intros E U. unfold conserves. rewrite E. rewrite (tables_of_same (p_mem s) (p_mem s')); [easy|].
  intros i Hi. now apply same_upper_table.
Qed.

Lemma changed_table s s' lo hi g i : changed s s' lo hi g -> 0 <= i < 512 ->
  512 * (i + 1) <= lo \/ hi <= 512 * i -> table_of (p_mem s') i = table_of (p_mem s) i.
Proof.
  intros C Hi Ho. apply table_of_same; [apply same_upper_top, C|]. now apply (mp_entries _ _ _ _ _ _ C).
Qed.

Definition nothing (q : Z) : option Z := None.

(** A chunk of which pages [lo] to [hi] have a part. *)
Definition touched (lo hi j : Z) : Prop := Z.max lo (512 * j) < Z.min hi (512 * (j + 1)).

#[export] Instance touched_dec lo hi j : Decision (touched lo hi j).
Proof. unfold touched. apply _. Defined.

(** Pages [lo] to [hi] are gone, and with them the tables that they alone had used. *)
Record trimmed (s s' : state) (lo hi : Z) : Prop := {
  tr_changed : changed s s' lo hi nothing;
  tr_pages : conserves s s';
  tr_full : forall j t, 0 <= j < 512 -> touched lo hi j -> table_of (p_mem s') j = Some t ->
    exists k, 0 <= k < 512 /\ frame_of (p_mem s') (512 * j + k) <> None
}.

Lemma trimmed_nothing s lo : region s -> trimmed s s lo lo.
Proof.
  intros R. split; [now apply changed_nothing|unfold conserves; easy|]. unfold touched. lia.
Qed.

Lemma trimmed_trans s s1 s2 lo mid hi :
  trimmed s s1 lo mid -> trimmed s1 s2 mid hi -> lo <= mid <= hi ->
  (mid = hi -> s2 = s1 \/ mid mod 512 = 0) -> trimmed s s2 lo hi.
Proof.
  intros T1 T2 H M. destruct (decide (mid = hi)) as [Em|Nm].
  { destruct (M Em) as [-> |A]; [now rewrite <- Em|].
    revert T1 T2. pose proof (Z.div_mod mid 512 ltac:(lia)) as D. rewrite A, Z.add_0_r in D. subst hi.
    clear M A. generalize dependent (mid / 512). intros x D [C1 P1 F1] [C2 P2 F2]. split.
    - now apply (changed_trans _ _ _ _ _ _ _ _ _ _ C1 C2).
    - exact (conserves_trans _ _ _ P1 P2).
    - intros j t Hj T Ht. rewrite (changed_table _ _ _ _ _ j C2 Hj) in Ht by (unfold touched in *; lia).
      destruct (F1 j t Hj T Ht) as (k & Hk & N). exists k. split; [exact Hk|].
      rewrite (mp_frames _ _ _ _ _ _ C2) by lia.
      now replace ((mid <=? 512 * j + k) && (512 * j + k <? mid)) with false by lia. }
  clear M. destruct T1 as [C1 P1 F1], T2 as [C2 P2 F2]. split.
  - now apply (changed_trans _ _ _ _ _ _ _ _ _ _ C1 C2).
  - exact (conserves_trans _ _ _ P1 P2).
  - intros j t Hj T Ht. destruct (decide (touched mid hi j)) as [T2|T2]; [now apply (F2 j t)|].
    assert (T1 : touched lo mid j) by (unfold touched in *; lia).
    assert (O : 512 * (j + 1) <= mid \/ hi <= 512 * j) by (unfold touched in *; lia).
    rewrite (changed_table _ _ _ _ _ j C2 Hj O) in Ht.
    destruct (F1 j t Hj T1 Ht) as (k & Hk & N). exists k. split; [exact Hk|].
    rewrite (mp_frames _ _ _ _ _ _ C2) by lia.
    now replace ((mid <=? 512 * j + k) && (512 * j + k <? hi)) with false by lia.
Qed.

(** [n] page entries from index [k] of the table of chunk [j] on. *)
Lemma clear_ptes_spec j t n : forall fuel k s a,
  region s -> 0 <= j < 512 -> table_of (p_mem s) j = Some t -> (n < fuel)%nat ->
  0 <= k -> k + Z.of_nat n <= 512 -> 0 <= a -> a + 4096 * Z.of_nat n < 2 ^ 64 ->
  exists s', clear_ptes fuel (t + 8 * k) a (a + 4096 * Z.of_nat n) s = Some (tt, s') /\
    p_world s' = p_world s /\ same_upper pud (p_mem s) (p_mem s') /\
    changed s s' (512 * j + k) (512 * j + k + Z.of_nat n) nothing.
Proof.
  induction n as [|n IH]; intros [|fuel] k s a R Hj Ht Hf Hk Hn Ha Hb; try lia; cbn [clear_ptes].
  - replace (a + 4096 * Z.of_nat 0) with a by lia. destruct (Z.ltb_spec a a); [lia|].
    exists s. repeat (split; [easy|]). replace (512 * j + k + Z.of_nat 0) with (512 * j + k) by lia.
    now apply changed_nothing.
  - destruct (Z.ltb_spec a (a + 4096 * Z.of_nat (S n))); [|lia].
    unfold bind at 1, store at 1, modify. rewrite store_entry_insert, page_size_4k.
    rewrite !u64_small by (unfold is_u64; lia).
    destruct (store_pte_region pud (p_mem s) (free_pages (p_world s)) j t k 0 R Hj Ht ltac:(lia))
      as (U & Fr). set (m1 := <[_ := _]> (p_mem s)) in *. rewrite pte_none_zero in Fr.
    assert (R1 : region (set_p_mem m1 s)) by exact (same_upper_layout _ _ _ _ U R).
    assert (C1 : changed s (set_p_mem m1 s) (512 * j + k) (512 * j + k + 1) nothing).
    { split; [exact R1|apply U| | |].
      - intros q Hq. cbn [p_mem set_p_mem]. rewrite Fr by easy. unfold nothing.
        destruct (Z.leb_spec (512 * j + k) q), (Z.ltb_spec q (512 * j + k + 1)),
          (Z.eqb_spec q (512 * j + k)); cbn [andb]; easy || lia.
      - intros i Hi _. now apply U.
      - intros i Hi Hl. left. rewrite <- (proj2 U i Hi). exact Hl. }
    destruct (IH fuel (k + 1) (set_p_mem m1 s) (a + 4096) R1 Hj) as (s' & E & Wd & U' & C');
      [cbn; now rewrite (same_upper_table _ _ _ j U Hj)|lia..|].
    exists s'. replace (a + 4096 * Z.of_nat (S n)) with (a + 4096 + 4096 * Z.of_nat n) by lia.
    replace (t + 8 * k + 8) with (t + 8 * (k + 1)) by lia. split; [exact E|]. split; [exact Wd|].
    cbn [p_mem set_p_mem] in U'. split.
    + pose proof (same_upper_top _ _ _ (proj1 U)) as T.
      split; [rewrite (proj1 U'); apply U|]. intros i Hi.
      rewrite <- (pmd_at_same _ _ m1 i T), (proj2 U') by easy.
      rewrite (pmd_at_same _ _ m1 i T). now apply U.
    + replace (512 * j + k + Z.of_nat (S n)) with (512 * j + (k + 1) + Z.of_nat n) by lia.
      replace (512 * j + k + 1) with (512 * j + (k + 1)) in C1 by lia.
      apply (changed_trans _ _ _ _ _ _ _ _ _ _ C1 C'); easy || lia.
Qed.

(** The common shape of [try_to_free_pte_page] and [try_to_free_pmd_page]. *)
Lemma free_if_empty none t s :
  t <> 0 -> t mod 4096 = 0 -> t ∉ free_pages (p_world s) ->
  exists freed s',
    (let* m := gets p_mem in
     if all_none none m t (Z.to_nat 512) then pcall_ (free_page t) ;; ret true else ret false) s =
      Some (freed, s') /\
    if freed : bool then
      (forall i, 0 <= i < 512 -> none (rd (p_mem s) (t + 8 * i)) = true) /\
      free_pages (p_world s') ≡ₚ t :: free_pages (p_world s) /\
      forall x, ~ in_page t x -> rd (p_mem s') x = rd (p_mem s) x
    else s' = s /\ exists i, 0 <= i < 512 /\ none (rd (p_mem s) (t + 8 * i)) = false.
Proof.
  intros N A F. unfold bind at 1, gets. destruct (all_none none (p_mem s) t (Z.to_nat 512)) eqn:E.
  - destruct (page_freed s t N A F) as (v & s' & X & Fp & O).
    unfold bind, pcall_, pcall_ret. unfold bind. rewrite X. eexists true, _. split; [reflexivity|].
    split; [|now split]. exact (proj1 (all_none_spec _ _ _ _) E).
  - exists false, s. split; [reflexivity|]. split; [reflexivity|]. exact (all_none_false _ _ _ _ E).
Qed.

(** *** One chunk *)

Lemma table_of_entry m j t : table_of m j = Some t -> pmd_page_vaddr (rd m (pmd_at m j)) = t.
Proof. unfold table_of. destruct (_ || _); [easy|]. now intros [= ->]. Qed.

Lemma table_not_free s j t : region s -> 0 <= j < 512 -> table_of (p_mem s) j = Some t ->
  t ∉ free_pages (p_world s).
Proof.
  intros R Hj Ht X. destruct (lay_free _ _ _ R t X) as (_ & _ & _ & _ & _ & H). now apply (H j).
Qed.

(** After pages [lo] to [hi] of chunk [j], a table left without entries is given back
    and the entry of the chunk cleared. *)
Lemma drop_table_spec s0 s s1 j t lo hi :
  changed s0 s lo hi nothing -> 512 * j <= lo -> lo < hi -> hi <= 512 * (j + 1) ->
  0 <= j < 512 -> table_of (p_mem s) j = Some t ->
  (forall i, 0 <= i < 512 -> pte_none (rd (p_mem s) (t + 8 * i)) = true) ->
  free_pages (p_world s1) ≡ₚ t :: free_pages (p_world s) ->
  (forall x, ~ in_page t x -> rd (p_mem s1) x = rd (p_mem s) x) ->
  changed s0 (set_p_mem (<[pmd_at (p_mem s) j := 0]> (p_mem s1)) s1) lo hi nothing.
Proof.
  intros C H1 H2 H3 Hj Ht Hn F O.
  destruct (drop_entry_region (p_mem s) (p_mem s1) (free_pages (p_world s)) (free_pages (p_world s1)) j
    (mp_region _ _ _ _ _ _ C) Hj) as (L' & P' & Ej & Eo & Fr);
    [intros x H; now apply O, H|now rewrite Ht|].
  assert (A : forall i, pmd_at (p_mem s) i = pmd_at (p_mem s0) i)
    by (intros i; apply (changed_pmd_at _ _ _ _ _ _ _ C)).
  split; cbn [p_mem set_p_mem].
  - exact L'.
  - rewrite P'. apply C.
  - intros q Hq. rewrite Fr by easy. rewrite <- (mp_frames _ _ _ _ _ _ C q Hq).
    destruct (Z.eqb_spec (q / 512) j) as [E|]; [|easy]. unfold frame_of. rewrite E.
    pose proof (table_of_entry _ _ _ Ht) as Et. unfold table_of in Ht.
    destruct (pmd_none _); [easy|]. destruct (pmd_large _); [easy|].
    rewrite Et, Hn; [easy|]. apply Z.mod_pos_bound. lia.
  - intros i Hi Ho. rewrite <- A, Eo by (easy || lia). rewrite A.
    now apply (mp_entries _ _ _ _ _ _ C).
  - intros i Hi Hl. rewrite <- A in Hl. destruct (decide (i = j)) as [->|N].
    + rewrite Ej in Hl. now rewrite (proj2 pmd_none_zero) in Hl.
    + rewrite Eo, A in Hl by easy. now apply (mp_large _ _ _ _ _ _ C).
Qed.

(** A table with an entry maps a page. *)
Lemma table_entry_mapped m j t k : table_of m j = Some t -> 0 <= k < 512 ->
  pte_none (rd m (t + 8 * k)) = false -> frame_of m (512 * j + k) <> None.
Proof.
  intros Ht Hk N. pose proof (table_of_entry _ _ _ Ht) as Et. unfold table_of in Ht. unfold frame_of.
  replace (512 * j + k) with (k + j * 512) by lia.
  rewrite Z.div_add, (Z.div_small k), Z.add_0_l, Z.mod_add, (Z.mod_small k) by lia.
  destruct (pmd_none _); [easy|]. destruct (pmd_large _); [easy|]. now rewrite Et, N.
Qed.

Lemma unmap_pte_range_spec b j k n t s :
  region s -> 0 <= j < 512 -> table_of (p_mem s) j = Some t -> 0 <= k -> 0 < n -> k + n <= 512 ->
  0 <= b -> 2 ^ 30 * b + 2 ^ 30 < 2 ^ 64 ->
  let a := 2 ^ 30 * b + 4096 * (512 * j + k) in
  exists freed s', unmap_pte_range (pmd_at (p_mem s) j) a (a + 4096 * n) s = Some (freed, s') /\
    trimmed s s' (512 * j + k) (512 * j + k + n) /\
    (freed = false -> table_of (p_mem s') j = Some t).
Proof.
  intros R Hj Ht Hk Hn Hkn Hb Hbb a. unfold unmap_pte_range, bind at 1, gets at 1.
  rewrite pte_offset_at, (table_of_entry _ _ _ Ht).
  destruct (chunk_entry b j k Hj ltac:(lia)) as [_ Ek]. fold a in Ek. rewrite Ek.
  destruct (clear_ptes_spec j t (Z.to_nat n) (rounds_between a (a + 4096 * n) PAGE_SIZE) k s a R Hj Ht)
    as (s1 & E1 & W1 & U1 & C1); try (unfold a; lia).
  { unfold rounds_between. rewrite page_size_4k. replace (a + 4096 * n - a) with (n * 4096) by lia.
    rewrite Z.div_mul by lia. lia. }
  rewrite Z2Nat.id in E1, C1 by lia. unfold bind at 1. rewrite E1.
  unfold bind at 1, load, gets at 1. rewrite (proj2 U1 j Hj), (table_of_entry _ _ _ Ht).
  assert (Ht1 : table_of (p_mem s1) j = Some t) by now rewrite (same_upper_table _ _ _ j U1 Hj).
  assert (R1 : region s1) by apply C1.
  destruct (lay_table _ _ _ R j t Hj Ht) as (Tm & _). destruct (lay_valid _ _ _ R j t Hj Ht) as [T0 _].
  destruct (free_if_empty pte_none t s1 T0 Tm (table_not_free _ _ _ R1 Hj Ht1)) as (freed & s2 & E2 & H2).
  unfold try_to_free_pte_page, bind at 1. rewrite (proj1 tl_ptrs), E2. destruct freed.
  - destruct H2 as (Hz & Hf & Ho). unfold store, modify, bind. rewrite store_entry_insert.
    eexists true, _. split; [reflexivity|]. split; [|easy].
    rewrite <- (changed_pmd_at _ _ _ _ _ _ j C1).
    pose proof (drop_table_spec s s1 s2 j t _ _ C1 ltac:(lia) ltac:(lia) ltac:(lia) Hj Ht1 Hz Hf Ho) as C2.
    set (s3 := set_p_mem _ s2) in *.
    assert (T3 : table_of (p_mem s3) j = None).
    { unfold table_of. rewrite (changed_pmd_at _ _ _ _ _ _ j C2), <- (changed_pmd_at _ _ _ _ _ _ j C1).
      cbn [s3 p_mem set_p_mem]. rewrite rd_insert_eq. now rewrite (proj1 pmd_none_zero). }
    assert (D : t :: tables_of (p_mem s3) ≡ₚ tables_of (p_mem s1)).
    { pose proof (tables_of_drop (p_mem s1) (p_mem s3) j Hj) as D. rewrite Ht1 in D. apply D; [|exact T3].
      intros i Hi N. rewrite (changed_table _ _ _ _ _ i C2 Hi), (changed_table _ _ _ _ _ i C1 Hi) by lia. easy. }
    split; [exact C2| |].
    + apply (conserves_trans s s1); [now apply conserves_upper|]. unfold conserves.
      cbn [s3 p_world set_p_mem]. rewrite Hf, <- D. cbn [app]. apply Permutation_middle.
    + intros i u Hi T Hu. assert (i = j) as -> by (unfold touched in T; lia). congruence.
  - destruct H2 as [-> (i & Hi & Ni)]. exists false, s1. split; [reflexivity|]. split; [|easy].
    split; [exact C1|now apply conserves_upper|].
    intros i' u Hi' T _. assert (i' = j) as -> by (unfold touched in T; lia).
    exists i. split; [exact Hi|]. now apply (table_entry_mapped _ j t).
Qed.

(** The region was empty but for pages [lo] to [hi]: its entry is cleared, and all its
    tables are free pages again. *)
Record gone (s s' : state) (lo hi : Z) : Prop := {
  gn_entry : pud_none (rd (p_mem s') pud) = true;
  gn_frames : forall q, 0 <= q < 2 ^ 18 -> ~ lo <= q < hi -> frame_of (p_mem s) q = None;
  gn_pages : free_pages (p_world s') ≡ₚ free_pages (p_world s) ++ owned (p_mem s)
}.

(** Either the region lives on without pages [lo] to [hi], or it is gone. *)
Definition cleared (s s' : state) (lo hi : Z) : Prop := trimmed s s' lo hi \/ gone s s' lo hi.

(** The table of the region has an entry. *)
Definition alive (m : ptmem) : Prop :=
  exists j, 0 <= j < 512 /\ pmd_none (rd m (pmd_at m j)) = false.
Definition settled (m : ptmem) : Prop := alive m \/ pud_none (rd m pud) = true.

Lemma cleared_after s s1 s2 lo mid hi :
  trimmed s s1 lo mid -> cleared s1 s2 mid hi -> lo <= mid <= hi ->
  (mid = hi -> s2 = s1 \/ mid mod 512 = 0) -> cleared s s2 lo hi.
Proof.
  intros C [C2|[G F P]] H M; [left; now apply (trimmed_trans _ s1 _ _ mid)|right]. clear M.
  split; [exact G| |].
  - intros q Hq N. rewrite <- (F q Hq) by lia.
    rewrite (mp_frames _ _ _ _ _ _ (tr_changed _ _ _ _ C) q Hq).
    now replace ((lo <=? q) && (q <? mid)) with false by lia.
  - rewrite P. unfold owned. rewrite (same_upper_top _ _ _ (mp_pud _ _ _ _ _ _ (tr_changed _ _ _ _ C))).
    rewrite <- !Permutation_middle. constructor. apply (tr_pages _ _ _ _ C).
Qed.

Lemma gone_after s s1 s2 lo hi : trimmed s s1 lo hi -> (forall lo, gone s1 s2 lo lo) -> cleared s s2 lo hi.
Proof.
  intros T G. pose proof (tr_changed _ _ _ _ T) as C. right. destruct (G 0) as [G1 G2 G3]. split; [exact G1| |].
  - intros q Hq N. rewrite <- (G2 q Hq), (mp_frames _ _ _ _ _ _ C q Hq) by lia.
    now replace ((lo <=? q) && (q <? hi)) with false by lia.
  - rewrite G3. unfold owned. rewrite (same_upper_top _ _ _ (mp_pud _ _ _ _ _ _ C)).
    rewrite <- !Permutation_middle. constructor. apply (tr_pages _ _ _ _ T).
Qed.

Lemma free_pmd_spec s : region s -> exists s', free_pmd_of pud s = Some (tt, s') /\
  ((s' = s /\ alive (p_mem s)) \/ forall lo, gone s s' lo lo).
Proof.
  intros R. destruct (lay_top _ _ _ R) as [Tm Tp].
  destruct (free_if_empty pmd_none (pmd_table (p_mem s)) s (lay_top_valid _ _ _ R) Tm)
    as (freed & s1 & E & H).
  { intros X. destruct (lay_free _ _ _ R _ X) as (_ & _ & _ & N & _). now apply N. }
  unfold free_pmd_of, load, bind at 1, gets at 1, try_to_free_pmd_page, bind at 1.
  rewrite (proj2 tl_ptrs). fold (pmd_table (p_mem s)). rewrite E. destruct freed.
  - unfold store, modify. rewrite store_entry_insert. eexists. split; [reflexivity|]. right.
    destruct H as (Hz & Hf & _). intros lo.
    assert (T : tables_of (p_mem s) = []).
    { unfold tables_of. assert (Z0 : Forall (fun i => table_of (p_mem s) i = None) (seqZ 0 512)).
      { apply Forall_forall. intros i Hi. apply elem_of_seqZ in Hi. unfold table_of, pmd_at.
        now rewrite Hz by lia. }
      induction Z0 as [|i l Ei _ IH]; [easy|]. cbn [omap list_omap]. now rewrite Ei. }
    split.
    + cbn [p_mem set_p_mem]. rewrite rd_insert_eq. exact pud_none_zero.
    + intros q Hq _. unfold frame_of, pmd_at. rewrite Hz; [easy|].
      split; [apply Z.div_pos; lia|apply Z.div_lt_upper_bound; lia].
    + cbn [p_world set_p_mem]. unfold owned. rewrite T, Hf. apply Permutation_cons_append.
  - destruct H as [-> H]. exists s. split; [reflexivity|]. left. now split.
Qed.

Lemma unmap_chunk_spec b j k n t s :
  region s -> 0 <= j < 512 -> table_of (p_mem s) j = Some t -> 0 <= k -> 0 < n -> k + n <= 512 ->
  0 <= b -> 2 ^ 30 * b + 2 ^ 30 < 2 ^ 64 ->
  let a := 2 ^ 30 * b + 4096 * (512 * j + k) in
  exists s', __unmap_pmd_range pud (pmd_at (p_mem s) j) a (a + 4096 * n) s = Some (tt, s') /\
    cleared s s' (512 * j + k) (512 * j + k + n) /\ settled (p_mem s').
Proof.
  intros R Hj Ht Hk Hn Hkn Hb Hbb a.
  destruct (unmap_pte_range_spec b j k n t s R Hj Ht Hk Hn Hkn Hb Hbb) as (freed & s1 & E & C & T).
  fold a in E. unfold __unmap_pmd_range, bind. rewrite E. destruct freed.
  - destruct (free_pmd_spec s1 (mp_region _ _ _ _ _ _ (tr_changed _ _ _ _ C))) as (s2 & E2 & H2). exists s2.
    split; [exact E2|]. split.
    + destruct H2 as [[-> _]|G]; [now left|]. now apply (gone_after s s1).
    + destruct H2 as [[-> A]|G]; [now left|right; apply (G 0)].
  - exists s1. split; [reflexivity|]. split; [now left|]. left. exists j. split; [exact Hj|].
    specialize (T eq_refl). unfold table_of in T. now destruct (pmd_none _).
Qed.
(** *** Whole chunks *)

Lemma changed_small s s' lo hi g j : changed s s' lo hi g -> 0 <= j < 512 ->
  small_chunk pud s j -> 512 * j < lo \/ hi < 512 * (j + 1) -> small_chunk pud s' j.
Proof.
  unfold small_chunk. intros C Hj S O. rewrite (changed_pmd_at _ _ _ _ _ _ _ C).
  destruct (pmd_large (rd (p_mem s') _)) eqn:E; [|easy].
  apply (mp_large _ _ _ _ _ _ C j Hj) in E as [E|E]; [congruence|lia].
Qed.

Definition all_mapped (m : ptmem) (lo hi : Z) : Prop :=
  forall q, lo <= q < hi -> frame_of m q <> None.

Lemma mapped_chunk m j k : 0 <= k < 512 -> frame_of m (512 * j + k) <> None ->
  pmd_large (rd m (pmd_at m j)) = false -> exists t, table_of m j = Some t.
Proof.
  intros Hk. unfold frame_of, table_of. replace (512 * j + k) with (k + j * 512) by lia.
  rewrite Z.div_add, (Z.div_small k), Z.add_0_l by lia. intros H L. rewrite L in *.
  destruct (pmd_none _); [easy|]. eauto.
Qed.

Lemma changed_mapped s s1 lo mid hi g :
  changed s s1 lo mid g -> all_mapped (p_mem s) mid hi -> 0 <= mid -> hi <= 2 ^ 18 ->
  all_mapped (p_mem s1) mid hi.
Proof.
  intros C A Hm Hh q Hq. rewrite (mp_frames _ _ _ _ _ _ C) by lia.
  replace ((lo <=? q) && (q <? mid)) with false by lia. now apply A.
Qed.

(** Once the region is gone, nothing was left to do. *)
Lemma gone_last (s : state) lo mid hi :
  (forall q, 0 <= q < 2 ^ 18 -> ~ lo <= q < mid -> frame_of (p_mem s) q = None) ->
  all_mapped (p_mem s) mid hi -> 0 <= mid -> hi <= 2 ^ 18 -> hi <= mid.
Proof.
  intros F A Hm Hh. destruct (Z.le_gt_cases hi mid) as [|G]; [easy|].
  exfalso. apply (A mid ltac:(lia)), F; lia.
Qed.

Lemma clear_large_spec s j :
  region s -> 0 <= j < 512 -> pmd_large (rd (p_mem s) (pmd_at (p_mem s) j)) = true ->
  trimmed s (set_p_mem (<[pmd_at (p_mem s) j := 0]> (p_mem s)) s) (512 * j) (512 * j + 512).
Proof.
  intros R Hj Hl.
  assert (Ht : table_of (p_mem s) j = None) by (unfold table_of; now rewrite Hl, orb_true_r).
  destruct (drop_entry_region (p_mem s) (p_mem s) (free_pages (p_world s)) (free_pages (p_world s)) j R Hj)
    as (L' & P' & Ej & Eo & Fr); [easy|now rewrite Ht|].
  assert (C : changed s (set_p_mem (<[pmd_at (p_mem s) j := 0]> (p_mem s)) s) (512 * j) (512 * j + 512) nothing).
  {split; cbn [p_mem set_p_mem]; [exact L'|exact P'| | |].
    - intros q Hq. rewrite Fr by easy. pose proof (Z.div_mod q 512 ltac:(lia)).
      pose proof (Z.mod_pos_bound q 512 ltac:(lia)). unfold nothing.
      destruct (Z.eqb_spec (q / 512) j), (Z.leb_spec (512 * j) q), (Z.ltb_spec q (512 * j + 512));
        cbn [andb]; lia || reflexivity.
    - intros i Hi Ho. apply Eo; [easy|lia].
    - intros i Hi X. destruct (decide (i = j)) as [->|N]; [right; lia|left]. now rewrite <- Eo. }
  assert (Tj : table_of (p_mem (set_p_mem (<[pmd_at (p_mem s) j := 0]> (p_mem s)) s)) j = None).
  { unfold table_of. rewrite (changed_pmd_at _ _ _ _ _ _ j C). cbn [p_mem set_p_mem]. rewrite rd_insert_eq.
    now rewrite (proj1 pmd_none_zero). }
  split; [exact C| |].
  - unfold conserves. rewrite (tables_of_same (p_mem s)); [easy|]. intros i Hi.
    destruct (decide (i = j)) as [->|N]; [congruence|]. apply (changed_table _ _ _ _ _ i C); lia.
  - intros i u Hi T Hu. assert (i = j) as -> by (unfold touched in T; lia). congruence.
Qed.

(** One iteration, on a chunk all of whose pages are mapped. *)
Lemma unmap_whole_chunk b j s :
  region s -> 0 <= j < 512 -> all_mapped (p_mem s) (512 * j) (512 * j + 512) ->
  0 <= b -> 2 ^ 30 * b + 2 ^ 30 < 2 ^ 64 ->
  let a := 2 ^ 30 * b + 2 ^ 21 * j in
  exists s', (if pmd_large (rd (p_mem s) (pmd_at (p_mem s) j)) then store (pmd_at (p_mem s) j) 0
    else __unmap_pmd_range pud (pmd_at (p_mem s) j) a (u64 (a + 2 ^ 21))) s = Some (tt, s') /\
    cleared s s' (512 * j) (512 * j + 512).
Proof.
  intros R Hj A Hb Hbb a. destruct (pmd_large (rd (p_mem s) (pmd_at (p_mem s) j))) eqn:El.
  - unfold store, modify. rewrite store_entry_insert. eexists. split; [reflexivity|]. left.
    now apply clear_large_spec.
  - destruct (mapped_chunk (p_mem s) j 0 ltac:(lia)) as [t Ht]; [apply A; lia|exact El|].
    rewrite u64_small by (unfold is_u64, a; lia).
    destruct (unmap_chunk_spec b j 0 512 t s R Hj Ht) as (s1 & E & H1 & _); try lia.
    rewrite Z.add_0_r in *. replace (4096 * (512 * j)) with (2 ^ 21 * j) in E by lia.
    exists s1. split; [exact E|exact H1].
Qed.

Lemma no_chunk_left fuel a pmd rest (s : state) : 0 <= rest < 512 ->
  unmap_pmd_chunks (S fuel) pud pmd a (a + 4096 * rest) s = Some ((a, pmd), s).
Proof.
  intros Hr. cbn [unmap_pmd_chunks]. rewrite pmd_size_2m.
  replace (a + 4096 * rest - a) with (4096 * rest) by lia.
  rewrite u64_small by (unfold is_u64; lia). destruct (Z.leb_spec (2 ^ 21) (4096 * rest)); [lia|easy].
Qed.

Lemma unmap_pmd_chunks_spec b rest c : forall fuel j s,
  region s -> (c < fuel)%nat -> 0 <= j -> 0 <= rest < 512 ->
  512 * (j + Z.of_nat c) + rest <= 2 ^ 18 -> 0 <= b -> 2 ^ 30 * b + 2 ^ 30 < 2 ^ 64 ->
  all_mapped (p_mem s) (512 * j) (512 * (j + Z.of_nat c) + rest) ->
  let a := 2 ^ 30 * b + 2 ^ 21 * j in
  exists s', unmap_pmd_chunks fuel pud (pmd_at (p_mem s) j) a (a + 2 ^ 21 * Z.of_nat c + 4096 * rest) s =
      Some ((a + 2 ^ 21 * Z.of_nat c, pmd_at (p_mem s) j + 8 * Z.of_nat c), s') /\
    cleared s s' (512 * j) (512 * (j + Z.of_nat c)).
Proof.
  induction c as [|c IH]; intros [|fuel] j s R Hf Hj Hr Hh Hb Hbb A a; try lia.
  - change (Z.of_nat 0) with 0. rewrite !Z.mul_0_r, !Z.add_0_r, no_chunk_left by easy.
    exists s. split; [reflexivity|]. left. now apply trimmed_nothing.
  - destruct (unmap_whole_chunk b j s R ltac:(lia)) as (s1 & E1 & C1); try easy.
    { intros q Hq. apply A. lia. }
    assert (M1 : all_mapped (p_mem s) (512 * j + 512) (512 * (j + Z.of_nat (S c)) + rest))
      by (intros q Hq; apply A; lia).
    fold a in E1. cbn [unmap_pmd_chunks]. rewrite pmd_size_2m.
    replace (a + 2 ^ 21 * Z.of_nat (S c) + 4096 * rest) with (a + 2 ^ 21 + 2 ^ 21 * Z.of_nat c + 4096 * rest) by lia.
    rewrite (u64_small (_ - a)) by (unfold is_u64; lia).
    destruct (Z.leb_spec (2 ^ 21) (a + 2 ^ 21 + 2 ^ 21 * Z.of_nat c + 4096 * rest - a)); [|lia].
    unfold bind at 1, load, gets at 1. unfold bind at 1. rewrite E1.
    rewrite (u64_small (a + 2 ^ 21)) by (unfold is_u64, a; lia).
    replace (a + 2 ^ 21 * Z.of_nat (S c)) with (a + 2 ^ 21 + 2 ^ 21 * Z.of_nat c) by lia.
    replace (pmd_at (p_mem s) j + 8 * Z.of_nat (S c)) with (pmd_at (p_mem s) j + 8 + 8 * Z.of_nat c) by lia.
    destruct C1 as [T1|[G F P]].
    + pose proof (tr_changed _ _ _ _ T1) as C1. destruct (IH fuel (j + 1) s1 (mp_region _ _ _ _ _ _ C1)) as (s2 & E2 & C2); try lia.
      { replace (512 * (j + 1 + Z.of_nat c) + rest) with (512 * (j + Z.of_nat (S c)) + rest) by lia.
        replace (512 * (j + 1)) with (512 * j + 512) by lia. apply (changed_mapped _ _ _ _ _ _ C1 M1); lia. }
      rewrite (changed_pmd_at _ _ _ _ _ _ _ C1) in E2.
      replace (pmd_at (p_mem s) (j + 1)) with (pmd_at (p_mem s) j + 8) in E2 by (unfold pmd_at; lia).
      replace (2 ^ 30 * b + 2 ^ 21 * (j + 1)) with (a + 2 ^ 21) in E2 by (unfold a; lia).
      exists s2. split; [exact E2|].
      replace (512 * (j + 1)) with (512 * j + 512) in C2 by lia.
      replace (j + Z.of_nat (S c)) with (j + 1 + Z.of_nat c) by lia.
      apply (cleared_after _ _ _ _ _ _ T1 C2); [lia|]. intros _. right.
      replace (512 * j + 512) with ((j + 1) * 512) by lia. apply Z.mod_mul. lia.
    + pose proof (gone_last s (512 * j) (512 * j + 512) _ F M1 ltac:(lia) Hh) as Last.
      assert (c = 0%nat /\ rest = 0) as [-> ->] by lia. change (Z.of_nat 0) with 0.
      destruct fuel as [|fuel]; [lia|]. rewrite !Z.mul_0_r, !Z.add_0_r.
      pose proof (no_chunk_left fuel (a + 2 ^ 21) (pmd_at (p_mem s) j + 8) 0 s1 ltac:(lia)) as E2.
      rewrite Z.mul_0_r, Z.add_0_r in E2. exists s1. split; [exact E2|]. right. split; [exact G| |exact P].
      intros q Hq N. apply F; lia.
Qed.
(** *** unmap_pmd_range *)

Abbreviation unmap_rest := (unmap_pmd_rest pud).

Lemma last_try_spec s s1 lo hi : cleared s s1 lo hi ->
  exists s2, (let* e := load pud in when negb (pud_none e) do free_pmd_of pud) s1 = Some (tt, s2) /\
    cleared s s2 lo hi /\ settled (p_mem s2).
Proof.
  intros C. unfold bind, load, gets. destruct (pud_none (rd (p_mem s1) pud)) eqn:En; cbn [negb].
  - exists s1. split; [reflexivity|]. split; [exact C|now right].
  - destruct C as [T|[G _ _]]; [|congruence]. pose proof (tr_changed _ _ _ _ T) as C.
    destruct (free_pmd_spec s1 (mp_region _ _ _ _ _ _ C)) as (s2 & E & H). exists s2. split; [exact E|].
    destruct H as [[-> A]|G]; [split; [now left|now left]|]. split; [|right; apply (G 0)].
    now apply (gone_after s s1).
Qed.

Lemma unmap_rest_nothing s s1 lo hi start pmd : cleared s s1 lo hi ->
  exists s2, unmap_rest start start pmd s1 = Some (tt, s2) /\ cleared s s2 lo hi /\ settled (p_mem s2).
Proof.
  intros C. unfold unmap_pmd_rest, bind at 1, rounds_between.
  pose proof (no_chunk_left (Z.to_nat ((start - start) / PMD_SIZE + 1)) start pmd 0 s1 ltac:(lia)) as E.
  rewrite Z.mul_0_r, Z.add_0_r in E. rewrite E. destruct (Z.ltb_spec start start); [lia|].
  now apply last_try_spec.
Qed.

Lemma unmap_rest_spec b j n s :
  region s -> 0 <= j -> 0 < n -> 512 * j + n <= 2 ^ 18 -> 0 <= b -> 2 ^ 30 * b + 2 ^ 30 < 2 ^ 64 ->
  all_mapped (p_mem s) (512 * j) (512 * j + n) ->
  ((512 * j + n) mod 512 <> 0 -> small_chunk pud s ((512 * j + n) / 512)) ->
  let start := 2 ^ 30 * b + 4096 * (512 * j) in
  exists s', unmap_rest start (start + 4096 * n) (pmd_at (p_mem s) j) s = Some (tt, s') /\
    cleared s s' (512 * j) (512 * j + n) /\ settled (p_mem s').
Proof.
  intros R Hj Hn Hh Hb Hbb A Sm start. pose proof (Z.div_mod n 512 ltac:(lia)) as Dn.
  pose proof (Z.mod_pos_bound n 512 ltac:(lia)) as Mn.
  assert (Hd : 0 <= n / 512) by (apply Z.div_pos; lia).
  replace ((512 * j + n) mod 512) with (n mod 512) in Sm
    by (rewrite Z.add_comm, Z.mul_comm, Z.mod_add; lia).
  replace ((512 * j + n) / 512) with (j + n / 512) in Sm
    by (rewrite (Z.add_comm _ n), Z.mul_comm, Z.div_add; lia).
  set (c := Z.to_nat (n / 512)) in *. assert (Ec : Z.of_nat c = n / 512) by (unfold c; lia).
  rewrite <- Ec in *. set (rest := n mod 512) in *.
  destruct (unmap_pmd_chunks_spec b rest c (rounds_between start (start + 4096 * n) PMD_SIZE) j s R)
    as (s1 & E & C); try easy; try lia.
  { unfold rounds_between. rewrite pmd_size_2m. replace (start + 4096 * n - start) with (4096 * n) by lia.
    replace (4096 * n / 2 ^ 21) with (n / 512); [unfold c; lia|].
    replace (2 ^ 21) with (4096 * 512) by lia. now rewrite Z.div_mul_cancel_l. }
  { intros q Hq. apply A. lia. }
  replace (2 ^ 30 * b + 2 ^ 21 * j) with start in E by (unfold start; lia).
  replace (start + 2 ^ 21 * Z.of_nat c + 4096 * rest) with (start + 4096 * n) in E by lia.
  unfold unmap_pmd_rest, bind at 1. rewrite E.
  destruct (Z.ltb_spec (start + 2 ^ 21 * Z.of_nat c) (start + 4096 * n)) as [L|L].
  2:{ replace (512 * (j + Z.of_nat c)) with (512 * j + n) in C by lia. now apply last_try_spec. }
  destruct C as [T|[_ F _]].
  2:{ pose proof (gone_last s (512 * j) (512 * (j + Z.of_nat c)) (512 * j + n) F) as X.
      exfalso. assert (512 * j + n <= 512 * (j + Z.of_nat c)); [|lia].
      apply X; try lia. intros q Hq. apply A. lia. }
  pose proof (tr_changed _ _ _ _ T) as C.
  assert (M1 : all_mapped (p_mem s1) (512 * (j + Z.of_nat c)) (512 * j + n)).
  { apply (changed_mapped _ _ _ _ _ _ C); [intros q Hq; apply A; lia|lia|lia]. }
  destruct (mapped_chunk (p_mem s1) (j + Z.of_nat c) 0 ltac:(lia)) as [t Ht]; [apply M1; lia| |].
  { rewrite (changed_pmd_at _ _ _ _ _ _ _ C), (mp_entries _ _ _ _ _ _ C) by lia. apply Sm. lia. }
  destruct (unmap_chunk_spec b (j + Z.of_nat c) 0 rest t s1 (mp_region _ _ _ _ _ _ C)) as (s2 & E2 & C2 & S2);
    try easy; try lia.
  rewrite (changed_pmd_at _ _ _ _ _ _ _ C), Z.add_0_r in *.
  replace (pmd_at (p_mem s) (j + Z.of_nat c)) with (pmd_at (p_mem s) j + 8 * Z.of_nat c) in E2
    by (unfold pmd_at; lia).
  replace (2 ^ 30 * b + 4096 * (512 * (j + Z.of_nat c))) with (start + 2 ^ 21 * Z.of_nat c) in E2
    by (unfold start; lia).
  replace (start + 2 ^ 21 * Z.of_nat c + 4096 * rest) with (start + 4096 * n) in E2 by lia.
  exists s2. split; [exact E2|]. split; [|exact S2].
  replace (512 * j + n) with (512 * (j + Z.of_nat c) + rest) by lia.
  apply (cleared_after _ _ _ _ _ _ T C2); lia.
Qed.
(** The rest, after the pages below the first 2M boundary. *)
Lemma unmap_rest_after b q n j s s1 :
  cleared s s1 q (512 * j) -> 0 <= q <= 512 * j -> 512 * j < q + n -> q + n <= 2 ^ 18 ->
  0 <= b -> 2 ^ 30 * b + 2 ^ 30 < 2 ^ 64 -> all_mapped (p_mem s) q (q + n) ->
  ((q + n) mod 512 <> 0 -> small_chunk pud s ((q + n) / 512)) ->
  exists s2, unmap_rest (2 ^ 30 * b + 4096 * (512 * j)) (2 ^ 30 * b + 4096 * (q + n))
      (pmd_at (p_mem s) j) s1 = Some (tt, s2) /\ cleared s s2 q (q + n) /\ settled (p_mem s2).
Proof.
  intros C Hq Hj Hh Hb Hbb A Sm.
  assert (M1 : all_mapped (p_mem s) (512 * j) (q + n)) by (intros p Hp; apply A; lia).
  destruct C as [T|[_ F _]]; [|pose proof (gone_last s q (512 * j) (q + n) F M1); lia].
  pose proof (tr_changed _ _ _ _ T) as C.
  pose proof (Z.div_mod (q + n) 512 ltac:(lia)). pose proof (Z.mod_pos_bound (q + n) 512 ltac:(lia)).
  destruct (unmap_rest_spec b j (q + n - 512 * j) s1 (mp_region _ _ _ _ _ _ C)) as (s2 & E2 & C2 & S2);
    replace (512 * j + (q + n - 512 * j)) with (q + n) in * by lia; try easy; try lia.
  - apply (changed_mapped _ _ _ _ _ _ C M1); lia.
  - intros X. unfold small_chunk. rewrite (changed_pmd_at _ _ _ _ _ _ _ C).
    rewrite (mp_entries _ _ _ _ _ _ C); [now apply Sm|lia|lia].
  - rewrite (changed_pmd_at _ _ _ _ _ _ _ C) in E2. exists s2.
    replace (2 ^ 30 * b + 4096 * (q + n)) with
      (2 ^ 30 * b + 4096 * (512 * j) + 4096 * (q + n - 512 * j)) by lia.
    split; [exact E2|]. split; [|exact S2]. apply (cleared_after _ _ _ _ _ _ T C2); lia.
Qed.

Lemma unmap_pmd_range_spec b q n s :
  region s -> 0 <= q -> 0 < n -> q + n <= 2 ^ 18 -> 0 <= b -> 2 ^ 30 * b + 2 ^ 30 < 2 ^ 64 ->
  all_mapped (p_mem s) q (q + n) ->
  (q mod 512 <> 0 -> small_chunk pud s (q / 512)) ->
  ((q + n) mod 512 <> 0 -> small_chunk pud s ((q + n) / 512)) ->
  exists s', unmap_pmd_range pud (2 ^ 30 * b + 4096 * q) (2 ^ 30 * b + 4096 * (q + n)) s = Some (tt, s') /\
    cleared s s' q (q + n) /\ settled (p_mem s').
Proof.
  intros R Hq Hn Hh Hb Hbb A Sh St.
  destruct (chunk_boundary b q Hb Hbb ltac:(lia)) as (Ms & Al & Mq & Hj & Dq).
  set (start := 2 ^ 30 * b + 4096 * q) in *. unfold unmap_pmd_range, bind at 1, gets at 1.
  replace (pmd_offset (p_mem s) pud start) with (pmd_at (p_mem s) (q / 512)).
  2:{ unfold start. rewrite Dq at 2. now rewrite pmd_offset_region. }
  rewrite Ms, Al. unfold ctrue. destruct (Z.eqb_spec (4096 * (q mod 512)) 0) as [E0|E0]; cbn [negb].
  - unfold bind at 1, ret. cbn [fst snd]. assert (Eq : q = 512 * (q / 512)) by lia.
    replace start with (2 ^ 30 * b + 4096 * (512 * (q / 512))) by (unfold start; lia).
    apply (unmap_rest_after b q n (q / 512) s s); try easy; try lia.
    rewrite <- Eq. left. now apply trimmed_nothing.
  - set (h := Z.min n (512 - q mod 512)).
    replace (Z.min (2 ^ 30 * b + 4096 * (q + n)) _) with (start + 4096 * h) by (unfold h, start; lia).
    destruct (mapped_chunk (p_mem s) (q / 512) (q mod 512) Mq) as [t Ht];
      [rewrite <- Dq; apply A; lia|apply Sh; lia|].
    destruct (unmap_chunk_spec b (q / 512) (q mod 512) h t s R Hj Ht) as (s1 & E & C & _); try (unfold h; lia).
    rewrite <- Dq in E, C. fold start in E. unfold bind at 1. unfold bind at 1. rewrite E.
    unfold ret at 1. cbn [fst snd]. destruct (decide (n = h)) as [En|En].
    + replace (2 ^ 30 * b + 4096 * (q + n)) with (start + 4096 * h) by (unfold start; lia).
      rewrite En. now apply unmap_rest_nothing.
    + assert (Eh : q + h = 512 * (q / 512 + 1)) by (unfold h in *; lia).
      replace (start + 4096 * h) with (2 ^ 30 * b + 4096 * (q + h)) by (unfold start; lia).
      replace (pmd_at (p_mem s) (q / 512) + 8) with (pmd_at (p_mem s) (q / 512 + 1)) by (unfold pmd_at; lia).
      rewrite Eh in *. apply (unmap_rest_after b q n _ s s1); try easy; unfold h in *; lia.
Qed.

(** The frame that page [q] is mapped to by the entry of the region and below. *)
Definition reach (m : ptmem) (q : Z) : option Z :=
  if pud_none (rd m pud) then None else frame_of m q.

Lemma cleared_reach s s' lo hi : cleared s s' lo hi -> pud_none (rd (p_mem s) pud) = false ->
  forall q, 0 <= q < 2 ^ 18 -> reach (p_mem s') q =
    if (lo <=? q) && (q <? hi) then None else reach (p_mem s) q.
Proof.
  intros C P q Hq. unfold reach. rewrite P. destruct C as [T|[G F _]].
  - pose proof (tr_changed _ _ _ _ T) as C. rewrite (mp_pud _ _ _ _ _ _ C), P. now apply (mp_frames _ _ _ _ _ _ C).
  - rewrite G. destruct (Z.leb_spec lo q), (Z.ltb_spec q hi); cbn [andb]; try easy;
      rewrite F; easy || lia.
Qed.
End Unmap.

(** ** Properties *)

(** C25. Removing mappings inside the 1G region behind a third-level entry: on
    [n] mapped pages from page [q] on, [unmap_pmd_range] ends and removes the
    translation of exactly these pages, with small and large pages mixed (none of the
    large ones is cut by the start or the end). It gives back exactly the tables that
    it leaves empty: either the region is well formed, its table still has an entry, every
    table of a chunk in the range still maps a page, and all other tables are free
    pages; or nothing is mapped there any more, its entry is cleared and all its
    tables are free pages. *)
Theorem unmap_pmd_range_exact (W : Type) (consts : PageConsts) (paging : Paging) (env : PageEnv W)
    (alloc : PageAlloc env) (laws : TableLaws consts paging) (free_ok : PageFree env alloc)
    (paging_ok : PagingOk paging) pud b q n (s : pstate W) :
  region pud s -> pud_none (rd (p_mem s) pud) = false ->
  0 <= q -> 0 < n -> q + n <= 2 ^ 18 -> 0 <= b -> 2 ^ 30 * b + 2 ^ 30 < 2 ^ 64 ->
  (forall p, q <= p < q + n -> frame_of pud (p_mem s) p <> None) ->
  (q mod 512 <> 0 -> small_chunk pud s (q / 512)) ->
  ((q + n) mod 512 <> 0 -> small_chunk pud s ((q + n) / 512)) ->
  exists s', unmap_pmd_range pud (2 ^ 30 * b + 4096 * q) (2 ^ 30 * b + 4096 * (q + n)) s = Some (tt, s') /\
    (forall p, 0 <= p < 2 ^ 18 -> reach pud (p_mem s') p =
       if (q <=? p) && (p <? q + n) then None else reach pud (p_mem s) p) /\
    ((region pud s' /\ alive pud (p_mem s') /\
      (forall j t, 0 <= j < 512 -> touched q (q + n) j -> table_of pud (p_mem s') j = Some t ->
         exists k, 0 <= k < 512 /\ reach pud (p_mem s') (512 * j + k) <> None) /\
      free_pages (p_world s') ++ tables_of pud (p_mem s') ≡ₚ
        free_pages (p_world s) ++ tables_of pud (p_mem s)) \/
     (pud_none (rd (p_mem s') pud) = true /\
      free_pages (p_world s') ≡ₚ free_pages (p_world s) ++ owned pud (p_mem s))).
Proof.
  intros R P Hq Hn Hh Hb Hbb A Sh St.
  destruct (unmap_pmd_range_spec pud b q n s R Hq Hn Hh Hb Hbb A Sh St) as (s' & E & C & S').
  exists s'. split; [exact E|]. split; [now apply cleared_reach|].
  destruct C as [[C Pg Fl]|[G _ Pg]]; [left|right; now split].
  assert (P' : pud_none (rd (p_mem s') pud) = false) by now rewrite (mp_pud _ _ _ _ _ _ C).
  split; [apply C|]. split; [destruct S' as [X|X]; [exact X|congruence]|]. split; [|exact Pg].
  intros j t Hj T Ht. destruct (Fl j t Hj T Ht) as (k & Hk & N). exists k. split; [exact Hk|].
  unfold reach. now rewrite P'.
Qed.

(** C24. Creating mappings and removing them again restores the translation: when
    two free pages are left, [populate_pmd] maps [n] unmapped pages of the
    region, and [unmap_pmd_range] on the same range then leaves every page of
    the region translated as before. The range lies in the region, its frames and
    addresses agree modulo 2M, and no large page is there already where it starts or ends
    inside 2M; tables and free pages are pages of their own in the kernel's mapping of
    physical memory. *)
Theorem populate_unmap_restores (W : Type) (consts : PageConsts) (paging : Paging) (env : PageEnv W)
    (alloc : PageAlloc env) (laws : TableLaws consts paging) (free_ok : PageFree env alloc)
    (paging_ok : PagingOk paging) pud cpa b q n prot (s : pstate W) :
  region pud s -> request_ok cpa b q n prot -> pud_none (rd (p_mem s) pud) = false ->
  (2 <= length (free_pages (p_world s)))%nat ->
  (forall p, q <= p < q + n -> frame_of pud (p_mem s) p = None) ->
  (q mod 512 <> 0 -> small_chunk pud s (q / 512)) ->
  ((q + n) mod 512 <> 0 -> small_chunk pud s ((q + n) / 512)) ->
  let start := 2 ^ 30 * b + 4096 * q in
  exists cpa' s1 s2,
    populate_pmd cpa start (start + 4096 * n) n pud prot s = Some ((n, cpa'), s1) /\
    (forall p, q <= p < q + n -> reach pud (p_mem s1) p = Some (cpa_pfn cpa + (p - q))) /\
    unmap_pmd_range pud start (start + 4096 * n) s1 = Some (tt, s2) /\
    forall p, 0 <= p < 2 ^ 18 -> reach pud (p_mem s2) p = reach pud (p_mem s) p.
Proof.
  intros R Q P F A Sh St start. pose proof Q as [[B1 B2] [Q1 [Q2 Q3]] _ _ _].
  destruct (populate_pmd_spec pud cpa b q n prot s R Q P Sh St) as (r & cpa' & s1 & E1 & H1).
  destruct H1 as [(-> & _ & M)|(_ & X & _)]; [|lia].
  assert (P1 : pud_none (rd (p_mem s1) pud) = false) by now rewrite (mp_pud _ _ _ _ _ _ M).
  assert (F1 : forall p, 0 <= p < 2 ^ 18 -> reach pud (p_mem s1) p =
    if (q <=? p) && (p <? q + n) then Some (cpa_pfn cpa + (p - q)) else reach pud (p_mem s) p).
  { intros p Hp. unfold reach. rewrite P, P1. now apply (mp_frames _ _ _ _ _ _ M). }
  destruct (unmap_pmd_range_spec pud b q n s1 (mp_region _ _ _ _ _ _ M)) as (s2 & E2 & C & _); try easy.
  - intros p Hp. rewrite (mp_frames _ _ _ _ _ _ M) by lia.
    now replace ((q <=? p) && (p <? q + n)) with true by lia.
  - intros N. destruct (chunk_boundary b q B1 B2 ltac:(lia)) as (_ & _ & Mq & Hj & Dq).
    apply (changed_small _ _ _ _ _ _ _ M Hj (Sh N)). lia.
  - intros N. pose proof (Z.div_mod (q + n) 512 ltac:(lia)). pose proof (Z.mod_pos_bound (q + n) 512 ltac:(lia)).
    assert (Hj : 0 <= (q + n) / 512 < 512) by (split; [apply Z.div_pos; lia|lia]).
    apply (changed_small _ _ _ _ _ _ _ M Hj (St N)). lia.
  - exists cpa', s1, s2. split; [exact E1|]. split.
    { intros p Hp. rewrite F1 by lia. now replace ((q <=? p) && (p <? q + n)) with true by lia. }
    replace (2 ^ 30 * b + 4096 * (q + n)) with (start + 4096 * n) in E2 by (unfold start; lia).
    split; [exact E2|]. intros p Hp. rewrite (cleared_reach _ _ _ _ _ C P1), F1 by easy.
    destruct ((q <=? p) && (p <? q + n)) eqn:I; [|easy]. unfold reach. rewrite P, A; [easy|lia].
Qed.

(** ** A kernel that takes pages back *)

Module UnmapDemo.
Import PageDemo PopulateDemo.

#[export] Instance pages_back : PageFree pages_kernel pages_alloc.
Proof.
  split. intros s r N A F. eexists 0, _. cbn. unfold answer_pages. split; [reflexivity|]. now split.
Qed.

(** Five hundred and seventeen pages from page 510 on. *)
Definition request : cpa_data := CpaData [] 0x1000 0 0 517 0 510 0 false false false [].

Lemma request_510 : request_ok (consts := consts) request 0 510 517 1.
Proof. split; cbn; lia || reflexivity. Qed.

Lemma empty_frames p : 510 <= p < 510 + 517 -> frame_of pud (p_mem empty_region) p = None.
Proof.
  intros Hp. unfold frame_of, rd, pmd_at. change (pmd_table _ _) with (base + 0x3000). cbn [p_mem empty_region].
  rewrite lookup_singleton_ne; [reflexivity|].
  assert (0 <= p / 512) by (apply Z.div_pos; lia). unfold pud. lia.
Qed.
End UnmapDemo.

Lemma populate_unmap_restores_witness :
  exists cpa' s1 s2,
    populate_pmd (consts := PopulateDemo.consts) (paging := PopulateDemo.paging) (env := PopulateDemo.pages_kernel)
      UnmapDemo.request (4096 * 510) (4096 * 1027) 517 PopulateDemo.pud 1 PopulateDemo.empty_region =
      Some ((517, cpa'), s1) /\
    reach (consts := PopulateDemo.consts) (paging := PopulateDemo.paging) PopulateDemo.pud (p_mem s1) 1000 = Some 1000 /\
    unmap_pmd_range (consts := PopulateDemo.consts) (paging := PopulateDemo.paging)
      (env := PopulateDemo.pages_kernel) PopulateDemo.pud (4096 * 510) (4096 * 1027) s1 = Some (tt, s2) /\
    reach (consts := PopulateDemo.consts) (paging := PopulateDemo.paging) PopulateDemo.pud (p_mem s2) 1000 = None.
Proof.
  destruct (populate_unmap_restores (list Z) PopulateDemo.consts PopulateDemo.paging PopulateDemo.pages_kernel
    PopulateDemo.pages_alloc PopulateDemo.table_laws UnmapDemo.pages_back PopulateDemo.direct_paging_ok
    PopulateDemo.pud UnmapDemo.request 0 510 517 1 PopulateDemo.empty_region)
    as (cpa' & s1 & s2 & E1 & M & E2 & B).
  - exact PopulateDemo.empty_layout.
  - exact UnmapDemo.request_510.
  - vm_compute. reflexivity.
  - cbn. lia.
  - exact UnmapDemo.empty_frames.
  - intros _. vm_compute. reflexivity.
  - intros _. vm_compute. reflexivity.
  - exists cpa', s1, s2. split; [exact E1|]. split; [rewrite M by lia; reflexivity|].
    split; [exact E2|]. rewrite B by lia. vm_compute. reflexivity.
Defined.

(** The mappings of the previous run, but for the page 510 and the last two. *)
Lemma unmap_pmd_range_exact_witness :
  exists s1 s2, unmap_pmd_range (consts := PopulateDemo.consts) (paging := PopulateDemo.paging)
      (env := PopulateDemo.pages_kernel) PopulateDemo.pud (4096 * 511) (4096 * 1025) s1 = Some (tt, s2) /\
    reach (consts := PopulateDemo.consts) (paging := PopulateDemo.paging) PopulateDemo.pud (p_mem s1) 1000 = Some 1000 /\
    reach (consts := PopulateDemo.consts) (paging := PopulateDemo.paging) PopulateDemo.pud (p_mem s2) 1000 = None /\
    reach (consts := PopulateDemo.consts) (paging := PopulateDemo.paging) PopulateDemo.pud (p_mem s2) 510 = Some 510.
Proof.
  destruct (populate_pmd_spec (alloc := PopulateDemo.pages_alloc) (laws := PopulateDemo.table_laws)
    (paging_ok := PopulateDemo.direct_paging_ok) PopulateDemo.pud UnmapDemo.request 0 510 517 1
    PopulateDemo.empty_region PopulateDemo.empty_layout UnmapDemo.request_510)
    as (r & cpa' & s1 & E1 & [(_ & _ & M)|(_ & X & _)]);
    [vm_compute; reflexivity|intros _; vm_compute; reflexivity|intros _; vm_compute; reflexivity| |cbn in X; lia].
  assert (F : forall p, 510 <= p < 1027 ->
    frame_of (consts := PopulateDemo.consts) (paging := PopulateDemo.paging) PopulateDemo.pud (p_mem s1) p = Some p).
  { intros p Hp. rewrite (mp_frames _ _ _ _ _ _ M) by lia.
    replace ((510 <=? p) && (p <? 510 + 517)) with true by lia. f_equal. cbn. lia. }
  assert (P : pud_none (Paging := PopulateDemo.paging) (rd (p_mem s1) PopulateDemo.pud) = false)
    by now rewrite (mp_pud _ _ _ _ _ _ M).
  assert (Sm : forall j, j = 0 \/ j = 2 ->
    small_chunk (consts := PopulateDemo.consts) (paging := PopulateDemo.paging) PopulateDemo.pud s1 j).
  { intros j Hj. apply (changed_small _ _ _ _ _ _ _ M); [lia| |lia].
    destruct Hj as [-> | ->]; vm_compute; reflexivity. }
  destruct (unmap_pmd_range_exact (list Z) PopulateDemo.consts PopulateDemo.paging PopulateDemo.pages_kernel
    PopulateDemo.pages_alloc PopulateDemo.table_laws UnmapDemo.pages_back PopulateDemo.direct_paging_ok
    PopulateDemo.pud 0 511 514 s1 (mp_region _ _ _ _ _ _ M) P) as (s2 & E2 & R2 & _); try lia.
  - intros p Hp. rewrite F by lia. discriminate.
  - intros _. apply Sm. now left.
  - intros _. apply Sm. now right.
  - exists s1, s2. split; [exact E2|]. split; [|split].
    + unfold reach. rewrite P. apply F. lia.
    + rewrite R2 by lia. reflexivity.
    + rewrite R2 by lia. cbn [Z.leb Z.ltb andb]. unfold reach. rewrite P. apply F. lia.
Defined.

(** ** Running out of memory halfway

    The two ways in which [populate_pgd] fails after its first allocation, on a
    directory in frame 8 that is empty. *)

Module Failure.
Import PageDemo PopulateDemo.

Definition directory (pages : list Z) : pstate (list Z) :=
  PState {[base + 8 := 0xbeef]} (fun _ => 0) false false pages [].

Definition three_pages (a : Z) : cpa_data := CpaData [] (base + 0x8000) 3 0 3 0 0x100 0 false false false [].

(** When the page of a table is missing, the range is removed again although
    nothing was mapped: [unmap_pmd_range] follows an empty third-level entry to
    physical page 0, clears entries there, and frees that page. *)
Theorem failed_populate_clears_page_zero :
  exists cpa' s', populate_pgd (three_pages 0x40001000) 0x40001000 (directory [base + 0x10000]) =
      Some ((-1, cpa'), s') /\
    rd (p_mem (directory [base + 0x10000])) (base + 8) = 0xbeef /\ rd (p_mem s') (base + 8) = 0 /\
    p_calls s' = [free_page base; free_page base; get_zeroed_page; get_zeroed_page].
Proof.
  eexists _, _. split; [vm_compute; reflexivity|]. split; [vm_compute; reflexivity|].
  split; vm_compute; reflexivity.
Qed.

(** On a range that starts at a 1G boundary a failed [populate_pmd] is reported as
    0 pages mapped, a success; the caller then stops at its [BUG_ON]. *)
Theorem failed_populate_hits_bug_on :
  (exists cpa' s', populate_pgd (three_pages 0x40000000) 0x40000000 (directory [base + 0x10000; base + 0x11000]) =
      Some ((0, cpa'), s') /\ numpages cpa' = 0) /\
  forall fuel, kernel_map_pages_in_pgd fuel (base + 0x8000) 0x100 0x40000000 3 3 (directory [base + 0x10000; base + 0x11000]) = None.
Proof.
  split; [eexists _, _; split; vm_compute; reflexivity|].
  intros [|fuel]; vm_compute; reflexivity.
Qed.
End Failure.
