(* ===== verification/PageAttrSpec.v ===== *)
(** Theorems on the page-attribute code of [PageProt.v], [Populate.v] and
    [PageAttr.v]: address arithmetic, the protections that no request can take
    away, and what [set_memory_x] does to a range of small pages. *)
From Stdlib Require Import ZArith Lia Bool String.
From stdpp Require Import base list gmap sets.
From S2P Require Import Prelude Paging PageProt Populate PageAttr PageLaws.

Local Open Scope Z_scope.
Local Open Scope ub_scope.

(** ** Address arithmetic *)

Lemma overlaps_spec a b c d :
  a <= b -> c <= d ->
  overlaps a b c d = true <-> exists x, a <= x <= b /\ c <= x <= d.
Proof.
  intros H1 H2. unfold overlaps. split.
  - intros H. apply orb_true_iff in H as [H|H]; bool_prop; exists (Z.max a c); lia.
  - intros (x & Hx1 & Hx2). apply orb_true_iff. left.
    apply andb_true_iff. split; apply Z.leb_le; lia.
Qed.

(** Canonical: bit 63 repeats bit 62. *)
Definition canonical (a : Z) : Prop := is_u64 a /\ Z.testbit a 63 = Z.testbit a 62.

Lemma fix_addr_bits a i :
  is_u64 a -> 0 <= i < 64 ->
  Z.testbit (fix_addr a) i = Z.testbit a (if i =? 63 then 62 else i).
Proof.
  intros Ha Hi. unfold fix_addr. set (x := u64 (Z.shiftl a 1)).
  assert (Hx : is_u64 x) by apply u64_range.
  assert (Bx : forall j, 0 <= j < 64 -> Z.testbit x j = (0 <? j) && Z.testbit a (j - 1)).
  { intros j Hj. unfold x, u64. rewrite Z.mod_pow2_bits_low by lia.
    rewrite Z.shiftl_spec by lia. destruct (Z.ltb_spec 0 j); [easy|].
    rewrite Z.testbit_neg_r by lia. reflexivity. }
  set (signed := if x <? 2 ^ 63 then x else x - 2 ^ 64).
  assert (Bs : forall j, 0 <= j <= 64 -> Z.testbit signed j = Z.testbit x (Z.min j 63)).
  { intros j Hj. assert (E : signed mod 2 ^ 64 = x).
    { unfold signed, is_u64 in *. destruct (x <? 2 ^ 63); [apply Z.mod_small; lia|].
      replace (x - 2 ^ 64) with (x + (-1) * 2 ^ 64) by lia.
      rewrite Z.mod_add by lia. apply Z.mod_small. lia. }
    destruct (decide (j = 64)) as [->|Hne].
    - change (Z.min 64 63) with 63. unfold signed, is_u64 in *.
      destruct (Z.ltb_spec x (2 ^ 63)) as [Hl|Hg].
      + now rewrite !Z.testbit_eqb, !Z.div_small by lia.
      + transitivity true.
        * apply Z.testbit_true; [lia|]. replace (x - 2 ^ 64) with (x + (-1) * 2 ^ 64) by lia.
          rewrite Z.div_add by lia. rewrite Z.div_small by lia. reflexivity.
        * symmetry. apply Z.testbit_true; [lia|].
          replace (x / 2 ^ 63) with 1; [reflexivity|].
          apply Z.div_unique with (x - 2 ^ 63); lia.
    - rewrite Z.min_l by lia. rewrite <- E. now rewrite Z.mod_pow2_bits_low by lia. }
  unfold u64. rewrite Z.mod_pow2_bits_low, Z.shiftr_spec, Bs, Bx by lia.
  destruct (Z.ltb_spec 0 (Z.min (i + 1) 63)); [|lia]. cbn [andb].
  f_equal. destruct (Z.eqb_spec i 63); lia.
Qed.

Lemma u64_bits_eq a b :
  is_u64 a -> is_u64 b -> (forall i, 0 <= i < 64 -> Z.testbit a i = Z.testbit b i) -> a = b.
Proof.
  intros Ha Hb H. rewrite <- (u64_small a Ha), <- (u64_small b Hb).
  apply Z.bits_inj'. intros i Hi. unfold u64. destruct (Z.lt_ge_cases i 64).
  - rewrite !Z.mod_pow2_bits_low by lia. apply H. lia.
  - rewrite !Z.mod_pow2_bits_high by lia. easy.
Qed.

Lemma fix_addr_canonical a : canonical a -> fix_addr a = a.
Proof.
  intros [Ha Hc]. apply u64_bits_eq; [apply u64_range|easy|].
  intros i Hi. rewrite fix_addr_bits by easy. destruct (Z.eqb_spec i 63) as [->|]; easy.
Qed.

(** Flipping the top bit, as done for poisoned pages, is undone. *)
Lemma fix_addr_flip a : canonical a -> fix_addr (Z.lxor a (2 ^ 63)) = a.
Proof.
  intros [Ha Hc].
  assert (Hx : is_u64 (Z.lxor a (2 ^ 63))).
  { rewrite <- (u64_small a Ha). unfold u64.
    replace (Z.lxor (a mod 2 ^ 64) (2 ^ 63)) with (Z.lxor a (2 ^ 63) mod 2 ^ 64);
      [apply u64_range|].
    apply Z.bits_inj'. intros i Hi. destruct (Z.lt_ge_cases i 64).
    - rewrite Z.mod_pow2_bits_low, !Z.lxor_spec, Z.mod_pow2_bits_low by lia. easy.
    - rewrite Z.mod_pow2_bits_high, Z.lxor_spec, Z.mod_pow2_bits_high by lia.
      rewrite Z.pow2_bits_false by lia. easy. }
  apply u64_bits_eq; [apply u64_range|easy|]. intros i Hi.
  rewrite fix_addr_bits by easy. rewrite Z.lxor_spec.
  destruct (Z.eqb_spec i 63) as [->|Hne].
  - rewrite (Z.pow2_bits_false 63 62) by lia. now rewrite xorb_false_r.
  - rewrite Z.pow2_bits_false by lia. apply xorb_false_r.
Qed.

(** ** Code that returns and leaves tables and locks alone *)

Section Quiet.
Context {W : Type} {env : PageEnv W}.

Definition same (s s' : pstate W) : Prop := p_mem s' = p_mem s /\ steady s s'.

#[export] Instance same_preorder : PreOrder same.
Proof. split; [now intros s|]. unfold same, steady. intros s1 s2 s3. intuition congruence. Qed.

Definition quiet {A : Type} (m : M (pstate W) A) : Prop :=
  forall s, exists a s', m s = Some (a, s') /\ same s s'.

Lemma quiet_ret {A} (a : A) : quiet (ret a).
Proof. intros s. exists a, s. now split. Qed.
Lemma quiet_gets {A} (f : pstate W -> A) : quiet (gets f).
Proof. intros s. exists (f s), s. now split. Qed.
Lemma quiet_bind {A B} (m : M (pstate W) A) (k : A -> M (pstate W) B) :
  quiet m -> (forall a, quiet (k a)) -> quiet (bind m k).
Proof.
  intros Hm Hk s. destruct (Hm s) as (a & s1 & E1 & S1). destruct (Hk a s1) as (b & s2 & E2 & S2).
  exists b, s2. unfold bind. rewrite E1. split; [easy|]. now transitivity s1.
Qed.
Lemma quiet_if {A} (b : bool) (m1 m2 : M (pstate W) A) :
  quiet m1 -> quiet m2 -> quiet (if b then m1 else m2).
Proof. now destruct b. Qed.

Lemma quiet_unit (m : M (pstate W) unit) s :
  quiet m -> exists s', m s = Some (tt, s') /\ same s s'.
Proof. intros Q. destruct (Q s) as ([] & s' & H). now exists s'. Qed.

Context {consts : PageConsts} {paging : Paging} {env_ok : PageEnvOk env}.

Lemma quiet_pcall_ret c : is_alloc c = false -> quiet (pcall_ret c).
Proof.
  intros Hc s. unfold pcall_ret. destruct (quiet_returns c s Hc) as (r & s' & E). rewrite E.
  exists r, (set_p_calls (c :: p_calls s) s'). split; [easy|].
  pose proof (quiet_mem c s r s' Hc E). destruct (calls_steady c s r s' E). easy.
Qed.
Lemma quiet_pcall c : is_alloc c = false -> quiet (pcall_ c).
Proof. intros H. apply quiet_bind; [now apply quiet_pcall_ret|]. intros. apply quiet_ret. Qed.

Lemma quiet_conflicts w prot start e pfn l : quiet (check_conflicts w prot start e pfn l).
Proof.
  induction l as [|[txt res] l IH]; simpl; [apply quiet_ret|].
  apply quiet_bind; [|easy]. unfold check_conflict. apply quiet_if; [apply quiet_ret|].
  now apply quiet_pcall.
Qed.

(** What [static_protections] answers. *)
Definition static_value (s : pstate W) (prot start pfn npg lpsize : Z) : Z :=
  if negb (prot .& _PAGE_PRESENT) then prot
  else Z.ldiff prot (all_bits (forbidden_bits (kernel_set_to_readonly s) (p_mem s) start pfn
                                 npg lpsize)).

Lemma static_spec prot start pfn npg lpsize w s :
  exists s', static_protections prot start pfn npg lpsize w s =
               Some (static_value s prot start pfn npg lpsize, s') /\ same s s'.
Proof.
  unfold static_protections, static_value. destruct (negb (prot .& _PAGE_PRESENT)).
  - exists s. split; [easy|reflexivity].
  - unfold bind at 1. cbn [gets]. set (l := forbidden_bits _ _ _ _ _ _).
    destruct (quiet_conflicts w prot start (u64 (start + npg * PAGE_SIZE - 1)) pfn l s)
      as ([] & s1 & E & S1).
    exists s1. unfold bind. rewrite E. now split.
Qed.

Lemma all_bits_in l txt v : (txt, v) ∈ l -> Z.ldiff v (all_bits l) = 0.
Proof.
  induction l as [|[t x] l IH]; intros H; [now apply elem_of_nil in H|].
  cbn [all_bits fold_right]. fold (all_bits l). rewrite <- Z.ldiff_ldiff_l.
  apply elem_of_cons in H as [[= -> ->]|H].
  - cbn [snd]. rewrite Z.ldiff_diag. apply Z.ldiff_0_l.
  - apply Z.bits_inj'. intros i Hi. rewrite !Z.ldiff_spec, Z.bits_0. cbn [snd].
    assert (T : Z.testbit (Z.ldiff v (all_bits l)) i = false) by (rewrite IH by easy; apply Z.bits_0).
    rewrite Z.ldiff_spec in T. destruct (Z.testbit v i), (Z.testbit x i), (Z.testbit (all_bits l) i);
      simpl in *; congruence.
Qed.

(** A forbidden bit is not in the answer. *)
Lemma static_forbids s prot start pfn npg lpsize txt v :
  (txt, v) ∈ forbidden_bits (kernel_set_to_readonly s) (p_mem s) start pfn npg lpsize ->
  (prot .& _PAGE_PRESENT) = true ->
  Z.land (static_value s prot start pfn npg lpsize) v = 0.
Proof.
  intros Hin Hp. unfold static_value. rewrite Hp. cbn [negb]. apply all_bits_in in Hin.
  apply Z.bits_inj'. intros i Hi. rewrite Z.land_spec, Z.ldiff_spec, Z.bits_0.
  assert (T : forall l, Z.ldiff v l = 0 -> Z.testbit v i && negb (Z.testbit l i) = false)
    by (intros l H; rewrite <- Z.ldiff_spec, H; apply Z.bits_0).
  specialize (T _ Hin). destruct (Z.testbit prot i), (Z.testbit v i), (Z.testbit (all_bits _) i);
    simpl in *; congruence.
Qed.

(** Nothing is added. *)
Lemma static_subset s prot start pfn npg lpsize m :
  Z.land prot m = 0 -> Z.land (static_value s prot start pfn npg lpsize) m = 0.
Proof.
  intros H. unfold static_value. case_if; [easy|].
  apply Z.bits_inj'. intros i Hi. rewrite Z.land_spec, Z.ldiff_spec, Z.bits_0.
  assert (T : Z.testbit (Z.land prot m) i = false) by (rewrite H; apply Z.bits_0).
  rewrite Z.land_spec in T. destruct (Z.testbit prot i), (Z.testbit m i); simpl in *;
    rewrite ?andb_false_r; congruence.
Qed.
(** All other bits stay. *)
Lemma static_keeps s prot start pfn npg lpsize m :
  Z.land (Z.lor _PAGE_NX _PAGE_RW) m = 0 ->
  Z.land (static_value s prot start pfn npg lpsize) m = Z.land prot m.
Proof.
  intros H. unfold static_value. case_if; [easy|].
  assert (A : Z.land (all_bits (forbidden_bits (kernel_set_to_readonly s) (p_mem s) start pfn
                npg lpsize)) m = 0).
  { rewrite Z.land_lor_distr_l in H. apply Z.lor_eq_0_iff in H as [Hn Hr].
    unfold forbidden_bits, protect_kernel_text, protect_kernel_text_ro, protect_rodata,
      protect_pci_bios.
    set (l := _ ++ _). assert (F : Forall (fun x => snd x = 0 \/ snd x = _PAGE_NX \/ snd x = _PAGE_RW) l).
    { unfold l. rewrite !Forall_app, !Forall_cons. cbn [snd].
      repeat match goal with
        | |- _ /\ _ => split
        | |- Forall _ [] => constructor
        | |- context [if ?b then _ else _] => destruct b; cbn [snd]
        | |- context [match lookup_address ?m ?a with _ => _ end] =>
            destruct (lookup_address m a) as [[?|] ?]
        | |- Forall _ [_] => constructor; cbn [snd]
        | _ => now auto
        end. }
    clearbody l. induction F as [|x l Hx _ IH]; cbn [all_bits fold_right]; [easy|].
    fold (all_bits l). rewrite Z.land_lor_distr_l, IH.
    destruct Hx as [Ex|[Ex|Ex]]; rewrite Ex, ?Hn, ?Hr; easy. }
  apply Z.bits_inj'. intros i Hi. rewrite !Z.land_spec, Z.ldiff_spec.
  assert (T := f_equal (fun z => Z.testbit z i) A). cbn beta in T. rewrite Z.land_spec, Z.bits_0 in T.
  destruct (Z.testbit prot i), (Z.testbit m i), (Z.testbit (all_bits _) i); easy.
Qed.
End Quiet.

Create HintDb quiet discriminated.
#[export] Hint Resolve quiet_ret quiet_gets quiet_pcall : quiet.

(** ** Protections that no request can take away *)

Section Static.
Context {W : Type} {consts : PageConsts} {paging : Paging} {env : PageEnv W}.
Context {env_ok : PageEnvOk env} {consts_ok : PageConstsOk consts paging}.
Implicit Types s : pstate W.

Lemma page_size : PAGE_SIZE = 4096.
Proof. unfold PAGE_SIZE. now rewrite page_shift. Qed.

(** The virtual addresses and the frames of a request, without wrap-around. *)
Definition request_fits (start pfn npg : Z) : Prop :=
  0 < npg /\ 0 <= start /\ start + npg * PAGE_SIZE <= 2 ^ 64 /\ 0 <= pfn /\ pfn + npg <= 2 ^ 64.

(** The kernel text is [_text, _etext); the read-only data ends on a page. *)
Definition layout_fits : Prop :=
  0 < _etext <= 2 ^ 64 /\ _text < _etext /\
  0 < PFN_DOWN (__pa_symbol __end_rodata) <= 2 ^ 64 /\
  PFN_DOWN (__pa_symbol __start_rodata) < PFN_DOWN (__pa_symbol __end_rodata).

Lemma text_protected s start pfn npg lpsize x :
  request_fits start pfn npg -> layout_fits ->
  start <= x < start + npg * PAGE_SIZE -> _text <= x < _etext ->
  ("Text NX"%string, _PAGE_NX)
    ∈ forbidden_bits (kernel_set_to_readonly s) (p_mem s) start pfn npg lpsize.
Proof.
  unfold request_fits. rewrite page_size. intros (H1 & H2 & H3 & _) (L1 & L2 & _) Hx Ht.
  apply elem_of_app. left. apply list_elem_of_singleton. unfold protect_kernel_text.
  rewrite page_size, !u64_small by (unfold is_u64; lia).
  match goal with |- context [overlaps ?a ?b ?c ?d] => assert (O : overlaps a b c d = true) end.
  { apply overlaps_spec; [lia|lia|]. exists x. lia. }
  now rewrite O.
Qed.

Lemma rodata_protected s start pfn npg lpsize f :
  request_fits start pfn npg -> layout_fits -> kernel_set_to_readonly s = true ->
  pfn <= f < pfn + npg ->
  PFN_DOWN (__pa_symbol __start_rodata) <= f < PFN_DOWN (__pa_symbol __end_rodata) ->
  ("Rodata RO"%string, _PAGE_RW)
    ∈ forbidden_bits (kernel_set_to_readonly s) (p_mem s) start pfn npg lpsize.
Proof.
  intros (H1 & _ & _ & H2 & H3) (_ & _ & L1 & L2) Hro Hf Hr. unfold forbidden_bits.
  rewrite !elem_of_app. right. right. apply elem_of_cons. right. apply list_elem_of_singleton.
  unfold protect_rodata. rewrite Hro, !u64_small by (unfold is_u64; lia). cbn [andb].
  match goal with |- context [overlaps ?a ?b ?c ?d] => assert (O : overlaps a b c d = true) end.
  { apply overlaps_spec; [lia|lia|]. exists f. lia. }
  now rewrite O.
Qed.

(** C36. [static_protections] always answers, changes nothing but the log of
    warnings, and whatever the caller asks for a present mapping: a range that
    meets the kernel text stays executable (no NX), frames of the
    read-only data are not writable once the kernel is read-only, no bit is
    added, and every bit other than NX and RW is the requested one. *)
Theorem static_protections_enforced prot start pfn npg lpsize w s :
  request_fits start pfn npg -> layout_fits -> (prot .& _PAGE_PRESENT) = true ->
  exists r s', static_protections prot start pfn npg lpsize w s = Some (r, s') /\ same s s' /\
    (forall x, start <= x < start + npg * PAGE_SIZE -> _text <= x < _etext ->
       Z.land r _PAGE_NX = 0) /\
    (forall f, kernel_set_to_readonly s = true -> pfn <= f < pfn + npg ->
       PFN_DOWN (__pa_symbol __start_rodata) <= f < PFN_DOWN (__pa_symbol __end_rodata) ->
       Z.land r _PAGE_RW = 0) /\
    (forall m, Z.land prot m = 0 -> Z.land r m = 0) /\
    (forall m, Z.land (Z.lor _PAGE_NX _PAGE_RW) m = 0 -> Z.land r m = Z.land prot m).
Proof.
  intros Hr Hl Hp. destruct (static_spec prot start pfn npg lpsize w s) as (s' & E & Sm).
  exists (static_value s prot start pfn npg lpsize), s'.
  split; [easy|]. split; [easy|]. split; [|split; [|split]].
  - intros x Hx Ht. eapply static_forbids; [|easy]. now apply (text_protected s _ _ _ _ x).
  - intros f Hro Hf Hd. eapply static_forbids; [|easy]. now apply (rodata_protected s _ _ _ _ f).
  - intros m. apply static_subset.
  - intros m. apply static_keeps.
Qed.
End Static.

(** ** One small page *)

Section Small.
Context {W : Type} {consts : PageConsts} {paging : Paging} {env : PageEnv W}.
Context {env_ok : PageEnvOk env} {paging_ok : PagingOk paging}.
Implicit Types s : pstate W.

(** The protection a 4K page gets. *)
Definition prot_4k (s : pstate W) (cpa : cpa_data) (old address : Z) : Z :=
  pgprot_clear_protnone_bits (static_value s
    (Z.lor (Z.ldiff (pte_pgprot old) (mask_clr cpa)) (mask_set cpa)) address (pte_pfn old) 1 0).

(** The request afterwards: one page done, its frame, perhaps a flush to do. *)
Definition done_4k (cpa cpa' : cpa_data) (pfn : Z) : Prop :=
  numpages cpa' = 1 /\ cpa_pfn cpa' = pfn /\ vaddr cpa' = vaddr cpa /\ cpa_pgd cpa' = cpa_pgd cpa /\
  mask_set cpa' = mask_set cpa /\ mask_clr cpa' = mask_clr cpa /\ curpage cpa' = curpage cpa /\
  (cpa_flags cpa' = cpa_flags cpa \/ cpa_flags cpa' = Z.lor (cpa_flags cpa) CPA_FLUSHTLB).

Lemma change_4k_spec cpa kpte old address s :
  rd (p_mem s) kpte = old ->
  exists cpa' s', change_4k cpa kpte old address s = Some ((0, cpa'), s') /\
    done_4k cpa cpa' (pte_pfn old) /\
    (forall p, rd (p_mem s') p =
       if decide (p = kpte) then pfn_pte (pte_pfn old) (prot_4k s cpa old address)
       else rd (p_mem s) p) /\
    steady s s'.
Proof.
  intros Ho. unfold change_4k, bind at 1.
  destruct (static_spec (Z.lor (Z.ldiff (pte_pgprot old) (mask_clr cpa)) (mask_set cpa)) address
    (pte_pfn old) 1 0 CPA_PROTECT s) as (s1 & E & S1 & S2).
  rewrite E. fold (prot_4k s cpa old address).
  destruct (Z.eqb_spec old (pfn_pte (pte_pfn old) (prot_4k s cpa old address))) as [He|Hne].
  - eexists _, _. split; [reflexivity|]. split; [now repeat split; auto|].
    split; [|easy]. intros p. rewrite S1. destruct (decide (p = kpte)) as [->|]; [congruence|easy].
  - eexists _, _. split; [reflexivity|]. split; [now repeat split; auto|].
    split; [|easy]. intros p. simpl. rewrite store_entry_insert, S1.
    destruct (decide (p = kpte)) as [->|]; [apply rd_insert_eq|now apply rd_insert_ne].
Qed.
End Small.

(** ** A range of small pages made executable *)

Section Range.
Context {W : Type} {consts : PageConsts} {paging : Paging} {env : PageEnv W}.
Context {env_ok : PageEnvOk env} {paging_ok : PagingOk paging} {consts_ok : PageConstsOk consts paging}.
Implicit Types s : pstate W.

(** [kptes] are the entries of the pages from [a] on, all mapped small and
    present; they are entries of last-level tables only, so that a write to
    them does not change where other addresses are looked up. *)
Record small_range (m0 : ptmem) (a : Z) (kptes : list Z) : Prop := {
  range_addr : 0 <= a /\ a mod 4096 = 0 /\ a + Z.of_nat (length kptes) * 4096 <= 2 ^ 64;
  range_distinct : NoDup kptes;
  range_mapped : forall m i k, (forall p, p ∉ kptes -> rd m p = rd m0 p) ->
    kptes !! i = Some k -> lookup_address m (a + Z.of_nat i * 4096) = (Some k, PG_LEVEL_4K);
  range_used : Forall (fun k => pte_none (rd m0 k) = false) kptes
}.

(** The page is executable and still the same frame. *)
Definition made_x (old new : Z) : Prop := pte_pfn new = pte_pfn old /\ pte_exec new = true.

(** The first [i] pages are done. *)
Record done_upto (m0 : ptmem) (kptes : list Z) (i : nat) (s : pstate W) : Prop := {
  upto_done : forall j k, (j < i)%nat -> kptes !! j = Some k ->
    made_x (rd m0 k) (rd (p_mem s) k);
  upto_rest : forall p, p ∉ take i kptes -> rd (p_mem s) p = rd m0 p
}.

(** Neither lock of the file is held and interrupts are on. *)
Definition ready (s : pstate W) : Prop :=
  cpa_lock s = false /\ pgd_lock s = false /\ irq_ok s = true.

(** The request of [set_memory_x] when [i] pages are done. *)
Record x_request (a : Z) (i : nat) (cpa : cpa_data) : Prop := {
  x_vaddr : vaddr cpa = [a]; x_pgd : cpa_pgd cpa = 0;
  x_set : mask_set cpa = 0; x_clr : mask_clr cpa = _PAGE_NX;
  x_cur : curpage cpa = Z.of_nat i; x_flags : cpa_flags cpa = 0 \/ cpa_flags cpa = 1
}.

Lemma x_flags_array a i cpa m :
  x_request a i cpa -> m ∈ [CPA_ARRAY; CPA_PAGES_ARRAY; Z.lor CPA_ARRAY CPA_PAGES_ARRAY] ->
  (cpa_flags cpa .& m) = false.
Proof.
  intros [_ _ _ _ _ [-> | ->]] H; repeat (apply elem_of_cons in H as [->|H]); try reflexivity;
    now apply elem_of_nil in H.
Qed.

Lemma x_addr m0 a kptes i k cpa :
  small_range m0 a kptes -> kptes !! i = Some k -> x_request a i cpa ->
  __cpa_addr cpa (curpage cpa) = Some (a + Z.of_nat i * 4096).
Proof.
  intros [[H1 [_ H2]] _ _ _] Hk X. unfold __cpa_addr.
  rewrite !(x_flags_array a i) by (easy || set_solver). rewrite (x_vaddr _ _ _ X), (x_cur _ _ _ X).
  apply lookup_lt_Some in Hk. rewrite page_size, u64_small; [easy|]. unfold is_u64. lia.
Qed.

(** Without NX among the requested bits the entry is executable. *)
Lemma prot_4k_x s cpa old address :
  mask_set cpa = 0 -> mask_clr cpa = _PAGE_NX ->
  (prot_4k s cpa old address .& _PAGE_NX) = false.
Proof.
  intros Hs Hc. unfold prot_4k. rewrite Hs, Hc, Z.lor_0_r. apply ctrue_false.
  assert (H := static_subset s (Z.ldiff (pte_pgprot old) _PAGE_NX) address (pte_pfn old) 1 0
    _PAGE_NX (land_ldiff_same _ _)).
  unfold pgprot_clear_protnone_bits. case_if; [|exact H].
  rewrite Z.land_comm in H |- *. apply Z.bits_inj'. intros i Hi.
  assert (T := f_equal (fun z => Z.testbit z i) H). cbn beta in T.
  rewrite Z.land_spec, Z.bits_0 in *. rewrite Z.ldiff_spec.
  destruct (Z.testbit _PAGE_NX i), (Z.testbit (static_value _ _ _ _ _ _) i); easy.
Qed.

Lemma nodup_not_before (l : list Z) i k : NoDup l -> l !! i = Some k -> k ∉ take i l.
Proof.
  intros N H Hin. apply list_elem_of_lookup in Hin as [j Hj].
  apply lookup_take_Some in Hj as [Hj Hlt].
  pose proof (NoDup_lookup l i j k N H Hj). lia.
Qed.

(** One round of the loop. *)
Lemma x_round m0 a kptes fuel i k cpa s :
  small_range m0 a kptes -> kptes !! i = Some k -> x_request a i cpa ->
  done_upto m0 kptes i s ->
  exists cpa' s', __change_page_attr (S fuel) cpa false s = Some ((0, cpa'), s') /\
    x_request a i cpa' /\ numpages cpa' = 1 /\
    done_upto m0 kptes (S i) s' /\ steady s s'.
Proof.
  intros R Hk X D. unfold __change_page_attr, bind at 1.
  rewrite (x_addr m0 a kptes i k cpa R Hk X). cbn [of_option ret change_page_attr_at].
  unfold bind at 1. cbn [gets]. unfold _lookup_address_cpa. rewrite (x_pgd _ _ _ X). cbn [Z.eqb negb].
  assert (Rest : forall p, p ∉ kptes -> rd (p_mem s) p = rd m0 p).
  { intros p Hp. apply (upto_rest _ _ _ _ D). intros Hin. apply Hp.
    apply list_elem_of_lookup in Hin as [j Hj]. apply lookup_take_Some in Hj as [Hj _].
    now apply list_elem_of_lookup_2 in Hj. }
  rewrite (range_mapped _ _ _ R _ i k Rest Hk).
  assert (Ek : rd (p_mem s) k = rd m0 k).
  { apply (upto_rest _ _ _ _ D). apply nodup_not_before; [apply R|easy]. }
  rewrite Ek. pose proof (Forall_lookup_1 _ _ _ _ (range_used _ _ _ R) Hk) as Hn.
  cbn beta in Hn. rewrite Hn. rewrite decide_True by easy.
  destruct (change_4k_spec cpa k (rd m0 k) (a + Z.of_nat i * 4096) s Ek)
    as (cpa' & s' & E & (D1 & D2 & D3 & D4 & D5 & D6 & D7 & D8) & M & L).
  exists cpa', s'. split; [exact E|]. destruct X as [X1 X2 X3 X4 X5 X6].
  split; [|split; [easy|split; [split|easy]]].
  - split; try congruence. destruct D8 as [->| ->]; [easy|].
    destruct X6 as [->| ->]; [now right|now right].
  - intros j k' Hj Hk'. rewrite M. destruct (decide (k' = k)) as [->|Hne].
    + split; [apply pfn_pte_pfn, pte_pfn_range|]. rewrite pte_exec_prot, prot_4k_x by easy. easy.
    + apply (upto_done _ _ _ _ D j); [|easy]. assert (j <> i) by congruence. lia.
  - intros p Hp. rewrite (take_S_r _ _ _ Hk), not_elem_of_app, list_elem_of_singleton in Hp.
    rewrite M, decide_False by tauto. now apply (upto_rest _ _ _ _ D).
Qed.

(** The lock around a round, taken unless page-allocation debugging is on. *)
Definition in_round (s : pstate W) : pstate W :=
  if negb debug_pagealloc_enabled then set_cpa_lock true s else s.

Lemma round_locks s :
  cpa_lock s = false ->
  (when negb debug_pagealloc_enabled do lock_cpa) s = Some (tt, in_round s).
Proof.
  intros L. unfold in_round, lock_cpa, modify. destruct debug_pagealloc_enabled; cbn [negb]; [easy|]. now rewrite L.
Qed.

Lemma round_unlocks s s2 :
  cpa_lock s = false -> cpa_lock s2 = cpa_lock (in_round s) ->
  exists s3, (when negb debug_pagealloc_enabled do unlock_cpa) s2 = Some (tt, s3) /\
    p_mem s3 = p_mem s2 /\ cpa_lock s3 = false /\ pgd_lock s3 = pgd_lock s2 /\
    irq_ok s3 = irq_ok s2.
Proof.
  intros L E. unfold in_round, unlock_cpa, modify in *. destruct debug_pagealloc_enabled; cbn [negb] in *.
  - exists s2. repeat split; congruence.
  - rewrite E. cbn [cpa_lock set_cpa_lock]. eexists. split; [reflexivity|]. now repeat split.
Qed.

Lemma x_loop m0 a kptes fuel alias :
  small_range m0 a kptes -> forall r n i cpa s,
  (i + r = length kptes)%nat -> (r < n)%nat -> x_request a i cpa -> done_upto m0 kptes i s ->
  ready s ->
  exists cpa' s', change_loop n (S fuel) alias cpa false (Z.of_nat r) s = Some ((0, cpa'), s') /\
    x_request a (length kptes) cpa' /\ done_upto m0 kptes (length kptes) s' /\ ready s'.
Proof.
  intros R. pose proof (range_addr _ _ _ R) as (Ra & _ & Rb).
  induction r as [|r IH]; intros n i cpa s Hi Hn X D L; (destruct n as [|n]; [lia|]);
    cbn [change_loop].
  - exists cpa, s. split; [easy|]. now replace (length kptes) with i by lia.
  - destruct (Z.eqb_spec (Z.of_nat (S r)) 0); [lia|].
    destruct (lookup_lt_is_Some_2 kptes i) as [k Hk]; [lia|].
    set (cpa1 := set_numpages (Z.of_nat (S r)) cpa).
    assert (X1 : x_request a i cpa1) by (destruct X; now split).
    rewrite (x_flags_array a i cpa1) by (easy || set_solver).
    destruct L as (L1 & L2 & L3). unfold bind at 1. rewrite (round_locks s L1).
    assert (D1 : done_upto m0 kptes i (in_round s))
      by (unfold in_round; destruct debug_pagealloc_enabled; destruct D; now split).
    destruct (x_round m0 a kptes fuel i k cpa1 _ R Hk X1 D1) as (cpa' & s2 & E & X2 & N & D2 & K1 & K2 & K3).
    unfold bind at 1. rewrite E. cbn beta iota.
    destruct (round_unlocks s s2 L1 K1) as (s3 & E3 & M3 & U1 & U2 & U3).
    unfold bind at 1. rewrite E3. cbn [Z.eqb negb ret]. unfold bind at 1. cbn [ret Z.eqb negb].
    assert (B : (Z.of_nat (S r) <? numpages cpa') || (numpages cpa' =? 0) = false)
      by (rewrite N; apply orb_false_iff; split; [apply Z.ltb_ge|apply Z.eqb_neq]; lia).
    rewrite B. unfold bind at 1. cbn [bug_on negb ret].
    replace (Z.of_nat (S r) - numpages cpa') with (Z.of_nat r) by lia.
    apply IH with (i := S i); try lia.
    + destruct X2 as [Y1 Y2 Y3 Y4 Y5 Y6]. split; try assumption. cbn [curpage set_curpage].
      rewrite Y5, N, u64_small; [lia|]. unfold is_u64. lia.
    + destruct D2 as [Da Db]. split; rewrite M3; assumption.
    + split; [easy|]. rewrite U2, U3, K2, K3. unfold in_round. now destruct debug_pagealloc_enabled.
Qed.
(** *** The flush *)

Lemma quiet_on_each_cpu n (m : M (pstate W) unit) : quiet m -> quiet (on_each_cpu n m).
Proof. intros H. induction n; simpl; [apply quiet_ret|]. now apply quiet_bind. Qed.

Lemma quiet_flush_tlb_loop a i cpa : x_request a i cpa ->
  forall n j, quiet (flush_tlb_loop cpa j n).
Proof.
  intros X. induction n as [|n IH]; intros j; cbn [flush_tlb_loop]; [apply quiet_ret|].
  unfold __cpa_addr. rewrite !(x_flags_array a i) by (easy || set_solver). rewrite (x_vaddr _ _ _ X).
  apply quiet_bind; [apply quiet_ret|]. intros addr.
  apply quiet_bind; [now apply quiet_pcall|easy].
Qed.

Lemma cpa_flush_quiet a i cpa s :
  x_request a i cpa -> irq_ok s = true ->
  exists s', cpa_flush cpa false s = Some (tt, s') /\ same s s'.
Proof.
  intros X I. unfold cpa_flush, bind at 1. cbn [gets]. unfold bind at 1. cbn [gets].
  apply negb_true_iff in I. rewrite I. unfold bind at 1. cbn [bug_on ret andb negb].
  apply quiet_unit, quiet_bind; [|intros; apply quiet_ret].
  apply quiet_if; [now apply quiet_pcall|]. apply quiet_on_each_cpu.
  now apply quiet_flush_tlb_loop with a i.
Qed.

(** *** The whole call *)

Lemma page_aligned a : 0 <= a -> a mod 4096 = 0 ->
  Z.land a (PAGE_SIZE - 1) = 0 /\ align_down a PAGE_SIZE = a.
Proof.
  intros Ha Hm. unfold align_down. rewrite page_size.
  assert (L : Z.land a (4096 - 1) = 0) by (change (4096 - 1) with (Z.ones 12); now rewrite Z.land_ones).
  split; [easy|]. apply Z.bits_inj'. intros i Hi. rewrite Z.ldiff_spec.
  assert (T := f_equal (fun z => Z.testbit z i) L). cbn beta in T. rewrite Z.land_spec, Z.bits_0 in T.
  destruct (Z.testbit a i), (Z.testbit _ i); easy.
Qed.

Lemma same_ready s s' : same s s' -> ready s -> ready s'.
Proof. intros (_ & H1 & H2 & H3) (K1 & K2 & K3). repeat split; congruence. Qed.

Lemma change_clear_x a kptes fuel s :
  small_range (p_mem s) a kptes -> ready s -> _PAGE_NX <> 0 ->
  exists s', change_page_attr_clear (S fuel) [a] (Z.of_nat (length kptes)) _PAGE_NX false s
      = Some (0, s') /\
    done_upto (p_mem s) kptes (length kptes) s' /\ ready s'.
Proof.
  intros R L Hnx. destruct (range_addr _ _ _ R) as (Ra & Rm & Rb).
  unfold change_page_attr_clear, change_page_attr_set_clr.
  rewrite canon_zero, (proj2 (Z.eqb_neq _ _) Hnx). cbn [Z.eqb andb negb].
  change (ctrue (Z.land 0 CPA_ARRAY)) with false. change (ctrue (Z.land 0 CPA_PAGES_ARRAY)) with false. cbn [negb].
  destruct (page_aligned a Ra Rm) as [A1 A2]. cbn [take drop align_addrs app Z.to_nat].
  rewrite A1, A2. cbn [ctrue Z.eqb negb]. unfold bind at 1 2 3 4. cbn [ret app].
  destruct (quiet_pcall kmap_flush_unused eq_refl s) as ([] & s1 & E1 & S1).
  destruct (quiet_pcall vm_unmap_aliases eq_refl s1) as ([] & s2 & E2 & S2).
  unfold bind at 1. rewrite E1. unfold bind at 1. rewrite E2. rewrite Z.lor_0_l, Z.eqb_refl.
  cbn [negb andb]. change (ctrue (Z.land 0 (Z.lor CPA_ARRAY CPA_PAGES_ARRAY))) with false. cbn iota.
  unfold __change_page_attr_set_clr. cbn [numpages].
  rewrite (u64_small (Z.of_nat _)) by (unfold is_u64; lia). rewrite Nat2Z.id.
  set (cpa := CpaData [a] 0 0 _PAGE_NX _ _ _ _ _ _ _ _).
  assert (Sm : same s s2) by now transitivity s1.
  assert (L2 : ready s2) by now apply (same_ready s).
  destruct (x_loop (p_mem s) a kptes fuel (cpa_process_alias (S fuel)) R (length kptes)
    (S (length kptes)) O cpa s2) as (cpa' & s3 & E3 & X3 & D3 & L3); try lia.
  { now split; auto. } { split; [lia|]. intros p _. now rewrite (proj1 Sm). } { easy. }
  unfold bind at 1 2. rewrite E3. cbn [fst snd ret].
  set (cpa2 := set_numpages _ cpa').
  assert (X4 : x_request a (length kptes) cpa2) by (destruct X3; now split).
  destruct (negb (cpa_flags cpa2 .& CPA_FLUSHTLB)); [now exists s3|].
  rewrite cachemode_zero. cbn [ctrue Z.eqb negb].
  destruct (cpa_flush_quiet a (length kptes) cpa2 s3 X4) as (s4 & E4 & S4); [apply L3|].
  unfold bind. rewrite E4. exists s4. split; [easy|].
  split; [|now apply (same_ready s3)]. destruct D3. split; now rewrite (proj1 S4).
Qed.

(** C22. [set_memory_x] on a range of pages that are mapped small, with
    interrupts on and neither lock of the file held, returns 0: every page of
    the range is executable and still maps its frame, no other entry of the
    tables has changed, and the locks are released. One round of fuel per page
    is enough, as nothing is split. *)
Theorem set_memory_x_executable a kptes fuel s :
  small_range (p_mem s) a kptes -> ready s -> (supported_pte_mask .& _PAGE_NX) = true ->
  exists s', set_memory_x (S fuel) a (Z.of_nat (length kptes)) s = Some (0, s') /\
    (forall k, k ∈ kptes -> made_x (rd (p_mem s) k) (rd (p_mem s') k)) /\
    (forall p, p ∉ kptes -> rd (p_mem s') p = rd (p_mem s) p) /\
    ready s'.
Proof.
  intros R L Hs. unfold set_memory_x. rewrite Hs. cbn [negb].
  assert (Hnx : _PAGE_NX <> 0) by (intros E; rewrite E, Z.land_0_r in Hs; easy).
  destruct (change_clear_x a kptes fuel s R L Hnx) as (s' & E & [Da Db] & L').
  exists s'. split; [easy|]. split; [|split; [|easy]].
  - intros k Hk. apply list_elem_of_lookup in Hk as [j Hj]. apply (Da j); [|easy].
    now apply lookup_lt_Some in Hj.
  - intros p Hp. apply Db. now rewrite firstn_all.
Qed.
End Range.

(** ** Witnesses *)

Module PageRange.
Definition kptes : list Z := [0x4000; 0x4008].

(** The walk for the two pages, in tables that agree outside their entries. *)
Lemma walk m i : (forall p, p ∉ kptes -> rd m p = rd PageDemo.tables p) -> 0 <= i < 2 ->
  @lookup_address PageDemo.paging m (0x200000 + i * 4096) = (Some (0x4000 + 8 * i), PG_LEVEL_4K).
Proof.
  intros H Hi.
  assert (R : forall p, p <> 0x4000 -> p <> 0x4008 -> rd m p = rd PageDemo.tables p)
    by (intros p H1 H2; apply H; unfold kptes; now rewrite !elem_of_cons, elem_of_nil; intros [?|[?|[]]]).
  assert (i = 0 \/ i = 1) as [-> | ->] by lia;
    (rewrite (PageDemo.walk_4k _ _ 0x2063 0x3063 0x4063); [vm_compute; reflexivity|..]).
  all: try (vm_compute; split; [|split]; reflexivity).
  all: match goal with |- rd ?m ?p = ?v =>
    let q := eval vm_compute in p in
    change (rd m q = v); apply (eq_trans (R q ltac:(congruence) ltac:(congruence))) end.
  all: vm_compute; reflexivity.
Qed.
End PageRange.

Lemma static_protections_enforced_witness :
  exists s', @static_protections unit PageDemo.consts PageDemo.paging PageDemo.kernel
      (2 ^ 63 + 0x63) 0x5ff000 0x600 1 0 CPA_PROTECT PageDemo.start = Some (0x61, s').
Proof.
  destruct (@static_protections_enforced unit PageDemo.consts PageDemo.paging PageDemo.kernel
    PageDemo.demo_kernel_ok PageDemo.demo_consts_ok (2 ^ 63 + 0x63) 0x5ff000 0x600 1 0 CPA_PROTECT
    PageDemo.start) as (r & s' & E & _).
  - vm_compute. intuition congruence.
  - vm_compute. intuition congruence.
  - reflexivity.
  - exists s'. rewrite E. f_equal. f_equal.
    enough (Some r = Some 0x61) by congruence.
    transitivity (option_map fst (@static_protections unit PageDemo.consts PageDemo.paging
      PageDemo.kernel (2 ^ 63 + 0x63) 0x5ff000 0x600 1 0 CPA_PROTECT PageDemo.start));
      [now rewrite E|vm_compute; reflexivity].
Defined.

Lemma set_memory_x_executable_witness :
  exists s', @set_memory_x unit PageDemo.consts PageDemo.paging PageDemo.kernel 1 0x200000 2
      PageDemo.start = Some (0, s') /\
    rd (p_mem s') 0x4000 = 0x9000063 /\ rd (p_mem s') 0x4008 = 0x9001063.
Proof.
  destruct (@set_memory_x_executable unit PageDemo.consts PageDemo.paging PageDemo.kernel
    PageDemo.demo_kernel_ok PageDemo.demo_paging_ok PageDemo.demo_consts_ok 0x200000 PageRange.kptes 0
    PageDemo.start) as (s' & E & _).
  - split.
    + vm_compute. intuition congruence.
    + apply (bool_decide_unpack _). vm_compute. exact I.
    + intros m i k H Hk. rewrite PageRange.walk by (try easy; apply lookup_lt_Some in Hk;
        simpl in Hk; lia).
      destruct i as [|[|i]]; simpl in Hk; [| |easy]; injection Hk as <-; reflexivity.
    + repeat constructor.
  - repeat split.
  - reflexivity.
  - exists s'. split; [exact E|].
    assert (E2 : Some s' = option_map snd (@set_memory_x unit PageDemo.consts PageDemo.paging
      PageDemo.kernel 1 0x200000 2 PageDemo.start)) by (change 2 with (Z.of_nat (length PageRange.kptes));
      now rewrite E).
    vm_compute in E2. injection E2 as ->. split; reflexivity.
Defined.
