(* ===== verification/PageSplit.v ===== *)
(** Splitting a 2M page, [__split_large_page] of [kernel_modify/pageattr.c]: the
    new table maps what the large entry mapped, and the counters behind
    /proc/meminfo agree. *)
From Stdlib Require Import ZArith Lia Bool.
From stdpp Require Import base list gmap.
From S2P Require Import Prelude Paging PageProt PageAttr PageLaws PageAttrSpec.

Local Open Scope Z_scope.
Local Open Scope ub_scope.

(** ** Frames and offsets *)

Lemma lor_low x y k : 0 <= k -> 0 <= y < 2 ^ k -> Z.lor (x * 2 ^ k) y = x * 2 ^ k + y.
Proof.
  intros Hk Hy. rewrite <- (Z.add_lor_land (x * 2 ^ k) y).
  replace (Z.land (x * 2 ^ k) y) with 0; [lia|]. symmetry.
  apply Z.bits_inj'. intros i Hi. rewrite Z.land_spec, Z.bits_0, <- Z.shiftl_mul_pow2, Z.shiftl_spec
    by lia.
  destruct (Z.lt_ge_cases i k).
  - now rewrite Z.testbit_neg_r by lia.
  - rewrite <- (Z.mod_small y (2 ^ k)), Z.mod_pow2_bits_high by lia. apply andb_false_r.
Qed.

(** The physical address through a 2M entry and through the 4K entry of the
    page in it. *)
Lemma phys_split f va :
  0 <= f -> f + 512 <= 2 ^ 40 -> f mod 512 = 0 ->
  Z.lor (u64 (Z.shiftl f 12)) (Z.land va (2 ^ 21 - 1)) =
  Z.lor (u64 (Z.shiftl (f + va mod 2 ^ 21 / 4096) 12)) (Z.land va (4096 - 1)).
Proof.
  intros H0 H1 H2. change (2 ^ 21 - 1) with (Z.ones 21). change (4096 - 1) with (Z.ones 12).
  rewrite !Z.land_ones by lia.
  pose proof (Z.mod_pos_bound va (2 ^ 21) ltac:(lia)) as B.
  assert (D : va mod 2 ^ 21 / 4096 < 512) by (apply Z.div_lt_upper_bound; lia).
  assert (D0 : 0 <= va mod 2 ^ 21 / 4096) by (apply Z.div_pos; lia).
  rewrite !Z.shiftl_mul_pow2, !u64_small by (unfold is_u64; lia).
  rewrite (lor_low _ (va mod 2 ^ 12) 12) by (try apply Z.mod_pos_bound; lia).
  assert (E : f * 2 ^ 12 = f / 512 * 2 ^ 21) by (pose proof (Z.div_mod f 512); lia).
  rewrite E, lor_low by lia.
  assert (M : va mod 2 ^ 12 = (va mod 2 ^ 21) mod 2 ^ 12).
  { symmetry. change (2 ^ 21) with (2 ^ 12 * 2 ^ 9). rewrite Z.rem_mul_r by lia.
    rewrite Z.mul_comm, Z.mod_add, Z.mod_mod by lia. easy. }
  rewrite M. pose proof (Z.div_mod (va mod 2 ^ 21) (2 ^ 12) ltac:(lia)).
  change 4096 with (2 ^ 12). lia.
Qed.

(** ** The new table *)

Section Split.
Context {W : Type} {consts : PageConsts} {paging : Paging} {env : PageEnv W}.
Context {env_ok : PageEnvOk env} {paging_ok : PagingOk paging} {consts_ok : PageConstsOk consts paging}.
Implicit Types s : pstate W.

(** Entries [pte, pte + 8, ...], [n] of them, map the frames from [pfn] on;
    without enforced protections with [ref_prot]. *)
Definition table_maps (cpa : cpa_data) (n : nat) (pte pfn ref_prot : Z) (m : ptmem) : Prop :=
  forall j, (j < n)%nat -> exists prot,
    rd m (pte + 8 * Z.of_nat j) = pfn_pte (pfn + Z.of_nat j) prot /\
    (force_static_prot cpa = false -> prot = ref_prot).

Definition outside (n : nat) (pte p : Z) : Prop :=
  forall j, (j < n)%nat -> p <> pte + 8 * Z.of_nat j.

Lemma split_set_pte_spec cpa pte pfn ref_prot addr s :
  exists prot s', split_set_pte cpa pte pfn ref_prot addr PAGE_SIZE s = Some (tt, s') /\
    steady s s' /\ (force_static_prot cpa = false -> prot = ref_prot) /\
    forall p, rd (p_mem s') p = if decide (p = pte) then pfn_pte pfn prot else rd (p_mem s) p.
Proof.
  unfold split_set_pte. rewrite Z.eqb_refl.
  assert (St : forall prot s1, same s s1 -> exists s', store pte (pfn_pte pfn prot) s1 = Some (tt, s') /\
    steady s s' /\ forall p, rd (p_mem s') p = if decide (p = pte) then pfn_pte pfn prot
                                              else rd (p_mem s) p).
  { intros prot s1 [M1 S1]. eexists. split; [reflexivity|]. split; [exact S1|].
    intros p. cbn [p_mem set_p_mem]. rewrite store_entry_insert, M1.
    destruct (decide (p = pte)) as [->|]; [apply rd_insert_eq|now apply rd_insert_ne]. }
  destruct (force_static_prot cpa); cbn [negb].
  - destruct (static_spec ref_prot addr pfn (u32 (PFN_DOWN PAGE_SIZE)) 0 CPA_PROTECT s)
      as (s1 & E & S1). set (v := static_value _ _ _ _ _ _) in E.
    destruct (St (if v =? ref_prot then ref_prot else v) s1 S1) as (s' & E' & H1 & H2).
    exists (if v =? ref_prot then ref_prot else v), s'.
    split; [|split; [exact H1|split; [easy|exact H2]]].
    unfold bind at 1 2. rewrite E. now destruct (v =? ref_prot).
  - destruct (St ref_prot s ltac:(reflexivity)) as (s' & E' & H1 & H2).
    now exists ref_prot, s'.
Qed.

Lemma split_loop_spec cpa ref_prot n : forall pte pfn lpaddr s,
  0 <= pfn -> pfn + Z.of_nat n <= 2 ^ 40 ->
  exists s', split_loop n cpa pte pfn 1 ref_prot lpaddr PAGE_SIZE s = Some (tt, s') /\
    steady s s' /\ table_maps cpa n pte pfn ref_prot (p_mem s') /\
    forall p, outside n pte p -> rd (p_mem s') p = rd (p_mem s) p.
Proof.
  induction n as [|n IH]; intros pte pfn lpaddr s H0 H1; cbn [split_loop].
  - exists s. repeat split. intros j Hj. lia.
  - destruct (split_set_pte_spec cpa pte pfn ref_prot lpaddr s) as (prot & s1 & E1 & S1 & P1 & M1).
    rewrite (u64_small (pfn + 1)) by (unfold is_u64; lia).
    destruct (IH (pte + 8) (pfn + 1) (u64 (lpaddr + PAGE_SIZE)) s1) as (s2 & E2 & S2 & T2 & M2); try lia.
    exists s2. unfold bind. rewrite E1, E2. split; [easy|].
    split; [unfold steady in *; intuition congruence|]. split.
    + intros [|j] Hj.
      * exists prot. split; [|easy]. rewrite M2, M1 by (intros j' _; lia).
        rewrite !Z.add_0_r, decide_True; [easy|lia].
      * destruct (T2 j) as (prot' & T & Q); [lia|]. exists prot'. split; [|easy].
        replace (pte + 8 * Z.of_nat (S j)) with (pte + 8 + 8 * Z.of_nat j) by lia.
        replace (pfn + Z.of_nat (S j)) with (pfn + 1 + Z.of_nat j) by lia. easy.
    + intros p Hp. rewrite M2, M1.
      * rewrite decide_False; [easy|]. specialize (Hp 0%nat). lia.
      * intros j Hj. specialize (Hp (S j)). lia.
Qed.

(** The number of 4K pages in a 2M page. *)
Definition small_per_large : nat := 512.

(** The 2M page at [base_va] is mapped by [kpte]; the page [base] can become its
    table: its entries are others than [kpte], and a walk that finds [kpte]
    pointing to it reaches the entry of the address. *)
Record split_site (m : ptmem) (kpte base base_va : Z) : Prop := {
  site_aligned : 0 <= base_va /\ base_va mod 2 ^ 21 = 0;
  site_mapped : forall va, base_va <= va < base_va + 2 ^ 21 ->
    lookup_address m va = (Some kpte, PG_LEVEL_2M);
  site_large : pmd_large (rd m kpte) = true;
  site_apart : outside small_per_large (page_address base) kpte;
  site_walk : forall m' va, base_va <= va < base_va + 2 ^ 21 ->
    rd m' kpte = mk_pte base _KERNPG_TABLE ->
    (forall p, p <> kpte -> outside small_per_large (page_address base) p -> rd m' p = rd m p) ->
    lookup_address m' va = (Some (page_address base + 8 * (va mod 2 ^ 21 / 4096)), PG_LEVEL_4K)
}.

(** The rest of the tables as before; the new entries as [table_maps] says. *)
Record split_done (cpa : cpa_data) (kpte base : Z) (s s' : pstate W) : Prop := {
  split_table : table_maps cpa small_per_large (page_address base) (pmd_pfn (rd (p_mem s) kpte))
    (pgprot_clear_protnone_bits (pgprot_large_2_4k (pmd_pgprot (rd (p_mem s) kpte)))) (p_mem s');
  split_entry : rd (p_mem s') kpte = mk_pte base _KERNPG_TABLE;
  split_rest : forall p, p <> kpte -> outside small_per_large (page_address base) p ->
    rd (p_mem s') p = rd (p_mem s) p;
  split_steady : steady s s'
}.

Lemma split_page_count_same level s :
  exists s', split_page_count level s = Some (tt, s') /\ same s s'.
Proof.
  unfold split_page_count, bind. cbn [gets]. destruct (direct_pages_count s level =? 0).
  - now exists s.
  - eexists. split; [reflexivity|]. now split.
Qed.

Lemma split_large_page_2m cpa kpte address base base_va s :
  split_site (p_mem s) kpte base base_va -> base_va <= address < base_va + 2 ^ 21 ->
  cpa_pgd cpa = 0 -> pgd_lock s = false ->
  exists s', __split_large_page cpa kpte address base s = Some (0, s') /\
    split_done cpa kpte base s s'.
Proof.
  intros Si Ha Hp Hl. unfold __split_large_page, bind at 1, lock_pgd, modify. rewrite Hl.
  unfold bind at 1. cbn [gets p_mem set_pgd_lock]. unfold _lookup_address_cpa. rewrite Hp. cbn [Z.eqb negb].
  rewrite (site_mapped _ _ _ _ Si _ Ha), bool_decide_eq_true_2 by easy. cbn [negb].
  set (s0 := set_pgd_lock true s).
  destruct (quiet_pcall (paravirt_alloc_pte (page_to_pfn base)) eq_refl s0) as ([] & s1 & E1 & M1 & S1).
  unfold bind at 1. rewrite E1. unfold bind at 1. unfold load, gets. rewrite M1. cbn [p_mem s0 set_pgd_lock].
  set (e := rd (p_mem s) kpte). cbn [split_params].
  destruct (pmd_pfn_aligned e (site_large _ _ _ _ Si)) as (F0 & F1 & _).
  destruct (split_loop_spec cpa (pgprot_clear_protnone_bits (pgprot_large_2_4k (pmd_pgprot e)))
    small_per_large (page_address base) (pmd_pfn e) (align_down address PMD_SIZE) s1)
    as (s2 & E2 & S2 & T2 & M2); [easy|change (Z.of_nat small_per_large) with 512; lia|].
  rewrite ptrs_per_pte. change (Z.to_nat 512) with small_per_large.
  unfold bind at 1. rewrite E2.
  match goal with |- context [bind (if ?c then split_page_count PG_LEVEL_2M else ret tt)] =>
    assert (Q : exists s3, (when c do split_page_count PG_LEVEL_2M) s2 = Some (tt, s3) /\ same s2 s3) end.
  { destruct (_ && _); [apply split_page_count_same|now exists s2]. }
  destruct Q as (s3 & E3 & M3 & S3). unfold bind at 1. rewrite E3.
  unfold bind at 1, __set_pmd_pte, store at 1. unfold modify. rewrite store_entry_insert, M3.
  set (s4 := set_p_mem _ s3).
  destruct (quiet_pcall flush_tlb_all eq_refl s4) as ([] & s5 & E5 & M5 & S5).
  unfold bind at 1. rewrite E5.
  assert (L5 : pgd_lock s5 = true).
  { destruct S5 as (_ & K5 & _), S3 as (_ & K3 & _), S2 as (_ & K2 & _), S1 as (_ & K1 & _).
    rewrite K5. cbn. now rewrite K3, K2, K1. }
  unfold bind at 1, unlock_pgd, modify. rewrite L5. eexists. split; [reflexivity|].
  split; cbn [p_mem set_pgd_lock]; rewrite ?M5; cbn [p_mem s4 set_p_mem].
  - intros j Hj. rewrite rd_insert_ne; [now apply T2|].
    apply (site_apart _ _ _ _ Si j Hj).
  - apply rd_insert_eq.
  - intros p H1 H2. rewrite rd_insert_ne, M2 by easy. now rewrite M1.
  - unfold steady, irq_ok in *. cbn in *. intuition congruence.
Qed.

Lemma in_page_base base_va va :
  0 <= base_va -> base_va mod 2 ^ 21 = 0 -> base_va <= va < base_va + 2 ^ 21 ->
  va mod 2 ^ 21 = va - base_va.
Proof.
  intros H0 H1 H2. replace va with (va - base_va + base_va / 2 ^ 21 * 2 ^ 21) at 1
    by (pose proof (Z.div_mod base_va (2 ^ 21)); lia).
  rewrite Z.mod_add, Z.mod_small by lia. easy.
Qed.

Lemma split_translation cpa kpte base base_va s s' va :
  split_site (p_mem s) kpte base base_va -> split_done cpa kpte base s s' ->
  base_va <= va < base_va + 2 ^ 21 ->
  slow_virt_to_phys (p_mem s') va = slow_virt_to_phys (p_mem s) va.
Proof.
  intros Si D Hva. unfold slow_virt_to_phys. rewrite (site_mapped _ _ _ _ Si _ Hva).
  rewrite (site_walk _ _ _ _ Si _ _ Hva (split_entry _ _ _ _ _ D) (split_rest _ _ _ _ _ D)).
  destruct (pmd_pfn_aligned _ (site_large _ _ _ _ Si)) as (F0 & F1 & F2).
  destruct (site_aligned _ _ _ _ Si) as [A0 A1].
  pose proof (in_page_base _ _ A0 A1 Hva) as Hm.
  assert (B0 : 0 <= va mod 2 ^ 21 / 4096) by (rewrite Hm; apply Z.div_pos; lia).
  assert (B1 : va mod 2 ^ 21 / 4096 < 512) by (rewrite Hm; apply Z.div_lt_upper_bound; lia).
  destruct (split_table _ _ _ _ _ D (Z.to_nat (va mod 2 ^ 21 / 4096))) as (prot & E & _);
    [unfold small_per_large; lia|].
  rewrite Z2Nat.id in E by easy. rewrite E, pfn_pte_pfn by lia.
  unfold PMD_SIZE. rewrite page_size, page_shift, pmd_shift. change (Z.shiftl 1 21) with (2 ^ 21).
  f_equal. symmetry. now apply phys_split.
Qed.

(** C29. Splitting a 2M page succeeds and is invisible: every address of the
    page is translated to the same physical address as before, now through an
    entry of its own; without enforced protections all entries get the large
    page's protection; no entry other than the large one and the new table
    changes; and the lock of the page directory is released. *)
Theorem split_keeps_translation cpa kpte address base base_va s :
  split_site (p_mem s) kpte base base_va -> base_va <= address < base_va + 2 ^ 21 ->
  cpa_pgd cpa = 0 -> pgd_lock s = false ->
  exists s', __split_large_page cpa kpte address base s = Some (0, s') /\
    (forall va, base_va <= va < base_va + 2 ^ 21 ->
       slow_virt_to_phys (p_mem s') va = slow_virt_to_phys (p_mem s) va /\
       snd (lookup_address (p_mem s') va) = PG_LEVEL_4K) /\
    split_done cpa kpte base s s'.
Proof.
  intros Si Ha Hp Hl. destruct (split_large_page_2m cpa kpte address base base_va s Si Ha Hp Hl)
    as (s' & E & D).
  exists s'. split; [easy|]. split; [|easy]. intros va Hva. split.
  - now apply (split_translation cpa kpte base base_va).
  - now rewrite (site_walk _ _ _ _ Si _ _ Hva (split_entry _ _ _ _ _ D) (split_rest _ _ _ _ _ D)).
Qed.

(** ** The counters of /proc/meminfo *)

(** The kilobytes of direct map that the lines add up to. *)
Definition reported (l : list Z) : Z := fold_right Z.add 0 l.

(** Every counter fits the shift its line applies. *)
Definition counts_fit (f : pg_level -> Z) : Prop :=
  0 <= f PG_LEVEL_4K < 2 ^ 44 /\ 0 <= f PG_LEVEL_2M < 2 ^ 40 /\ 0 <= f PG_LEVEL_1G < 2 ^ 34.

(** Splitting a page of the direct map leaves the total that /proc/meminfo
    reports unchanged: [split_page_count] takes one page off its level and adds
    512 of the next smaller size, or does nothing when the level has none. *)
Theorem split_keeps_meminfo level s :
  counts_fit (direct_pages_count s) -> level = PG_LEVEL_2M \/ level = PG_LEVEL_1G ->
  direct_gbpages = true ->
  exists s' l l', split_page_count level s = Some (tt, s') /\
    arch_report_meminfo s = Some (l, s) /\ arch_report_meminfo s' = Some (l', s') /\
    reported l' = reported l /\
    (direct_pages_count s level <> 0 ->
       direct_pages_count s' level = direct_pages_count s level - 1).
Proof.
  intros (C1 & C2 & C3) Hlv Hg. unfold split_page_count, arch_report_meminfo, bind, gets, ret.
  rewrite Hg. destruct (Z.eqb_spec (direct_pages_count s level) 0) as [Hz|Hz].
  - eexists s, _, _. repeat split. easy.
  - eexists _, _, _. split; [reflexivity|]. split; [reflexivity|]. split; [reflexivity|].
    cbn [direct_pages_count set_count]. unfold add_count, reported. cbn [fold_right app].
    rewrite ptrs_per_pte.
    destruct Hlv as [-> | ->]; cbn [level_prev];
      repeat (case_decide; try congruence);
      rewrite (u64_small (_ + 512)), (u64_small (_ + -1)), !Z.shiftl_mul_pow2, !u64_small;
      unfold is_u64; lia.
Qed.
End Split.

(** ** Witnesses *)

Module SplitDemo.
Lemma site : @split_site PageDemo.consts PageDemo.paging PageDemo.tables 0x3000 0x700 0.
Proof.
  assert (Z1 : forall va k, 0 <= va < 0 + 2 ^ 21 -> 21 <= k -> va / 2 ^ k = 0).
  { intros va k H Hk. apply Z.div_small. split; [lia|].
    apply Z.lt_le_trans with (2 ^ 21); [lia|]. apply Z.pow_le_mono_r; lia. }
  split.
  - split; reflexivity.
  - intros va H. rewrite (PageDemo.walk_2m _ _ 0x2063 0x3063 (0xa0000e3 + 2 ^ 63)).
    all: rewrite ?Z1 by (easy || lia). 1: vm_compute; reflexivity.
    all: try (vm_compute; split; [|split]; reflexivity). all: vm_compute; reflexivity.
  - reflexivity.
  - intros j Hj. cbn. lia.
  - intros m' va H E R.
    assert (O : forall p, p < 0x700000 -> p <> 0x3000 -> rd m' p = rd PageDemo.tables p).
    { intros p Hp Hk. apply R; [easy|]. intros j Hj.
      change (@page_address PageDemo.consts 0x700) with 0x700000. lia. }
    rewrite (PageDemo.walk_4k _ _ 0x2063 0x3063 0x700063).
    + unfold PageDemo.step. change (4096 * PageDemo.frame 0x700063) with 0x700000.
      change (@page_address PageDemo.consts 0x700) with 0x700000. change (2 ^ 12) with 4096.
      rewrite (Z.mod_small va) by lia. rewrite (Z.mod_small (va / 4096)); [easy|].
      split; [apply Z.div_pos; lia|apply Z.div_lt_upper_bound; lia].
    + rewrite Z1 by (easy || lia). apply (eq_trans (O 0x1000 eq_refl ltac:(easy))).
      vm_compute. reflexivity.
    + vm_compute. split; [|split]; reflexivity.
    + rewrite Z1 by (easy || lia). apply (eq_trans (O 0x2000 eq_refl ltac:(easy))).
      vm_compute. reflexivity.
    + vm_compute. split; [|split]; reflexivity.
    + rewrite Z1 by (easy || lia). exact E.
    + vm_compute. split; [|split]; reflexivity.
Qed.
End SplitDemo.

Lemma split_keeps_translation_witness :
  exists s', @__split_large_page unit PageDemo.consts PageDemo.paging PageDemo.kernel
      (CpaData [0x1000] 0 0 0 1 0 0 0 false false false []) 0x3000 0x1000 0x700 PageDemo.start
      = Some (0, s') /\
    @slow_virt_to_phys PageDemo.consts PageDemo.paging (p_mem s') 0x1234 = Some 0xa001234.
Proof.
  destruct (@split_keeps_translation unit PageDemo.consts PageDemo.paging PageDemo.kernel
    PageDemo.demo_kernel_ok PageDemo.demo_paging_ok PageDemo.demo_consts_ok
    (CpaData [0x1000] 0 0 0 1 0 0 0 false false false []) 0x3000 0x1000 0x700 0 PageDemo.start
    SplitDemo.site ltac:(lia) eq_refl eq_refl) as (s' & E & T & _).
  exists s'. split; [exact E|]. rewrite (proj1 (T 0x1234 ltac:(lia))). vm_compute. reflexivity.
Defined.

Lemma split_keeps_meminfo_witness :
  exists s', @split_page_count unit PageDemo.consts PG_LEVEL_2M PageDemo.start = Some (tt, s') /\
    direct_pages_count s' PG_LEVEL_2M = 6.
Proof.
  destruct (@split_keeps_meminfo unit PageDemo.consts PageDemo.paging PageDemo.kernel
    PageDemo.demo_consts_ok PG_LEVEL_2M PageDemo.start) as (s' & l & l' & E & _ & _ & _ & H).
  - vm_compute. intuition congruence.
  - now left.
  - reflexivity.
  - exists s'. split; [exact E|]. apply H. easy.
Defined.
