(* ===== verification/PageSafety.v ===== *)
(** The locks and the cache flushing of [kernel_modify/pageattr.c]: every
    function of the interface releases what it takes, and a range flush reaches
    every cache line of its range. *)
From Stdlib Require Import ZArith Lia Bool String.
From stdpp Require Import base list gmap.
From S2P Require Import Prelude Paging PageProt Populate PageAttr PageLaws PageAttrSpec.

Local Open Scope Z_scope.
Local Open Scope ub_scope.

(** ** Locks *)

Section Locks.
Context {W : Type} {consts : PageConsts} {paging : Paging} {env : PageEnv W}.
Context {env_ok : PageEnvOk env}.
Implicit Types s : pstate W.

(** From a state in which [cpa_lock] and [pgd_lock] are held as [c] and [p] say, [m]
    ends, if it does, with them as [c'] and [p'] say, and never takes a lock that is held
    or releases one that is not. *)
Definition moves (c p c' p' : bool) {A : Type} (m : M (pstate W) A) : Prop :=
  forall s a s', cpa_lock s = c -> pgd_lock s = p -> m s = Some (a, s') ->
    cpa_lock s' = c' /\ pgd_lock s' = p' /\
    exists l, p_calls s' = l ++ p_calls s /\ lock_misuse ∉ l.

(** Nothing is logged. *)
Lemma moves_silent c p c' p' {A} (m : M (pstate W) A) :
  (forall s a s', cpa_lock s = c -> pgd_lock s = p -> m s = Some (a, s') ->
    cpa_lock s' = c' /\ pgd_lock s' = p' /\ p_calls s' = p_calls s) -> moves c p c' p' m.
Proof.
  intros H s a s' Hc Hp E. destruct (H s a s' Hc Hp E) as (H1 & H2 & H3).
  split; [exact H1|]. split; [exact H2|]. exists []. split; [exact H3|apply not_elem_of_nil].
Qed.

Lemma moves_ret c p {A} (a : A) : moves c p c p (ret a).
Proof. apply moves_silent. now intros s a' s' Hc Hp [= <- <-]. Qed.
Lemma moves_gets c p {A} (f : pstate W -> A) : moves c p c p (gets f).
Proof. apply moves_silent. now intros s a' s' Hc Hp [= <- <-]. Qed.
Lemma moves_diverge c p c' p' {A} : moves c p c' p' (@diverge (pstate W) A).
Proof. easy. Qed.
Lemma moves_bind c p c1 p1 c2 p2 {A B} (m : M (pstate W) A) (k : A -> M (pstate W) B) :
  moves c p c1 p1 m -> (forall a, moves c1 p1 c2 p2 (k a)) -> moves c p c2 p2 (bind m k).
Proof.
  intros Hm Hk s b s' Hc Hp H. apply bind_inv in H as (a & s1 & H1 & H2).
  destruct (Hm s a s1 Hc Hp H1) as (A1 & A2 & l1 & A3 & A4).
  destruct (Hk a s1 b s' A1 A2 H2) as (B1 & B2 & l2 & B3 & B4).
  split; [exact B1|]. split; [exact B2|]. exists (l2 ++ l1). split; [now rewrite B3, A3, app_assoc|].
  rewrite elem_of_app. now intros [H|H].
Qed.

Lemma moves_pcall_ret c p call : call <> lock_misuse -> moves c p c p (pcall_ret call).
Proof.
  intros N s a s' Hc Hp H. unfold pcall_ret in H. destruct (pext call s) as [[r s1]|] eqn:E; [|easy].
  injection H as <- <-. destruct (calls_steady call s r s1 E) as (H1 & H2 & _).
  cbn.
  split; [congruence|]. split; [congruence|]. exists (call :: []). split; [reflexivity|].
  rewrite list_elem_of_singleton. congruence.
Qed.
Lemma moves_pcall c p call : call <> lock_misuse -> moves c p c p (pcall_ call).
Proof. intros N. apply (moves_bind c p c p c p); [now apply moves_pcall_ret|]. intros. apply moves_ret. Qed.
Lemma moves_store c p a v : moves c p c p (store a v).
Proof. apply moves_silent. now intros s a' s' Hc Hp [= <- <-]. Qed.
Lemma moves_load c p a : moves c p c p (load a).
Proof. apply moves_gets. Qed.
Lemma moves_of_option c p {A} (o : option A) : moves c p c p (of_option o).
Proof. destruct o; [apply moves_ret|apply moves_diverge]. Qed.
Lemma moves_bug_on c p b : moves c p c p (bug_on b).
Proof. destruct b; [apply moves_diverge|apply moves_ret]. Qed.
Lemma moves_count c p f : moves c p c p (modify (fun s => set_count (f s) s)).
Proof. apply moves_silent. now intros s a' s' Hc Hp [= <- <-]. Qed.

Lemma moves_lock_pgd c : moves c false c true lock_pgd.
Proof. apply moves_silent. intros s a s' Hc Hp [= <- <-]. now rewrite Hp. Qed.
Lemma moves_unlock_pgd c : moves c true c false unlock_pgd.
Proof. apply moves_silent. intros s a s' Hc Hp [= <- <-]. now rewrite Hp. Qed.

(** [cpa_lock] is used unless page-allocation debugging is on. *)
Definition round : bool := negb debug_pagealloc_enabled.
Lemma moves_lock_cpa p : moves false p round p (when negb debug_pagealloc_enabled do lock_cpa).
Proof.
  unfold round. destruct debug_pagealloc_enabled; [apply moves_ret|].
  apply moves_silent. intros s a s' Hc Hp [= <- <-]. now rewrite Hc.
Qed.
Lemma moves_unlock_cpa p : moves round p false p (when negb debug_pagealloc_enabled do unlock_cpa).
Proof.
  unfold round. destruct debug_pagealloc_enabled; [apply moves_ret|].
  apply moves_silent. intros s a s' Hc Hp [= <- <-]. now rewrite Hc.
Qed.
End Locks.

Create HintDb moves discriminated.
#[export] Hint Resolve moves_ret moves_gets moves_diverge moves_pcall_ret moves_pcall moves_store
  moves_load moves_of_option moves_bug_on moves_count moves_lock_pgd moves_unlock_pgd
  moves_lock_cpa moves_unlock_cpa : moves.
#[export] Hint Extern 1 (_ <> lock_misuse) => discriminate : moves.

(** Follows the code; a lock operation changes what is held, all else must not. *)
Ltac moves_step :=
  lazymatch goal with
  | |- moves ?c ?p ?c' ?p' (bind ?m ?k) =>
      lazymatch m with
      | lock_pgd => apply (moves_bind c p c true c' p' m k)
      | unlock_pgd => apply (moves_bind c p c false c' p' m k)
      | (if negb debug_pagealloc_enabled then lock_cpa else _) => apply (moves_bind c p round p c' p' m k)
      | (if negb debug_pagealloc_enabled then unlock_cpa else _) => apply (moves_bind c p false p c' p' m k)
      | _ => apply (moves_bind c p c p c' p' m k)
      end; [|intros ?]
  | |- forall _, _ => intros ?
  | |- moves _ _ _ _ (if ?b then _ else _) => destruct b
  | |- moves _ _ _ _ (match ?v with _ => _ end) => destruct v
  | |- moves _ _ _ _ (let _ := _ in _) => cbv zeta
  | |- moves _ _ _ _ ((fun _ => _) _) => cbn beta
  end.
Ltac moves_auto := repeat (solve [auto with moves] || moves_step).

Section Balance.
Context {W : Type} {consts : PageConsts} {paging : Paging} {env : PageEnv W}.
Context {env_ok : PageEnvOk env}.
(** Whatever is held; with [pgd_lock] free; inside a round of [change_loop]; outside. *)
Abbreviation balanced m := (forall c p, moves (W := W) c p c p m).
Abbreviation unlocked m := (forall c, moves (W := W) c false c false m).
Abbreviation inside m := (moves (W := W) round false round false m).
Abbreviation outside m := (moves (W := W) false false false false m).

Lemma balanced_conflicts w prot a e pfn l : balanced (check_conflicts w prot a e pfn l).
Proof. induction l as [|[txt res] l IH]; simpl; unfold check_conflict; moves_auto. Qed.
Hint Resolve balanced_conflicts : moves.
Lemma balanced_static prot a pfn npg lp w : balanced (static_protections prot a pfn npg lp w).
Proof. unfold static_protections. moves_auto. Qed.
Lemma balanced_clflush_loop n p e : balanced (clflush_loop n p e).
Proof. revert p. induction n; intros p; simpl; moves_auto. Qed.
Hint Resolve balanced_static balanced_clflush_loop : moves.
Lemma balanced_on_each n (m : M (pstate W) unit) : balanced m -> balanced (on_each_cpu n m).
Proof. intros H. induction n; simpl; moves_auto. Qed.
Lemma balanced_flush_tlb_loop cpa n i : balanced (flush_tlb_loop cpa i n).
Proof. revert i. induction n; intros i; simpl; moves_auto. Qed.
Hint Resolve balanced_on_each balanced_flush_tlb_loop : moves.
Lemma balanced_cpa_flush_all b : balanced (cpa_flush_all b).
Proof.
  unfold cpa_flush_all, __cpa_flush_all. moves_auto. all: apply balanced_on_each; moves_auto.
Qed.
Lemma balanced_flush_cache_loop cpa n i : balanced (flush_cache_loop cpa i n).
Proof.
  revert i. induction n; intros i; simpl; unfold clflush_cache_range_opt; moves_auto.
Qed.
Hint Resolve balanced_cpa_flush_all balanced_flush_cache_loop : moves.
Lemma balanced_cpa_flush cpa b : balanced (cpa_flush cpa b).
Proof. unfold cpa_flush, __cpa_flush_tlb. moves_auto. Qed.

(** *** Creating and removing mappings *)

Lemma balanced_free_pte p : balanced (try_to_free_pte_page p).
Proof. unfold try_to_free_pte_page. moves_auto. Qed.
Lemma balanced_free_pmd p : balanced (try_to_free_pmd_page p).
Proof. unfold try_to_free_pmd_page. moves_auto. Qed.
Lemma balanced_clear_ptes n p a e : balanced (clear_ptes n p a e).
Proof. revert p a. induction n; intros; simpl; moves_auto. Qed.
Hint Resolve balanced_free_pte balanced_free_pmd balanced_clear_ptes : moves.
Lemma balanced_free_pmd_of p : balanced (free_pmd_of p).
Proof. unfold free_pmd_of. moves_auto. Qed.
Hint Resolve balanced_free_pmd_of : moves.
Lemma balanced_unmap_small pud pmd a e : balanced (__unmap_pmd_range pud pmd a e).
Proof. unfold __unmap_pmd_range, unmap_pte_range. moves_auto. Qed.
Hint Resolve balanced_unmap_small : moves.
Lemma balanced_pmd_chunks n pud pmd a e : balanced (unmap_pmd_chunks n pud pmd a e).
Proof. revert pmd a. induction n; intros; simpl; moves_auto. Qed.
Hint Resolve balanced_pmd_chunks : moves.
Lemma balanced_unmap_rest pud a e pmd : balanced (unmap_pmd_rest pud a e pmd).
Proof. unfold unmap_pmd_rest. moves_auto. Qed.
Hint Resolve balanced_unmap_rest : moves.
Lemma balanced_unmap_pmd pud a e : balanced (unmap_pmd_range pud a e).
Proof. unfold unmap_pmd_range. moves_auto. Qed.
Hint Resolve balanced_unmap_pmd : moves.
Lemma balanced_pud_chunks n pud a e : balanced (unmap_pud_chunks n pud a e).
Proof. revert pud a. induction n; intros; simpl; moves_auto. Qed.
Hint Resolve balanced_pud_chunks : moves.
Lemma balanced_unmap_pud p4d a e : balanced (unmap_pud_range p4d a e).
Proof. unfold unmap_pud_range. moves_auto. Qed.
Lemma balanced_alloc_table p : balanced (alloc_table p).
Proof. unfold alloc_table. moves_auto. Qed.
Hint Resolve balanced_unmap_pud balanced_alloc_table : moves.
Lemma balanced_need_pte p : balanced (need_pte_page p).
Proof. unfold need_pte_page, alloc_pte_page. moves_auto. Qed.
Lemma balanced_need_pmd p : balanced (need_pmd_page p).
Proof. unfold need_pmd_page, alloc_pmd_page. moves_auto. Qed.
Lemma balanced_populate_ptes n a e p pfn prot : balanced (populate_ptes n a e p pfn prot).
Proof. revert a p pfn. induction n; intros; simpl; moves_auto. Qed.
Hint Resolve balanced_need_pte balanced_need_pmd balanced_populate_ptes : moves.
Lemma balanced_populate_pte cpa a e n pmd prot : balanced (populate_pte cpa a e n pmd prot).
Proof. unfold populate_pte. moves_auto. Qed.
Lemma balanced_populate_2m n cpa a e c pud prot : balanced (populate_2m n cpa a e c pud prot).
Proof. revert cpa a c. induction n; intros; simpl; moves_auto. Qed.
Lemma balanced_populate_1g n cpa a e c pud prot : balanced (populate_1g n cpa a e c pud prot).
Proof. revert cpa a c pud. induction n; intros; simpl; moves_auto. Qed.
Hint Resolve balanced_populate_pte balanced_populate_2m balanced_populate_1g : moves.
Lemma balanced_populate_pmd cpa a e n pud prot : balanced (populate_pmd cpa a e n pud prot).
Proof. unfold populate_pmd, populate_pmd_head, populate_pmd_rest. moves_auto. Qed.
Hint Resolve balanced_populate_pmd : moves.
Lemma balanced_populate_pud cpa a p4d prot : balanced (populate_pud cpa a p4d prot).
Proof. unfold populate_pud, populate_pud_rest. moves_auto. Qed.
Hint Resolve balanced_populate_pud : moves.
Lemma balanced_populate_pgd cpa a : balanced (populate_pgd cpa a).
Proof. unfold populate_pgd. moves_auto. Qed.
Hint Resolve balanced_populate_pgd : moves.

(** *** Splitting and changing *)

Lemma balanced_split_set_pte cpa p pfn prot a size : balanced (split_set_pte cpa p pfn prot a size).
Proof. unfold split_set_pte. moves_auto. Qed.
Hint Resolve balanced_split_set_pte : moves.
Lemma balanced_split_loop n cpa p pfn inc prot a ainc :
  balanced (split_loop n cpa p pfn inc prot a ainc).
Proof. revert p pfn a. induction n; intros; simpl; moves_auto. Qed.
Lemma balanced_split_count l : balanced (split_page_count l).
Proof. unfold split_page_count. moves_auto. Qed.
Hint Resolve balanced_split_loop balanced_split_count : moves.
Lemma balanced_set_pmd_pte p v : balanced (__set_pmd_pte p v).
Proof. intros c0 p0. apply moves_store. Qed.
Hint Resolve balanced_set_pmd_pte : moves.
Lemma balanced_split cpa kpte a base : unlocked (__split_large_page cpa kpte a base).
Proof. unfold __split_large_page. moves_auto. Qed.
Hint Resolve balanced_split : moves.
Lemma balanced_split_large_page cpa kpte a : inside (split_large_page cpa kpte a).
Proof. unfold split_large_page. moves_auto. Qed.
Hint Resolve balanced_split_large_page : moves.
Lemma balanced_large_check kpte a cpa l prot pfn : balanced (large_page_check kpte a cpa l prot pfn).
Proof. unfold large_page_check. moves_auto. Qed.
Hint Resolve balanced_large_check : moves.
Lemma balanced_should_split' kpte a cpa : balanced (__should_split_large_page kpte a cpa).
Proof. unfold __should_split_large_page. moves_auto. Qed.
Hint Resolve balanced_should_split' : moves.
Lemma balanced_should_split kpte a cpa : unlocked (should_split_large_page kpte a cpa).
Proof. unfold should_split_large_page. moves_auto. Qed.
Hint Resolve balanced_should_split : moves.
Lemma balanced_process_fault cpa a b : balanced (__cpa_process_fault cpa a b).
Proof. unfold __cpa_process_fault. moves_auto. Qed.
Lemma balanced_change_4k cpa p e a : balanced (change_4k cpa p e a).
Proof. unfold change_4k. moves_auto. Qed.
Hint Resolve balanced_process_fault balanced_change_4k : moves.
Lemma balanced_change_at fuel cpa a b : inside (change_page_attr_at fuel cpa a b).
Proof. revert cpa. induction fuel; intros; simpl; moves_auto. Qed.
Hint Resolve balanced_change_at : moves.
Lemma balanced_change fuel cpa b : inside (__change_page_attr fuel cpa b).
Proof. unfold __change_page_attr. moves_auto. Qed.
Hint Resolve balanced_change : moves.
Lemma balanced_change_loop n fuel alias cpa b r :
  (forall c, outside (alias c)) -> outside (change_loop n fuel alias cpa b r).
Proof.
  intros H. revert cpa r. induction n; intros; cbn [change_loop]; [apply moves_diverge|moves_auto].
Qed.
Lemma balanced_no_alias fuel cpa : outside (change_no_alias fuel cpa).
Proof.
  unfold change_no_alias. moves_auto. apply balanced_change_loop. intros. apply moves_ret.
Qed.
Hint Resolve balanced_no_alias : moves.
Lemma balanced_alias fuel cpa : outside (cpa_process_alias fuel cpa).
Proof. unfold cpa_process_alias. moves_auto. Qed.
Lemma balanced_set_clr' fuel cpa b : outside (__change_page_attr_set_clr fuel cpa b).
Proof.
  unfold __change_page_attr_set_clr. moves_auto. apply balanced_change_loop, balanced_alias.
Qed.
Lemma balanced_align l : balanced (align_addrs l).
Proof. induction l; simpl; moves_auto. Qed.
Hint Resolve balanced_set_clr' balanced_align balanced_cpa_flush : moves.
Lemma balanced_set_clr fuel addr n set clr sp fl pgs :
  outside (change_page_attr_set_clr fuel addr n set clr sp fl pgs).
Proof. unfold change_page_attr_set_clr. moves_auto. Qed.
End Balance.
#[export] Hint Resolve balanced_set_clr balanced_set_clr' balanced_cpa_flush : moves.

Section Interface.
Context {W : Type} {consts : PageConsts} {paging : Paging} {env : PageEnv W}.

(** Every call of the interface that changes attributes, for the given
    arguments: of ranges, of pages and arrays of pages, and of the mappings in a
    page directory. *)
Definition attribute_calls (fuel : nat) (a n : Z) (pgs : list Z) (pgd pfn flags : Z)
  : list (M (pstate W) Z) :=
  [set_memory_uc fuel a n; set_memory_wc fuel a n; _set_memory_wt fuel a n; set_memory_wb fuel a n;
   set_memory_x fuel a n; set_memory_nx fuel a n; set_memory_ro fuel a n; set_memory_rw fuel a n;
   set_memory_np fuel a n; set_memory_np_noalias fuel a n; set_memory_4k fuel a n;
   set_memory_nonglobal fuel a n; set_memory_global fuel a n; set_memory_encrypted fuel a n;
   set_memory_decrypted fuel a n; set_pages_uc fuel a n; set_pages_wb fuel a n;
   set_pages_ro fuel a n; set_pages_rw fuel a n; set_pages_array_uc fuel pgs n;
   set_pages_array_wc fuel pgs n; set_pages_array_wt fuel pgs n; set_pages_array_wb fuel pgs n;
   set_direct_map_invalid_noflush fuel a; set_direct_map_default_noflush fuel a;
   kernel_map_pages_in_pgd fuel pgd pfn a n flags; kernel_unmap_pages_in_pgd fuel pgd a n].

Context {env_ok : PageEnvOk env}.

Lemma balanced_reserve n pgs t c p : moves (W := W) c p c p (reserve_pages n pgs t).
Proof. revert pgs. induction n; intros [|pg pgs]; simpl; moves_auto. Qed.
Lemma balanced_free n pgs c p : moves (W := W) c p c p (free_pages n pgs).
Proof. revert pgs. induction n; intros [|pg pgs]; simpl; moves_auto. Qed.
Hint Resolve balanced_reserve balanced_free : moves.

(** C30. Whatever path a change of attributes takes, splits, aliases, missing
    mappings, exhausted memory and errors included: called with both locks free, it
    never takes a lock that it holds, never releases one that it does not hold, and when
    it returns both locks are free. *)
Theorem attribute_calls_release_locks fuel a n pgs pgd pfn flags f s r s' :
  f ∈ attribute_calls fuel a n pgs pgd pfn flags ->
  cpa_lock s = false -> pgd_lock s = false -> f s = Some (r, s') ->
  cpa_lock s' = false /\ pgd_lock s' = false /\
  exists l, p_calls s' = l ++ p_calls s /\ lock_misuse ∉ l.
Proof.
  intros Hf Hc Hp E. revert s r s' Hc Hp E. change (moves (W := W) false false false false f).
  unfold attribute_calls in Hf. rewrite !elem_of_cons in Hf.
  repeat destruct Hf as [-> |Hf]; [..|now apply elem_of_nil in Hf].
  all: unfold set_pages_uc, set_pages_wb, set_pages_ro, set_pages_rw, set_pages_array_uc,
    set_pages_array_wc, set_pages_array_wt, set_pages_array_wb, _set_pages_array,
    set_direct_map_invalid_noflush, set_direct_map_default_noflush, __set_pages_p, __set_pages_np,
    kernel_map_pages_in_pgd, kernel_unmap_pages_in_pgd.
  all: unfold set_memory_uc, set_memory_wc, set_memory_wb, set_memory_x, set_memory_nx,
    set_memory_encrypted, set_memory_decrypted, __set_memory_enc_dec, _set_memory_uc, _set_memory_wc,
    set_memory_np_noalias, set_memory_4k.
  all: moves_auto; apply balanced_set_clr.
Qed.
End Interface.

(** ** Flushing a range *)

Section Flush.
Context {W : Type} {env : PageEnv W} {env_ok : PageEnvOk env}.
Implicit Types s : pstate W.

(** The multiples of [size] from [p] on, below [vend]. *)
Fixpoint lines_from (n : nat) (p size vend : Z) : list Z :=
  match n with
  | O => []
  | S n => if p <? vend then p :: lines_from n (p + size) size vend else []
  end.

Lemma lines_spec size n : 0 < size -> forall p vend l, vend <= p + Z.of_nat n * size ->
  l ∈ lines_from n p size vend <-> p <= l < vend /\ (l - p) mod size = 0.
Proof.
  intros Hs. induction n as [|n IH]; intros p vend l Hn; cbn [lines_from].
  - split; [intros H; now apply elem_of_nil in H|lia].
  - destruct (Z.ltb_spec p vend) as [Hp|Hp].
    + rewrite elem_of_cons, IH by lia.
      assert (E : (l - p) mod size = (l - (p + size)) mod size).
      { replace (l - p) with (l - (p + size) + 1 * size) by lia. now rewrite Z.mod_add by lia. }
      rewrite <- E. split.
      * intros [-> |H]; [|lia]. split; [lia|]. rewrite Z.sub_diag. apply Z.mod_0_l. lia.
      * intros [H1 H2]. destruct (Z.lt_ge_cases l (p + size)); [left|right; lia].
        rewrite Z.mod_small in H2; lia.
    + split; [intros H; now apply elem_of_nil in H|lia].
Qed.

Lemma pcall_logged c s : is_alloc c = false ->
  exists s', pcall_ c s = Some (tt, s') /\ p_calls s' = c :: p_calls s.
Proof.
  intros Hc. destruct (quiet_returns c s Hc) as (r & s' & E).
  unfold pcall_, bind, pcall_ret. rewrite E. eexists. split; reflexivity.
Qed.

Lemma clflush_loop_spec n vend : 0 < x86_clflush_size -> forall p s,
  vend <= p + Z.of_nat n * x86_clflush_size ->
  exists s', clflush_loop (S n) p vend s = Some (tt, s') /\
    p_calls s' = rev (map clflushopt (lines_from n p x86_clflush_size vend)) ++ p_calls s.
Proof.
  intros Hs. induction n as [|n IH]; intros p s Hn; cbn [clflush_loop lines_from] in *;
    (destruct (Z.ltb_spec p vend) as [Hp|Hp]; [|now exists s]); [lia|].
  destruct (pcall_logged (clflushopt p) s eq_refl) as (s1 & E1 & C1).
  destruct (IH (p + x86_clflush_size) s1) as (s2 & E2 & C2); [lia|].
  exists s2. unfold bind at 1. rewrite E1, E2. split; [easy|].
  cbn [map rev]. rewrite C2, C1, <- app_assoc. easy.
Qed.

(** The line of [cs] bytes at [l] holds an address of the range. *)
Definition line_meets (addr size cs l : Z) : Prop :=
  exists x, addr <= x < addr + size /\ l = x - x mod cs.

(** A line is among the multiples from the aligned start on exactly when it is
    the line of an address of the range. *)
Lemma line_of_address addr size cs l : 0 < cs -> 0 < size ->
  (addr - addr mod cs <= l < addr + size /\ (l - (addr - addr mod cs)) mod cs = 0) <->
  line_meets addr size cs l.
Proof.
  intros Hc Hz. unfold line_meets. pose proof (Z.mod_pos_bound addr cs Hc) as Ba.
  pose proof (Z.div_mod addr cs ltac:(lia)) as Da. split.
  - intros [H1 H2]. exists (Z.max addr l). split; [lia|].
    pose proof (Z.div_mod (l - (addr - addr mod cs)) cs ltac:(lia)) as D.
    rewrite H2, Z.add_0_r in D. set (q := (l - (addr - addr mod cs)) / cs) in D.
    assert (El : l = (addr / cs + q) * cs) by lia.
    destruct (Z.max_spec addr l) as [[? ->]|[? ->]].
    + assert (l mod cs = 0) by (rewrite El; apply Z.mod_mul; lia). lia.
    + assert (q = 0) by nia. nia.
  - intros (x & H1 & ->). pose proof (Z.mod_pos_bound x cs Hc).
    pose proof (Z.div_mod x cs ltac:(lia)) as Dx.
    assert (addr / cs <= x / cs) by (apply Z.div_le_mono; lia).
    split; [nia|].
    replace (x - x mod cs - (addr - addr mod cs)) with ((x / cs - addr / cs) * cs) by lia.
    apply Z.mod_mul. lia.
Qed.

(** [clflush_cache_range] ends and flushes, between two memory barriers, a
    cache line exactly when it holds an address of the range. *)
Theorem clflush_cache_range_exact addr size k s :
  0 <= k -> x86_clflush_size = 2 ^ k -> 0 < size ->
  exists lines s', clflush_cache_range addr size s = Some (tt, s') /\
    p_calls s' = mb :: rev (map clflushopt lines) ++ mb :: p_calls s /\
    forall l, l ∈ lines <-> line_meets addr size (2 ^ k) l.
Proof.
  intros Hk Hc Hz. assert (Hp : 0 < 2 ^ k) by lia.
  set (p := addr - addr mod 2 ^ k). pose proof (Z.mod_pos_bound addr (2 ^ k) Hp) as Ba.
  set (n := Z.to_nat ((addr + size - p) / 2 ^ k + 1)).
  assert (Hn : addr + size <= p + Z.of_nat n * 2 ^ k).
  { unfold n. rewrite Z2Nat.id by (assert (0 <= (addr + size - p) / 2 ^ k) by (apply Z.div_pos; lia); lia).
    pose proof (Z.div_mod (addr + size - p) (2 ^ k) ltac:(lia)).
    pose proof (Z.mod_pos_bound (addr + size - p) (2 ^ k) Hp). lia. }
  exists (lines_from n p (2 ^ k) (addr + size)).
  destruct (pcall_logged mb s eq_refl) as (s1 & E1 & C1).
  destruct (clflush_loop_spec n (addr + size) ltac:(lia) p s1 ltac:(lia)) as (s2 & E2 & C2).
  destruct (pcall_logged mb s2 eq_refl) as (s3 & E3 & C3).
  exists s3. split; [|split].
  - unfold clflush_cache_range, clflush_cache_range_opt, bind at 1. rewrite E1, Hc, align_pow2 by easy.
    fold p. destruct (Z.leb_spec (addr + size) p); [lia|]. fold n. unfold bind. now rewrite E2, E3.
  - rewrite C3, C2, C1, Hc. easy.
  - intros l. rewrite (lines_spec (2 ^ k) n Hp p (addr + size) l Hn). now apply line_of_address.
Qed.
End Flush.

(** ** Witnesses *)

Lemma attribute_calls_release_locks_witness :
  exists s', @set_memory_ro unit PageDemo.consts PageDemo.paging PageDemo.kernel 3 0x1000 1
      PageDemo.start = Some (0, s') /\ cpa_lock s' = false /\ pgd_lock s' = false.
Proof.
  assert (R : option_map fst (@set_memory_ro unit PageDemo.consts PageDemo.paging PageDemo.kernel 3
    0x1000 1 PageDemo.start) = Some 0) by (vm_compute; reflexivity).
  destruct (@set_memory_ro unit PageDemo.consts PageDemo.paging PageDemo.kernel 3 0x1000 1
    PageDemo.start) as [[r s']|] eqn:E; [|discriminate R].
  injection R as ->. exists s'. split; [reflexivity|].
  destruct (@attribute_calls_release_locks unit PageDemo.consts PageDemo.paging PageDemo.kernel
    PageDemo.demo_kernel_ok 3 0x1000 1 [] 0 0 0
      (@set_memory_ro _ PageDemo.consts PageDemo.paging PageDemo.kernel 3 0x1000 1) PageDemo.start
      0 s') as (H1 & H2 & _); [|reflexivity|reflexivity| |].
  - unfold attribute_calls. do 6 (apply elem_of_cons; right). apply elem_of_cons. now left.
  - exact E.
  - split; [exact H1|exact H2].
Defined.

Lemma clflush_cache_range_exact_witness :
  exists s', @clflush_cache_range unit PageDemo.kernel 0x1030 0x60 PageDemo.start = Some (tt, s') /\
    In (clflushopt 0x1080) (p_calls s').
Proof.
  destruct (@clflush_cache_range_exact unit PageDemo.kernel PageDemo.demo_kernel_ok 0x1030 0x60 6
    PageDemo.start ltac:(lia) eq_refl ltac:(lia)) as (lines & s' & E & C & L).
  exists s'. split; [exact E|]. rewrite C. right. apply in_or_app. left. apply in_rev.
  rewrite rev_involutive. apply in_map. apply list_elem_of_In, L. exists 0x1085. split; [lia|reflexivity].
Defined.
