(* ===== verification/Block.v ===== *)
(** A code block between the module and the memory manager: [exe_add] of
    [zz_lkm/exe.c] takes memory from [vmalloc] and makes it executable with
    [set_memory_x] of [kernel_modify/pageattr.c]. *)
From Stdlib Require Import ZArith Lia Bool.
From stdpp Require Import base list gmap.
From S2P Require Import Prelude Regs Exe Paging PageProt PageAttr PageLaws PageAttrSpec.

Local Open Scope Z_scope.
Local Open Scope ub_scope.

Section Block.
Context {W : Type} {env : ExeEnv} {consts : PageConsts} {paging : Paging} {penv : PageEnv W}.

(** What [vmalloc] does to the page tables when it returns the address. *)
Class Vmalloc := { vmalloc_pages : Z -> Z -> pstate W -> pstate W }.
Context {vm : Vmalloc}.

(** The calls that [exe_add] makes, in their order. *)
Fixpoint perform (fuel : nat) (evs : list event) : M (pstate W) unit :=
  match evs with
  | [] => ret tt
  | EvVmalloc size addr :: evs => modify (vmalloc_pages size addr) ;; perform fuel evs
  | EvSetMemoryX addr n :: evs => set_memory_x fuel addr n ;; perform fuel evs
  | _ :: evs => perform fuel evs
  end.

(** The events that [s'] has on top of [s], oldest first. *)
Definition new_events (s s' : estate) : list event :=
  rev (take (length (elog s') - length (elog s)) (elog s')).

Definition exe_add_kernel (fuel : nat) (p rip : Z) (s : estate) : M (pstate W) estate := fun k =>
  match exe_add p rip s with
  | Some s' => (perform fuel (new_events s s') ;; ret s') k
  | None => None
  end.

(** Documented: unless it returns NULL, for want of memory, [vmalloc] maps the pages of
    the area one by one, and returns with the locks and interrupts as they were. *)
Class VmallocOk : Prop := {
  vmalloc_small : forall s k, let a := vmalloc_ptr s (4096 * num_pg) in
    a <> 0 -> PageAttrSpec.ready k ->
    let k' := vmalloc_pages (4096 * num_pg) a k in
    PageAttrSpec.ready k' /\
    exists kptes, Z.of_nat (length kptes) = num_pg /\ small_range (p_mem k') a kptes
}.
End Block.

(** ** Properties *)

Section Theorems.
Context {W : Type} {env : ExeEnv} {consts : PageConsts} {paging : Paging} {penv : PageEnv W}.
Context {vm : Vmalloc (W := W)}.
Context {env_ok : ExeEnvOk env} {penv_ok : PageEnvOk penv} {paging_ok : PagingOk paging}.
Context {consts_ok : PageConstsOk consts paging}.

(** The one branch of [exe_add] that makes calls. *)
Lemma exe_add_events s p rip :
  can_add s p rip = true -> exe_wf s ->
  exists s' e s0, exe_add p rip s = Some s' /\ find s' p rip = Some e /\ status_code e = un_init /\
    code_block e = vmalloc_ptr s0 (4096 * num_pg) /\
    new_events s s' = [EvVmalloc (4096 * num_pg) (code_block e); EvSetMemoryX (code_block e) num_pg].
Proof.
  intros C W0. destruct (exe_slot s p rip W0) as [e E]. pose proof (lookup_lt_Some _ _ _ E) as Hlt.
  unfold can_add, used in C. unfold exe_add, with_exe. rewrite E in *.
  apply andb_prop in C as [C1 C2]. bool_prop. rewrite C1, Z.eqb_refl. cbn [negb].
  destruct (Z.ltb_spec 62 (added s)); [lia|].
  cbn [exes log set_exes set_added]. rewrite list_lookup_insert_eq by easy.
  eexists _, _, _. split; [reflexivity|]. unfold find. cbn [exes set_exes].
  rewrite list_insert_insert_eq, list_lookup_insert_eq by easy. cbn. rewrite !Z.eqb_refl. cbn.
  split; [reflexivity|]. split; [reflexivity|]. split; [reflexivity|].
  unfold new_events.
  cbn [length elog log set_exes set_added].
  now replace (S (S (length (elog s))) - length (elog s))%nat with 2%nat by lia.
Qed.
End Theorems.

(** C21. What the calls of the module do when it registers a site. If [vmalloc] finds
    memory, they leave every page of the site's block mapped by a small page that is
    executable and still has the frame [vmalloc] gave it; no other entry of the page
    tables is changed by [set_memory_x], and no lock stays held. If [vmalloc] returns
    NULL, which [exe_add] does not test, the site is registered all the same, with
    block 0, and [set_memory_x] is called on address 0. *)
Theorem registered_block_executable (W : Type) (env : ExeEnv) (consts : PageConsts)
    (paging : Paging) (penv : PageEnv W) (vm : Vmalloc (W := W)) (env_ok : ExeEnvOk env)
    (penv_ok : PageEnvOk penv) (paging_ok : PagingOk paging) (consts_ok : PageConstsOk consts paging)
    (vm_ok : VmallocOk (paging := paging) (penv := penv)) fuel p rip s (k : pstate W) :
  exe_wf s -> can_add s p rip = true -> PageAttrSpec.ready k ->
  (supported_pte_mask .& _PAGE_NX) = true ->
  exists s' e, exe_add p rip s = Some s' /\ find s' p rip = Some e /\ status_code e = un_init /\
    let kv := vmalloc_pages (4096 * num_pg) (code_block e) k in
    if code_block e =? 0
    then exe_add_kernel (S fuel) p rip s k = (set_memory_x (S fuel) 0 num_pg ;; ret s') kv
    else exists k' kptes, exe_add_kernel (S fuel) p rip s k = Some (s', k') /\
      Z.of_nat (length kptes) = num_pg /\
      (forall i pte, kptes !! i = Some pte ->
         lookup_address (p_mem k') (code_block e + Z.of_nat i * 4096) = (Some pte, PG_LEVEL_4K) /\
         pte_exec (rd (p_mem k') pte) = true /\
         pte_pfn (rd (p_mem k') pte) = pte_pfn (rd (p_mem kv) pte)) /\
      (forall x, x ∉ kptes -> rd (p_mem k') x = rd (p_mem kv) x) /\ PageAttrSpec.ready k'.
Proof.
  intros Wf C K Nx. destruct (exe_add_events s p rip C Wf) as (s' & e & s0 & E & F & U & B & Ev).
  exists s', e. split; [easy|]. split; [easy|]. split; [easy|].
  unfold exe_add_kernel. rewrite E, Ev. cbn [perform]. cbv zeta. destruct (Z.eqb_spec (code_block e) 0) as [Z0|Nz].
  { rewrite Z0. unfold bind, modify, ret. now destruct (set_memory_x _ _ _ _) as [[r k1]|]. }
  assert (Na : vmalloc_ptr s0 (4096 * num_pg) <> 0) by (now rewrite <- B).
  destruct (vmalloc_small s0 k Na K) as (K1 & kptes & Hl & R). rewrite <- B in *.
  assert (Hnx : _PAGE_NX <> 0) by (intros X; rewrite X, Z.land_0_r in Nx; easy).
  destruct (change_clear_x (code_block e) kptes fuel _ R K1 Hnx) as (k' & X & [Da Db] & K').
  rewrite firstn_all in Db. exists k', kptes. split.
  - unfold bind, modify, set_memory_x. rewrite Nx. cbn [negb]. rewrite Hl in X. rewrite X. reflexivity.
  - split; [easy|]. split; [|now split].
    intros i pte Hi. split; [now apply (range_mapped _ _ _ R)|].
    destruct (Da i pte) as [P Q]; [now apply lookup_lt_Some in Hi|easy|]. now split.
Qed.

(** ** A machine *)

Module BlockDemo.
(** Blocks at 0x200000: their 160 entries are in the table at 0x4000, not executable. *)
#[export] Instance env : ExeEnv := {|
  vmalloc_exes := Demo.blanks; vmalloc_ptr _ _ := 0x200000;
  x86_fsbase_read_cpu _ := 0; mem_read64 _ a := a;
  code_run s _ regs _ := (regs, [0; 0], s); syscall_run s _ regs := (0, regs, s) |}.

Lemma block_env_ok : ExeEnvOk env.
Proof.
  constructor.
  - apply (Demo.env_ok 0).
  - apply (Demo.env_ok 0).
  - intros. unfold is_u64. cbn. lia.
  - intros s code r args r' args' s' Hs Hr [= <- <- <-].
    split; [easy|]. split; [repeat constructor; word_range|easy].
  - intros s fn r ax r' s' Hs Hr [= <- <- <-]. split; [word_range|easy].
Qed.

Definition kptes : list Z := map (fun i => 0x4000 + 8 * Z.of_nat i) (seq 0 160).
Definition upper : ptmem := <[0x1000 := 0x2063]> (<[0x2000 := 0x3063]> (<[0x3008 := 0x4063]> ∅)).
Definition mapped_tables : ptmem :=
  foldr (fun p m => <[p := 0x9000063 + 2 ^ 63]> m) upper kptes.

#[export] Instance vm : Vmalloc (W := unit) := {| vmalloc_pages size _ k := set_p_mem mapped_tables k |}.

Definition kernel : pstate unit := PState ∅ (fun _ => 0) false false tt [].

Lemma in_kptes p : p ∈ kptes -> 0x4000 <= p < 0x4500.
Proof.
  intros H. apply list_elem_of_fmap_1 in H as (i & -> & Hi). apply elem_of_seq in Hi. lia.
Qed.

Lemma block_range : small_range (paging := PageDemo.paging) mapped_tables 0x200000 kptes.
Proof.
  split.
  - vm_compute. intuition congruence.
  - apply (bool_decide_unpack _). vm_compute. exact I.
  - intros m i k H Hk. apply list_lookup_fmap_Some in Hk as (j & -> & Hj).
    apply lookup_seq in Hj as [-> Hi]. cbn [Nat.add].
    assert (R : forall p v, p < 0x4000 -> rd mapped_tables p = v -> rd m p = v).
    { intros p v Hp <-. apply H. intros X. apply in_kptes in X. lia. }
    assert (Ei : (0x200000 + Z.of_nat i * 4096) / 2 ^ 21 = 1 /\ (0x200000 + Z.of_nat i * 4096) / 2 ^ 30 = 0 /\
      (0x200000 + Z.of_nat i * 4096) / 2 ^ 39 = 0 /\ (0x200000 + Z.of_nat i * 4096) / 2 ^ 12 = 512 + Z.of_nat i).
    { repeat split; symmetry; [apply (Z.div_unique_pos _ _ 1 (Z.of_nat i * 4096))
        |apply (Z.div_unique_pos _ _ 0 (0x200000 + Z.of_nat i * 4096))
        |apply (Z.div_unique_pos _ _ 0 (0x200000 + Z.of_nat i * 4096))
        |apply (Z.div_unique_pos _ _ _ 0)]; lia. }
    destruct Ei as (E1 & E2 & E3 & E4).
    rewrite (PageDemo.walk_4k m _ 0x2063 0x3063 0x4063); rewrite ?E1, ?E2, ?E3, ?E4.
    + unfold PageDemo.step. replace (512 + Z.of_nat i) with (Z.of_nat i + 1 * 512) by lia.
      rewrite Z.mod_add, Z.mod_small by lia. reflexivity.
    + apply R; [vm_compute; reflexivity|vm_compute; reflexivity].
    + vm_compute. auto.
    + apply R; [vm_compute; reflexivity|vm_compute; reflexivity].
    + vm_compute. auto.
    + apply R; [vm_compute; reflexivity|vm_compute; reflexivity].
    + vm_compute. auto.
  - apply (Forall_forall _ kptes). intros p Hp.
    assert (E : forallb (fun p => negb (pte_none (Paging := PageDemo.paging) (rd mapped_tables p))) kptes = true)
      by (vm_compute; reflexivity).
    apply forallb_forall with (x := p) in E; [|now apply list_elem_of_In]. now apply negb_true_iff in E.
Qed.

Lemma vmalloc_ok : VmallocOk (env := env) (paging := PageDemo.paging)
  (penv := PageDemo.kernel) (vm := vm).
Proof.
  split. intros s k a Na K. split; [exact K|]. exists kptes. split; [reflexivity|exact block_range].
Qed.

Lemma empty_table_wf : exe_wf Demo.empty_table.
Proof. apply exe_wfb_sound. vm_compute. reflexivity. Qed.
End BlockDemo.

Lemma registered_block_executable_witness :
  exists s' e k',
    exe_add_kernel (env := BlockDemo.env) (consts := PageDemo.consts) (paging := PageDemo.paging)
      (penv := PageDemo.kernel) (vm := BlockDemo.vm) 1 Demo.task Demo.site Demo.empty_table
      BlockDemo.kernel = Some (s', k') /\
    find s' Demo.task Demo.site = Some e /\ status_code e = un_init.
Proof.
  destruct (registered_block_executable unit BlockDemo.env PageDemo.consts PageDemo.paging
    PageDemo.kernel BlockDemo.vm BlockDemo.block_env_ok PageDemo.demo_kernel_ok PageDemo.demo_paging_ok
    PageDemo.demo_consts_ok BlockDemo.vmalloc_ok 0 Demo.task Demo.site Demo.empty_table BlockDemo.kernel)
    as (s' & e & E0 & F & U & R).
  - exact BlockDemo.empty_table_wf.
  - vm_compute. reflexivity.
  - repeat split.
  - reflexivity.
  - cbv zeta in R. assert (B : (code_block e =? 0) = false).
    { vm_compute in E0. injection E0 as <-. vm_compute in F. injection F as <-. reflexivity. }
    rewrite B in R. destruct R as (k' & _ & E & _). exists s', e, k'. split; [exact E|now split].
Defined.
