(* ===== verification/Race.v ===== *)
(** Several CPUs and the daemon at once: [exe_on_call] of [zz_lkm/exe.c] cut at
    the points where the code of a block and the handler of a system call run,
    interleaved with registrations and with packets written to the control
    file. A run between two cuts is atomic. *)
From Stdlib Require Import ZArith Lia Bool.
From stdpp Require Import base list relations gmap.
From S2P Require Import Prelude Regs Exe Stat Sysfs.

Local Open Scope Z_scope.

(** ** A round of exe_on_call in three parts *)

Section Parts.
Context {env : ExeEnv}.

(** Lines 80-90, up to the jump into the block of entry [p]. *)
Inductive entered : Type := NoEntry | NotReady | Enter (p : nat) (code : Z) (s : estate).

Definition enter_block (me : Z) (regs : pt_regs) (s : estate) : entered :=
  let p := get_exe me (rget regs IP) in
  match exes s !! p with
  | None => NoEntry
  | Some e =>
      if negb (status_code e =? normal) || negb (RIP e =? rget regs IP) || negb (pid e =? me)
      then NotReady
      else Enter p (code_block e) (log (EvRun (code_block e)) s)
  end.

(** Lines 92-119 after the block, up to the handler of a system call or the end
    of the round. *)
Inductive left_block : Type := LeaveCall (fn : Z) (regs : pt_regs) (s : estate)
                             | LeaveNext (regs : pt_regs) (s : estate).

Definition next_round (p : nat) (regs : pt_regs) (s : estate) : option left_block :=
  match report p s with Some s => Some (LeaveNext regs s) | None => None end.

Definition leave_block (p : nat) (regs : pt_regs) (args : list Z) (s : estate)
  : option left_block :=
  let arg0 := default 0 (args !! 0%nat) in
  if arg0 =? normal then
    let regs := enter_syscall regs in
    let nr := rget regs ORIG_AX in
    if (nr <=? 436) && (0 <=? nr) then
      let fn := mem_read64 s (u64 (zz_sys_call_table s + 8 * nr)) in
      Some (LeaveCall fn regs (log (EvSyscall fn) s))
    else next_round p regs s
  else match with_exe p (account_miss arg0 (rget regs IP)) s with
       | Some s => next_round p regs s
       | None => None
       end.

(** Lines 100-119 after the handler. *)
Definition finish_syscall (p : nat) (ax : Z) (regs : pt_regs) (s : estate)
  : option (pt_regs * estate) :=
  match with_exe p (fun e => set_success_cnt (u64 (success_cnt e + 1)) e) s with
  | Some s => match report p s with Some s => Some (rset AX ax regs, s) | None => None end
  | None => None
  end.

(** The parts make up the round. *)
Lemma chain_body_parts me regs s ac :
  chain_body me (CState s regs ac) =
  match enter_block me regs s with
  | NoEntry => Undef
  | NotReady => Break (CState s regs ac)
  | Enter p code s =>
      let '(regs, args, s) := code_run s code regs [x86_fsbase_read_cpu s; 0] in
      match leave_block p regs args s with
      | None => Undef
      | Some (LeaveNext regs s) => Continue (CState s regs true)
      | Some (LeaveCall fn regs s) =>
          let '(ax, regs, s) := syscall_run s fn regs in
          match finish_syscall p ax regs s with
          | None => Undef
          | Some (regs, s) => Continue (CState s regs true)
          end
      end
  end.
Proof.
  unfold chain_body, enter_block. cbn [c_exe c_regs].
  destruct (exes s !! _) as [e|]; [|easy]. destruct (_ || _); [easy|].
  destruct (code_run _ _ _ _) as [[regs1 args] s1].
  unfold leave_block, combined_syscall, next_round, finish_syscall.
  destruct (_ =? normal).
  - destruct ((_ <=? 436) && _).
    + destruct (syscall_run _ _ _) as [[ax regs2] s2]. destruct (with_exe _ _ s2); [|easy].
      now destruct (report _ _).
    + now destruct (report _ s1).
  - destruct (with_exe _ _ s1) as [s2|]; [|easy]. now destruct (report _ s2).
Qed.
End Parts.

(** ** The interleaving *)

(** What a CPU does for its current task. *)
Inductive local : Type :=
| Away                                                      (* outside exe_on_call *)
| Chaining (me : Z) (regs : pt_regs)                        (* at the loop head *)
| Running (me : Z) (p : nat) (code : Z) (regs : pt_regs)    (* in the code of a block *)
| InCall (me : Z) (p : nat) (regs : pt_regs).               (* in the handler of a call *)

Record rstate : Type := RState { shared : estate; cpus : list local }.

Definition set_cpu (i : nat) (l : local) (s : estate) (st : rstate) : rstate :=
  RState s (<[i := l]> (cpus st)).

Section Interleaving.
Context {env : ExeEnv}.

Definition task_of (l : local) : option Z :=
  match l with
  | Away => None
  | Chaining me _ | Running me _ _ _ | InCall me _ _ => Some me
  end.

(** The steps; [allowed] restricts the packets that are written further. A task runs on
    one CPU at a time. All packets are like the daemon's, [proper_packet]: what
    [sysfs_store] writes outside a block, or with status [un_used], is not a step. *)
Inductive rstep (allowed : estate -> recv_pkt -> Prop) (st : rstate) : rstate -> Prop :=
| r_begin i me regs :
    cpus st !! i = Some Away -> is_s32 me -> wf_regs regs ->
    (forall j l, cpus st !! j = Some l -> task_of l <> Some me) ->
    rstep allowed st (set_cpu i (Chaining me regs) (shared st) st)
| r_enter i me regs p code s :
    cpus st !! i = Some (Chaining me regs) -> enter_block me regs (shared st) = Enter p code s ->
    rstep allowed st (set_cpu i (Running me p code regs) s st)
| r_break i me regs :
    cpus st !! i = Some (Chaining me regs) -> enter_block me regs (shared st) = NotReady ->
    rstep allowed st (set_cpu i Away (shared st) st)
| r_leave_next i me p code regs regs1 args regs2 s :
    cpus st !! i = Some (Running me p code regs) -> wf_regs regs1 -> Forall is_u64 args ->
    leave_block p regs1 args (shared st) = Some (LeaveNext regs2 s) ->
    rstep allowed st (set_cpu i (Chaining me regs2) s st)
| r_leave_call i me p code regs regs1 args fn regs2 s :
    cpus st !! i = Some (Running me p code regs) -> wf_regs regs1 -> Forall is_u64 args ->
    leave_block p regs1 args (shared st) = Some (LeaveCall fn regs2 s) ->
    rstep allowed st (set_cpu i (InCall me p regs2) s st)
| r_return i me p regs regs1 ax regs2 s :
    cpus st !! i = Some (InCall me p regs) -> wf_regs regs1 -> is_u64 ax ->
    finish_syscall p ax regs1 (shared st) = Some (regs2, s) ->
    rstep allowed st (set_cpu i (Chaining me regs2) s st)
| r_register p rip s :                        (* exe_add, from stat_func *)
    is_s32 p -> is_u64 rip -> exe_add p rip (shared st) = Some s ->
    rstep allowed st (RState s (cpus st))
| r_store k payload e s n :                   (* sysfs_store *)
    allowed (shared st) k -> proper_packet (shared st) k payload e ->
    sysfs_store (encode_pkt k ++ payload) (shared st) = Some (s, n) ->
    rstep allowed st (RState s (cpus st)).

(** What a CPU relies on: its entry is still the one it entered. *)
Definition local_ok (s : estate) (l : local) : Prop :=
  match l with
  | Away => True
  | Chaining me regs => is_s32 me /\ wf_regs regs
  | Running me p code regs => is_s32 me /\ wf_regs regs /\
      exists e, exes s !! p = Some e /\ used e = true /\
        pid e = me /\ RIP e = rget regs IP /\ code_block e = code
  | InCall me p regs => is_s32 me /\ wf_regs regs /\
      exists e, exes s !! p = Some e /\ used e = true /\ pid e = me
  end.

Definition race_ok (st : rstate) : Prop :=
  exe_wf (shared st) /\ Forall (local_ok (shared st)) (cpus st).

Context {ok : ExeEnvOk env}.

Lemma local_ok_le s s' l : table_le s s' -> local_ok s l -> local_ok s' l.
Proof.
  intros L. destruct l as [|me regs|me p code regs|me p regs]; try easy; cbn.
  - intros (Hm & Hr & e & E & U & Hp & Hi & Hc). destruct (L p e E U) as (e' & E' & U' & P & R & C).
    split; [easy|]. split; [easy|]. exists e'. repeat split; congruence.
  - intros (Hm & Hr & e & E & U & Hp). destruct (L p e E U) as (e' & E' & U' & P & _).
    split; [easy|]. split; [easy|]. exists e'. repeat split; congruence.
Qed.

Lemma race_ok_step st s i l :
  race_ok st -> exe_wf s -> table_le (shared st) s -> local_ok s l -> race_ok (set_cpu i l s st).
Proof.
  intros [W F] W' L Hl. split; [easy|]. apply Forall_insert; [|easy].
  eapply Forall_impl; [exact F|]. intros l'. now apply local_ok_le.
Qed.

Lemma race_ok_shared st s :
  race_ok st -> exe_wf s -> table_le (shared st) s -> race_ok (RState s (cpus st)).
Proof.
  intros [W F] W' L. split; [easy|]. eapply Forall_impl; [exact F|].
  intros l'. now apply local_ok_le.
Qed.

(** *** The parts keep the table, and never leave it *)

Lemma enter_block_ok me regs s p code s' :
  exe_wf s -> is_s32 me -> wf_regs regs -> enter_block me regs s = Enter p code s' ->
  exe_wf s' /\ table_le s s' /\ local_ok s' (Running me p code regs).
Proof.
  intros W Hm Hr. unfold enter_block. destruct (exes s !! _) as [e|] eqn:E; [|easy].
  destruct (_ || _) eqn:B; [easy|]. intros [= <- <- <-]. bool_prop.
  split; [auto with word|]. split; [auto with word|]. split; [easy|]. split; [easy|].
  exists e. repeat split; try easy. apply used_not_un_used. unfold normal, un_used in *. lia.
Qed.

Lemma enter_block_defined me regs s : exe_wf s -> enter_block me regs s <> NoEntry.
Proof.
  intros W. unfold enter_block. destruct (exe_slot s me (rget regs IP) W) as [e ->].
  now destruct (_ || _).
Qed.

Definition left_ok (s : estate) (l : left_block) : Prop :=
  match l with
  | LeaveCall _ regs s' | LeaveNext regs s' => wf_regs regs /\ exe_wf s' /\ table_le s s'
  end.

Lemma next_round_ok p e regs s0 s :
  exe_wf s -> wf_regs regs -> table_le s0 s -> exes s !! p = Some e ->
  exists l, next_round p regs s = Some l /\ left_ok s0 l.
Proof.
  intros W R L E. unfold next_round. destruct (report_wf p e s W E) as (s' & -> & _ & W' & L').
  eexists. split; [reflexivity|]. split; [easy|]. split; [easy|]. now transitivity s.
Qed.

Lemma with_exe_used p f e s :
  exe_wf s -> exes s !! p = Some e -> used e = true ->
  used (f e) = true /\ same_site e (f e) /\ exe_typed (f e) ->
  exists s' e', with_exe p f s = Some s' /\ exe_wf s' /\ table_le s s' /\ exes s' !! p = Some e'.
Proof.
  intros W E U (U' & S' & T'). destruct (with_exe p f s) as [s'|] eqn:H.
  2:{ unfold with_exe in H. now rewrite E in H. }
  destruct (with_exe_wf _ _ _ _ _ W E U U' S' T' H) as [W' L'].
  destruct (L' p e E U) as (e' & E' & _). now exists s', e'.
Qed.

Lemma leave_block_ok p e regs args s :
  exe_wf s -> exes s !! p = Some e -> used e = true -> wf_regs regs -> Forall is_u64 args ->
  exists l, leave_block p regs args s = Some l /\ left_ok s l.
Proof.
  intros W E U R A. unfold leave_block.
  assert (Ha : is_u64 (default 0 (args !! 0%nat))).
  { destruct (args !! 0%nat) as [a|] eqn:Ea; simpl; [|word_range].
    now apply (Forall_lookup_1 _ _ _ _ A Ea). }
  destruct (_ =? normal).
  - pose proof (enter_syscall_wf _ R) as R1. destruct ((_ <=? 436) && _).
    + eexists. split; [reflexivity|]. split; [easy|]. split; auto with word.
    + now apply next_round_ok with (e := e).
  - destruct (with_exe_used p (account_miss (default 0 (args !! 0%nat)) (rget regs IP)) e s W E U)
      as (s1 & e1 & -> & W1 & L1 & E1).
    + apply account_miss_ok; auto using rget_range. now apply (wf_entry_typed s p).
    + now apply next_round_ok with (e := e1).
Qed.

Lemma finish_syscall_ok p e ax regs s :
  exe_wf s -> exes s !! p = Some e -> used e = true -> wf_regs regs -> is_u64 ax ->
  exists regs' s', finish_syscall p ax regs s = Some (regs', s') /\
    wf_regs regs' /\ exe_wf s' /\ table_le s s'.
Proof.
  intros W E U R A. unfold finish_syscall.
  destruct (with_exe_used p (fun e => set_success_cnt (u64 (success_cnt e + 1)) e) e s W E U)
    as (s1 & e1 & -> & W1 & L1 & E1).
  - split; [easy|]. split; [easy|]. pose proof (wf_entry_typed s p e W E) as T.
    unfold exe_typed in *. simpl. intuition auto with word.
  - destruct (report_wf p e1 s1 W1 E1) as (s2 & -> & _ & W2 & L2).
    exists (rset AX ax regs), s2. split; [easy|]. split; [auto with word|]. split; [easy|].
    now transitivity s1.
Qed.

Lemma race_cpu st i l : race_ok st -> cpus st !! i = Some l -> local_ok (shared st) l.
Proof. intros [_ F] H. now apply (Forall_lookup_1 _ _ _ _ F H). Qed.

Lemma rstep_ok allowed st st' :
  race_ok st -> rstep allowed st st' -> race_ok st' /\ table_le (shared st) (shared st').
Proof.
  intros R H. pose proof R as [W _]. destruct H.
  - split; [now apply race_ok_step|reflexivity].
  - destruct (race_cpu _ _ _ R H) as [Hm Hr].
    destruct (enter_block_ok _ _ _ _ _ _ W Hm Hr H0) as (W' & L & K). split; [now apply race_ok_step|easy].
  - split; [now apply race_ok_step|reflexivity].
  - destruct (race_cpu _ _ _ R H) as (Hm & _ & e & E & U & _).
    destruct (leave_block_ok p e regs1 args _ W E U H0 H1) as (l & El & O).
    rewrite H2 in El. injection El as <-. destruct O as (R2 & W2 & L2). split; [now apply race_ok_step|easy].
  - destruct (race_cpu _ _ _ R H) as (Hm & _ & e & E & U & Hp & _).
    destruct (leave_block_ok p e regs1 args _ W E U H0 H1) as (l & El & O).
    rewrite H2 in El. injection El as <-. destruct O as (R2 & W2 & L2). split; [|easy]. apply race_ok_step; try easy.
    destruct (L2 p e E U) as (e' & E' & U' & P' & _). split; [easy|]. split; [easy|].
    exists e'. repeat split; congruence.
  - destruct (race_cpu _ _ _ R H) as (Hm & _ & e & E & U & _).
    destruct (finish_syscall_ok p e ax regs1 _ W E U H0 H1) as (r' & s' & Es & R2 & W2 & L2).
    rewrite H2 in Es. injection Es as <- <-. split; [now apply race_ok_step|easy].
  - destruct (exe_add_wf _ _ _ _ W H H0 H1) as [W' L']. split; [now apply race_ok_shared|easy].
  - destruct H0 as [[T F _ _] Hn]. rewrite sysfs_store_hit with (e := e) in H1 by easy. injection H1 as <- _.
    destruct (store_status_wf (shared st) _ _ (pkt_status_code k) e
      (mem_write (kmem (shared st)) (u64 (code_block e + offset k)) payload) W F)
      as (W' & L' & _); [apply T|easy|]. split; [now apply race_ok_shared|easy].
Qed.

(** *** What makes a site ready *)

Definition no_new_ready (s s' : estate) : Prop :=
  forall me ip, ready s me ip = None -> ready s' me ip = None.

Lemma no_new_ready_exes s s' : exes s' = exes s -> no_new_ready s s'.
Proof. intros E me ip. unfold ready. now rewrite E. Qed.

(** An update of an entry that does not set the status to 0. *)
Lemma with_exe_ready p f s s' :
  (forall e, pid (f e) = pid e /\ RIP (f e) = RIP e /\
             (status_code (f e) = normal -> status_code e = normal)) ->
  with_exe p f s = Some s' -> no_new_ready s s'.
Proof.
  intros Hf. unfold with_exe. destruct (exes s !! p) as [e|] eqn:E; [|easy].
  intros [= <-] me ip. unfold ready. cbn [exes set_exes].
  destruct (decide (p = get_exe me ip)) as [->|N]; [|now rewrite list_lookup_insert_ne].
  rewrite list_lookup_insert_eq by (now apply lookup_lt_Some in E). rewrite E.
  destruct (Hf e) as (-> & -> & Hs).
  destruct (Z.eqb_spec (status_code (f e)) normal) as [X|X]; [|easy].
  rewrite (proj2 (Z.eqb_eq _ _) (Hs X)). cbn [andb]. now destruct (_ && _).
Qed.

Lemma report_ready p s s' : report p s = Some s' -> no_new_ready s s'.
Proof.
  unfold report. destruct (exes s !! p) as [e|]; [|easy].
  destruct (_ =? 1); intros [= <-]; now apply no_new_ready_exes.
Qed.

Lemma leave_block_ready p regs args s l :
  leave_block p regs args s = Some l ->
  match l with LeaveCall _ _ s' | LeaveNext _ s' => no_new_ready s s' end.
Proof.
  unfold leave_block, next_round. destruct (_ =? normal).
  - destruct ((_ <=? 436) && _); [intros [= <-]; now apply no_new_ready_exes|].
    destruct (report p s) as [s'|] eqn:E; [|easy]. intros [= <-]. now apply report_ready in E.
  - destruct (with_exe _ _ s) as [s1|] eqn:E1; [|easy].
    destruct (report p s1) as [s2|] eqn:E2; [|easy]. intros [= <-] me ip N.
    apply (report_ready _ _ _ E2). revert N. apply with_exe_ready with (2 := E1).
    intros e. unfold account_miss. destruct (_ <? _); [destruct (_ =? call_miss)|]; easy.
Qed.

Lemma finish_syscall_ready p ax regs s regs' s' :
  finish_syscall p ax regs s = Some (regs', s') -> no_new_ready s s'.
Proof.
  unfold finish_syscall. destruct (with_exe _ _ s) as [s1|] eqn:E1; [|easy].
  destruct (report p s1) as [s2|] eqn:E2; [|easy]. intros [= _ <-] me ip N.
  apply (report_ready _ _ _ E2). revert N. now apply with_exe_ready with (2 := E1).
Qed.

Lemma sysfs_store_ready s k payload e s' n me ip :
  pkt_typed k -> find s (pkt_pid k) (pkt_RIP k) = Some e ->
  sysfs_store (encode_pkt k ++ payload) s = Some (s', n) ->
  ((pkt_pid k, pkt_RIP k) = (me, ip) -> pkt_status_code k <> normal) ->
  ready s me ip = None -> ready s' me ip = None.
Proof.
  intros T F H A N. rewrite sysfs_store_hit with (e := e) in H by easy. injection H as <- _.
  destruct (find_used _ _ _ _ F) as (E & _ & Hp & Hr).
  unfold ready in *. cbn [exes set_exes].
  destruct (decide (get_exe (pkt_pid k) (pkt_RIP k) = get_exe me ip)) as [X|X];
    [|now rewrite list_lookup_insert_ne].
  rewrite <- X, list_lookup_insert_eq by (now apply lookup_lt_Some in E).
  cbn [status_code RIP pid set_status_code]. rewrite Hp, Hr.
  destruct (Z.eqb_spec (pkt_status_code k) normal); [|easy].
  destruct (Z.eqb_spec (pkt_RIP k) ip); [|easy]. destruct (Z.eqb_spec (pkt_pid k) me); [|easy].
  exfalso. apply A; congruence.
Qed.

(** No packet makes the site ([p], [r]) ready. *)
Definition withheld (p r : Z) (s : estate) (k : recv_pkt) : Prop :=
  (pkt_pid k, pkt_RIP k) = (p, r) -> pkt_status_code k <> normal.

Lemma rstep_ready p r st st' :
  rstep (withheld p r) st st' -> ready (shared st) p r = None -> ready (shared st') p r = None.
Proof.
  intros H N. destruct H; cbn [shared set_cpu]; try exact N.
  - unfold enter_block in H0. destruct (exes (shared st) !! _); [|easy].
    destruct (_ || _); [easy|]. now injection H0 as _ _ <-.
  - now apply leave_block_ready in H2; apply H2.
  - now apply leave_block_ready in H2; apply H2.
  - now apply finish_syscall_ready in H2; apply H2.
  - now rewrite (exe_add_ready _ _ _ _ H1).
  - destruct H0 as [[T F _ _] _]. now apply (sysfs_store_ready _ _ _ _ _ _ _ _ T F H1 H).
Qed.

(** *** The protocol of the daemon *)

(** The daemon only writes to sites that are not in service. *)
Definition polite (s : estate) (k : recv_pkt) : Prop := ready s (pkt_pid k) (pkt_RIP k) = None.

(** Every task is on one CPU, and the site of a CPU inside a block is in service. *)
Record orderly (st : rstate) : Prop := {
  ord_ok : race_ok st;
  ord_tasks : forall i j li lj me, cpus st !! i = Some li -> cpus st !! j = Some lj ->
    task_of li = Some me -> task_of lj = Some me -> i = j;
  ord_running : forall i me p code regs, cpus st !! i = Some (Running me p code regs) ->
    ready (shared st) me (rget regs IP) <> None
}.

(** Only entry [p] differs. *)
Definition only_entry (p : nat) (s s' : estate) : Prop :=
  forall q, q <> p -> exes s' !! q = exes s !! q.

Lemma only_entry_ready p s s' e me ip :
  only_entry p s s' -> exes s !! p = Some e -> pid e <> me \/ RIP e <> ip ->
  ready s me ip <> None -> ready s' me ip <> None.
Proof.
  intros O E N R. assert (X : get_exe me ip <> p).
  { intros X. apply R. unfold ready. rewrite X, E.
    destruct N; [rewrite (proj2 (Z.eqb_neq (pid e) me)) by easy; now rewrite andb_false_r|].
    rewrite (proj2 (Z.eqb_neq (RIP e) ip)) by easy. now rewrite andb_false_r. }
  unfold ready in *. now rewrite (O _ X).
Qed.

Lemma with_exe_only p f s s' : with_exe p f s = Some s' -> only_entry p s s'.
Proof.
  unfold with_exe. destruct (exes s !! p); [|easy]. intros [= <-] q N. cbn.
  now apply list_lookup_insert_ne.
Qed.

Lemma leave_block_only p regs args s l :
  leave_block p regs args s = Some l ->
  match l with LeaveCall _ _ s' | LeaveNext _ s' => only_entry p s s' end.
Proof.
  unfold leave_block, next_round. destruct (_ =? normal).
  - destruct ((_ <=? 436) && _); [now intros [= <-] q|].
    destruct (report p s) as [s'|] eqn:E; [|easy]. intros [= <-] q N.
    now rewrite (report_exes _ _ _ E).
  - destruct (with_exe _ _ s) as [s1|] eqn:E1; [|easy].
    destruct (report p s1) as [s2|] eqn:E2; [|easy]. intros [= <-] q N.
    rewrite (report_exes _ _ _ E2). now apply (with_exe_only _ _ _ _ E1).
Qed.

Lemma finish_syscall_only p ax regs s regs' s' :
  finish_syscall p ax regs s = Some (regs', s') -> only_entry p s s'.
Proof.
  unfold finish_syscall. destruct (with_exe _ _ s) as [s1|] eqn:E1; [|easy].
  destruct (report p s1) as [s2|] eqn:E2; [|easy]. intros [= _ <-] q N.
  rewrite (report_exes _ _ _ E2). now apply (with_exe_only _ _ _ _ E1).
Qed.

(** CPU [i] goes on with the same task, outside a block or in one that is ready. *)
Lemma orderly_cpu st i l0 l s :
  orderly st -> cpus st !! i = Some l0 -> race_ok (set_cpu i l s st) ->
  (forall me, task_of l = Some me -> task_of l0 = Some me \/
     forall j lj, cpus st !! j = Some lj -> task_of lj <> Some me) ->
  (forall me p code regs, l = Running me p code regs -> ready s me (rget regs IP) <> None) ->
  (forall j me p code regs, j <> i -> cpus st !! j = Some (Running me p code regs) ->
     ready s me (rget regs IP) <> None) ->
  orderly (set_cpu i l s st).
Proof.
  intros O Hi R Ht Hl Ho. pose proof (lookup_lt_Some _ _ _ Hi) as Lt.
  assert (T : forall j lj me, j <> i -> cpus st !! j = Some lj -> task_of l = Some me ->
    task_of lj <> Some me).
  { intros j lj me N Hj Tl Tj. destruct (Ht me Tl) as [T0|F]; [|now apply (F j lj)].
    apply N. now apply (ord_tasks st O j i lj l0 me). }
  split; [easy| |]; cbn [cpus set_cpu shared].
  - intros j k lj lk me Hj Hk Tj Tk.
    apply list_lookup_insert_Some in Hj as [(<- & <- & _)|[Nj Hj]],
      Hk as [(<- & <- & _)|[Nk Hk]]; [easy|..].
    + exfalso. now apply (T k lk me).
    + exfalso. now apply (T j lj me).
    + now apply (ord_tasks st O j k lj lk me).
  - intros j me p code regs Hj. apply list_lookup_insert_Some in Hj as [(<- & E & _)|[Nj Hj]].
    + now apply (Hl me p code).
    + now apply (Ho j me p code).
Qed.

(** What CPU [i] does to the entry of its task leaves the other CPUs' sites in service. *)
Lemma orderly_others st i l0 me0 p0 e0 s :
  orderly st -> cpus st !! i = Some l0 -> task_of l0 = Some me0 ->
  exes (shared st) !! p0 = Some e0 -> pid e0 = me0 -> only_entry p0 (shared st) s ->
  forall j me p code regs, j <> i -> cpus st !! j = Some (Running me p code regs) ->
    ready s me (rget regs IP) <> None.
Proof.
  intros O Hi T E P F j me p code regs N Hj.
  apply (only_entry_ready p0 (shared st) s e0); [easy|easy| |now apply (ord_running st O j me p code)].
  left. rewrite P. intros ->. apply N. now apply (ord_tasks st O j i _ _ me Hj Hi).
Qed.

Lemma rstep_orderly st st' : orderly st -> rstep polite st st' -> orderly st'.
Proof.
  intros O H. pose proof (rstep_ok _ _ _ (ord_ok _ O) H) as [R' _].
  pose proof (ord_running _ O) as Ho. destruct H.
  - apply (orderly_cpu st i Away); try easy; [intros me' [= <-]; now right|].
    intros j me' p code regs' _ Hj. now apply (Ho j me' p code).
  - assert (X : exes s = exes (shared st) /\ ready (shared st) me (rget regs IP) <> None).
    { unfold enter_block in H0. unfold ready. destruct (exes (shared st) !! _) as [e|]; [|easy].
      destruct (_ =? normal), (_ =? rget regs IP), (_ =? me); try easy. now injection H0 as _ _ <-. }
    destruct X as [Ex Rx]. assert (Y : forall m ip, ready s m ip = ready (shared st) m ip)
      by (intros; unfold ready; now rewrite Ex).
    apply (orderly_cpu st i (Chaining me regs)); try easy.
    + intros me' [= <-]. now left.
    + intros me' p' code' regs' [= <- <- <- <-]. now rewrite Y.
    + intros j me' p' code' regs' _ Hj. rewrite Y. now apply (Ho j me' p' code').
  - apply (orderly_cpu st i (Chaining me regs)); try easy.
    intros j me' p code regs' _ Hj. now apply (Ho j me' p code).
  - destruct (race_cpu _ _ _ (ord_ok _ O) H) as (_ & _ & e & E & _ & P & _).
    apply (orderly_cpu st i _ _ _ O H R'); [intros me' [= <-]; now left|easy|].
    apply leave_block_only in H2. now apply (orderly_others st i _ me p e s O H).
  - destruct (race_cpu _ _ _ (ord_ok _ O) H) as (_ & _ & e & E & _ & P & _).
    apply (orderly_cpu st i _ _ _ O H R'); [intros me' [= <-]; now left|easy|].
    apply leave_block_only in H2. now apply (orderly_others st i _ me p e s O H).
  - destruct (race_cpu _ _ _ (ord_ok _ O) H) as (_ & _ & e & E & _ & P).
    apply (orderly_cpu st i _ _ _ O H R'); [intros me' [= <-]; now left|easy|].
    apply finish_syscall_only in H2. now apply (orderly_others st i _ me p e s O H).
  - split; [easy|apply O|]. intros i me p' code regs Hi. cbn [shared].
    rewrite (exe_add_ready _ _ _ _ H1). now apply (Ho i me p' code).
  - split; [easy|apply O|]. intros i me p' code regs Hi. cbn [shared].
    destruct H0 as [[T F _ _] _]. destruct (find_used _ _ _ _ F) as (E & U & P & R).
    rewrite sysfs_store_hit with (e := e) in H1 by easy. injection H1 as <- _.
    apply (only_entry_ready (get_exe (pkt_pid k) (pkt_RIP k)) (shared st) _ e);
      [intros q Nq; cbn; now apply list_lookup_insert_ne|easy| |now apply (Ho i me p' code)].
    unfold polite in H. destruct (Z.eqb_spec (pid e) me) as [X|X]; [|now left].
    right. intros Y. apply (Ho i me p' code regs Hi). congruence.
Qed.
End Interleaving.

(** ** A run *)

Module RaceDemo.
#[export] Instance env : ExeEnv := Demo.env 0.

(** One CPU about to run the block of the site, which is ready. *)
Definition start : rstate := RState (Demo.table (Demo.hot 0 0)) [Chaining Demo.task Demo.regs].

(** A packet of another upload of the same block: one byte, not the last packet. *)
Definition packet : recv_pkt := RecvPkt (-1) Demo.task Demo.site 0.

Definition inside : rstate :=
  RState (log (EvRun Demo.block) (shared start))
    [Running Demo.task (get_exe Demo.task Demo.site) Demo.block Demo.regs].

Definition after_store : estate :=
  match sysfs_store (encode_pkt packet ++ [0xcc]) (shared inside) with
  | Some (s, _) => s
  | None => shared inside
  end.

Lemma race_start_ok : race_ok start.
Proof.
  split; [apply exe_wfb_sound; vm_compute; reflexivity|].
  constructor; [|constructor]. split; [unfold is_s32, Demo.task; lia|apply Demo.regs_wf].
Qed.

Lemma start_orderly : orderly start.
Proof.
  split; [exact race_start_ok| |].
  - intros [|i] [|j] li lj me; [easy|now destruct j|now destruct i|now destruct i].
  - now intros [|[|i]].
Qed.

Lemma enters allowed : rstep allowed start inside.
Proof.
  apply (r_enter allowed start 0 Demo.task Demo.regs); [reflexivity|]. vm_compute. reflexivity.
Qed.

Lemma packet_proper s e b : find s Demo.task Demo.site = Some e -> code_block e = Demo.block ->
  proper_packet s packet [b] e.
Proof.
  intros F B. split; [split; [|exact F| |]|easy].
  - unfold pkt_typed, packet, is_s32, is_u64, Demo.task, Demo.site. cbn. lia.
  - rewrite B. vm_compute. congruence.
  - vm_compute. congruence.
Qed.

Lemma stores : rstep (fun _ _ => True) inside (RState after_store (cpus inside)).
Proof.
  apply (r_store _ inside packet [0xcc] (Demo.hot 0 0) after_store 25).
  - easy.
  - now apply packet_proper.
  - vm_compute. reflexivity.
Qed.

(** The upload goes on. *)
Definition after_second : estate :=
  match sysfs_store (encode_pkt packet ++ [0x90]) after_store with
  | Some (s, _) => s
  | None => after_store
  end.

Lemma stores_second :
  rstep (withheld Demo.task Demo.site) (RState after_store []) (RState after_second []).
Proof.
  apply (r_store _ (RState after_store []) packet [0x90] (set_status_code (-1) (Demo.hot 0 0))
    after_second 25).
  - intros _. easy.
  - now apply packet_proper.
  - vm_compute. reflexivity.
Qed.
End RaceDemo.

(** ** Properties *)

(** C9. Whatever the order in which CPUs enter and leave code blocks and handlers,
    sites are registered and packets like the daemon's arrive (for registered sites,
    inside the 160 pages of the block, of a status other than [un_used]): the table stays well-formed; a CPU
    inside a block is in the block of its own site, still registered under its
    own task and address, so that the outcome is charged to that site; and no
    CPU can take a part of its round that leaves the table. *)
Theorem race_invariant (env : ExeEnv) (ok : ExeEnvOk env) (allowed : estate -> recv_pkt -> Prop) st st' :
  race_ok st -> rtc (rstep allowed) st st' ->
  exe_wf (shared st') /\ table_le (shared st) (shared st') /\
  (forall i me p code regs, cpus st' !! i = Some (Running me p code regs) ->
     exists e, exes (shared st') !! p = Some e /\ used e = true /\ pid e = me /\
       RIP e = rget regs IP /\ code_block e = code) /\
  (forall i me regs, cpus st' !! i = Some (Chaining me regs) ->
     enter_block me regs (shared st') <> NoEntry) /\
  (forall i me p code regs regs1 args, cpus st' !! i = Some (Running me p code regs) ->
     wf_regs regs1 -> Forall is_u64 args -> leave_block p regs1 args (shared st') <> None) /\
  (forall i me p regs regs1 ax, cpus st' !! i = Some (InCall me p regs) ->
     wf_regs regs1 -> is_u64 ax -> finish_syscall p ax regs1 (shared st') <> None).
Proof.
  intros R H. assert (X : race_ok st' /\ table_le (shared st) (shared st')).
  { induction H as [st|st st1 st2 H _ IH]; [now split|].
    destruct (rstep_ok _ _ _ R H) as [R1 L1]. destruct (IH R1) as [R2 L2].
    split; [easy|]. now transitivity (shared st1). }
  destruct X as [R' L]. split; [apply R'|]. split; [exact L|].
  split; [|split; [|split]].
  - intros i me p code regs Hi. destruct (race_cpu _ _ _ R' Hi) as (_ & _ & X). exact X.
  - intros. apply enter_block_defined, R'.
  - intros i me p code regs regs1 args Hi Hr Ha.
    destruct (race_cpu _ _ _ R' Hi) as (_ & _ & e & E & U & _).
    destruct (leave_block_ok p e regs1 args (shared st') (proj1 R') E U Hr Ha) as (l & -> & _). easy.
  - intros i me p regs regs1 ax Hi Hr Ha.
    destruct (race_cpu _ _ _ R' Hi) as (_ & _ & e & E & U & _).
    destruct (finish_syscall_ok p e ax regs1 (shared st') (proj1 R') E U Hr Ha) as (? & ? & -> & _).
    easy.
Qed.

Lemma race_invariant_witness : exe_wf RaceDemo.after_store.
Proof.
  refine (proj1 (race_invariant (Demo.env 0) (Demo.env_ok 0) (fun _ _ => True) RaceDemo.start
    (RState RaceDemo.after_store (cpus RaceDemo.inside)) RaceDemo.race_start_ok _)).
  eapply rtc_l; [apply RaceDemo.enters|]. eapply rtc_l; [exact RaceDemo.stores|reflexivity].
Defined.

(** C10. Only the last packet of an upload makes a site ready. Among packets that stay
    inside the block of their site, as the daemon's do, and while every packet for a
    site that is not ready carries another status than 0, as all but the last packet
    of an upload do, no interleaving of CPUs, registrations and packets for other
    sites makes it ready, and no CPU enters its half-written block. *)
Theorem half_upload_never_entered (env : ExeEnv) (p r : Z) st st' :
  ready (shared st) p r = None -> rtc (rstep (withheld p r)) st st' ->
  ready (shared st') p r = None /\
  forall regs code i s, rget regs IP = r -> enter_block p regs (shared st') <> Enter i code s.
Proof.
  intros N H. assert (N' : ready (shared st') p r = None).
  { induction H as [st|st st1 st2 H _ IH]; [easy|]. apply IH. now apply rstep_ready in H. }
  split; [easy|]. intros regs code i s <-. unfold enter_block, ready in *.
  destruct (exes (shared st') !! _) as [e|]; [|easy].
  destruct (status_code e =? normal), (RIP e =? _), (pid e =? p); easy.
Qed.

Lemma half_upload_never_entered_witness :
  ready RaceDemo.after_second Demo.task Demo.site = None.
Proof.
  refine (proj1 (half_upload_never_entered (Demo.env 0) Demo.task Demo.site
    (RState RaceDemo.after_store []) (RState RaceDemo.after_second []) _ _)).
  - vm_compute. reflexivity.
  - eapply rtc_l; [exact RaceDemo.stores_second|reflexivity].
Defined.

(** The protocol protects running blocks: when packets only go to sites that
    are not in service, then in every interleaving a CPU inside
    a block has its site in service, and no packet is for the entry of that block. *)
Theorem running_blocks_untouched (env : ExeEnv) (ok : ExeEnvOk env) st st' :
  orderly st -> rtc (rstep polite) st st' ->
  forall i me p code regs, cpus st' !! i = Some (Running me p code regs) ->
    ready (shared st') me (rget regs IP) <> None /\
    forall k e, find (shared st') (pkt_pid k) (pkt_RIP k) = Some e -> polite (shared st') k ->
      get_exe (pkt_pid k) (pkt_RIP k) <> p.
Proof.
  intros O H. assert (O' : orderly st').
  { induction H as [st|st st1 st2 H _ IH]; [easy|]. apply IH. now apply rstep_orderly in H. }
  intros i me p code regs Hi. pose proof (ord_running _ O' i me p code regs Hi) as N.
  split; [easy|]. intros k e F P X. destruct (find_used _ _ _ _ F) as (E & _ & Pe & Re).
  destruct (race_cpu _ _ _ (ord_ok _ O') Hi) as (_ & _ & e' & E' & _ & P' & R' & _).
  rewrite X in E. assert (e' = e) as -> by congruence.
  apply N. unfold polite in P. congruence.
Qed.

Lemma running_blocks_untouched_witness :
  ready (shared RaceDemo.inside) Demo.task Demo.site <> None.
Proof.
  refine (proj1 (running_blocks_untouched (Demo.env 0) (Demo.env_ok 0) RaceDemo.start
    RaceDemo.inside RaceDemo.start_orderly _ 0%nat Demo.task (get_exe Demo.task Demo.site) Demo.block
    Demo.regs eq_refl)).
  eapply rtc_l; [apply (RaceDemo.enters polite)|reflexivity].
Defined.

(** Without that protocol a block can be overwritten while a CPU is inside it:
    [sysfs_store] takes no lock and does not look at the status. The packet
    also takes the site out of service while it runs. *)
Theorem running_block_overwritten :
  exists st st' me p code regs,
    rtc (rstep (env := RaceDemo.env) (fun _ _ => True)) RaceDemo.start st /\
    rstep (env := RaceDemo.env) (fun _ _ => True) st st' /\
    cpus st = [Running me p code regs] /\ cpus st' = cpus st /\
    kmem (shared st) !! code = None /\ kmem (shared st') !! code = Some 0xcc /\
    ready (shared st) me (rget regs IP) <> None /\ ready (shared st') me (rget regs IP) = None.
Proof.
  exists RaceDemo.inside, (RState RaceDemo.after_store (cpus RaceDemo.inside)),
    Demo.task, (get_exe Demo.task Demo.site), Demo.block, Demo.regs.
  split; [eapply rtc_l; [apply RaceDemo.enters|reflexivity]|].
  split; [exact RaceDemo.stores|].
  split; [reflexivity|]. split; [reflexivity|]. split; [reflexivity|].
  split; [vm_compute; reflexivity|]. split; [vm_compute; discriminate|vm_compute; reflexivity].
Qed.
