(* ===== verification/Protocol.v ===== *)
(** The daemon of [zz_daemon/main.c] as one of the processes that use the module at the
    same time: it polls, and uploads block after block, packet by packet, while CPUs
    run blocks and register sites. *)
From Stdlib Require Import ZArith Lia Bool String.
From stdpp Require Import base list relations gmap.
From S2P Require Import Prelude Regs Exe Stat Sysfs Lkm Daemon Boost Race.

Local Open Scope Z_scope.

(** ** The steps *)

(** Between its reads and writes of the control file: with the rest of the dump, or
    with the packets of a block from number [i] on. *)
Inductive daemon : Type :=
| Todo (l : list exe_info)
| Sending (e : exe_info) (content : list Z) (i : nat) (l : list exe_info).

Record pstate : Type := P { race : rstate; dmn : daemon }.

(** The daemon answers for the entry. *)
Definition due (e : exe_info) : bool :=
  in_targets (RIP e) && match status_cmd e with Some _ => true | None => false end.

(** The areas that [vmalloc] handed out for the blocks do not overlap. *)
Definition area : Z := 4096 * num_pg.
Record areas (s : estate) : Prop := {
  ar_fit : forall i e, exes s !! i = Some e -> used e = true -> code_block e + area <= 2 ^ 64;
  ar_apart : forall i j e e', exes s !! i = Some e -> exes s !! j = Some e' -> used e = true -> used e' = true ->
    i <> j -> code_block e + area <= code_block e' \/ code_block e' + area <= code_block e
}.

Section Interleaved.
Context {env : ExeEnv} {ok : ExeEnvOk env}.
(** What the translator may leave in the file of a site. *)
Variable output : Z -> list Z -> Prop.

Inductive pstep : pstate -> pstate -> Prop :=
| p_kernel st st' d :                         (* CPUs and registrations *)
    rstep (fun _ _ => False) st st' -> areas (shared st') -> pstep (P st d) (P st' d)
| p_poll st f buf f' :                        (* check: read_sys *)
    sysfs_show (shared st) f = Some (buf, f') ->
    pstep (P st (Todo [])) (P st (Todo (decode_exes (length buf / sizeof_exe_info) buf)))
| p_skip st e l : due e = false -> pstep (P st (Todo (e :: l))) (P st (Todo l))
| p_start st e content l :                    (* the translator, and write_sys *)
    due e = true -> output (RIP e) content -> pstep (P st (Todo (e :: l))) (P st (Sending e content 0 l))
| p_send st e content i l s n :
    (i < n_packets (length content))%nat ->
    sysfs_store (encode_pkt (packet_head (pid e) (RIP e) (length content) i) ++ packet_data content i) (shared st)
      = Some (s, n) ->
    pstep (P st (Sending e content i l)) (P (RState s (cpus st)) (Sending e content (S i) l))
| p_done st e content l :
    pstep (P st (Sending e content (n_packets (length content)) l)) (P st (Todo l)).

(** ** What is kept *)

(** The first [n] bytes of a file are at an address. *)
Definition filled_to (s : estate) (a : Z) (content : list Z) (n : nat) : Prop :=
  forall j b, (j < n)%nat -> content !! j = Some b -> kmem s !! (a + Z.of_nat j) = Some b.

(** The block of the site is a whole file of the translator. *)
Definition loaded (s : estate) (e : exe_info) : Prop :=
  exists content, output (RIP e) content /\ filled_to s (code_block e) content (length content).

(** Entries of a dump are still there, and what was out of service is so still. *)
Definition queued (s : estate) (e : exe_info) : Prop :=
  find s (pid e) (RIP e) <> None /\ (status_code e <> normal -> ready s (pid e) (RIP e) = None).
Definition queue_ok (s : estate) (l : list exe_info) : Prop := NoDup (map key l) /\ Forall (queued s) l.

Definition sending_ok (s : estate) (e : exe_info) (content : list Z) (i : nat) : Prop :=
  output (RIP e) content /\ (i <= n_packets (length content))%nat /\
  (exists e', find s (pid e) (RIP e) = Some e' /\ filled_to s (code_block e') content (4000 * i)) /\
  ((i < n_packets (length content))%nat -> ready s (pid e) (RIP e) = None).

Definition dmn_ok (s : estate) (d : daemon) : Prop :=
  match d with
  | Todo l => queue_ok s l
  | Sending e content i l => queue_ok s l /\ (key e ∉ map key l) /\ sending_ok s e content i
  end.

Record protocol_ok (st : pstate) : Prop := {
  pr_orderly : orderly (race st);
  pr_areas : areas (shared (race st));
  pr_loaded : forall me ip e, ready (shared (race st)) me ip = Some e -> loaded (shared (race st)) e;
  pr_dmn : dmn_ok (shared (race st)) (dmn st)
}.

(** *** Steps of the kernel *)

Lemma find_le s s' p r e : table_le s s' -> find s p r = Some e ->
  exists e', find s' p r = Some e' /\ code_block e' = code_block e.
Proof.
  intros L F. destruct (find_used _ _ _ _ F) as (E & U & Hp & Hr). destruct (L _ e E U) as (e' & E' & U' & P' & R' & C').
  exists e'. split; [|exact C']. unfold find. rewrite E', U', P', R', Hp, Hr, !Z.eqb_refl. reflexivity.
Qed.

Lemma ready_find s me ip e : ready s me ip = Some e -> find s me ip = Some e.
Proof.
  intros H. destruct (ready_used _ _ _ _ H) as (E & U & _ & <- & <-). unfold find. now rewrite E, U, !Z.eqb_refl.
Qed.

(** Only packets change the bytes of a block. *)
Lemma kernel_bytes st st' : rstep (fun _ _ => False) st st' -> kmem (shared st') = kmem (shared st).
Proof.
  assert (W : forall p f s s', with_exe p f s = Some s' -> kmem s' = kmem s).
  { intros p f s s'. unfold with_exe. destruct (exes s !! p); [|easy]. now intros [= <-]. }
  assert (Rp : forall p s s', report p s = Some s' -> kmem s' = kmem s).
  { intros p s s'. unfold report. destruct (exes s !! p); [|easy]. destruct (_ =? 1); now intros [= <-]. }
  assert (Lv : forall p regs args s l, leave_block p regs args s = Some l ->
    match l with LeaveCall _ _ s' | LeaveNext _ s' => kmem s' = kmem s end).
  { intros p regs args s l. unfold leave_block, next_round. destruct (_ =? normal).
    - destruct (_ && _); [now intros [= <-]|]. destruct (report _ _) eqn:E; [|easy]. intros [= <-]. exact (Rp _ _ _ E).
    - destruct (with_exe _ _ _) as [s1|] eqn:E1; [|easy]. destruct (report _ _) eqn:E; [|easy]. intros [= <-].
      rewrite (Rp _ _ _ E). exact (W _ _ _ _ E1). }
  intros H. destruct H; cbn [shared set_cpu]; try easy.
  - unfold enter_block in H0. destruct (exes (shared st) !! _); [|easy]. destruct (_ || _); [easy|]. now injection H0 as _ _ <-.
  - exact (Lv _ _ _ _ _ H2).
  - exact (Lv _ _ _ _ _ H2).
  - unfold finish_syscall in H2. destruct (with_exe _ _ _) as [s1|] eqn:E1; [|easy].
    destruct (report _ _) as [s2|] eqn:E; [|easy]. injection H2 as _ <-. rewrite (Rp _ _ _ E). exact (W _ _ _ _ E1).
  - unfold exe_add in H1. destruct (exes (shared st) !! _) as [e|]; [|easy].
    destruct (negb _); [now injection H1 as <-|]. destruct (62 <? _); [now injection H1 as <-|].
    rewrite (W _ _ _ _ H1). reflexivity.
Qed.

Lemma rstep_mono (A B : estate -> recv_pkt -> Prop) st st' : (forall s k, A s k -> B s k) -> rstep A st st' -> rstep B st st'.
Proof.
  intros H R. destruct R; [eapply r_begin|eapply r_enter|eapply r_break|eapply r_leave_next|eapply r_leave_call
    |eapply r_return|eapply r_register|eapply r_store]; eauto.
Qed.

(** What other steps than the daemon's leave of a state. *)
Record quiet_step (s s' : estate) : Prop := {
  qs_le : table_le s s';
  qs_bytes : kmem s' = kmem s;
  qs_ready : forall me ip, ready s me ip = None -> ready s' me ip = None
}.

Lemma kernel_quiet st st' : race_ok st -> rstep (fun _ _ => False) st st' -> quiet_step (shared st) (shared st').
Proof.
  intros R H. split.
  - exact (proj2 (rstep_ok _ _ _ R H)).
  - now apply kernel_bytes.
  - intros me ip. apply rstep_ready. revert H. apply rstep_mono. easy.
Qed.

Lemma quiet_loaded s s' me ip e : quiet_step s s' -> (forall e, ready s me ip = Some e -> loaded s e) ->
  ready s' me ip = Some e -> loaded s' e.
Proof.
  intros [L K N] H R. destruct (ready s me ip) as [e0|] eqn:R0; [|rewrite (N me ip R0) in R; discriminate].
  destruct (H e0 eq_refl) as (c & O & F). apply ready_find in R0, R. destruct (find_le _ _ _ _ _ L R0) as (e1 & F1 & C1).
  rewrite R in F1. injection F1 as <-. destruct (find_used _ _ _ _ R) as (_ & _ & _ & R1).
  destruct (find_used _ _ _ _ R0) as (_ & _ & _ & R2). exists c. split; [congruence|].
  intros j b Hj Hb. rewrite K, C1. now apply F.
Qed.

Lemma quiet_queued s s' e : quiet_step s s' -> queued s e -> queued s' e.
Proof.
  intros [L K N] [F R]. split; [|auto]. destruct (find s (pid e) (RIP e)) as [e0|] eqn:E; [|easy].
  destruct (find_le _ _ _ _ _ L E) as (e1 & -> & _). discriminate.
Qed.

Lemma quiet_queue s s' l : quiet_step s s' -> queue_ok s l -> queue_ok s' l.
Proof. intros Q [N F]. split; [exact N|]. eapply Forall_impl; [exact F|]. intros e. now apply quiet_queued. Qed.

Lemma quiet_dmn s s' d : quiet_step s s' -> dmn_ok s d -> dmn_ok s' d.
Proof.
  intros Q. destruct d as [l|e c i l]; [now apply quiet_queue|]. intros (H & N & O & I & (e0 & F & B) & R).
  split; [now apply (quiet_queue s)|]. split; [exact N|]. split; [exact O|]. split; [exact I|].
  destruct (find_le _ _ _ _ _ (qs_le _ _ Q) F) as (e1 & F1 & C1). split.
  - exists e1. split; [exact F1|]. intros j b Hj Hb. rewrite (qs_bytes _ _ Q), C1. now apply B.
  - intros Hi. apply (qs_ready _ _ Q). auto.
Qed.

(** *** Packets *)

Lemma find_ready s me ip e : find s me ip = Some e ->
  ready s me ip = if status_code e =? normal then Some e else None.
Proof.
  intros H. destruct (find_used _ _ _ _ H) as (E & U & P & R). unfold ready. rewrite E, P, R, !Z.eqb_refl.
  now rewrite !andb_true_r.
Qed.

Lemma ready_other s s' me ip : find s' me ip = find s me ip -> ready s' me ip = ready s me ip.
Proof.
  intros F. destruct (find s me ip) as [e|] eqn:E; [now rewrite (find_ready _ _ _ _ E), (find_ready _ _ _ _ F)|].
  destruct (ready s me ip) as [e|] eqn:R; [apply ready_find in R; congruence|].
  destruct (ready s' me ip) as [e|] eqn:R'; [apply ready_find in R'; congruence|easy].
Qed.

Lemma queue_other s s' e l : (forall p r, (p, r) <> key e -> find s' p r = find s p r) -> (key e ∉ map key l) ->
  queue_ok s l -> queue_ok s' l.
Proof.
  intros O N [D F]. split; [exact D|]. rewrite Forall_forall in F |- *. intros e1 H1. destruct (F e1 H1) as [F1 R1].
  assert (K : (pid e1, RIP e1) <> key e).
  { intros Q. apply N. rewrite <- Q. apply list_elem_of_fmap. now exists e1. }
  unfold queued. rewrite (O _ _ K), (ready_other s s' _ _ (O _ _ K)). now split.
Qed.

(** The bytes of other blocks stay. *)
Lemma loaded_other s s' p r e e1 me ip off len : areas s -> find s p r = Some e -> ready s me ip = Some e1 ->
  (me, ip) <> (p, r) -> 0 <= off -> off + len <= area ->
  (forall x, x < code_block e + off \/ code_block e + off + len <= x -> kmem s' !! x = kmem s !! x) ->
  (forall c, output (RIP e1) c -> Z.of_nat (length c) <= area) -> loaded s e1 -> loaded s' e1.
Proof.
  intros [_ A] F R N H0 H1 K Fit (c & O & B). exists c. split; [exact O|]. intros j b Hj Hb. rewrite K; [now apply B|].
  apply ready_find in R. destruct (find_used _ _ _ _ F) as (E & U & P1 & R1).
  destruct (find_used _ _ _ _ R) as (E1 & U1 & P2 & R2). specialize (Fit c O).
  assert (I : get_exe p r <> get_exe me ip).
  { intros Q. rewrite Q in E. rewrite E1 in E. injection E as ->. apply N. congruence. }
  destruct (A _ _ _ _ E E1 U U1 I); lia.
Qed.

Lemma areas_same s s' : (forall i e, exes s' !! i = Some e -> used e = true ->
    exists e0, exes s !! i = Some e0 /\ used e0 = true /\ code_block e0 = code_block e) -> areas s -> areas s'.
Proof.
  intros H [F A]. split.
  - intros i e E U. destruct (H i e E U) as (e0 & E0 & U0 & <-). now apply (F i).
  - intros i j e e' E E' U U' N. destruct (H i e E U) as (e0 & E0 & U0 & <-). destruct (H j e' E' U') as (e1 & E1 & U1 & <-).
    now apply (A i j).
Qed.

Hypothesis output_fits : forall r c, output r c -> Z.of_nat (length c) <= area.

Lemma packet_length c i : Z.of_nat (length c) <= area -> (i < n_packets (length c))%nat ->
  4000 * Z.of_nat i + Z.of_nat (length (packet_data c i)) <= area.
Proof.
  intros H L. unfold packet_data. rewrite length_take, length_drop.
  pose proof (n_packets_bounds (length c)) as [B1 B2]. lia.
Qed.

Lemma packet_byte c i j b : (4000 * i <= j < 4000 * S i)%nat -> c !! j = Some b -> packet_data c i !! (j - 4000 * i)%nat = Some b.
Proof.
  intros H Hb. unfold packet_data. rewrite lookup_take_lt, lookup_drop by lia. now replace (4000 * i + (j - 4000 * i))%nat with j by lia.
Qed.

(** One more packet. *)
Lemma fill_next s s1 a c i : (forall x, x < a + 4000 * Z.of_nat i -> kmem s1 !! x = kmem s !! x) ->
  (forall j b, packet_data c i !! j = Some b -> kmem s1 !! (a + 4000 * Z.of_nat i + Z.of_nat j) = Some b) ->
  filled_to s a c (4000 * i) -> filled_to s1 a c (4000 * S i).
Proof.
  intros X I B j b Hj Hb. destruct (decide (j < 4000 * i)%nat) as [Lj|Lj].
  - rewrite X by lia. now apply B.
  - replace (a + Z.of_nat j) with (a + 4000 * Z.of_nat i + Z.of_nat (j - 4000 * i)) by lia.
    apply I, packet_byte; [lia|easy].
Qed.

Lemma store_areas s k payload e s1 n : pkt_typed k -> find s (pkt_pid k) (pkt_RIP k) = Some e ->
  sysfs_store (encode_pkt k ++ payload) s = Some (s1, n) -> areas s -> areas s1.
Proof.
  intros T F St. destruct (find_used _ _ _ _ F) as (E & U & _).
  rewrite (sysfs_store_hit s k payload e T F) in St. injection St as <- _. apply areas_same. cbn [exes set_exes].
  intros j e1 E1 U1. apply list_lookup_insert_Some in E1 as [(<- & <- & _)|[_ E1]]; [now exists e|now exists e1].
Qed.

Lemma send_ok st e c i l s n : protocol_ok (P st (Sending e c i l)) -> (i < n_packets (length c))%nat ->
  sysfs_store (encode_pkt (packet_head (pid e) (RIP e) (length c) i) ++ packet_data c i) (shared st) = Some (s, n) ->
  protocol_ok (P (RState s (cpus st)) (Sending e c (S i) l)).
Proof.
  intros [O A Ld (Q & N & Oc & Hi & (e' & F & B) & R)] Li St. cbn [race dmn] in *.
  pose proof (output_fits _ _ Oc) as Fit. specialize (R Li). pose proof (ord_ok _ O) as [W _].
  destruct (find_used _ _ _ _ F) as (E & U & Pe & Re).
  pose proof (wf_entry_typed _ _ _ W E) as (_ & Tp & Tr & _).
  set (k := packet_head (pid e) (RIP e) (length c) i) in *.
  assert (T : pkt_typed k) by (apply packet_head_typed; [congruence|congruence|unfold i_buf_size, area, num_pg in *; lia|easy]).
  assert (Nu : pkt_status_code k <> un_used) by (unfold k, packet_head, un_used; cbn; case_if; lia).
  pose proof (packet_length c i Fit Li) as Pl.
  pose proof (ar_fit _ A _ _ E U) as Af.
  destruct (sysfs_store_piece (shared st) k (packet_data c i) e' W T F Nu Af Pl) as (s1 & E1 & (W1 & L1 & F1 & O1 & I1 & X1 & _)).
  rewrite St in E1. injection E1 as -> _. change (pkt_pid k) with (pid e) in *. change (pkt_RIP k) with (RIP e) in *.
  change (offset k) with (4000 * Z.of_nat i) in *.
  assert (Fill : filled_to s1 (code_block e') c (4000 * S i)).
  { apply (fill_next (shared st)); [|exact I1|exact B]. intros x Hx. apply X1. now left. }
  split; cbn [race dmn shared].
  - apply (rstep_orderly st); [exact O|].
    apply (r_store _ st k (packet_data c i) e' s1 n); [exact R| |exact St]. now split.
  - exact (store_areas _ _ _ _ _ _ T F St A).
  - intros me ip e1 R1. destruct (decide ((me, ip) = (pid e, RIP e))) as [Q1|N1].
    + injection Q1 as -> ->. rewrite (find_ready _ _ _ _ F1) in R1. destruct (_ =? normal) eqn:Sn; [|easy]. injection R1 as <-.
      exists c. cbn [RIP set_status_code code_block] in *. split; [congruence|]. intros j b Hj Hb. apply Fill; [|exact Hb].
      cbn [status_code set_status_code] in Sn. unfold k, packet_head in Sn. cbn [pkt_status_code] in Sn.
      destruct (Nat.eqb_spec (S i) (n_packets (length c))) as [Eq|]; [|easy]. rewrite Eq.
      pose proof (n_packets_bounds (length c)). lia.
    + assert (R0 : ready (shared st) me ip = Some e1) by (now rewrite <- (ready_other _ _ _ _ (O1 _ _ N1))).
      apply (loaded_other (shared st) s1 (pid e) (RIP e) e' e1 me ip (4000 * Z.of_nat i) (Z.of_nat (length (packet_data c i))));
        try easy; [lia| |now apply (Ld me ip)]. intros c1 Oc1. now apply (output_fits (RIP e1)).
  - split; [|split; [exact N|split; [exact Oc|split; [lia|split]]]].
    + now apply (queue_other (shared st) s1 e).
    + exists (set_status_code (pkt_status_code k) e'). split; [exact F1|exact Fill].
    + intros Ls. rewrite (find_ready _ _ _ _ F1). cbn [status_code set_status_code]. unfold k, packet_head. cbn [pkt_status_code].
      destruct (Nat.eqb_spec (S i) (n_packets (length c))); [lia|reflexivity].
Qed.

(** *** The other steps of the daemon *)

Lemma dump_queue s f buf f' : exe_wf s -> sysfs_show s f = Some (buf, f') ->
  queue_ok s (decode_exes (length buf / sizeof_exe_info) buf).
Proof.
  intros W E. rewrite (proj2 (dump_entries s f buf f' W E)). split; [now apply dump_keys_NoDup|].
  apply Forall_forall. intros e He. pose proof (used_entries_find s e W He) as F. split; [congruence|].
  intros N. rewrite (find_ready _ _ _ _ F). now rewrite (proj2 (Z.eqb_neq _ _) N).
Qed.

Lemma queue_next s e l : queue_ok s (e :: l) -> queue_ok s l /\ (key e ∉ map key l) /\ queued s e.
Proof. intros [N F]. cbn [map] in N. apply NoDup_cons in N as [Ne N]. apply Forall_cons in F as [Fe F]. exact (conj (conj N F) (conj Ne Fe)). Qed.

Lemma due_status e : due e = true -> status_code e <> normal.
Proof.
  unfold due. intros [_ H]%andb_prop E. unfold status_cmd in H. rewrite E in H. discriminate.
Qed.

Lemma pstep_ok st st' : protocol_ok st -> pstep st st' -> protocol_ok st'.
Proof.
  intros H S. pose proof H as [O A L D]. destruct S; cbn [race dmn] in *.
  - pose proof (kernel_quiet st st' (ord_ok _ O) H0) as Q. split; cbn [race dmn].
    + apply (rstep_orderly st); [exact O|]. revert H0. now apply rstep_mono.
    + exact H1.
    + intros me ip e R. exact (quiet_loaded _ _ me ip e Q (fun e0 => L me ip e0) R).
    + now apply (quiet_dmn (shared st)).
  - split; try easy. now apply (dump_queue _ f buf f'); [apply O|].
  - split; try easy. now apply (queue_next _ e).
  - split; try easy. destruct (queue_next _ _ _ D) as (Q & N & F & R). split; [exact Q|]. split; [exact N|]. split; [easy|].
    split; [lia|]. split.
    + destruct (find (shared st) (pid e) (RIP e)) as [e'|] eqn:Fe; [|easy]. exists e'. split; [exact Fe|]. intros j b Hj. lia.
    + intros _. apply R. now apply due_status.
  - now apply (send_ok st e content i l s n).
  - split; try easy. apply D.
Qed.

Lemma psteps_ok st st' : protocol_ok st -> rtc pstep st st' -> protocol_ok st'.
Proof. intros H R. induction R as [st|st st1 st2 S _ IH]; [exact H|]. apply IH. now apply (pstep_ok st). Qed.

(** *** A poll of the daemon is a run *)

Section Poll.
Context {shell : Shell}.
Hypothesis shell_output : forall cmds r c, read_file cmds (jit_path r) = Some c -> output r c.

Lemma lkm_write_inv b l l' : sys_write (SysFile := lkm_file) b l = Some l' ->
  exists s n, sysfs_store b (l_exe l) = Some (s, n) /\ l_exe l' = s.
Proof.
  cbn [sys_write lkm_file]. destruct (attr_file _); [|easy].
  destruct (sysfs_store b (l_exe l)) as [[s n]|]; [|easy]. intros [= <-]. now exists s, n.
Qed.

Lemma upload_psteps e c cs todo m : forall i l l', (i + m)%nat = n_packets (length c) ->
  writes (file := lkm_file) (map (fun i => encode_pkt (packet_head (pid e) (RIP e) (length c) i) ++ packet_data c i) (seq i m)) l
    = Some l' ->
  rtc pstep (P (RState (l_exe l) cs) (Sending e c i todo)) (P (RState (l_exe l') cs) (Sending e c (n_packets (length c)) todo)).
Proof.
  induction m as [|m IH]; intros i l l' Hi; cbn [seq map writes].
  - intros [= <-]. rewrite Nat.add_0_r in Hi. now rewrite Hi.
  - destruct (sys_write _ l) as [l1|] eqn:W; [|discriminate]. intros R. destruct (lkm_write_inv _ _ _ W) as (s & n & St & E).
    apply (rtc_l _ _ (P (RState (l_exe l1) cs) (Sending e c (S i) todo))); [|apply IH; [lia|exact R]].
    rewrite E. apply (p_send (RState (l_exe l) cs) e c i todo s n); [lia|exact St].
Qed.

Lemma entry_psteps e cs todo (d d' : dstate lkm) : check_entry (file := lkm_file) e d = Ret d' ->
  rtc pstep (P (RState (l_exe (kernel d)) cs) (Todo (e :: todo))) (P (RState (l_exe (kernel d')) cs) (Todo todo)).
Proof.
  assert (Skip : forall d', due e = false -> kernel d' = kernel d ->
    rtc pstep (P (RState (l_exe (kernel d)) cs) (Todo (e :: todo))) (P (RState (l_exe (kernel d')) cs) (Todo todo))).
  { intros d1 D ->. apply rtc_once. now apply p_skip. }
  unfold check_entry. destruct (in_targets (RIP e)) eqn:T; cbn [negb].
  2:{ intros H. apply Skip; [unfold due; now rewrite T|]. destruct (negb _); [|congruence].
      destruct (_ && _); [|easy]. now injection H as <-. }
  destruct (status_cmd e) as [cmd|] eqn:C; [|intros [= <-]; apply Skip; [unfold due; now rewrite T, C|easy]].
  destruct (cmd_history cmd d) as [[seen d1]| |] eqn:Hh; [|easy|easy]. cbn [obind].
  assert (K : kernel d1 = kernel d).
  { unfold cmd_history in Hh. destruct (cmd_seen _ _); [now injection Hh as _ <-|]. destruct (_ <? _); [|easy]. now injection Hh as _ <-. }
  set (d2 := if seen then d1 else _). replace (kernel d) with (kernel d2) by (unfold d2; now destruct seen).
  intros H. destruct (read_file (commands d2) (jit_path (RIP e))) as [c|] eqn:Rf; [|unfold write_sys in H; now rewrite Rf in H].
  pose proof (shell_output _ _ _ Rf) as O. pose proof (output_fits _ _ O) as Fit.
  rewrite (write_sys_spec _ _ _ c Rf) in H by (unfold area, i_buf_size, num_pg in *; lia).
  destruct (writes _ _) as [k|] eqn:W; [|easy]. injection H as <-. cbn [kernel set_kernel].
  apply (rtc_l _ _ (P (RState (l_exe (kernel d2)) cs) (Sending e c 0 todo))).
  - apply p_start; [unfold due; now rewrite T, C|exact O].
  - eapply rtc_r; [apply (upload_psteps e c cs todo (n_packets (length c)) 0 _ k); [easy|exact W]|]. apply p_done.
Qed.

Lemma entries_psteps cs l : forall d d' : dstate lkm, check_entries (file := lkm_file) l d = Ret d' ->
  rtc pstep (P (RState (l_exe (kernel d)) cs) (Todo l)) (P (RState (l_exe (kernel d')) cs) (Todo [])).
Proof.
  induction l as [|e l IH]; intros d d'; cbn [check_entries]; [now intros [= <-]|].
  destruct (check_entry (file := lkm_file) e d) as [d1| |] eqn:E; [|discriminate|discriminate]. cbn [obind]. intros H.
  transitivity (P (RState (l_exe (kernel d1)) cs) (Todo l)); [now apply entry_psteps|now apply IH].
Qed.

(** One poll of [main.c], with nothing in between, is a run of the protocol. *)
Lemma check_psteps cs (d d' : dstate lkm) : exe_wf (l_exe (kernel d)) -> check (file := lkm_file) d = Ret d' ->
  rtc pstep (P (RState (l_exe (kernel d)) cs) (Todo [])) (P (RState (l_exe (kernel d')) cs) (Todo [])).
Proof.
  intros W. unfold check, read_sys, sys_read, lkm_file. destruct (attr_file _); [|easy].
  destruct (sysfs_show _ _) as [[buf f]|] eqn:Sh; [|easy]. cbn [obind]. intros H.
  pose proof (proj1 (dump_entries _ _ _ _ W Sh)) as L. rewrite take_ge in H by lia.
  apply (entries_psteps cs) in H. eapply rtc_l; [|exact H]. now apply (p_poll (RState (l_exe (kernel d)) cs) (stat_flag (kernel d)) buf f).
Qed.
End Poll.

(** C11. A CPU that runs a code block always runs a whole one: while the daemon polls and
    uploads, packet by packet, and CPUs run blocks, make system calls and register
    sites, in whatever order, the block that a CPU is in is that of its site, in
    service, and holds to the last byte a file that the translator made for it; and the
    daemon is not writing to that site. *)
Theorem running_blocks_whole st st' : protocol_ok st -> rtc pstep st st' ->
  forall i me p code regs, cpus (race st') !! i = Some (Running me p code regs) ->
    (exists e, ready (shared (race st')) me (rget regs IP) = Some e /\ code_block e = code /\
       loaded (shared (race st')) e) /\
    forall e content j l, dmn st' = Sending e content j l -> (j < n_packets (length content))%nat ->
      get_exe (pid e) (RIP e) <> p.
Proof.
  intros H R i me p code regs Hi. pose proof (psteps_ok _ _ H R) as [O A L D].
  pose proof (ord_running _ O i me p code regs Hi) as N.
  destruct (race_cpu _ _ _ (ord_ok _ O) Hi) as (_ & _ & e & E & U & Pe & Re & C).
  assert (Ep : p = get_exe me (rget regs IP)).
  { pose proof (wf_slot _ (proj1 (ord_ok _ O)) p e E U) as Q. now rewrite Pe, Re in Q. }
  destruct (ready (shared (race st')) me (rget regs IP)) as [e1|] eqn:R1; [|easy].
  destruct (ready_used _ _ _ _ R1) as (E1 & _ & _ & R2 & P2). rewrite <- Ep, E in E1. injection E1 as <-. split.
  - exists e. split; [easy|]. split; [exact C|]. now apply (L me (rget regs IP)).
  - intros e2 c j l Ed Lj Q. rewrite Ed in D. destruct D as (_ & _ & _ & _ & (e3 & F & _) & Nr).
    specialize (Nr Lj). destruct (find_used _ _ _ _ F) as (E3 & _ & P3 & R3). rewrite Q, E in E3. injection E3 as <-.
    rewrite <- P3, <- R3, P2, R2, R1 in Nr. discriminate.
Qed.
End Interleaved.

(** ** An upload *)

Module ProtocolDemo.
Definition file : list Z := [0x90; 0xc3].
Definition output (_ : Z) (c : list Z) : Prop := c = file.

Definition waiting : exe_info := set_status_code un_init (Demo.hot 0 0).
Definition start : pstate := P (RState (Demo.table waiting) [Chaining Demo.task Demo.regs]) (Todo []).
Definition uploaded : estate :=
  match sysfs_store (encode_pkt (packet_head Demo.task Demo.site 2 0) ++ packet_data file 0) (Demo.table waiting) with
  | Some (s, _) => s
  | None => Demo.empty_table
  end.
Definition inside : pstate :=
  P (RState (log (EvRun Demo.block) uploaded) [Running Demo.task (get_exe Demo.task Demo.site) Demo.block Demo.regs])
    (Sending waiting file 1 []).

Lemma output_fits r c : output r c -> Z.of_nat (length c) <= area.
Proof. intros ->. vm_compute. discriminate. Qed.

(** One entry is used. *)
Lemma one_entry e i e' : <[get_exe Demo.task Demo.site := e]> Demo.blanks !! i = Some e' -> used e' = true ->
  i = get_exe Demo.task Demo.site /\ e' = e.
Proof.
  intros H U. apply list_lookup_insert_Some in H as [(<- & <- & _)|[_ H]]; [easy|].
  apply lookup_replicate in H as [-> _]. discriminate.
Qed.

Lemma one_area s e : exes s = <[get_exe Demo.task Demo.site := e]> Demo.blanks -> code_block e = Demo.block -> areas s.
Proof.
  intros E C. split; rewrite E.
  - intros i e1 H U. destruct (one_entry _ _ _ H U) as [_ ->]. rewrite C. vm_compute. discriminate.
  - intros i j e1 e2 H1 H2 U1 U2 N. destruct (one_entry _ _ _ H1 U1) as [-> _]. destruct (one_entry _ _ _ H2 U2) as [-> _]. now destruct N.
Qed.

Lemma start_ok : protocol_ok output start.
Proof.
  split.
  - split.
    + split; [apply exe_wfb_sound; vm_compute; reflexivity|]. constructor; [|constructor].
      split; [unfold is_s32, Demo.task; lia|apply Demo.regs_wf].
    + intros [|i] [|j] li lj me; [easy|now destruct j|now destruct i|now destruct i].
    + now intros [|[|i]].
  - now apply (one_area _ waiting).
  - intros me ip e R. destruct (ready_used _ _ _ _ R) as (E & U & S & _). apply one_entry in E as [_ ->]; easy.
  - split; constructor.
Qed.

Lemma poll_entries : exists buf, sysfs_show (Demo.table waiting) 0 = Some (buf, 1) /\
  decode_exes (length buf / sizeof_exe_info) buf = [waiting].
Proof. exists (show_bytes [waiting]). split; vm_compute; reflexivity. Qed.

Lemma run : rtc (pstep (env := Demo.env 0) output) start inside.
Proof.
  destruct poll_entries as (buf & Sh & De).
  eapply rtc_l; [exact (p_poll output (race start) 0 buf 1 Sh)|]. rewrite De.
  eapply rtc_l; [apply (p_start output (race start) waiting file []); [vm_compute; reflexivity|easy]|].
  eapply rtc_l; [apply (p_send output (race start) waiting file 0 [] uploaded 26)|].
  - vm_compute. constructor.
  - vm_compute. reflexivity.
  - apply rtc_once. apply p_kernel.
    + apply (r_enter _ (RState uploaded [Chaining Demo.task Demo.regs]) 0). { reflexivity. } vm_compute. reflexivity.
    + apply (one_area _ (Demo.hot 0 0)); vm_compute; reflexivity.
Qed.
End ProtocolDemo.

Lemma running_blocks_whole_witness :
  loaded ProtocolDemo.output (shared (race ProtocolDemo.inside)) (Demo.hot 0 0).
Proof.
  destruct (running_blocks_whole (env := Demo.env 0) (ok := Demo.env_ok 0) ProtocolDemo.output ProtocolDemo.output_fits
    ProtocolDemo.start ProtocolDemo.inside ProtocolDemo.start_ok ProtocolDemo.run 0%nat Demo.task
    (get_exe Demo.task Demo.site) Demo.block Demo.regs eq_refl) as [(e & R & _ & L) _].
  replace (Demo.hot 0 0) with e; [exact L|].
  assert (Some e = Some (Demo.hot 0 0)) as E by (rewrite <- R; vm_compute; reflexivity). now injection E.
Defined.
