(* ===== verification/System.v ===== *)
(** The patched kernel with the module loaded: [do_syscall_64] of
    [kernel_modify/common.c] calling, through [zz_var], the function [func] of
    [zz_lkm/zz_lkm_main.c]. The part that runs without the module is the kernel
    [bare]; between and during its calls other tasks and the daemon may take
    steps of the module ([others]). *)
From Stdlib Require Import ZArith Lia Bool.
From stdpp Require Import base list relations.
From S2P Require Import Prelude Regs Exe Stat Sysfs Lkm Entry.

Local Open Scope Z_scope.
Local Open Scope ub_scope.

(** ** Two runs side by side *)

(** From related states both runs return related results, or neither returns. *)
Definition msim {S1 S2 A : Type} (R : S1 -> S2 -> Prop) (m1 : M S1 A) (m2 : M S2 A) : Prop :=
  forall s1 s2, R s1 s2 ->
  match m1 s1, m2 s2 with
  | Some (a1, s1'), Some (a2, s2') => a1 = a2 /\ R s1' s2'
  | None, None => True
  | _, _ => False
  end.

Section Simulation.
Context {S1 S2 : Type} (R : S1 -> S2 -> Prop).

Lemma msim_ret {A} (a : A) : msim R (ret a) (ret a).
Proof. intros s1 s2 H. now split. Qed.
Lemma msim_diverge {A} : msim (A := A) R diverge diverge.
Proof. easy. Qed.
Lemma msim_gets {A} (f : S1 -> A) (g : S2 -> A) :
  (forall s1 s2, R s1 s2 -> f s1 = g s2) -> msim R (gets f) (gets g).
Proof. intros H s1 s2 Hs. split; auto. Qed.
Lemma msim_modify (f : S1 -> S1) (g : S2 -> S2) :
  (forall s1 s2, R s1 s2 -> R (f s1) (g s2)) -> msim R (modify f) (modify g).
Proof. intros H s1 s2 Hs. split; auto. Qed.
Lemma msim_bind {A B} (m1 : M S1 A) (m2 : M S2 A) (k1 : A -> M S1 B) (k2 : A -> M S2 B) :
  msim R m1 m2 -> (forall a, msim R (k1 a) (k2 a)) -> msim R (bind m1 k1) (bind m2 k2).
Proof.
  intros Hm Hk s1 s2 Hs. specialize (Hm s1 s2 Hs). unfold bind.
  destruct (m1 s1) as [[a1 s1']|], (m2 s2) as [[a2 s2']|]; try easy.
  destruct Hm as [-> Hs']. now apply Hk.
Qed.
Lemma msim_if {A} (b : bool) (m1 n1 : M S1 A) (m2 n2 : M S2 A) :
  msim R m1 m2 -> msim R n1 n2 -> msim R (if b then m1 else n1) (if b then m2 else n2).
Proof. now destruct b. Qed.
Lemma msim_silent_gets {A B} (f : S1 -> A) (k1 : A -> M S1 B) (m2 : M S2 B) :
  (forall a, msim R (k1 a) m2) -> msim R (bind (gets f) k1) m2.
Proof. intros H s1 s2 Hs. now apply H. Qed.
(** A step of the first run that the second does not see. *)
Lemma msim_silent {A} (m : M S1 unit) (k1 : M S1 A) (k2 : M S2 A) :
  msim R m (ret tt) -> msim R k1 k2 -> msim R (m ;; k1) k2.
Proof.
  intros Hm Hk s1 s2 Hs. specialize (Hm s1 s2 Hs). unfold bind.
  destruct (m s1) as [[[] s1']|]; [|easy]. apply Hk, Hm.
Qed.
End Simulation.

(** Follows two runs of the same code; what is left are the calls and accesses. *)
Ltac msim_step :=
  match goal with
  | |- msim _ (ret _) (ret _) => apply msim_ret
  | |- msim _ diverge diverge => apply msim_diverge
  | |- msim _ (bind _ _) (bind _ _) => apply msim_bind; [|intros ?]
  | |- msim _ (if ?b then _ else _) (if ?b then _ else _) => apply msim_if
  | |- msim _ (let _ := _ in _) _ => cbv zeta
  end.

(** ** Registration makes no site ready *)

Section Idle.
Context {env : ExeEnv}.

Lemma harvest_ready pos cs es cs' es' :
  harvest pos (cs, es) = Some (cs', es') -> same_ready es es'.
Proof.
  unfold harvest. destruct (cs !! pos) as [c|]; [|easy].
  destruct (hot_caller_th <? cnt c).
  - destruct (exe_add _ _ es) as [es1|] eqn:E; [|easy]. intros [= _ <-].
    now apply exe_add_ready in E.
  - now intros [= _ <-].
Qed.

Lemma harvests_ready k : forall i a cs' es',
  for_opt harvest i k a = Some (cs', es') -> same_ready (snd a) es'.
Proof.
  induction k as [|k IH]; intros i [cs es] cs' es'; cbn [for_opt]; [now intros [= <- <-]|].
  destruct (harvest i (cs, es)) as [[cs1 es1]|] eqn:E; [|easy]. intros H me ip.
  rewrite (IH _ _ _ _ H). now rewrite (harvest_ready _ _ _ _ _ E).
Qed.

Lemma stat_cpu_ready now p ip ts i es i' es' :
  stat_cpu now p ip ts i es = Some (i', es') -> same_ready es es'.
Proof.
  unfold stat_cpu, milestone. intros H.
  assert (X : forall o : option (per_cpu_info * estate),
    (forall j e, o = Some (j, e) -> same_ready es e) ->
    match o with
    | Some (i, es) => match observe now p ip ts i with Some i => Some (i, es) | None => None end
    | None => None
    end = Some (i', es') -> same_ready es es').
  { intros [[j e]|] Ho; [|easy]. destruct (observe _ _ _ _ j); [|easy].
    intros [= _ <-]. now apply (Ho j). }
  revert H. apply X. intros j e. destruct (milestone_cnt <? _); [|now intros [= _ <-]].
  destruct (interested _); [|now intros [= _ <-]].
  destruct (for_opt harvest _ _ _) as [[cs1 es1]|] eqn:E; [|easy].
  intros [= _ <-]. now apply harvests_ready in E.
Qed.

Lemma func_idle {ok : ExeEnvOk env} fuel cpu now me regs ts l :
  lkm_wf l -> 0 <= cpu < num_cpus (l_stat l) -> is_s32 me -> wf_regs regs ->
  ready (l_exe l) me (rget regs IP) = None ->
  exists l', func (S fuel) cpu now me regs ts l = Done (l', regs) /\
    same_ready (l_exe l) (l_exe l').
Proof.
  intros [[Ls Wi] We] Hc Hm Hr R. unfold func, exe_on_call. cbn [while].
  rewrite chain_body_miss by easy.
  simpl. destruct (stat_flag l <? 100); [|eexists; split; [reflexivity|now intros me' ip]].
  unfold stat_func, set_l_exe. simpl.
  destruct (lookup_lt_is_Some_2 (info (l_stat l)) (Z.to_nat cpu)) as [i E]; [lia|].
  rewrite E. pose proof (Forall_lookup_1 _ _ _ _ Wi E) as Wcpu.
  destruct (stat_cpu_ok now me (rget regs IP) ts i (l_exe l) Wcpu We Hm
    (rget_range IP _ Hr)) as (i' & es' & X & _).
  rewrite X. eexists. split; [reflexivity|]. now apply stat_cpu_ready in X.
Qed.
End Idle.

(** ** The kernel with the module *)

Section System.
Context {X : Type} {env : ExeEnv} {kenv : LkmEnv} {consts : EntryConsts}.
Abbreviation lstate := (tstate (lkm * X)).

Definition module_of (s : lstate) : lkm := fst (world s).

Definition hookb (c : kcall) : bool := match c with zz_hook _ => true | _ => false end.

(** What the kernel without the module would see. *)
Definition unload (s : lstate) : tstate X :=
  TState (t_regs s) (ti_flags s) (ti_status s) (irqs_on s) false (snd (world s))
    (filter (fun c => hookb c = false) (calls s)).

(** [s2] with the module [l] and the calls of [s]; the pointer is the module's. *)
Definition load (s : lstate) (l : lkm) (s2 : tstate X) : lstate :=
  TState (t_regs s2) (ti_flags s2) (ti_status s2) (irqs_on s2) (zz_var l) (l, world s2) (calls s).

(** The current task and CPU, and the module after what the others do during a
    call. [chain] bounds the rounds of [exe_on_call]. *)
Class Machine := {
  bare : KernelEnv X;
  current : Z;
  smp_processor_id : tstate X -> Z;
  others : kcall -> lstate -> lkm;
  chain : nat
}.

Context {machine : Machine}.

Definition loaded_ext (c : kcall) (s : lstate) : option (Z * lstate) :=
  match c with
  | zz_hook ts =>
      match func chain (smp_processor_id (unload s)) (@ktime_get_boottime_ns X bare (unload s))
              current (t_regs s) ts (module_of s) with
      | Done (l, regs) => Some (0, set_t_regs regs (load s l (unload s)))
      | _ => None
      end
  | _ =>
      match @ext X bare c (unload s) with
      | Some (r, s2) => Some (r, load s (others c s) s2)
      | None => None
      end
  end.

#[export] Instance loaded_kernel : KernelEnv (lkm * X) := {|
  ext := loaded_ext;
  ktime_get_boottime_ns s := @ktime_get_boottime_ns X bare (unload s);
  in_ia32_syscall s := @in_ia32_syscall X bare (unload s);
  get_user32 s a := @get_user32 X bare (unload s) a;
  vdso := @vdso X bare;
  sym_int80_landing_pad := @sym_int80_landing_pad X bare |}.
End System.

(** The kernel without module keeps register files complete and knows no hook;
    what others do to the module are steps of it. *)
Class MachineOk {X : Type} {env : ExeEnv} {kenv : LkmEnv} {consts : EntryConsts}
    (m : Machine (X := X)) : Prop := {
  current_s32 : is_s32 current;
  cpu_online : forall s, 0 <= smp_processor_id s < num_online_cpus;
  bare_regs : forall c s r s', @ext X bare c s = Some (r, s') ->
    wf_regs (t_regs s) -> wf_regs (t_regs s');
  bare_unhooked : forall c s r s', @ext X bare c s = Some (r, s') ->
    zz_set s = false -> zz_set s' = false;
  others_steps : forall c s, lkm_wf (module_of s) -> rtc lkm_step (module_of s) (others c s)
}.

(** ** The module under the system calls of all tasks *)

Section Run.
Context {X : Type} {env : ExeEnv} {ok : ExeEnvOk env} {kenv : LkmEnv} {consts : EntryConsts}.
Context {machine : Machine (X := X)} {machine_ok : MachineOk machine}.
Abbreviation lstate := (tstate (lkm * X)).

(** A state of the machine after loading. *)
Record sys_ok (s : lstate) : Prop := {
  so_module : lkm_wf (module_of s);
  so_cpus : num_cpus (l_stat (module_of s)) = num_online_cpus;
  so_regs : wf_regs (t_regs s)
}.

Lemma lkm_step_cpus l l' : lkm_step l l' -> lkm_wf l -> num_cpus (l_stat l') = num_cpus (l_stat l).
Proof.
  intros H W. destruct H as [fuel cpu now me regs ts l' regs' Hc Hm Hr H| |]; [|easy|easy].
  now apply (func_ok fuel cpu now me regs ts l W Hc Hm Hr) in H.
Qed.

Lemma lkm_steps_ok l l' : rtc lkm_step l l' -> lkm_wf l ->
  lkm_wf l' /\ num_cpus (l_stat l') = num_cpus (l_stat l) /\ table_le (l_exe l) (l_exe l').
Proof.
  induction 1 as [l|l l1 l2 H _ IH]; intros W; [split; [easy|split; [easy|reflexivity]]|].
  pose proof (lkm_step_cpus l l1 H W) as N. destruct (lkm_step_wf l l1 W H) as [W1 L1].
  destruct (IH W1) as (W2 & N2 & L2). split; [easy|]. split; [congruence|].
  now transitivity (l_exe l1).
Qed.

(** What every part of a system call does to the module. *)
Definition progress (s s' : lstate) : Prop :=
  sys_ok s -> sys_ok s' /\ rtc lkm_step (module_of s) (module_of s').

#[export] Instance progress_preorder : PreOrder progress.
Proof.
  split.
  - intros s H. now split.
  - intros s1 s2 s3 H12 H23 H. apply H12 in H as [H L1]. apply H23 in H as [H L2].
    split; [easy|]. now transitivity (module_of s2).
Qed.

Lemma loaded_ext_progress c s r s' :
  ext c s = Some (r, s') -> sys_ok s -> sys_ok s' /\ rtc lkm_step (module_of s) (module_of s').
Proof.
  intros E [W N R].
  assert (B : hookb c = false ->
    match @ext X bare c (unload s) with
    | Some (r, s2) => Some (r, load s (others c s) s2)
    | None => None
    end = Some (r, s') -> sys_ok s' /\ rtc lkm_step (module_of s) (module_of s')).
  { intros _ E'. destruct (@ext X bare c (unload s)) as [[r2 s2]|] eqn:Eb; [|easy].
    injection E' as <- <-. pose proof (others_steps c s W) as St.
    destruct (lkm_steps_ok _ _ St W) as (W' & N' & _).
    split; [split; cbn; [easy|congruence|]|easy].
    now apply (bare_regs _ _ _ _ Eb). }
  destruct c; try (now apply B). clear B. cbn in E.
  destruct (func _ _ _ _ _ _ _) as [[l regs]| |] eqn:F; [|easy|easy]. injection E as <- <-.
  assert (Hc : 0 <= smp_processor_id (unload s) < num_cpus (l_stat (module_of s)))
    by (rewrite N; apply cpu_online).
  destruct (func_ok chain _ (@ktime_get_boottime_ns X bare (unload s)) current (t_regs s) ts _ W Hc
    current_s32 R) as [_ Hf].
  pose proof (Hf _ _ F) as (W' & _ & R' & N' & _).
  split; [split; cbn; [easy|congruence|easy]|]. cbn. apply rtc_once.
  now apply (step_call _ _ _ _ _ _ _ _ _ Hc current_s32 R F).
Qed.

Lemma keeps_kcall_ret c : keeps progress (kcall_ret c).
Proof.
  intros s a s'. unfold kcall_ret. destruct (ext c s) as [[r s1]|] eqn:E; [|easy].
  intros [= <- <-] H. destruct (loaded_ext_progress _ _ _ _ E H) as [[] St].
  split; [now split|exact St].
Qed.

(** Updates of the flags and marks. *)
Lemma keeps_update (f : lstate -> lstate) :
  (forall s, t_regs (f s) = t_regs s /\ world (f s) = world s) -> keeps progress (modify f).
Proof.
  intros H s a s' [= <- <-]. destruct (H s) as [Hr Hw]. intros [W N R].
  unfold module_of in *. split; [split; unfold module_of; rewrite ?Hr, ?Hw; easy|].
  now rewrite Hw.
Qed.

Lemma keeps_set_ax v : is_u64 v -> keeps progress (set_reg AX v).
Proof.
  intros Hv s a s' [= <- <-] [W N R]. split; [split; [easy|easy|]|easy]. now apply wf_rset.
Qed.

Ltac progress_auto :=
  repeat (keeps_step || apply keeps_kcall_ret ||
          (apply keeps_update; intros ?; split; reflexivity) ||
          (apply keeps_set_ax, u64_range) || assumption).

Lemma exit_loop_progress fuel : forall f, keeps progress (exit_to_usermode_loop fuel f).
Proof.
  induction fuel as [|fuel IH]; intros f; cbn [exit_to_usermode_loop];
    [apply keeps_diverge|].
  unfold exit_round, local_irq_enable, local_irq_disable, kcall_, read_flags. progress_auto.
  apply IH.
Qed.

Lemma do_syscall_64_progress fuel nr : keeps progress (do_syscall_64 fuel nr).
Proof.
  unfold do_syscall_64, enter_from_user_mode, dispatch_64, syscall_trace_enter, run_syscall,
    do_audit_syscall_entry, syscall_return_slowpath, syscall_slow_exit_work,
    prepare_exit_to_usermode, local_irq_enable, local_irq_disable, kcall_, read_flags, reg_of.
  progress_auto; apply exit_loop_progress.
Qed.

Lemma loaded_ext_plain c s : hookb c = false ->
  ext c s = match @ext X bare c (unload s) with
            | Some (r, s2) => Some (r, load s (others c s) s2)
            | None => None
            end.
Proof. now destruct c. Qed.

(** The module does not disturb the last part of the way to user mode. *)
Lemma loaded_late_ok : LateCallsOk (@bare X machine) -> LateCallsOk loaded_kernel.
Proof.
  intros L. assert (E : forall c s r s', c ∈ [addr_limit_user_check; fpregs_assert_state_consistent;
      switch_fpu_return; user_enter_irqoff; mds_user_clear_cpu_buffers] ->
    ext c s = Some (r, s') ->
    exists s2, @ext X bare c (unload s) = Some (r, s2) /\ s' = load s (others c s) s2).
  { intros c s r s' Hc H. rewrite loaded_ext_plain in H.
    - destruct (@ext X bare c (unload s)) as [[r2 s2]|]; [|easy]. injection H as <- <-. now exists s2.
    - rewrite !elem_of_cons, elem_of_nil in Hc. now destruct Hc as [->|[->|[->|[->|[->|[]]]]]]. }
  split; intros c s r s' Hc H.
  - destruct (E c s r s' Hc H) as (s2 & Eb & ->). now apply (late_irqs _ _ _ _ Hc) in Eb.
  - destruct (E c s r s') as (s2 & Eb & ->); [rewrite elem_of_cons; now right|easy|].
    now apply (late_work _ _ _ _ Hc) in Eb.
Qed.

(** ** A module with nothing to run *)

Hypothesis chain_positive : (0 < chain)%nat.

(** No code block is ready for the current task, wherever it will be. *)
Definition idle (s : lstate) : Prop :=
  sys_ok s /\ forall ip, ready (l_exe (module_of s)) current ip = None.

(** Meanwhile nobody installs one. *)
Hypothesis others_idle : forall c s, idle s ->
  forall ip, ready (l_exe (others c s)) current ip = None.

(** The loaded machine, and the one without module. *)
Definition hidden (s : lstate) (s2 : tstate X) : Prop := idle s /\ s2 = unload s.

Lemma sim_kcall_ret c : hookb c = false ->
  msim hidden (kcall_ret c) (@kcall_ret X bare c).
Proof.
  intros Hc s s2 [I ->]. pose proof I as [O N].
  unfold kcall_ret. pose proof (loaded_ext_plain c s Hc) as E. rewrite E.
  destruct (@ext X bare c (unload s)) as [[r s2]|] eqn:Eb; [|easy]. split; [easy|].
  destruct (loaded_ext_progress c s r _ E O) as [[W C R] _]. split; [split|].
  - now split.
  - apply (others_idle c s I).
  - unfold unload, set_calls, load. cbn. destruct s2 as [t2 f2 st2 i2 z2 w2 c2]. cbn in *.
    apply bare_unhooked in Eb; [|easy]. cbn in Eb. rewrite Eb.
    now destruct c.
Qed.

Lemma sim_kcall c : hookb c = false -> msim hidden (kcall_ c) (@kcall_ X bare c).
Proof. intros H. apply msim_bind; [now apply sim_kcall_ret|intros ?; apply msim_ret]. Qed.

Lemma sim_hook ts : msim hidden (kcall_ (zz_hook ts)) (ret tt).
Proof.
  intros s s2 [[O N] ->]. pose proof O as [W C R].
  unfold kcall_, kcall_ret, bind. cbn [ext loaded_kernel loaded_ext].
  destruct chain as [|n] eqn:Ec; [lia|].
  assert (Hc : 0 <= smp_processor_id (unload s) < num_cpus (l_stat (module_of s)))
    by (rewrite C; apply cpu_online).
  destruct (func_idle n _ (@ktime_get_boottime_ns X bare (unload s)) current (t_regs s) ts _
    W Hc current_s32 R (N _)) as (l & F & S).
  destruct (func_ok (Datatypes.S n) _ (@ktime_get_boottime_ns X bare (unload s)) current (t_regs s) ts _
    W Hc current_s32 R) as [_ Hf]. pose proof (Hf _ _ F) as (W' & _ & _ & C' & _).
  rewrite F. cbn [ret]. split; [easy|]. split; [split; [split|]|].
  - exact W'.
  - cbn. congruence.
  - exact R.
  - intros ip. cbn. now rewrite (S current ip).
  - unfold unload, set_calls, set_t_regs, load. reflexivity.
Qed.

(** Updates and reads that both see. *)
Lemma sim_modify (f : lstate -> lstate) (g : tstate X -> tstate X) :
  (forall s, g (unload s) = unload (f s) /\ module_of (f s) = module_of s /\
             (wf_regs (t_regs s) -> wf_regs (t_regs (f s)))) ->
  msim hidden (modify f) (modify g).
Proof.
  intros H. apply msim_modify. intros s s2 [[[W C R] N] ->]. destruct (H s) as (E & M & R').
  split; [|easy]. split; [split; rewrite ?M; auto|]. now rewrite M.
Qed.

Lemma sim_gets {A} (f : lstate -> A) (g : tstate X -> A) :
  (forall s, f s = g (unload s)) -> msim hidden (gets f) (gets g).
Proof. intros H. apply msim_gets. intros s s2 [_ ->]. apply H. Qed.

Ltac sim_auto :=
  repeat (msim_step || (apply sim_kcall; reflexivity) || (apply sim_kcall_ret; reflexivity) ||
          (apply sim_gets; reflexivity) ||
          (apply sim_modify; intros ?; split; [reflexivity|split; [reflexivity|]];
             intros H; first [exact H|exact (wf_rset AX _ _ H (u64_range _))]) ||
          assumption).

Lemma exit_loop_sim fuel : forall f,
  msim hidden (exit_to_usermode_loop fuel f) (@exit_to_usermode_loop X consts bare fuel f).
Proof.
  induction fuel as [|fuel IH]; intros f; cbn [exit_to_usermode_loop]; [apply msim_diverge|].
  unfold exit_round, local_irq_enable, local_irq_disable, read_flags. sim_auto. apply IH.
Qed.

Lemma dispatch_sim nr : msim hidden (dispatch_64 nr) (@dispatch_64 X consts bare nr).
Proof.
  unfold dispatch_64, syscall_trace_enter, run_syscall, do_audit_syscall_entry, kcall_,
    read_flags, reg_of, set_reg. sim_auto.
Qed.

Lemma slowpath_sim fuel :
  msim hidden (syscall_return_slowpath fuel) (@syscall_return_slowpath X consts bare fuel).
Proof.
  unfold syscall_return_slowpath, syscall_slow_exit_work, prepare_exit_to_usermode,
    local_irq_disable, kcall_, read_flags, reg_of. sim_auto. apply exit_loop_sim.
Qed.

Lemma do_syscall_64_sim fuel nr :
  msim hidden (do_syscall_64 fuel nr) (@do_syscall_64_stock X consts bare fuel nr).
Proof.
  unfold do_syscall_64, do_syscall_64_stock, enter_from_user_mode, local_irq_enable.
  apply msim_silent_gets; intros ts. do 2 (apply msim_bind; [sim_auto|intros ?]).
  apply msim_bind; [apply dispatch_sim|intros ?].
  apply msim_silent_gets; intros hook. apply msim_silent; [|apply slowpath_sim].
  destruct hook; [apply sim_hook|apply msim_ret].
Qed.
End Run.

(** ** A machine to run *)

Module SystemDemo.
#[export] Instance machine : Machine (X := unit) := {|
  bare := EntryDemo.kernel; current := Demo.task; smp_processor_id _ := 0;
  others _ s := module_of s; chain := 4 |}.

Lemma machine_ok : @MachineOk unit (Demo.env 0) LkmDemo.kenv EntryDemo.consts machine.
Proof.
  split.
  - unfold is_s32. cbn. unfold Demo.task. lia.
  - intros s. cbn. lia.
  - intros c s r s' [= _ <-] H. now destruct (handler_bit c).
  - intros c s r s' [= _ <-] H. now destruct (handler_bit c).
  - reflexivity.
Qed.

(** A system call of the task, with a signal pending, after loading. *)
Definition start : tstate (lkm * unit) :=
  TState (rset ORIG_AX 1 Demo.regs) 4 0 false true (LkmDemo.loaded, tt) [].

Lemma machine_start_reachable : @reachable (Demo.env 0) LkmDemo.kenv (module_of start).
Proof. apply reach_load. exact LkmDemo.loaded_eq. Qed.

Lemma machine_start_ok : @sys_ok unit LkmDemo.kenv start.
Proof.
  split.
  - apply (@reachable_wf (Demo.env 0) LkmDemo.kenv (Demo.env_ok 0)). exact machine_start_reachable.
  - reflexivity.
  - apply wf_rset; [apply Demo.regs_wf|word_range].
Qed.

Lemma machine_start_idle : @idle unit LkmDemo.kenv machine start.
Proof.
  split; [exact machine_start_ok|]. intros ip.
  apply (@lkm_init_wf (Demo.env 0) (Demo.env_ok 0) LkmDemo.kenv unloaded LkmDemo.loaded 0);
    [cbn; lia|exact LkmDemo.loaded_eq].
Qed.
End SystemDemo.

(** ** Properties *)

(** C4. The kernel with the module: whatever the other tasks and the daemon do to
    the module meanwhile, a system call that returns has taken the module from
    a reachable state to a reachable state, keeps every registered site, leaves
    a complete register file, and leaves the kernel ready for user mode. *)
Theorem system_calls_keep_module (X : Type) (env : ExeEnv) (ok : ExeEnvOk env) (kenv : LkmEnv)
    (consts : EntryConsts) (cok : EntryConstsOk consts) (m : Machine (X := X)) (mok : MachineOk m)
    (late : LateCallsOk (@bare X m)) fuel nr (s s' : tstate (lkm * X)) :
  do_syscall_64 fuel nr s = Some (tt, s') ->
  reachable (module_of s) -> num_cpus (l_stat (module_of s)) = num_online_cpus ->
  wf_regs (t_regs s) ->
  reachable (module_of s') /\ lkm_wf (module_of s') /\
  table_le (l_exe (module_of s)) (l_exe (module_of s')) /\ wf_regs (t_regs s') /\ user_ready s'.
Proof.
  intros E R N Hr. pose proof (reachable_wf _ R) as W.
  destruct (do_syscall_64_progress fuel nr s tt s' E) as [[W' _ R'] St]; [now split|].
  destruct (lkm_steps_ok _ _ St W) as (_ & _ & L).
  split; [now apply (reachable_steps _ _ R St)|]. repeat (split; [easy|]).
  apply (do_syscall_64_ready (late := loaded_late_ok late)) in E. exact E.
Qed.

Lemma system_calls_keep_module_witness :
  exists s', do_syscall_64 (consts := EntryDemo.consts)
      (kernel := @loaded_kernel unit (Demo.env 0) SystemDemo.machine) 2 1
      SystemDemo.start = Some (tt, s') /\
    @reachable (Demo.env 0) LkmDemo.kenv (module_of s').
Proof.
  eexists. split; [vm_compute; reflexivity|].
  refine (proj1 (system_calls_keep_module unit (Demo.env 0) (Demo.env_ok 0) LkmDemo.kenv
    EntryDemo.consts EntryDemo.consts_ok SystemDemo.machine SystemDemo.machine_ok EntryDemo.late_ok
    2 1 SystemDemo.start _ _ SystemDemo.machine_start_reachable _ (so_regs _ SystemDemo.machine_start_ok))).
  - vm_compute. reflexivity.
  - reflexivity.
Defined.

(** C5. The loaded module is invisible where it has nothing to run: as long as no
    code block is ready for the current task, the patched [do_syscall_64] with
    the module, detecting and registering hot sites, and the stock function
    without it return together, with the same registers, flags, marks and
    interrupt state, the same state of the rest of the kernel and the same
    calls of it, the hook's apart. *)
Theorem idle_module_is_stock (X : Type) (env : ExeEnv) (ok : ExeEnvOk env) (kenv : LkmEnv)
    (consts : EntryConsts) (m : Machine (X := X)) (mok : MachineOk m) fuel nr (s : tstate (lkm * X)) :
  (0 < chain)%nat ->
  (forall c s, idle s -> forall ip, ready (l_exe (others c s)) current ip = None) ->
  idle s ->
  match do_syscall_64 fuel nr s, @do_syscall_64_stock X consts bare fuel nr (unload s) with
  | Some (_, s1), Some (_, s2) => idle s1 /\ s2 = unload s1
  | None, None => True
  | _, _ => False
  end.
Proof.
  intros Hc Ho I. pose proof (do_syscall_64_sim Hc Ho fuel nr s (unload s) (conj I eq_refl)) as H.
  destruct (do_syscall_64 fuel nr s) as [[[] s1]|], (do_syscall_64_stock _ _ _) as [[[] s2]|];
    easy.
Qed.

Lemma idle_module_is_stock_witness :
  exists s', do_syscall_64 (consts := EntryDemo.consts)
      (kernel := @loaded_kernel unit (Demo.env 0) SystemDemo.machine) 2 1
      SystemDemo.start = Some (tt, s') /\
    @do_syscall_64_stock unit EntryDemo.consts EntryDemo.kernel 2 1 (unload SystemDemo.start) =
      Some (tt, unload s').
Proof.
  pose proof (idle_module_is_stock unit (Demo.env 0) (Demo.env_ok 0) LkmDemo.kenv EntryDemo.consts
    SystemDemo.machine SystemDemo.machine_ok 2 1 SystemDemo.start) as H.
  destruct (do_syscall_64 2 1 SystemDemo.start) as [[[] s1]|] eqn:E.
  2:{ exfalso. vm_compute in E. discriminate. }
  exists s1. split; [reflexivity|].
  specialize (H (Nat.lt_0_succ 3) (fun c s I => proj2 I) SystemDemo.machine_start_idle).
  destruct (@do_syscall_64_stock unit _ _ _ _ _) as [[[] s2]|]; [|easy]. now destruct H as [_ ->].
Defined.
