(* ===== verification/Xdp.v ===== *)
(** The packet counter of the UDP benchmark, [apps/socket/bpf/udp_counter.c]: an
    XDP program that looks at the headers of every received packet. Its packet
    is the memory between two pointers; whatever lies outside must not be
    read. *)
From Stdlib Require Import ZArith Lia Bool.
From stdpp Require Import base list.
From S2P Require Import Prelude.

Local Open Scope Z_scope.
Local Open Scope ub_scope.

(** ** The headers *)

(** Sizes of [struct ethhdr], [struct iphdr] and [struct udphdr], the offset of
    [protocol] in the second, and the constants of the kernel's headers. *)
Definition sizeof_ethhdr : Z := 14.
Definition sizeof_iphdr : Z := 20.
Definition sizeof_udphdr : Z := 8.
Definition protocol_offset : Z := 9.
Definition IPPROTO_UDP : Z := 17.
Definition XDP_PASS : Z := 2.

(** ** State *)

(** [struct xdp_md]: two 32-bit fields that hold the pointers. *)
Record xdp_md : Type := XdpMd { data : Z; data_end : Z }.

(** What the program leaves behind: increments of its two histograms. *)
Inductive xcall : Type := counter_increment (slot : Z) | time_increment (slot : Z).

Record xstate : Type := XState { ktimes : Z; xlog : list xcall }.

(** The bytes at an address, and the clock, by the number of times it was read. *)
Class XdpEnv := { packet_byte : Z -> Z; bpf_ktime_get_ns : Z -> Z }.

(** ** The program *)

Section Xdp.
Context {env : XdpEnv}.
Abbreviation XM := (M xstate).

Definition xcall_ (c : xcall) : XM unit := modify (fun s => XState (ktimes s) (c :: xlog s)).
Definition ktime : XM Z := fun s =>
  Some (bpf_ktime_get_ns (ktimes s), XState (ktimes s + 1) (xlog s)).

(** A load of one byte; outside the packet it has no result. *)
Definition load_u8 (ctx : xdp_md) (p : Z) : XM Z :=
  if (data ctx <=? p) && (p <? data_end ctx) then ret (packet_byte p) else diverge.

(** A load of an [int], little endian. *)
Definition load_int (ctx : xdp_md) (p : Z) : XM Z :=
  let* b0 := load_u8 ctx p in
  let* b1 := load_u8 ctx (p + 1) in
  let* b2 := load_u8 ctx (p + 2) in
  let* b3 := load_u8 ctx (p + 3) in
  ret (s32 (b0 + 2 ^ 8 * b1 + 2 ^ 16 * b2 + 2 ^ 24 * b3)).

(** Lines 46-47 from the index [i], with [n] = 1024 - [i]; [MESG + i + 4] counts
    in [int]s. BPF arithmetic wraps. *)
Fixpoint sum_loop (n : nat) (ctx : xdp_md) (MESG i sum : Z) : XM Z :=
  match n with
  | O => ret sum
  | S n =>
      if MESG + 4 * (i + 4) <? data_end ctx then
        let* v := load_int ctx (MESG + 4 * i) in
        sum_loop n ctx MESG (i + 1) (s32 (sum + v))
      else ret sum
  end.

(** Lines 39-50: the part behind the IP header. *)
Definition count_udp (cal : Z) (ctx : xdp_md) (udp : Z) : XM unit :=
  let* start := ktime in
  (when udp + sizeof_udphdr <=? data_end ctx do
     (xcall_ (counter_increment 1) ;;
      when ctrue cal do (sum_loop 1024 ctx (udp + sizeof_udphdr) 0 0 ;; ret tt))) ;;
  let* now := ktime in
  xcall_ (time_increment (u64 (now - start))).

(** The body, for a value of the switch [cal]. *)
Definition udp_counter_with (cal : Z) (ctx : xdp_md) : XM Z :=
  let eth := data ctx in
  (when eth + sizeof_ethhdr <=? data_end ctx do
     (xcall_ (counter_increment 1) ;;
      let ip := data ctx + sizeof_ethhdr in
      when ip + sizeof_iphdr <=? data_end ctx do
        (let udp := data ctx + sizeof_ethhdr + sizeof_iphdr in
         let* protocol := load_u8 ctx (ip + protocol_offset) in
         when protocol =? IPPROTO_UDP do count_udp cal ctx udp))) ;;
  ret XDP_PASS.

Definition udp_counter (ctx : xdp_md) : XM Z := udp_counter_with 0 ctx.
End Xdp.

(** ** What it counts *)

(** The specification: by the length of the packet and its protocol byte. *)
Definition packet_length (ctx : xdp_md) : Z := data_end ctx - data ctx.
Definition is_udp {env : XdpEnv} (ctx : xdp_md) : bool :=
  (34 <=? packet_length ctx) && (packet_byte (data ctx + 23) =? IPPROTO_UDP).
Definition counted (c : xcall) : bool :=
  match c with counter_increment _ => true | time_increment _ => false end.

(** The number of increments of a histogram. *)
Definition increments (histogram : bool) (s : xstate) : nat :=
  length (filter (fun c => counted c = histogram) (xlog s)).

Section Facts.
Context {env : XdpEnv}.

Lemma load_u8_inside ctx p s :
  data ctx <= p < data_end ctx -> load_u8 ctx p s = Some (packet_byte p, s).
Proof.
  intros H. unfold load_u8. destruct (Z.leb_spec (data ctx) p); [|lia].
  destruct (Z.ltb_spec p (data_end ctx)); [easy|lia].
Qed.

Lemma load_int_inside ctx p s :
  data ctx <= p -> p + 4 <= data_end ctx -> exists v, load_int ctx p s = Some (v, s).
Proof.
  intros H1 H2. unfold load_int, bind. rewrite !load_u8_inside by lia. eexists. reflexivity.
Qed.

(** The summation stays inside, for any limit of the loop. *)
Lemma sum_loop_inside ctx MESG n : forall i sum s,
  data ctx <= MESG -> 0 <= i ->
  exists v, sum_loop n ctx MESG i sum s = Some (v, s).
Proof.
  induction n as [|n IH]; intros i sum s H1 H2; cbn [sum_loop]; [now exists sum|].
  destruct (Z.ltb_spec (MESG + 4 * (i + 4)) (data_end ctx)); [|now exists sum].
  destruct (load_int_inside ctx (MESG + 4 * i) s) as [v E]; [lia|lia|].
  unfold bind. rewrite E. apply IH; lia.
Qed.

(** One UDP packet: one increment of the timer, one of the counter when its UDP
    header is complete. *)
Lemma count_udp_spec cal ctx udp s :
  data ctx <= udp ->
  exists t s', count_udp cal ctx udp s = Some (tt, s') /\
    xlog s' = time_increment t ::
      (if udp + sizeof_udphdr <=? data_end ctx then [counter_increment 1] else []) ++ xlog s.
Proof.
  intros H. unfold count_udp, bind at 1. unfold ktime at 1.
  set (s1 := XState _ _). eexists.
  destruct (udp + sizeof_udphdr <=? data_end ctx); [|eexists; split; reflexivity].
  destruct (ctrue cal); [|eexists; split; reflexivity].
  destruct (sum_loop_inside ctx (udp + sizeof_udphdr) 1024 0 0
    (XState (ktimes s1) (counter_increment 1 :: xlog s1))) as [v E];
    [unfold sizeof_udphdr; lia|lia|].
  eexists. unfold bind, xcall_, modify. rewrite E. split; reflexivity.
Qed.

(** The increments of a run, most recent first. *)
Definition expected (ctx : xdp_md) (t : Z) : list xcall :=
  (if is_udp ctx then
     time_increment t :: (if 42 <=? packet_length ctx then [counter_increment 1] else [])
   else []) ++
  (if 14 <=? packet_length ctx then [counter_increment 1] else []).

Lemma udp_counter_spec cal ctx s :
  exists t s', udp_counter_with cal ctx s = Some (XDP_PASS, s') /\
    xlog s' = expected ctx t ++ xlog s.
Proof.
  unfold udp_counter_with, expected, is_udp, packet_length.
  unfold sizeof_ethhdr, sizeof_iphdr, protocol_offset.
  destruct (Z.leb_spec (data ctx + 14) (data_end ctx)) as [L1|L1].
  2:{ exists 0, s. destruct (Z.leb_spec 34 (data_end ctx - data ctx)); [lia|].
      destruct (Z.leb_spec 14 (data_end ctx - data ctx)); [lia|]. easy. }
  destruct (Z.leb_spec 14 (data_end ctx - data ctx)); [|lia].
  destruct (Z.leb_spec (data ctx + 14 + 20) (data_end ctx)) as [L2|L2].
  2:{ eexists 0, _. destruct (Z.leb_spec 34 (data_end ctx - data ctx)); [lia|].
      split; reflexivity. }
  destruct (Z.leb_spec 34 (data_end ctx - data ctx)); [|lia]. cbn [andb].
  set (s1 := XState (ktimes s) (counter_increment 1 :: xlog s)).
  assert (E : forall (k : Z -> M xstate unit), bind (load_u8 ctx (data ctx + 14 + 9)) k s1 =
    k (packet_byte (data ctx + 23)) s1).
  { intros k. unfold bind. rewrite load_u8_inside by lia. do 2 f_equal. lia. }
  unfold bind at 1 2, xcall_, modify. fold s1. cbv zeta. rewrite E.
  destruct (packet_byte (data ctx + 23) =? IPPROTO_UDP); [|now eexists 0, _].
  destruct (count_udp_spec cal ctx (data ctx + 14 + 20) s1) as (t & s2 & E2 & L); [lia|].
  exists t, s2. rewrite E2. split; [easy|]. rewrite L. unfold sizeof_udphdr.
  destruct (Z.leb_spec (data ctx + 14 + 20 + 8) (data_end ctx));
    destruct (Z.leb_spec 42 (data_end ctx - data ctx)); easy || lia.
Qed.

(** C37. The counter passes every packet on and never reads outside the packet,
    however short or malformed, also with the summation of the payload
    switched on; per packet it adds one to the counter for a complete Ethernet
    header and one more for a complete UDP header behind an IP header that
    names UDP, and one to the timer for such an IP header. *)
Theorem udp_counter_in_bounds cal ctx s :
  exists s', udp_counter_with cal ctx s = Some (XDP_PASS, s') /\
    increments true s' = (increments true s + Nat.b2n (14 <=? packet_length ctx)%Z +
                          Nat.b2n (is_udp ctx && (42 <=? packet_length ctx)%Z))%nat /\
    increments false s' = (increments false s + Nat.b2n (is_udp ctx))%nat.
Proof.
  destruct (udp_counter_spec cal ctx s) as (t & s' & E & L).
  exists s'. split; [easy|]. unfold increments. rewrite L, !filter_app, !length_app.
  unfold expected. destruct (is_udp ctx), (42 <=? packet_length ctx), (14 <=? packet_length ctx);
    split; simpl; lia.
Qed.
End Facts.
