(* ===== verification/Libc.v ===== *)
(** What the benchmark programs under [apps/] use of the C library: their calls
    as values, answered by an environment and recorded, over any state that
    keeps the history of a process; and [attach_cpu], which two of the programs
    define. *)
From Stdlib Require Import ZArith Lia Bool String.
From stdpp Require Import base list.
From S2P Require Import Prelude.

Local Open Scope Z_scope.
Local Open Scope ub_scope.

Inductive io : Type :=
| io_open (path : string) (flags : Z) | io_close (fd : Z) | io_perror (msg : string)
| io_memalign (alignment size : Z)
| io_pread (fd buf count offset : Z)
| io_syscall (number fd buf count : Z)
| io_atoi (arg : nat)
| io_puts (msg : string) | io_print (msg : string) (value : Z)
| io_sched_setaffinity (mask : list Z) | io_sched_getaffinity
| io_malloc (size : Z) | io_clock | io_gettid
| io_socket (domain type protocol : Z) | io_setsockopt (fd level option len : Z)
| io_recvfrom (fd buf len : Z)
| io_sendto (fd msg len port : Z)
| io_spin_init | io_spin_lock | io_spin_unlock | io_spin_destroy
| io_pthread_create (i : Z) | io_pthread_join (i : Z).

(** A state with the history of calls, most recent first. *)
Class Process (S : Type) := { history : S -> list io; remember : io -> S -> S }.

(** The answers, which may depend on the history; [None]: the call does not
    return. [affinity] is the set that [sched_getaffinity] stores, [rdtscp_regs]
    RAX and RDX after the instruction (which clears their upper halves),
    [arg_given] whether an argument is there. *)
Class Libc := {
  libc : io -> list io -> option Z;
  affinity : list io -> Z -> bool;
  rdtscp_regs : list io -> Z * Z;
  arg_given : nat -> bool;
  memalign_ptr : list io -> Z;          (* the buffer that posix_memalign stores *)
  stack_array : list io -> list Z;      (* an uninitialised local array *)
  received : list io -> Z -> Z          (* the bytes in the buffer of recvfrom *)
}.

Section Calls.
Context {S : Type} {process : Process S} {env : Libc}.

Definition sys (c : io) : M S Z := fun s =>
  match libc c (history s) with
  | Some r => Some (r, remember c s)
  | None => None
  end.
Definition sys_ (c : io) : M S unit := sys c ;; ret tt.

(** [for (i = 0; i < n; i++) f(i)] *)
Fixpoint for_io (n : nat) (i : Z) (f : Z -> M S unit) : M S unit :=
  match n with
  | O => ret tt
  | Datatypes.S n => f i ;; for_io n (i + 1) f
  end.

(** Sets of CPUs have 1024 bits; [CPU_SET] ignores others. *)
Definition CPU_SETSIZE : Z := 1024.
Definition CPU_SET (cpu : Z) : list Z := if u64 cpu <? CPU_SETSIZE then [u64 cpu] else [].

(** [attach_cpu] for a number of CPUs to report. When the second call fails the
    set stays empty. *)
Definition attach_cpu_of (num cpu : Z) : M S unit :=
  let* r := sys (io_sched_setaffinity (CPU_SET cpu)) in
  (when r =? -1 do sys_ (io_puts "warning: could not set CPU affinity, continuing...")) ;;
  let* r := sys io_sched_getaffinity in
  (when r =? -1 do sys_ (io_puts "warning: cound not get thread affinity, continuing...")) ;;
  let* get := gets (fun s => if r =? -1 then fun _ => false else affinity (history s)) in
  for_io (Z.to_nat num) 0 (fun i =>
    when get i do sys_ (io_print "this thread is running on  processor" i)).

(** [rdtscp()], inline assembly. *)
Definition rdtscp : M S Z := gets (fun s =>
  let '(rax, rdx) := rdtscp_regs (history s) in u64 (Z.lor (Z.shiftl rdx 32) rax)).
End Calls.

(** Documented: every call returns. *)
Class LibcReturns (env : Libc) : Prop := {
  libc_returns : forall c h, exists r, libc c h = Some r
}.

(** Calls do nothing but add themselves to the history. *)
Class ProcessOk {S : Type} (process : Process S) : Prop := {
  history_remember : forall c s, history (remember c s) = c :: history s
}.

Section Returns.
Context {S : Type} {process : Process S} {env : Libc} {env_ok : LibcReturns env}.

Lemma sys_runs (c : io) (s : S) :
  exists r, libc c (history s) = Some r /\ sys c s = Some (r, remember c s).
Proof. unfold sys. destruct (libc_returns c (history s)) as [r E]. rewrite E. now exists r. Qed.

Lemma sys__runs (c : io) (s : S) : sys_ c s = Some (tt, remember c s).
Proof. unfold sys_, bind. destruct (sys_runs c s) as (r & _ & E). now rewrite E. Qed.
End Returns.
