(* ===== verification/Bench.v ===== *)
(** The file benchmark, [apps/io_file/common.h] and [apps/io_file/syscall_read.c],
    as configured there: sequential reads of a file in memory, without
    summation. *)
From Stdlib Require Import ZArith Lia Bool String.
From stdpp Require Import base list.
From S2P Require Import Prelude Libc.

Local Open Scope Z_scope.
Local Open Scope ub_scope.

(** ** Constants *)

Definition CPU_NUM : Z := 24.
Definition Dot_Num : Z := 0x800000.
Definition READ_ORDER : Z := 0.
Definition RAND_LIM : Z := 4.
Definition RAND_LIM_PAGE : Z := RAND_LIM * 1024 * 1024 * 1024.
Definition LIM_MAX : Z := RAND_LIM * 1024 * 1024 * 1024.
Definition USE_PAGES : Z := 16384.
Definition PAGE : Z := 131072.
Definition Test_file : string := "/dev/shm/test.file".
Definition O_RDONLY : Z := 0.

(** ** State: the globals *)

Record rng : Type := Rng { x : Z; y : Z; z : Z }.

Record bstate : Type := BState {
  buffer_size : Z;              (* int *)
  rand_lim_page : Z;            (* uint64_t *)
  generator : rng;              (* unsigned long x, y, z *)
  b_history : list io
}.

#[export] Instance bench_process : Process bstate := {|
  history := b_history;
  remember c s := BState (buffer_size s) (rand_lim_page s) (generator s) (c :: b_history s) |}.

#[export] Instance bench_process_ok : ProcessOk bench_process.
Proof. now split. Qed.

(** As the program starts. *)
Definition initial : bstate := BState 8 0 (Rng 123456789 362436069 521288629) [].

(** ** The generator *)

(** [x ^= x << k] and [x ^= x >> k] on an [unsigned long]. *)
Definition xor_shl (k v : Z) : Z := Z.lxor v (u64 (Z.shiftl v k)).
Definition xor_shr (k v : Z) : Z := Z.lxor v (Z.shiftr v k).

(** The new globals and the value returned. *)
Definition fastrand (g : rng) : rng * Z :=
  let x1 := xor_shl 1 (xor_shr 5 (xor_shl 16 (x g))) in
  let t := x1 in
  let x2 := y g in
  let y2 := z g in
  let z2 := Z.lxor (Z.lxor t x2) y2 in
  (Rng x2 y2 z2, z2).

(** ** Reading *)

Section Bench.
Context {env : Libc}.
Abbreviation BM := (M bstate).

(** [next_pos] for a reading order. *)
Definition next_pos_in (order pos : Z) : BM Z :=
  if order =? 0 then
    let* bs := gets buffer_size in ret (u64 (pos + bs) mod LIM_MAX)
  else if order =? 1 then ret pos
  else if order =? 2 then
    let* g := gets generator in
    let '(g', r) := fastrand g in
    modify (fun s => BState (buffer_size s) (rand_lim_page s) g' (b_history s)) ;;
    let* lim := gets rand_lim_page in
    let* bs := gets buffer_size in
    if lim =? 0 then diverge                    (* division by zero *)
    else ret (u64 (r mod lim * u64 bs))
  else ret 0.
Definition next_pos (pos : Z) : BM Z := next_pos_in READ_ORDER pos.

Definition read_write_syscall (syscall_no fd buf size : Z) : BM Z :=
  sys (io_syscall syscall_no fd buf size).

Definition attach_cpu (cpu : Z) : BM unit := attach_cpu_of CPU_NUM cpu.

(** Lines 43-45: [n] buffers from the index [i] on; a failure leaves the slot as it is. *)
Fixpoint alloc_buffers (n : nat) (i : nat) (buf_arr : list Z) : BM (list Z) :=
  match n with
  | O => ret buf_arr
  | S n =>
      let* bs := gets buffer_size in
      let* r := sys (io_memalign PAGE (u64 bs)) in
      let* ptr := gets (fun s => memalign_ptr (b_history s)) in
      alloc_buffers n (S i) (if r =? 0 then <[i := ptr]> buf_arr else buf_arr)
  end.

(** Lines 58-70, [n] reads from the index [i] on. [None]: an index outside the array. *)
Fixpoint read_loop (n : nat) (fd : Z) (buf_arr : list Z) (i offset : Z) : BM unit :=
  match n with
  | O => ret tt
  | S n =>
      match buf_arr !! Z.to_nat (Z.rem i USE_PAGES) with
      | None => diverge
      | Some buf =>
          let* bs := gets buffer_size in
          sys (io_pread fd buf (u64 bs) offset) ;;
          let* offset := next_pos offset in
          read_loop n fd buf_arr (i + 1) offset
      end
  end.

Definition syscall_read : BM Z :=
  let* fd := sys (io_open Test_file O_RDONLY) in
  if fd <? 0 then sys_ (io_perror "open") ;; ret 1
  else
    let* stack := gets (fun s => stack_array (b_history s)) in
    let* buf_arr := alloc_buffers (Z.to_nat USE_PAGES) 0 stack in
    let* start_t := rdtscp in
    read_loop (Z.to_nat Dot_Num) fd buf_arr 0 0 ;;
    let* end_t := rdtscp in
    sys_ (io_close fd) ;;
    ret (u64 (end_t - start_t)).

(** The figures are printed in floating point; the model records each with the
    number of cycles it is computed from. *)
Definition summary (total_gap : Z) : BM unit :=
  sys_ (io_puts "") ;;
  sys_ (io_puts "=========Summary==========") ;;
  sys_ (io_print "Total rdtscp cycles" total_gap) ;;
  sys_ (io_print "Total gap time" total_gap) ;;
  sys_ (io_print "Average IO time" total_gap) ;;
  sys_ (io_print "IOPS" total_gap) ;;
  sys_ (io_print "Throughput" total_gap).

(** Lines 81-82: a missing argument is a null dereference, 0 a division by zero. *)
Definition set_sizes : BM unit :=
  if negb (arg_given 1) then diverge
  else
    let* bs := sys (io_atoi 1) in
    if s32 bs =? 0 then diverge
    else modify (fun s => BState (s32 bs) (RAND_LIM_PAGE / u64 (s32 bs)) (generator s) (b_history s)).

Definition main : BM Z :=
  set_sizes ;;
  sys_ (io_puts ("File POS: " ++ Test_file)) ;;
  sys_ (io_print "O_Direct" 0) ;;
  let* total_gap := syscall_read in
  summary total_gap ;;
  for_io 10 0 (fun _ => let* total_gap := syscall_read in summary total_gap) ;;
  ret 0.
End Bench.

(** ** The sequence of reads *)

Definition is_pread (c : io) : bool := match c with io_pread _ _ _ _ => true | _ => false end.

(** The reads of a history, in their order. *)
Definition preads (h : list io) : list io := rev (filter (fun c => is_pread c = true) h).

(** Where read [i] starts. *)
Definition read_offset (bs : Z) (i : nat) : Z := (Z.of_nat i * bs) mod LIM_MAX.

Definition nth_read (fd bs : Z) (bufs : list Z) (i : nat) : io :=
  io_pread fd (default 0 (bufs !! Z.to_nat (Z.of_nat i mod USE_PAGES))) (u64 bs) (read_offset bs i).

Section Reads.
Context {env : Libc} {env_ok : LibcReturns env}.

Lemma preads_cons c h : preads (c :: h) = preads h ++ (if is_pread c then [c] else []).
Proof.
  unfold preads. destruct (is_pread c) eqn:E.
  - now rewrite filter_cons_True.
  - rewrite filter_cons_False by congruence. now rewrite app_nil_r.
Qed.

Lemma alloc_buffers_spec n : forall i l s,
  exists bufs s', alloc_buffers n i l s = Some (bufs, s') /\
    length bufs = length l /\ buffer_size s' = buffer_size s /\
    preads (b_history s') = preads (b_history s).
Proof.
  induction n as [|n IH]; intros i l s; cbn [alloc_buffers]; [now exists l, s|].
  unfold bind at 1. cbn [gets]. set (c := io_memalign _ _).
  destruct (sys_runs c s) as (r & _ & E). unfold bind at 1. rewrite E. unfold bind at 1. cbn [gets].
  match goal with |- context [alloc_buffers n (S i) ?l' ?s'] =>
    destruct (IH (S i) l' s') as (bufs & s2 & E2 & L & B & P) end.
  exists bufs, s2. split; [easy|]. split; [|split; [easy|]].
  - rewrite L. destruct (r =? 0); [apply length_insert|easy].
  - rewrite P. cbn [b_history remember bench_process]. rewrite preads_cons. apply app_nil_r.
Qed.

Lemma next_offset bs i : is_s32 bs ->
  u64 (read_offset bs i + bs) mod LIM_MAX = read_offset bs (S i).
Proof.
  intros _. unfold read_offset, u64, LIM_MAX, RAND_LIM.
  change (4 * 1024 * 1024 * 1024) with (2 ^ 32).
  change (2 ^ 64) with (2 ^ 32 * 2 ^ 32). rewrite Z.rem_mul_r by lia.
  rewrite (Z.mul_comm (2 ^ 32)), Z.mod_add, Z.mod_mod by lia.
  rewrite Z.add_mod_idemp_l by lia. f_equal. lia.
Qed.

Lemma read_loop_spec fd bufs n : forall i s,
  (Z.to_nat USE_PAGES <= length bufs)%nat -> is_s32 (buffer_size s) ->
  exists s', read_loop n fd bufs (Z.of_nat i) (read_offset (buffer_size s) i) s = Some (tt, s') /\
    buffer_size s' = buffer_size s /\
    preads (b_history s') =
      preads (b_history s) ++ map (nth_read fd (buffer_size s) bufs) (seq i n).
Proof.
  induction n as [|n IH]; intros i s Hl Hs; cbn [read_loop seq map].
  - exists s. now rewrite app_nil_r.
  - rewrite Z.rem_mod_nonneg by (unfold USE_PAGES; lia).
    pose proof (Z.mod_pos_bound (Z.of_nat i) USE_PAGES ltac:(reflexivity)) as Hm.
    destruct (lookup_lt_is_Some_2 bufs (Z.to_nat (Z.of_nat i mod USE_PAGES))) as [buf Eb]; [lia|].
    rewrite Eb. unfold bind at 1. cbn [gets].
    set (c := io_pread _ _ _ _). destruct (sys_runs c s) as (r & _ & E).
    unfold bind at 1. rewrite E.
    unfold next_pos, next_pos_in. cbn [READ_ORDER Z.eqb]. unfold bind at 1 2. cbn [gets ret].
    change (buffer_size (remember c s)) with (buffer_size s). rewrite next_offset by easy.
    replace (Z.of_nat i + 1) with (Z.of_nat (S i)) by lia.
    destruct (IH (S i) (remember c s)) as (s2 & E2 & B2 & P2); [easy|easy|].
    change (buffer_size (remember c s)) with (buffer_size s) in *.
    exists s2. split; [exact E2|]. split; [easy|]. rewrite P2.
    change (b_history (remember c s)) with (c :: b_history s). rewrite preads_cons, <- app_assoc.
    unfold nth_read at 2. rewrite Eb. easy.
Qed.

(** A buffer size that divides the limit: no read crosses it. *)
Lemma read_within bs i : 0 < bs -> LIM_MAX mod bs = 0 -> 0 <= read_offset bs i /\ read_offset bs i + bs <= LIM_MAX.
Proof.
  intros Hb Hd. unfold read_offset. pose proof (Z.div_mod LIM_MAX bs ltac:(lia)) as D.
  rewrite Hd, Z.add_0_r in D. set (q := LIM_MAX / bs) in D.
  assert (Hq : 0 < q) by (assert (0 < LIM_MAX) by reflexivity; nia).
  rewrite D, (Z.mul_comm bs q), Z.mul_mod_distr_r by lia.
  pose proof (Z.mod_pos_bound (Z.of_nat i) q Hq). nia.
Qed.

(** C38. A run of the benchmark on an opened file performs exactly [Dot_Num] reads:
    read number [i] fills the buffer of slot [i] modulo 16384 and starts at
    [i * buffer_size] modulo 4 GiB, whatever the buffer size; and when the
    buffer size divides 4 GiB, no read crosses that limit. *)
Theorem syscall_read_sequence s fd :
  libc (io_open Test_file O_RDONLY) (b_history s) = Some fd -> 0 <= fd ->
  is_s32 (buffer_size s) -> (forall h, length (stack_array h) = Z.to_nat (USE_PAGES + 1)) ->
  exists gap bufs s', syscall_read s = Some (gap, s') /\ length bufs = Z.to_nat (USE_PAGES + 1) /\
    preads (b_history s') = preads (b_history s) ++
      map (nth_read fd (buffer_size s) bufs) (seq 0 (Z.to_nat Dot_Num)) /\
    (0 < buffer_size s -> LIM_MAX mod buffer_size s = 0 ->
       forall i, 0 <= read_offset (buffer_size s) i /\
         read_offset (buffer_size s) i + buffer_size s <= LIM_MAX).
Proof.
  intros Ho Hf Hs Ha. assert (0 <= USE_PAGES) by easy.
  unfold syscall_read. generalize (Z.to_nat Dot_Num) as n. intros n.
  unfold bind at 1, sys at 1. cbn [history bench_process]. rewrite Ho.
  destruct (Z.ltb_spec fd 0); [lia|]. set (s1 := remember _ s).
  unfold bind at 1. cbn [gets].
  destruct (alloc_buffers_spec (Z.to_nat USE_PAGES) 0 (stack_array (b_history s1)) s1)
    as (bufs & s2 & E2 & L2 & B2 & P2).
  unfold bind at 1. rewrite E2. unfold bind at 1, rdtscp at 1, gets.
  rewrite Ha in L2. change (buffer_size s1) with (buffer_size s) in B2.
  destruct (read_loop_spec fd bufs n 0 s2) as (s3 & E3 & B3 & P3);
    [rewrite L2; lia|rewrite B2; exact Hs|].
  change (read_offset (buffer_size s2) 0) with 0 in E3. unfold bind at 1.
  change (Z.of_nat 0) with 0 in E3. rewrite E3. unfold bind at 1, rdtscp, gets.
  destruct (sys_runs (io_close fd) s3) as (r & _ & E4). unfold bind, sys_, bind. rewrite E4.
  eexists _, bufs, _. split; [reflexivity|]. split; [easy|]. split; [|intros; now apply read_within].
  cbn [b_history remember bench_process]. rewrite preads_cons, app_nil_r, P3, P2, B2.
  cbn [b_history s1 remember bench_process]. now rewrite preads_cons, app_nil_r.
Qed.
End Reads.

(** An environment in which every call succeeds. *)
#[local] Instance all_succeed : Libc := {|
  libc c _ := Some (match c with io_open _ _ => 3 | _ => 0 end);
  affinity _ _ := true; rdtscp_regs _ := (0, 0); arg_given _ := true; memalign_ptr _ := 4096;
  stack_array _ := repeat 0 (Z.to_nat (USE_PAGES + 1)); received _ _ := 0 |}.
#[local] Instance all_succeed_returns : LibcReturns all_succeed.
Proof. split. intros c h. now eexists. Qed.

Lemma syscall_read_sequence_witness :
  exists gap bufs s', syscall_read initial = Some (gap, s') /\
    preads (b_history s') = preads (b_history initial) ++
      map (nth_read 3 (buffer_size initial) bufs) (seq 0 (Z.to_nat Dot_Num)) /\
    read_offset (buffer_size initial) 5 + buffer_size initial <= LIM_MAX.
Proof.
  destruct (syscall_read_sequence initial 3) as (gap & bufs & s' & E & _ & P & W);
    [reflexivity|easy|easy|intros h; apply repeat_length|].
  exists gap, bufs, s'. split; [exact E|]. split; [exact P|].
  apply (proj2 (W eq_refl eq_refl 5%nat)).
Defined.

(** ** The generator *)

(** The three words as [unsigned long]s. *)
Definition rng_ok (g : rng) : Prop := is_u64 (x g) /\ is_u64 (y g) /\ is_u64 (z g).

Lemma u64_bits v : is_u64 v -> forall i, 64 <= i -> Z.testbit v i = false.
Proof.
  intros H i Hi. unfold is_u64 in H. rewrite <- (Z.mod_small v (2 ^ 64)) by lia.
  apply Z.mod_pow2_bits_high. lia.
Qed.

Lemma bits_u64 v : 0 <= v -> (forall i, 64 <= i -> Z.testbit v i = false) -> is_u64 v.
Proof.
  intros H0 H. unfold is_u64. split; [easy|].
  assert (E : v mod 2 ^ 64 = v).
  { apply Z.bits_inj'. intros i Hi. destruct (Z.lt_ge_cases i 64).
    - now apply Z.mod_pow2_bits_low.
    - rewrite Z.mod_pow2_bits_high by lia. now rewrite H. }
  rewrite <- E. now apply Z.mod_pos_bound.
Qed.

Lemma lxor_u64 a b : is_u64 a -> is_u64 b -> is_u64 (Z.lxor a b).
Proof.
  intros Ha Hb. apply bits_u64.
  - apply Z.lxor_nonneg. unfold is_u64 in *. lia.
  - intros i Hi. rewrite Z.lxor_spec. now rewrite !u64_bits.
Qed.

Lemma xor_shl_ok k v : is_u64 v -> is_u64 (xor_shl k v).
Proof. intros H. apply lxor_u64; [easy|]. apply Z.mod_pos_bound. lia. Qed.

Lemma xor_shr_ok k v : 0 <= k -> is_u64 v -> is_u64 (xor_shr k v).
Proof.
  intros Hk H. apply lxor_u64; [easy|]. apply bits_u64.
  - apply Z.shiftr_nonneg. apply H.
  - intros i Hi. rewrite Z.shiftr_spec by lia. apply u64_bits; [easy|lia].
Qed.

(** A shift to the left is undone from the lowest bit upwards... *)
Lemma xor_shl_inj k v w : 0 < k -> is_u64 v -> is_u64 w -> xor_shl k v = xor_shl k w -> v = w.
Proof.
  intros Hk Hv Hw E. apply Z.bits_inj'. apply (Z_lt_induction (fun i => Z.testbit v i = Z.testbit w i)).
  intros i IH. destruct (Z.lt_ge_cases i 0); [now rewrite !Z.testbit_neg_r|].
  destruct (Z.lt_ge_cases i 64); [|now rewrite !u64_bits].
  apply (f_equal (fun n => Z.testbit n i)) in E. unfold xor_shl, u64 in E.
  rewrite !Z.lxor_spec, !Z.mod_pow2_bits_low, !Z.shiftl_spec in E by lia.
  destruct (Z.lt_ge_cases i k).
  - rewrite !(Z.testbit_neg_r _ (i - k)), !xorb_false_r in E by lia. exact E.
  - rewrite (IH (i - k)) in E by lia. destruct (Z.testbit v i), (Z.testbit w i), (Z.testbit w (i - k)); easy.
Qed.

(** ... and one to the right from the highest downwards. *)
Lemma xor_shr_inj k v w : 0 < k -> is_u64 v -> is_u64 w -> xor_shr k v = xor_shr k w -> v = w.
Proof.
  intros Hk Hv Hw E.
  assert (H : forall n i, 0 <= i -> 64 - i <= Z.of_nat n -> Z.testbit v i = Z.testbit w i).
  { induction n as [|n IH]; intros i Hi Hn.
    - rewrite !u64_bits by (easy || lia). easy.
    - pose proof (IH (i + k) ltac:(lia) ltac:(lia)) as J.
      apply (f_equal (fun m => Z.testbit m i)) in E. unfold xor_shr in E.
      rewrite !Z.lxor_spec, !Z.shiftr_spec, J in E by lia.
      destruct (Z.testbit v i), (Z.testbit w i), (Z.testbit w (i + k)); easy. }
  apply Z.bits_inj'. intros i Hi. apply (H 64%nat); lia.
Qed.

Lemma fastrand_typed g : rng_ok g -> rng_ok (fst (fastrand g)) /\ is_u64 (snd (fastrand g)).
Proof.
  intros (Hx & Hy & Hz). unfold fastrand, rng_ok. cbn [fst snd x y z].
  assert (is_u64 (Z.lxor (Z.lxor (xor_shl 1 (xor_shr 5 (xor_shl 16 (x g)))) (y g)) (z g))).
  { apply lxor_u64; [|easy]. apply lxor_u64; [|easy].
    apply xor_shl_ok, xor_shr_ok; [lia|]. now apply xor_shl_ok. }
  easy.
Qed.

Lemma fastrand_inj g h : rng_ok g -> rng_ok h -> fst (fastrand g) = fst (fastrand h) -> g = h.
Proof.
  destruct g as [gx gy gz], h as [hx hy hz]. intros (Gx & Gy & Gz) (Hx & Hy & Hz).
  unfold fastrand. cbn [fst x y z] in *. intros [= <- <- E].
  f_equal. apply (f_equal (fun n => Z.lxor (Z.lxor n gz) gy)) in E.
  assert (C : forall t, Z.lxor (Z.lxor (Z.lxor (Z.lxor t gy) gz) gz) gy = t).
  { intros t. rewrite (Z.lxor_assoc (Z.lxor t gy)), Z.lxor_nilpotent, Z.lxor_0_r.
    now rewrite Z.lxor_assoc, Z.lxor_nilpotent, Z.lxor_0_r. }
  rewrite !C in E.
  apply (xor_shl_inj 16); [easy|easy|easy|]. apply (xor_shr_inj 5); [easy|now apply xor_shl_ok..|].
  apply (xor_shl_inj 1); [easy|now apply xor_shr_ok, xor_shl_ok..|]. exact E.
Qed.

(** The states of the program: those the generator reaches from its start. *)
Inductive generated : rng -> Prop :=
| generated_start : generated (generator initial)
| generated_step g : generated g -> generated (fst (fastrand g)).

Lemma generated_ok g : generated g -> rng_ok g /\ g <> Rng 0 0 0.
Proof.
  induction 1 as [|g _ (T & N)].
  - split; [|easy]. now repeat split.
  - split; [now apply fastrand_typed|]. intros E. apply N, fastrand_inj; [easy| |now rewrite E].
    now repeat split.
Qed.

(** C39. The generator keeps its three words and its result in the range of
    [unsigned long]; it loses nothing: two different states never have the same
    successor; hence from the program's seeds it never falls into the all-zero
    state, in which it would answer zero forever. *)
Theorem fastrand_lossless g :
  generated g ->
  rng_ok g /\ is_u64 (snd (fastrand g)) /\ g <> Rng 0 0 0 /\
  (forall h, rng_ok h -> fst (fastrand h) = fst (fastrand g) -> h = g).
Proof.
  intros H. destruct (generated_ok g H) as [T N].
  split; [easy|]. split; [now apply fastrand_typed|]. split; [easy|].
  intros h Hh E. now apply fastrand_inj.
Qed.

Lemma fastrand_lossless_witness :
  is_u64 (snd (fastrand (Rng 362436069 521288629 10596601668567))) /\
  Rng 362436069 521288629 10596601668567 = fst (fastrand (generator initial)).
Proof.
  split; [|vm_compute; reflexivity].
  refine (proj1 (proj2 (fastrand_lossless _ _))).
  replace (Rng 362436069 521288629 10596601668567) with (fst (fastrand (generator initial)))
    by (vm_compute; reflexivity).
  apply generated_step, generated_start.
Defined.

(** ** Where reads start, for every reading order *)

(** A multiple of the buffer size with the whole buffer below the limit. *)
Definition position_ok (bs pos : Z) : Prop := pos mod bs = 0 /\ 0 <= pos /\ pos + bs <= LIM_MAX.

Section Positions.
Context {env : Libc}.

Lemma random_position bs r : 0 < bs -> 0 <= r -> bs <= LIM_MAX -> is_s32 bs ->
  position_ok bs (u64 (r mod (RAND_LIM_PAGE / u64 bs) * u64 bs)).
Proof.
  intros Hb Hr Hl Hs. unfold is_s32 in Hs.
  assert (E : u64 bs = bs) by (apply Z.mod_small; lia). rewrite E.
  change RAND_LIM_PAGE with LIM_MAX.
  assert (Hq : 0 < LIM_MAX / bs) by (apply Z.div_str_pos; lia).
  pose proof (Z.mod_pos_bound r _ Hq) as Hm. pose proof (Z.mul_div_le LIM_MAX bs Hb) as Hd.
  set (m := r mod (LIM_MAX / bs)) in *. set (q := LIM_MAX / bs) in *.
  assert (m * bs + bs <= LIM_MAX) by nia.
  assert (LIM_MAX < 2 ^ 64) by reflexivity.
  unfold position_ok, u64. rewrite (Z.mod_small (m * bs)) by nia.
  split; [apply Z.mod_mul; lia|nia].
Qed.

(** C40. For every reading order, a buffer size that divides the limit, and the
    page limit [main] computes from it: the next position is again a multiple
    of the buffer size with the whole buffer below 4 GiB. *)
Theorem next_pos_stays_inside order pos s :
  let bs := buffer_size s in
  0 < bs -> is_s32 bs -> LIM_MAX mod bs = 0 -> rand_lim_page s = RAND_LIM_PAGE / u64 bs ->
  rng_ok (generator s) -> position_ok bs pos ->
  exists pos' s', next_pos_in order pos s = Some (pos', s') /\ position_ok bs pos' /\
    buffer_size s' = bs /\ rand_lim_page s' = rand_lim_page s /\ rng_ok (generator s').
Proof.
  intros bs Hb Hs Hd Hl Hg Hp. unfold next_pos_in.
  destruct (order =? 0); [|destruct (order =? 1); [|destruct (order =? 2)]].
  - eexists _, s. split; [reflexivity|]. fold bs. split; [|easy].
    destruct Hp as (Pm & P0 & P1).
    rewrite (u64_small (pos + bs)) by (unfold is_u64, LIM_MAX, RAND_LIM in *; lia).
    pose proof (Z.div_mod pos bs ltac:(lia)) as D. rewrite Pm, Z.add_0_r in D.
    destruct (read_within bs (Z.to_nat (pos / bs + 1)) Hb Hd) as [A B].
    assert (0 <= pos / bs) by (apply Z.div_pos; lia).
    unfold read_offset in *. rewrite Z2Nat.id in A, B by lia.
    replace ((pos / bs + 1) * bs) with (pos + bs) in A, B by lia.
    split; [|easy]. rewrite <- (Z.mod_add _ (LIM_MAX / bs * ((pos + bs) / LIM_MAX)) bs) by lia.
    pose proof (Z.div_mod LIM_MAX bs ltac:(lia)) as DL. rewrite Hd, Z.add_0_r in DL.
    replace ((pos + bs) mod LIM_MAX + LIM_MAX / bs * ((pos + bs) / LIM_MAX) * bs) with (pos + bs).
    + rewrite D. replace (bs * (pos / bs) + bs) with ((pos / bs + 1) * bs) by lia.
      apply Z.mod_mul. lia.
    + pose proof (Z.div_mod (pos + bs) LIM_MAX ltac:(easy)). nia.
  - now exists pos, s.
  - unfold bind, gets, modify. destruct (fastrand_typed (generator s) Hg) as [Hg' Hr].
    destruct (fastrand (generator s)) as [g' r]. cbn [fst snd] in *.
    cbn [rand_lim_page buffer_size]. rewrite Hl. fold bs.
    assert (bs <= LIM_MAX) by (unfold is_s32, LIM_MAX, RAND_LIM in *; lia).
    assert (E : u64 bs = bs) by (apply Z.mod_small; unfold is_s32 in Hs; lia).
    assert (0 < RAND_LIM_PAGE / u64 bs) by (rewrite E; apply Z.div_str_pos; easy).
    destruct (Z.eqb_spec (RAND_LIM_PAGE / u64 bs) 0); [lia|].
    eexists _, _. split; [reflexivity|]. split; [|now repeat split; try apply Hg'].
    apply random_position; try easy. apply Hr.
  - exists 0, s. split; [reflexivity|]. split; [|easy]. unfold position_ok.
    rewrite Z.mod_0_l by lia. unfold is_s32, LIM_MAX, RAND_LIM in *. lia.
Qed.
End Positions.

Lemma next_pos_stays_inside_witness :
  exists pos' s', next_pos_in 2 0 (BState 4096 (RAND_LIM_PAGE / 4096) (generator initial) []) =
    Some (pos', s') /\ position_ok 4096 pos'.
Proof.
  destruct (next_pos_stays_inside 2 0 (BState 4096 (RAND_LIM_PAGE / 4096) (generator initial) []))
    as (p & s' & E & P & _); [easy|easy|easy|easy|now repeat split|now repeat split|].
  now exists p, s'.
Defined.
