(* ===== verification/Receiver.v ===== *)
(** The receiver of the socket benchmarks, [apps/socket/udp/raw_socket_udp.c]: a
    loop that reads packets from a raw socket under a spin lock. *)
From Stdlib Require Import ZArith Lia Bool String.
From stdpp Require Import base list.
From S2P Require Import Prelude Libc.

Local Open Scope Z_scope.
Local Open Scope ub_scope.

Definition PF_INET : Z := 2.
Definition SOCK_RAW : Z := 3.
Definition IPPROTO_UDP : Z := 17.
Definition SOL_SOCKET : Z := 1.
Definition SO_BINDTODEVICE : Z := 25.

Definition Batch : Z := 10000000.
Definition Batch2 : Z := 4000000.

(** The globals that the program uses. *)
Record rstate : Type := RState { sock_raw : Z; lock : bool; r_history : list io }.

#[export] Instance receiver_process : Process rstate := {|
  history := r_history;
  remember c s := RState (sock_raw s) (lock s) (c :: r_history s) |}.

#[export] Instance receiver_process_ok : ProcessOk receiver_process.
Proof. now split. Qed.

Section Program.
Context {env : Libc}.
Abbreviation RM := (M rstate).

Definition attach_cpu (cpu : Z) : RM unit := attach_cpu_of 48 cpu.

Definition set_lock (b : bool) : RM unit :=
  modify (fun s => RState (sock_raw s) b (r_history s)).

(** A taken spin lock is waited for forever: there is one thread. *)
Definition pthread_spin_lock : RM unit :=
  let* held := gets lock in
  if held then diverge else sys_ io_spin_lock ;; set_lock true.
Definition pthread_spin_unlock : RM unit := sys_ io_spin_unlock ;; set_lock false.
Definition pthread_spin_init : RM unit := sys_ io_spin_init ;; set_lock false.

(** Lines 73-75: [n] additions from the index [j] on. [None]: a read outside
    the 4096 bytes, or a sum outside [int]. *)
Fixpoint sum_bytes (n : nat) (buffer : Z -> Z) (j total : Z) : option Z :=
  match n with
  | O => Some total
  | S n =>
      let total' := total + buffer j in
      if (j <? 4096) && (total' <? 2 ^ 31) then sum_bytes n buffer (j + 4) total' else None
  end.

(** [for (j = 0; j < data_size - 4; j += 4)]: its number of rounds. *)
Definition sum_rounds (data_size : Z) : nat := Z.to_nat ((data_size - 4 + 3) / 4).

(** Lines 68-82, with [n] rounds left: [Some r] when the function returns [r]. *)
Fixpoint sniff_loop (n : nat) (buffer sum total : Z) : RM (option Z) :=
  match n with
  | O => ret None
  | S n =>
      pthread_spin_lock ;;
      let* fd := gets sock_raw in
      let* r := sys (io_recvfrom fd buffer 4096) in
      let data_size := s32 r in
      let* bytes := gets (fun s => received (r_history s)) in
      match (if ctrue sum then sum_bytes (sum_rounds data_size) bytes 0 total else Some total) with
      | None => diverge
      | Some total =>
          pthread_spin_unlock ;;
          if data_size <? 0 then
            sys_ (io_print "data size" data_size) ;;
            sys_ (io_puts "Recvfrom error , failed to get packets") ;;
            ret (Some (-1))
          else sniff_loop n buffer sum total
      end
  end.

(** [difftime] works on [double]: exact below 2^53 microseconds. *)
Definition sniff (flag sum : Z) : RM Z :=
  let* buffer := sys (io_malloc 4096) in
  let threshold := if ctrue flag then Batch else Batch2 in
  let* start := sys io_clock in
  let* r := sniff_loop (Z.to_nat threshold) buffer sum 0 in
  match r with
  | Some r => ret r
  | None => let* end_ := sys io_clock in ret (end_ - start)
  end.

(** The rate is printed in floating point; the model records its argument. *)
Definition main : RM Z :=
  let* fd := sys (io_socket PF_INET SOCK_RAW IPPROTO_UDP) in
  modify (fun s => RState (s32 fd) (lock s) (r_history s)) ;;
  if s32 fd <? 0 then sys_ (io_puts "Socket Error") ;; ret 1
  else
    sys_ (io_setsockopt (s32 fd) SOL_SOCKET SO_BINDTODEVICE 6) ;;
    if negb (arg_given 1) then diverge
    else
      let* sum := sys (io_atoi 1) in
      pthread_spin_init ;;
      sys_ (io_puts "start") ;;
      sniff 1 (s32 sum) ;;
      sys_ (io_puts "Speed up!") ;;
      for_io 10 0 (fun _ =>
        let* ustime := sniff 0 (s32 sum) in sys_ (io_print "%.2f" ustime)) ;;
      let* fd := gets sock_raw in
      sys_ (io_close fd) ;;
      sys_ io_spin_destroy ;;
      ret 0.
End Program.

(** ** One call of sniff *)

(** The calls of [k] receipts, the most recent first. *)
Fixpoint receipts (fd buffer : Z) (k : nat) : list io :=
  match k with
  | O => []
  | S k => receipts fd buffer k ++ [io_spin_unlock; io_recvfrom fd buffer 4096; io_spin_lock]
  end.

Definition failure_report (d : Z) : list io :=
  [io_puts "Recvfrom error , failed to get packets"; io_print "data size" d].

(** How [sniff] ends: with all its receipts, or with the one that failed. *)
Inductive sniff_end (threshold k : nat) : Z -> list io -> Prop :=
| sniff_done r : k = threshold -> sniff_end threshold k r [io_clock]
| sniff_failed d : (0 < k <= threshold)%nat -> d < 0 ->
    sniff_end threshold k (-1) (failure_report d).

Section Sniff.
Context {env : Libc} {env_ok : LibcReturns env}.

(** Without summation: the receipts until one fails. *)
Lemma sniff_loop_spec buffer n : forall total s, lock s = false ->
  exists k r tail, sniff_loop n buffer 0 total s =
    Some (r, RState (sock_raw s) false (tail ++ receipts (sock_raw s) buffer k ++ r_history s)) /\
    ((r = None /\ k = n /\ tail = []) \/
     (r = Some (-1) /\ (0 < k <= n)%nat /\
      exists h a, tail = failure_report (s32 a) /\
        libc (io_recvfrom (sock_raw s) buffer 4096) h = Some a /\ s32 a < 0)).
Proof.
  induction n as [|n IH]; intros total s Hl; cbn [sniff_loop].
  { exists O, None, []. split; [|now left]. destruct s. cbn in *. now subst. }
  unfold pthread_spin_lock. unfold bind at 1 2, gets at 1. rewrite Hl.
  unfold bind at 1. rewrite sys__runs. unfold set_lock at 1, modify at 1.
  unfold bind at 1, gets at 1. cbn [remember receiver_process sock_raw r_history].
  set (s1 := RState (sock_raw s) true _).
  destruct (sys_runs (io_recvfrom (sock_raw s) buffer 4096) s1) as (d & Ed & E).
  unfold bind at 1. rewrite E. unfold bind at 1, gets at 1. cbn [ctrue Z.eqb negb].
  unfold pthread_spin_unlock. unfold bind at 1 2. rewrite sys__runs.
  unfold set_lock at 1, modify at 1. cbn [remember receiver_process sock_raw r_history s1].
  destruct (Z.ltb_spec (s32 d) 0) as [L|L].
  - unfold bind. rewrite !sys__runs.
    exists 1%nat, (Some (-1)), (failure_report (s32 d)).
    split; [reflexivity|]. right. split; [easy|]. split; [lia|]. now exists (r_history s1), d.
  - match goal with |- context [sniff_loop n buffer 0 total ?s'] =>
      destruct (IH total s' eq_refl) as (k & r & tail & E2 & H) end.
    cbn [sock_raw r_history] in *. exists (S k), r, tail. split.
    + rewrite E2. cbn [receipts]. rewrite <- app_assoc. reflexivity.
    + destruct H as [(-> & -> & ->)|(-> & S2 & F)]; [now left|right].
      split; [easy|]. split; [lia|exact F].
Qed.

(** [sniff] without summation always returns and leaves the spin lock free
    on every path, the failing one included. Each of its receipts happens under
    the lock, and it performs exactly the configured number of them, or those
    up to the first that fails, in which case it reports the size and returns
    -1. When none fails it performs them all. *)
Theorem sniff_receipts flag s :
  lock s = false ->
  let threshold := Z.to_nat (if ctrue flag then Batch else Batch2) in
  exists r s' k buffer tail, sniff flag 0 s = Some (r, s') /\
    lock s' = false /\ sock_raw s' = sock_raw s /\
    r_history s' = tail ++ receipts (sock_raw s) buffer k ++
      [io_clock; io_malloc 4096] ++ r_history s /\
    sniff_end threshold k r tail /\
    ((forall h a, libc (io_recvfrom (sock_raw s) buffer 4096) h = Some a -> 0 <= s32 a) ->
     k = threshold).
Proof.
  intros Hl threshold. unfold sniff. fold threshold. clearbody threshold.
  destruct (sys_runs (io_malloc 4096) s) as (buffer & _ & E1).
  unfold bind at 1. rewrite E1. set (s1 := remember _ s).
  destruct (sys_runs io_clock s1) as (start & _ & E2). unfold bind at 1. rewrite E2.
  destruct (sniff_loop_spec buffer threshold 0 (remember io_clock s1))
    as (k & r & tail & E3 & H); [exact Hl|].
  unfold bind at 1. rewrite E3. cbn [sock_raw r_history remember receiver_process s1].
  destruct H as [(-> & -> & ->)|(-> & Hk & h & a & -> & Ea & La)].
  - match goal with |- context [bind (sys io_clock) _ ?s'] =>
      destruct (sys_runs io_clock s') as (e & _ & E4) end.
    unfold bind. rewrite E4. eexists _, _, threshold, buffer, [io_clock].
    split; [reflexivity|]. repeat (split; [reflexivity|]). split; [now constructor|easy].
  - eexists _, _, k, buffer, _. split; [reflexivity|]. repeat (split; [reflexivity|]).
    split; [now constructor|]. intros F. specialize (F _ _ Ea). lia.
Qed.
End Sniff.

(** An environment in which the third packet fails. *)
#[local] Instance third_fails : Libc := {|
  libc c h := Some (match c with io_recvfrom _ _ _ => if (10 <? length h)%nat then -1 else 100 | _ => 0 end);
  affinity _ _ := true; rdtscp_regs _ := (0, 0); arg_given _ := true; memalign_ptr _ := 0;
  stack_array _ := []; received _ _ := 0 |}.
#[local] Instance third_fails_returns : LibcReturns third_fails.
Proof. split. intros c h. now eexists. Qed.

Lemma sniff_receipts_witness :
  exists r s', sniff 0 0 (RState 3 false []) = Some (r, s') /\ lock s' = false.
Proof.
  destruct (sniff_receipts 0 (RState 3 false []) eq_refl) as (r & s' & k & b & t & E & L & _).
  now exists r, s'.
Defined.

(** ** The sum overflows *)

Lemma sum_bytes_full n : forall j total,
  0 <= j -> j + 4 * Z.of_nat n <= 4096 + 3 -> 0 <= total ->
  sum_bytes n (fun _ => 255) j total =
    if (total + 255 * Z.of_nat n <? 2 ^ 31) || (n =? 0)%nat then Some (total + 255 * Z.of_nat n) else None.
Proof.
  induction n as [|n IH]; intros j total Hj Hn Ht.
  - cbn [sum_bytes]. rewrite orb_true_r. f_equal. lia.
  - cbn [sum_bytes]. destruct (Z.ltb_spec j 4096); [|lia]. rewrite orb_false_r. cbn [andb].
    destruct (Z.ltb_spec (total + 255) (2 ^ 31)).
    + rewrite IH by lia. destruct n as [|n].
      { rewrite orb_true_r. destruct (Z.ltb_spec (total + 255 * Z.of_nat 1) (2 ^ 31)); [f_equal; lia|lia]. }
      cbn [Nat.eqb]. rewrite orb_false_r. replace (total + 255 + 255 * Z.of_nat (S n)) with
        (total + 255 * Z.of_nat (S (S n))) by lia. easy.
    + destruct (Z.ltb_spec (total + 255 * Z.of_nat (S n)) (2 ^ 31)); [lia|easy].
Qed.

Section Overflow.
Context {env : Libc} {env_ok : LibcReturns env}.
Hypothesis full_packets : forall fd buffer h, libc (io_recvfrom fd buffer 4096) h = Some 4096.
Hypothesis bright : forall h, received h = fun _ => 255.

Lemma sniff_loop_overflows buffer sum n : forall total s,
  ctrue sum = true -> lock s = false -> 0 <= total ->
  total < 2 ^ 31 <= total + 260865 * Z.of_nat n -> sniff_loop n buffer sum total s = None.
Proof.
  induction n as [|n IH]; intros total s Hs Hl H0 Ht; [lia|]. cbn [sniff_loop].
  unfold pthread_spin_lock. unfold bind at 1 2, gets at 1. rewrite Hl.
  unfold bind at 1. rewrite sys__runs. unfold set_lock at 1, modify at 1.
  unfold bind at 1, gets at 1. cbn [remember receiver_process sock_raw r_history].
  unfold bind at 1, sys at 1. rewrite full_packets. unfold bind at 1, gets at 1.
  rewrite bright, Hs. change (sum_rounds (s32 4096)) with 1023%nat.
  rewrite sum_bytes_full by lia. rewrite orb_false_r.
  change (255 * Z.of_nat 1023) with 260865.
  destruct (Z.ltb_spec (total + 260865) (2 ^ 31)); [|easy].
  unfold pthread_spin_unlock. unfold bind at 1 2. rewrite sys__runs.
  unfold set_lock at 1, modify at 1. change (s32 4096 <? 0) with false. cbv iota.
  apply IH; [easy|easy|lia|lia].
Qed.

(** With summation, enough full packets of large bytes make the sum overflow its
    [int] in every call of [sniff]: the call has no defined result. *)
Theorem sniff_sum_overflows flag sum s :
  ctrue sum = true -> lock s = false -> sniff flag sum s = None.
Proof.
  intros Hs Hl. unfold sniff.
  assert (E : 2 ^ 31 <= 0 + 260865 * Z.of_nat (Z.to_nat (if ctrue flag then Batch else Batch2)))
    by (rewrite Z2Nat.id; unfold Batch, Batch2; destruct (ctrue flag); lia).
  revert E. generalize (Z.to_nat (if ctrue flag then Batch else Batch2)) as n. intros n Hn.
  destruct (sys_runs (io_malloc 4096) s) as (buffer & _ & E1).
  unfold bind at 1. rewrite E1. set (s1 := remember _ s).
  destruct (sys_runs io_clock s1) as (start & _ & E2). unfold bind at 1. rewrite E2.
  unfold bind. rewrite sniff_loop_overflows; [easy|easy|exact Hl|lia|lia].
Qed.
End Overflow.
