(* ===== verification/Sender.v ===== *)
(** The sender of the socket benchmarks, [apps/socket/send_udp.c]. Each of its
    threads is one run of [send_udp]. *)
From Stdlib Require Import ZArith Lia Bool String.
From stdpp Require Import base list.
From S2P Require Import Prelude Libc.

Local Open Scope Z_scope.
Local Open Scope ub_scope.

Definition SEND_NUM : Z := 1.
Definition AF_INET : Z := 2.
Definition SOCK_DGRAM : Z := 2.
Definition SOL_SOCKET : Z := 1.
Definition SO_REUSEADDR : Z := 2.

(** A sender keeps no globals. *)
Record sstate : Type := SState { s_history : list io }.

#[export] Instance sender_process : Process sstate := {|
  history := s_history; remember c s := SState (c :: s_history s) |}.

(** [htons]: the two bytes of a 16-bit number exchanged. *)
Definition htons (p : Z) : Z := Z.lor (Z.shiftl (Z.land p 255) 8) (Z.land (Z.shiftr p 8) 255).

Section Program.
Context {env : Libc}.
Abbreviation SM := (M sstate).

(** Lines 33-39 from the index [i] on: [true] when the loop ends, [false] when
    a send fails. [None]: out of fuel, or [i++] leaves the range of [int]. *)
Fixpoint send_loop (fuel : nat) (fd msg port i : Z) : SM bool :=
  match fuel with
  | O => diverge
  | S fuel =>
      if i <? 500000000000 then
        let* r := sys (io_sendto fd msg SEND_NUM port) in
        let sendBytes := s32 r in
        if sendBytes =? -1 then sys_ (io_puts "sendto fail, errno=%d") ;; ret false
        else if i + 1 <? 2 ^ 31 then send_loop fuel fd msg port (i + 1)
        else diverge
      else ret true
  end.

(** The value returned after line 40 is not set; [None] stands for it. *)
Definition send_udp (fuel : nat) : SM (option Z) :=
  let* msg := sys (io_malloc SEND_NUM) in
  let* r := sys (io_socket AF_INET SOCK_DGRAM 0) in
  let brdcFd := s32 r in
  if brdcFd =? -1 then sys_ (io_puts "socket fail") ;; ret (Some (-1))
  else
    sys_ (io_setsockopt brdcFd SOL_SOCKET SO_REUSEADDR 4) ;;
    let* tid := sys io_gettid in
    let port := htons (Z.rem tid 10000 mod 2 ^ 16) in
    let* ended := send_loop fuel brdcFd msg port 0 in
    if ended : bool then sys_ (io_close brdcFd) ;; ret None
    else ret (Some (-1)).

Definition main : SM Z :=
  for_io 10 0 (fun i => sys_ (io_pthread_create i)) ;;
  for_io 10 0 (fun i => sys_ (io_pthread_join i)) ;;
  ret 0.
End Program.

Definition is_send (c : io) : bool := match c with io_sendto _ _ _ _ => true | _ => false end.
Definition is_close (c : io) : bool := match c with io_close _ => true | _ => false end.

Section Send.
Context {env : Libc} {env_ok : LibcReturns env}.

Lemma repeat_cons_assoc (c : io) k l : repeat c k ++ c :: l = repeat c (S k) ++ l.
Proof. change (c :: l) with ([c] ++ l). now rewrite app_assoc, <- repeat_cons. Qed.

(** A failed send at the last of [k + 1] attempts. *)
Definition fails_at (fd msg port : Z) (k : nat) (s : sstate) : Prop :=
  forall j a, (j <= k)%nat ->
    libc (io_sendto fd msg SEND_NUM port) (repeat (io_sendto fd msg SEND_NUM port) j ++ s_history s) = Some a ->
    s32 a = -1 <-> j = k.

(** The loop never ends by its condition. *)
Lemma send_loop_result fuel fd msg port : forall i s b s',
  i < 2 ^ 31 -> send_loop fuel fd msg port i s = Some (b, s') ->
  b = false /\ exists k, s_history s' = io_puts "sendto fail, errno=%d" ::
    repeat (io_sendto fd msg SEND_NUM port) (S k) ++ s_history s.
Proof.
  induction fuel as [|fuel IH]; intros i s b s' Hi; cbn [send_loop]; [easy|].
  destruct (Z.ltb_spec i 500000000000); [|lia]. set (c := io_sendto fd msg SEND_NUM port) in *.
  destruct (sys_runs c s) as (r & _ & E). unfold bind at 1. rewrite E.
  destruct (s32 r =? -1).
  - unfold bind. rewrite sys__runs. intros [= <- <-]. split; [easy|]. now exists O.
  - destruct (Z.ltb_spec (i + 1) (2 ^ 31)); [|easy]. intros H1.
    destruct (IH (i + 1) _ _ _ ltac:(assumption) H1) as [-> [k Hk]]. split; [easy|]. exists (S k).
    rewrite Hk. cbn [s_history]. f_equal. apply (repeat_cons_assoc c (S k)).
Qed.

Lemma send_loop_fails fd msg port k : forall fuel i s,
  fails_at fd msg port k s -> (k < fuel)%nat -> 0 <= i -> i + Z.of_nat k < 2 ^ 31 ->
  send_loop fuel fd msg port i s = Some (false, SState (io_puts "sendto fail, errno=%d" ::
    repeat (io_sendto fd msg SEND_NUM port) (S k) ++ s_history s)).
Proof.
  set (c := io_sendto fd msg SEND_NUM port).
  induction k as [|k IH]; intros [|fuel] i s F Hf Hi Hk; try lia; cbn [send_loop];
    destruct (Z.ltb_spec i 500000000000); try lia;
    destruct (sys_runs c s) as (r & Er & E); fold c; unfold bind at 1; rewrite E.
  - destruct (F O r ltac:(lia) Er) as [_ F2]. rewrite F2 by easy. cbn [Z.eqb Pos.eqb].
    unfold bind. now rewrite sys__runs.
  - destruct (F O r ltac:(lia) Er) as [F1 _]. destruct (Z.eqb_spec (s32 r) (-1)) as [X|X];
      [now specialize (F1 X)|].
    destruct (Z.ltb_spec (i + 1) (2 ^ 31)); [|lia].
    rewrite IH; [|intros j a Hj Ha|lia|lia|lia].
    + cbn [s_history]. do 4 f_equal. apply (repeat_cons_assoc c (S k)).
    + destruct (F (S j) a ltac:(lia)) as [P Q]; [|split; [intros Y; specialize (P Y); lia|intros ->; now apply Q]].
      rewrite <- Ha. cbn [s_history]. f_equal. symmetry. apply repeat_cons_assoc.
Qed.

Definition closes (h : list io) : list io := filter (fun c => is_close c = true) h.

Lemma closes_sends msg fd m port k h :
  closes (io_puts msg :: repeat (io_sendto fd m SEND_NUM port) k ++ h) = closes h.
Proof.
  unfold closes. rewrite filter_cons_False by easy.
  induction k as [|k IH]; [easy|]. cbn [repeat app]. now rewrite filter_cons_False.
Qed.

(** The part before the loop. *)
Lemma send_udp_loop fuel s :
  (exists s', send_udp fuel s = Some (Some (-1), s') /\ closes (s_history s') = closes (s_history s)) \/
  (exists fd msg port s3, closes (s_history s3) = closes (s_history s) /\
     existsb is_send (s_history s3) = existsb is_send (s_history s) /\
     send_udp fuel s = (let* ended := send_loop fuel fd msg port 0 in
       if ended : bool then sys_ (io_close fd) ;; ret None else ret (Some (-1))) s3).
Proof.
  remember (send_udp fuel s) as o eqn:Eo. unfold send_udp in Eo.
  destruct (sys_runs (io_malloc SEND_NUM) s) as (msg & _ & E1). unfold bind at 1 in Eo. rewrite E1 in Eo.
  set (s1 := remember _ s) in Eo. destruct (sys_runs (io_socket AF_INET SOCK_DGRAM 0) s1) as (fd & _ & E2).
  unfold bind at 1 in Eo. rewrite E2 in Eo. destruct (s32 fd =? -1).
  { left. unfold bind in Eo. rewrite sys__runs in Eo. eexists. split; [exact Eo|]. reflexivity. }
  right. unfold bind at 1 in Eo. rewrite sys__runs in Eo. set (s2 := remember _ (remember _ s1)) in Eo.
  destruct (sys_runs io_gettid s2) as (tid & _ & E3). unfold bind at 1 in Eo. rewrite E3 in Eo.
  eexists _, _, _, _. split; [|split; [|exact Eo]]; reflexivity.
Qed.

(** A sender returns only after a failure, of [socket] or of a send, and then
    with -1: the loop bound 500000000000 lies outside [int], so the loop never
    ends by its condition and no path closes the socket. It does return after
    the first failing send, when that is among the first 2^31. *)
Theorem send_udp_never_closes fuel s :
  (forall r s', send_udp fuel s = Some (r, s') ->
     r = Some (-1) /\ closes (s_history s') = closes (s_history s)) /\
  (forall k, (k < fuel)%nat -> Z.of_nat k < 2 ^ 31 ->
     existsb is_send (s_history s) = false ->
     (forall fd msg port s1, existsb is_send (s_history s1) = false -> fails_at fd msg port k s1) ->
     exists s', send_udp fuel s = Some (Some (-1), s')).
Proof.
  destruct (send_udp_loop fuel s) as [(s1 & -> & C)|(fd & msg & port & s3 & C & N & ->)].
  - split; [now intros r s' [= <- <-]|]. intros. now exists s1.
  - unfold bind. split.
    + intros r s'. destruct (send_loop _ _ _ _ _ _) as [[b s4]|] eqn:E4; [|easy].
      destruct (send_loop_result _ _ _ _ 0 _ _ _ eq_refl E4) as [-> [k Hk]].
      intros [= <- <-]. split; [easy|]. now rewrite Hk, closes_sends.
    + intros k Hk Hb Hn F. rewrite (send_loop_fails _ _ _ k);
        [now eexists|apply F; congruence|lia..].
Qed.
End Send.

(** An environment in which the third send fails. *)
#[local] Instance third_send_fails : Libc := {|
  libc c h := Some (match c with
    | io_sendto _ _ _ _ => if (2 <=? length (filter (fun c => is_send c = true) h))%nat then -1 else 1
    | _ => 3 end);
  affinity _ _ := true; rdtscp_regs _ := (0, 0); arg_given _ := true; memalign_ptr _ := 0;
  stack_array _ := []; received _ _ := 0 |}.
#[local] Instance third_send_fails_returns : LibcReturns third_send_fails.
Proof. split. intros c h. now eexists. Qed.

Lemma third_send_fails_at fd msg port s :
  existsb is_send (s_history s) = false -> fails_at fd msg port 2 s.
Proof.
  intros N j a Hj. cbn [libc third_send_fails]. intros [= <-].
  assert (E : forall h, existsb is_send h = false -> filter (fun c => is_send c = true) h = []).
  { induction h as [|c h IH]; [easy|]. cbn [existsb]. intros [A B]%orb_false_iff.
    rewrite filter_cons_False by congruence. now apply IH. }
  destruct j as [|[|[|j]]]; [..|lia]; cbn [repeat app];
    rewrite ?filter_cons_True, E by easy; vm_compute; split; congruence.
Qed.

Lemma send_udp_never_closes_witness :
  exists s', send_udp 5 (SState []) = Some (Some (-1), s').
Proof.
  apply (proj2 (send_udp_never_closes 5 (SState [])) 2%nat); [lia|lia|reflexivity|].
  exact third_send_fails_at.
Defined.
