(* ===== verification/Conflict.v ===== *)
(** The registers of a translated block: [zz_disassem/conflict.py], with the parts
    of [assist.py] that build instructions. The translator keeps the user's
    registers in the machine's, but for those that the block needs itself: the
    values of [special_regs] live in stack slots and are moved to one of four
    registers while an instruction uses them. *)
From Stdlib Require Import ZArith Lia Bool String Ascii.
From stdpp Require Import base list strings sorting.
From S2P Require Import Prelude.

Local Open Scope string_scope.
Local Open Scope Z_scope.
Local Open Scope ub_scope.

(** ** Data *)

#[local] Set Warnings "-register-all".

(** The expressions of the disassembler (miasm) that the translator looks at. *)
Inductive expr : Type :=
| ExprId (name : string) (size : Z)
| ExprInt (arg : Z) (size : Z)
| ExprMem (ptr : expr) (size : Z)
| ExprOp (op : string) (args : list expr)
| ExprLoc (loc : string).

#[export] Instance expr_eq_dec : EqDecision expr.
Proof.
  unfold EqDecision, Decision. fix IH 1. intros x y.
  assert (L : forall l k : list expr, {l = k} + {l <> k}).
  { fix IHl 1. intros [|a l] [|b k]; [now left|now right|now right|].
    destruct (IH a b) as [->|N]; [|right; congruence].
    destruct (IHl l k) as [->|N]; [now left|right; congruence]. }
  destruct x as [n z|n z|p z|o l|s], y as [n' z'|n' z'|p' z'|o' l'|s']; try (right; congruence).
  - destruct (decide (n = n')), (decide (z = z')); subst; (now left) || right; congruence.
  - destruct (decide (n = n')), (decide (z = z')); subst; (now left) || right; congruence.
  - destruct (IH p p'), (decide (z = z')); subst; (now left) || right; congruence.
  - destruct (decide (o = o')), (L l l'); subst; (now left) || right; congruence.
  - destruct (decide (s = s')); subst; (now left) || right; congruence.
Defined.

(** A memory operand, the dict of [arg_purify]: [im] is the empty string or an
    integer, [mul] empty or a scale and a register. *)
Record mem : Type := Mem { sz : Z; regs : list expr; im : option expr; mul : list expr }.

(** An argument of [make_inst]: an expression, a memory operand, a string, the
    string [hex(z)], or a label that ends in these digits. [ANone] is the None of
    an argument that [arg_purify] does not know. *)
Inductive arg : Type :=
| AExpr (e : expr) | ADict (d : mem) | AStr (s : string) | AHex (z : Z)
| ALabel (prefix : string) (z : Z) | ANone.

(** A line of the output: an instruction of [make_inst], a label, or text. *)
Inductive line : Type :=
| Inst (name : string) (args : list arg) | Label (prefix : string) (z : Z) | Text (s : string).
Abbreviation code := (list line).

(** *** Rendering *)

Definition sz2pfx (z : Z) : option string :=
  if z =? 128 then Some "XMMWORD PTR" else if z =? 64 then Some "QWORD PTR"
  else if z =? 32 then Some "DWORD PTR" else if z =? 16 then Some "WORD PTR"
  else if z =? 8 then Some "BYTE PTR" else None.

(** The printing of expressions is miasm's, that of integers Python's. *)
Class Printing := { str : expr -> string; hex : Z -> string }.

Section Rendering.
Context {printing : Printing}.

Fixpoint spaces (n : nat) : string := match n with O => "" | S n => String " " (spaces n) end.

Definition render_arg (a : arg) : option string :=
  match a with
  | AStr s => Some s
  | AHex z => Some (hex z)
  | ALabel l z => Some (l +:+ substring 2 (String.length (hex z)) (hex z))
  | AExpr e => Some (str e)
  | ANone => Some "None"
  | ADict d =>
      let res := (map str (regs d) ++ match im d with Some e => [str e] | None => [] end)%list in
      match (match mul d with
             | [] => Some res
             | n :: r :: _ => Some (res ++ [str n +:+ " * " +:+ str r])%list
             | _ => None
             end), sz2pfx (sz d) with
      | Some res, Some p => Some (p +:+ " [" +:+ String.concat " + " res +:+ "]")
      | _, _ => None
      end
  end.

(** [make_inst]: the name in fifteen columns and a space, then the arguments. *)
Definition make_inst (l : line) : option string :=
  match l with
  | Text s => Some (s +:+ String "010" "")
  | Label l z => Some (l +:+ substring 2 (String.length (hex z)) (hex z) +:+ ":" +:+ String "010" "")
  | Inst name args =>
      match mapM render_arg args with
      | Some args => Some (name +:+ spaces (15 - String.length name) +:+ " "
                             +:+ String.concat ", " args +:+ String "010" "")
      | None => None
      end
  end.
End Rendering.

(** ** conflict.py *)

Definition special_regs : list string :=
  ["IP"; "SP"; "BP"; "15"; "14"; "13"; "12"; "FS"; "GS"; "T1"; "T2"].
Definition stable_regs : list string := ["T1"; "T2"; "SP"; "BP"].
Definition is_in (l : list string) (s : string) : bool := existsb (String.eqb s) l.

Definition orig_stable_map (v : string) : string := if String.eqb v "SP" then "13" else "12".

Definition sz2sfx (z : Z) : option string :=
  if z =? 64 then Some "" else if z =? 32 then Some "d"
  else if z =? 16 then Some "w" else if z =? 8 then Some "b" else None.

(** [s[a:b]] *)
Definition slice (a b : nat) (s : string) : string := substring a (b - a) s.

(** The dict [reg_map]: the value of each physical register, in the order of
    their insertion. *)
Abbreviation regmap := (list (string * string)).

Definition block_init : regmap := [("15", ""); ("14", ""); ("13", "SP"); ("12", "BP")].

Definition holds (m : regmap) (p : string) : option string :=
  option_map snd (List.find (fun e => String.eqb (fst e) p) m).
Definition hold (p v : string) (m : regmap) : regmap :=
  map (fun e => if String.eqb (fst e) p then (p, v) else e) m.

(** [inv_map[v]]: the last key with the value; None is a KeyError. *)
Definition inv (m : regmap) (v : string) : option string :=
  option_map fst (List.find (fun e => String.eqb (snd e) v) (rev m)).

Definition Stack_R (v : string) : arg := AStr ("Stack_R" +:+ v).
Definition R (p : string) : arg := AStr ("R" +:+ p).

Definition release_IP (m : regmap) : regmap :=
  match inv m "IP" with Some p => hold p "" m | None => m end.

Definition release_conflict (m : regmap) (block_end : bool) : code :=
  if negb block_end then []
  else flat_map (fun '(k, v) =>
    if String.eqb v "" || is_in stable_regs v then []
    else if negb (String.eqb v "FS") && negb (String.eqb v "GS")
    then [Inst "MOV" [Stack_R v; R k]] else []) m.

Definition starts_with_T (v : string) : bool := String.eqb (slice 0 1 v) "T".

Definition release_tmp_conflict (m : regmap) : regmap :=
  map (fun '(k, v) => if starts_with_T v then (k, "") else (k, v)) m.

(** The keys of a register name: [name[0:2]], and [name[1:3]] of a longer one. *)
Definition possible_keys (key : string) : list string :=
  slice 0 2 key :: (if (2 <? String.length key)%nat then [slice 1 3 key] else []).

(** [set.add] *)
Definition add (s : list string) (v : string) : list string := if is_in s v then s else (s ++ [v])%list.

(** [str(reg)] of a register is its name. *)
Definition reg_name (e : expr) : option string :=
  match e with ExprId n _ => Some n | _ => None end.

Definition extract_conflict_regs (name : string) (conflict_regs : list string) : list string :=
  fold_left add (List.filter (is_in special_regs) (possible_keys name)) conflict_regs.

(** Python does not fix the order in which a set is traversed and popped: sets are
    lists here, and [arrange] is the order of the set with these elements. *)
Class PySet := { arrange : list string -> list string }.
Class PySetOk (py : PySet) : Prop := { arrange_perm : forall s, arrange s ≡ₚ s }.

(** The value of a register is saved, and that of [v] brought in: the address of the
    next instruction for RIP, nothing for a temporary. *)
Definition swap_out (p : string) (m : regmap) : code :=
  [Inst "MOV" [Stack_R (default "" (holds m p)); R p]].
Definition swap_in (v p : string) (offset : Z) : code :=
  if String.eqb v "IP" then [Inst "MOVABS" [R p; AHex offset]]
  else if negb (is_in stable_regs v) then [Inst "MOV" [R p; Stack_R v]] else [].

Section Conflict.
Context {py : PySet}.

(** The loop of [conflict_resolve]: each register in [todo] gets an idle register,
    one whose user is not needed now, or one that holds RSP or RBP. *)
Fixpoint resolve (todo idle victims stable_victims : list string) (offset : Z) (m : regmap)
  : option (code * regmap) :=
  match todo with
  | [] => Some ([], m)
  | v :: todo =>
      let continue p before idle victims stable_victims :=
        match resolve todo idle victims stable_victims offset (hold p v m) with
        | Some (c, m) => Some ((before ++ swap_in v p offset ++ c)%list, m)
        | None => None
        end in
      match idle, victims, stable_victims with
      | p :: idle, _, _ => continue p [] idle victims stable_victims
      | [], p :: victims, _ => continue p (swap_out p m) [] victims stable_victims
      | [], [], p :: stable_victims => continue p (swap_out p m) [] [] stable_victims
      | [], [], [] => None
      end
  end.

Definition resolved_regs (m : regmap) : list string :=
  List.filter (fun v => negb (String.eqb v "")) (map snd m).
Definition idle_regs (m : regmap) : list string :=
  map fst (List.filter (fun '(k, v) => String.eqb v "") m).
Definition possible_victims (conflict_regs : list string) (m : regmap) : list string :=
  map fst (List.filter (fun '(k, v) =>
    negb (is_in conflict_regs v) && negb (String.eqb v "") && negb (is_in stable_regs v)) m).
Definition possible_stable_victims (conflict_regs : list string) (m : regmap) : list string :=
  map fst (List.filter (fun '(k, v) =>
    negb (is_in conflict_regs k) && is_in stable_regs v && negb (starts_with_T v)) m).

Definition to_be_resolved (conflict_regs : list string) (m : regmap) : list string :=
  List.filter (fun v => negb (is_in (resolved_regs m) v)) conflict_regs.

(** The warning that it prints is left out. *)
Definition conflict_resolve (m : regmap) (conflict_regs : list string) (offset : Z)
  : option (code * regmap) :=
  resolve (arrange (to_be_resolved conflict_regs m)) (arrange (idle_regs m))
    (arrange (possible_victims conflict_regs m))
    (arrange (possible_stable_victims conflict_regs m)) offset m.
End Conflict.

(** [inv_map] is computed once, before the loop. *)
Definition recover_one (m0 : regmap) (v : string) (m : regmap) : code * regmap :=
  if starts_with_T v then ([], m)
  else match inv m0 v with
       | Some _ => ([], m)
       | None =>
           let p := orig_stable_map v in
           ([Inst "MOV" [Stack_R (default "" (holds m p)); R p]; Inst "MOV" [R p; Stack_R v]],
            hold p v m)
       end.

Definition recover_stable (m : regmap) : code * regmap :=
  fold_left (fun '(c, m1) v => let '(c', m1) := recover_one m v m1 in ((c ++ c')%list, m1))
    stable_regs ([], m).

(** One register of [apply_map]. *)
Definition apply_reg (m : regmap) (name : string) (size : Z) : option expr :=
  let k1 := if (2 <? String.length name)%nat then slice 1 3 name else "" in
  let k2 := slice 0 2 name in
  let mapped k := match inv m k, sz2sfx size with
                  | Some p, Some sfx => Some (ExprId ("R" +:+ p +:+ sfx) size)
                  | _, _ => None
                  end in
  if is_in special_regs k1 then mapped k1
  else if is_in special_regs k2 then mapped k2 else Some (ExprId name size).

Definition apply_expr (m : regmap) (e : expr) : option expr :=
  match e with ExprId name size => apply_reg m name size | _ => Some e end.

Definition apply_arg (m : regmap) (a : arg) : option arg :=
  match a with
  | AExpr e => option_map AExpr (apply_expr m e)
  | ADict d =>
      match mapM (apply_expr m) (regs d), mapM (apply_expr m) (mul d) with
      | Some rs, Some ms => Some (ADict (Mem (sz d) rs (im d) ms))
      | _, _ => None
      end
  | _ => Some a
  end.

Definition apply_map (args : list arg) (m : regmap) : option (list arg) := mapM (apply_arg m) args.

(** Of a register; the error for anything else is only printed. *)
Definition reverse_reg (m : regmap) (name : string) : option string :=
  let arg := slice 1 3 name in
  if is_in special_regs arg then inv m arg else Some arg.
