(* ===== verification/Translate.v ===== *)
(** The translation of instructions: [assist.py], [normal.py], [special_inst.py],
    [translation.py], the loop over a block in [disassem.py] and the jump tables of
    [indirect_jump.py], all under [zz_disassem/]. *)
From Stdlib Require Import ZArith Lia Bool String Ascii.
From stdpp Require Import base list strings.
From S2P Require Import Prelude Conflict.

Local Open Scope string_scope.
Local Open Scope Z_scope.
Local Open Scope ub_scope.

(** ** assist.py *)

(** An instruction of the disassembler: its name, the bits of its prefixes with the
    byte that belongs to the opcode (-1: none), its arguments and its length. *)
Record inst : Type := MkInst { name : string; g1 : Z; prefixed : Z; args : list expr; l : Z }.

Definition conditional_branch : list string :=
  ["JO"; "JNO"; "JB"; "JAE"; "JZ"; "JNZ"; "JBE"; "JA"; "JS"; "JNS"; "JPE"; "JNP"; "JL"; "JGE";
   "JLE"; "JG"; "JCXZ"; "JECXZ"; "JRCXZ"].
Definition unconditional_branch : list string := ["JMP"; "JMPF"].
Definition ops_def_flags : list string :=
  ["CMP"; "TEST"; "ADD"; "SUB"; "NEG"; "INC"; "MUL"; "DIV"; "AND"; "OR"; "XOR"; "NOT"; "SHL";
   "SAL"; "SHR"; "SAR"; "ROL"; "ROR"; "RCL"; "RCR"; "CLC"; "CLD"; "STC"; "STD"].
Definition ops_use_flags : list string := (conditional_branch ++ ["LAHF"; "SET"; "CMOV"])%list.

(** [name.find(i) != -1] *)
Definition find (name i : string) : bool :=
  match String.index 0 i name with Some _ => true | None => false end.
Definition check_in_list (name : string) (l : list string) : bool := existsb (find name) l.

Definition get_inst_name (i : inst) : string :=
  let o := name i in
  let o := if g1 i .& 1 then "LOCK " +:+ o else o in
  let o := if g1 i .& 2 then (if prefixed i =? 0xf2 then o else "REPNE " +:+ o) else o in
  if g1 i .& 8 then (if prefixed i =? 0xf3 then o else "REP " +:+ o)
  else if g1 i .& 4 then (if prefixed i =? 0xf3 then o else "REPE " +:+ o) else o.

(** The loop runs over the reversed lines and its result is popped from the end,
    so the first element here is that of the first line. *)
Fixpoint check_flag_def_use (lines : list inst) : list bool * bool :=
  match lines with
  | [] => ([], false)
  | i :: lines =>
      let '(ret, can_check) := check_flag_def_use lines in
      let name := get_inst_name i in
      let can_check := if check_in_list name ops_def_flags then true
                       else if check_in_list name ops_use_flags then false else can_check in
      (can_check :: ret, can_check)
  end.

Definition make_mem_dict (size : Z) (regs : list string) (im : Z) : mem :=
  Mem size (map (fun r => ExprId r 64) regs) (if im =? 0 then None else Some (ExprInt (u64 im) 64)) [].

Definition im64_abs (e : expr) : string :=
  match e with ExprInt _ size => if size =? 64 then "ABS" else "" | _ => "" end.

(** ** normal.py *)

Definition add_reg (e : expr) (d : mem) : mem := Mem (sz d) (regs d ++ [e])%list (im d) (mul d).

(** The parts of an address; what it does not know is left out with a warning. An
    odd scale is made even in place, in the expression; each expression is taken
    apart once. *)
Fixpoint mem_addr (e : expr) (res : mem) : mem :=
  match e with
  | ExprOp op args =>
      if String.eqb op "+" then
        (fix each (l : list expr) (res : mem) : mem :=
           match l with [] => res | x :: l => each l (mem_addr x res) end) args res
      else if String.eqb op "*" then
        match mul res, args with
        | [], ExprId r size :: ExprInt n nsize :: _ =>
            if n mod 2 =? 1 then
              Mem (sz res) (regs res ++ [ExprId r size])%list (im res) [ExprInt (n - 1) nsize; ExprId r size]
            else Mem (sz res) (regs res) (im res) [ExprInt n nsize; ExprId r size]
        | _, _ => res
        end
      else res
  | ExprId _ _ => add_reg e res
  | ExprInt _ _ => Mem (sz res) (regs res) (Some e) (mul res)
  | _ => res
  end.

(** [is_mem_segm]: the pointer is [segm(seg, ptr)]. *)
Definition segm (ptr : expr) : option (string * expr) :=
  match ptr with
  | ExprOp op (ExprId seg _ :: ptr :: _) => if String.eqb op "segm" then Some (seg, ptr) else None
  | _ => None
  end.

Definition arg_purify (a : arg) : arg :=
  match a with
  | AExpr (ExprOp _ _) => AStr ""
  | AExpr (ExprMem ptr size) =>
      match segm ptr with
      | Some (seg, ptr) => ADict (mem_addr ptr (Mem size [ExprId ("R" +:+ seg) 64] None []))
      | None => ADict (mem_addr ptr (Mem size [] None []))
      end
  | AExpr (ExprId _ _) | AExpr (ExprInt _ _) | ADict _ => a
  | _ => ANone
  end.

(** The registers of an argument; [mul] is a scale and a register. *)
Definition extract_reg (a : arg) : list expr :=
  match a with
  | ADict d => (regs d ++ match mul d with _ :: r :: _ => [r] | _ => [] end)%list
  | AExpr (ExprId n s) => [ExprId n s]
  | _ => []
  end.

Definition last_char (s : string) : string := substring (String.length s - 1) 1 s.

Definition get_mem_base (name : string) (purified_args : list arg) : list expr :=
  if String.eqb name "LEA" then []
  else flat_map (fun a =>
    match a with
    | ADict d =>
        if (1 <? length (regs d))%nat then []
        else List.filter (fun r => negb (String.eqb (last_char (default "" (reg_name r))) "P")) (regs d)
    | _ => []
    end) purified_args.

(** What the translation of a block keeps: the map of registers, and the global
    [checked_regs]. *)
Record tstate : Type := Tr { reg_map : regmap; checked_regs : list expr }.
Definition set_reg_map (m : regmap) (s : tstate) : tstate := Tr m (checked_regs s).

Definition remove_dup (l : list expr) : list expr := remove_dups l.

Definition conflict_regs_of (purified_args : list arg) : list string :=
  fold_left (fun c r => extract_conflict_regs (default "" (reg_name r)) c)
    (flat_map extract_reg purified_args) [].

(** The set of bases not yet checked, and the new [checked_regs]. *)
Definition bases_to_check (name : string) (purified_args : list arg) (checked : list expr)
  : list expr * list expr :=
  let to_check := List.filter (fun r => negb (bool_decide (r ∈ checked)))
                    (remove_dup (get_mem_base name purified_args)) in
  let checked := match purified_args with
                 | AExpr (ExprId n s) :: _ => List.filter (fun r => negb (bool_decide (r = ExprId n s))) checked
                 | _ => checked
                 end in
  (to_check, (checked ++ to_check)%list).

(** The masks are dropped when there is more than one, and when the flags may be in
    use, so the code that saves the flags is never emitted. *)
Definition check_code (to_check : list arg) (can_check : bool) : code :=
  let clob_flag := negb (length to_check =? 0)%nat && negb can_check in
  let check_inst :=
    ((if clob_flag then [Text "PUSHF"] else [])
       ++ flat_map (fun r => [Inst "SHL" [r; AStr "1"]; Inst "SHR" [r; AStr "1"]]) to_check
       ++ (if clob_flag then [Text "POPF"] else []))%list in
  if (1 <? length to_check)%nat || negb can_check then [] else check_inst.

Section Translate.
Context {py : PySet}.
Abbreviation TM := (M tstate code).

Definition process_normal (name : string) (args : list arg) (offset : Z) (can_check : bool) : TM := fun s =>
  let purified_args := map arg_purify args in
  let conflict_regs := conflict_regs_of purified_args in
  let '(to_check, checked) := bases_to_check name purified_args (checked_regs s) in
  if (length conflict_regs =? 0)%nat then
    Some ((check_code (map AExpr to_check) can_check ++ [Inst name purified_args])%list,
          Tr (reg_map s) checked)
  else
    match conflict_resolve (reg_map s) conflict_regs offset with
    | None => None
    | Some (pre_inst, m) =>
        match apply_map purified_args m, apply_map (map AExpr to_check) m with
        | Some purified_args, Some to_check =>
            let '(post_inst, m) := recover_stable (release_IP m) in
            Some ((pre_inst ++ check_code to_check can_check ++ [Inst name purified_args]
                     ++ post_inst)%list, Tr m checked)
        | _, _ => None
        end
    end.

(** [ret_str += ...]: the outputs of both, in order. *)
Definition cat (a b : TM) : TM := let* x := a in let* y := b in ret (x ++ y)%list.
Notation "a '+=+' b" := (cat a b) (at level 61, left associativity).

Definition released (block_end : bool) : TM := fun s => Some (release_conflict (reg_map s) block_end, s).
Definition resolve_for (v : string) : TM := fun s =>
  match conflict_resolve (reg_map s) [v] 0 with
  | Some (c, m) => Some (c, set_reg_map m s)
  | None => None
  end.
Definition release_tmp : TM := fun s => Some ([], set_reg_map (release_tmp_conflict (reg_map s)) s).
Definition emit (c : code) : TM := ret c.

Definition T1 : arg := AExpr (ExprId "RT1" 64).
Definition T2 : arg := AExpr (ExprId "RT2" 64).
Definition RSP : arg := AExpr (ExprId "RSP" 64).

(** ** special_inst.py *)

Definition expr_size (e : expr) : Z :=
  match e with ExprId _ s | ExprInt _ s | ExprMem _ s => s | _ => 0 end.

Definition process_push (e : expr) (offset : Z) : TM :=
  process_normal "LEA" [RSP; ADict (make_mem_dict 64 ["RSP"] (- expr_size e / 8))] offset false +=+
  match e with
  | ExprMem _ _ =>
      resolve_for "T1" +=+ process_normal "MOV" [T1; AExpr e] offset false
      +=+ process_normal "MOV" [ADict (make_mem_dict 64 ["RSP"] 0); T1] offset false +=+ release_tmp
  | _ =>
      let e := match e with ExprInt n _ => ExprInt (u32 n) 32 | _ => e end in
      process_normal ("MOV" +:+ im64_abs e) [ADict (make_mem_dict (expr_size e) ["RSP"] 0); AExpr e] offset false
  end.

Definition process_pop (e : expr) (offset : Z) : TM :=
  match e with
  | ExprMem _ _ =>
      resolve_for "T1" +=+ process_normal "MOV" [T1; ADict (make_mem_dict 64 ["RSP"] 0)] offset false
      +=+ process_normal "MOV" [AExpr e; T1] offset false +=+ release_tmp
  | _ => process_normal "MOV" [AExpr e; ADict (make_mem_dict 64 ["RSP"] 0)] offset false
  end +=+
  process_normal "LEA" [RSP; ADict (make_mem_dict 64 ["RSP"] (expr_size e / 8))] offset false.

(** [process_jump] of a register. *)
Definition jump_register (jump reg : string) (offset : Z) : TM :=
  released true +=+ fun s =>
    match reverse_reg (reg_map s) reg with
    | None => None
    | Some p =>
        Some (((if String.eqb p "14" then [] else [Inst "MOV" [AStr "R14"; R p]])
                 ++ [Inst jump [ALabel "ij_" offset]])%list, s)
    end.

Definition process_jump (jump : string) (e : expr) (offset : Z) : TM :=
  match e with
  | ExprLoc loc => released true +=+ emit [Inst jump [AStr loc]]
  | ExprMem _ _ =>
      resolve_for "T2" +=+ process_normal "MOV" [T2; AExpr e] offset false +=+ jump_register jump "RT2" offset
  | ExprId r _ => jump_register jump r offset
  | _ => emit []
  end.

Definition special_instruction : list string :=
  ["NOP"; "CALL"; "RET"; "POP"; "PUSH"; "LEAVE"; "PUSHF"; "POPF"; "ENDBR64"; "SYSCALL"; "INVLPG"].

(** The argument of an instruction that has one; without it Python raises. *)
Definition with_arg (i : inst) (f : expr -> TM) : TM :=
  match args i with e :: _ => f e | [] => fun _ => None end.

(** What it does not know produces a warning and no code. *)
Definition special_inst_dispatch (i : inst) (offset : Z) (block_end : bool) : TM :=
  let op := get_inst_name i in
  if String.eqb op "ENDBR64" || String.eqb (name i) "NOP" then emit [Text "NOP"] +=+ released block_end
  else if String.eqb op "CALL" then
    resolve_for "T2" +=+ process_normal "MOVABS" [T2; AExpr (ExprInt offset 64)] offset false
    +=+ process_push (ExprId "RT2" 64) offset +=+ with_arg i (fun e => process_jump "JMP" e offset)
  else if String.eqb op "PUSH" then with_arg i (fun e => process_push e offset) +=+ released block_end
  else if String.eqb op "POP" then with_arg i (fun e => process_pop e offset) +=+ released block_end
  else if String.eqb op "RET" then
    resolve_for "T2" +=+ process_pop (ExprId "RT2" 64) offset +=+ jump_register "JMP" "RT2" offset
  else if String.eqb op "LEAVE" then
    process_normal "MOV" [RSP; AExpr (ExprId "RBP" 64)] offset false
    +=+ process_pop (ExprId "RBP" 64) offset +=+ released block_end
  else if String.eqb op "SYSCALL" then
    emit [Inst "MOVABS" [AStr "R14"; AHex (offset - 2)]; Inst "JMP" [AStr "comp_syscall"]]
  else if String.eqb op "INVLPG" then
    emit [Inst "MOVABS" [AStr "R14"; AHex (offset - 2)]; Inst "JMP" [AStr "ill_inst"]]
  else emit [].

(** ** translation.py *)

Definition translate (i : inst) (offset : Z) (block_end can_check : bool) : TM :=
  if is_in special_instruction (name i) then special_inst_dispatch i offset block_end
  else if is_in conditional_branch (name i) || is_in unconditional_branch (name i) then
    with_arg i (fun e => process_jump (name i) e offset)
  else process_normal (get_inst_name i) (map AExpr (args i)) offset can_check +=+ released block_end.

(** ** The loop over the lines of a block in disassem.py *)

Fixpoint translate_lines (lines : list inst) (can_check : list bool) (offset : Z) : TM :=
  match lines, can_check with
  | i :: lines, c :: can_check =>
      let offset := offset + l i in
      translate i offset (length lines =? 0)%nat c +=+ translate_lines lines can_check offset
  | _, _ => emit []
  end.

Definition translate_block (lines : list inst) (offset : Z) : option code :=
  match translate_lines lines (fst (check_flag_def_use lines)) offset (Tr block_init []) with
  | Some (c, _) => Some c
  | None => None
  end.
End Translate.

(** ** indirect_jump.py *)

Definition make_jump_table (jump_table : list (Z * list Z)) : code :=
  flat_map (fun '(offset, psb_targets) =>
    (Label "ij_" offset :: flat_map (fun psb_tgt =>
       [Inst "MOVABS" [AStr "R15"; AHex psb_tgt]; Inst "CMP" [AStr "R14"; AStr "R15"];
        Inst "JZ" [ALabel "loc_" psb_tgt]]) psb_targets
     ++ [Inst "MOVABS" [AStr "R15"; AHex offset]; Inst "JMP" [AStr "ij_failed"]])%list) jump_table.

Definition make_callee_table (callee_list : list Z) : code :=
  flat_map (fun offset =>
    [Label "loc_" offset; Inst "MOVABS" [AStr "R14"; AHex offset]; Inst "MOV" [AStr "Stack_IJ"; AStr "0x1"];
     Inst "JMP" [AStr "exit"]]) callee_list.

(** ** jit.S *)

(** A block of the disassembler: its label, its address and its lines. *)
Record block : Type := MkBlock { b_label : string; b_offset : Z; b_lines : list inst }.

(** A line of the disassembler with its bytes: of LEA RDX, [RDI+RDI*2] it has the wrong
    scale, which [dis_assem] sets to 3 in the expression. None: the expression has not the
    form that it takes for granted. *)
Definition lea_rdi_3 : list Z := [0x48; 0x8d; 0x14; 0x7f].
Definition repair (b : list Z) (i : inst) : option inst :=
  if bool_decide (b = lea_rdi_3) then
    match args i with
    | a :: ExprMem (ExprOp op (x :: ExprInt _ s :: xs)) size :: rest =>
        Some (MkInst (name i) (g1 i) (prefixed i)
          (a :: ExprMem (ExprOp op (x :: ExprInt 3 s :: xs)) size :: rest) (l i))
    | _ => None
    end
  else Some i.

(** The block that is translated. *)
Definition repaired (label : string) (offset : Z) (lines : list (list Z * inst)) : option block :=
  option_map (MkBlock label offset) (mapM (fun '(b, i) => repair b i) lines).

Example lea_repaired :
  let lea z := MkInst "LEA" 0 0 [ExprId "RDX" 64; ExprMem (ExprOp "*" [ExprId "RDI" 64; ExprInt z 64]) 64] 4 in
  repaired "loc_401000" 0x401000 [(lea_rdi_3, lea 2)] = Some (MkBlock "loc_401000" 0x401000 [lea 3]).
Proof. reflexivity. Qed.

Section Assembly.
Context {py : PySet}.

Definition emit_block (b : block) : option code :=
  match translate_block (b_lines b) (b_offset b) with
  | Some c => Some (Text (b_label b +:+ ":") :: c ++ [Text (String "010" "")])%list
  | None => None
  end.

(** The file that [dis_assem] writes, of the blocks in the order of their addresses.
    Their lines are the [repaired] ones. The comments, the code of the debugger and the
    counts are left out. *)
Definition assembly (entry : Z) (blocks : list block) (jump_table : list (Z * list Z)) (missing_callees : list Z)
  : option code :=
  match mapM emit_block blocks with
  | Some cs => Some (Inst "JMP" [ALabel "loc_" entry] :: List.concat cs
                       ++ make_jump_table jump_table ++ make_callee_table missing_callees)%list
  | None => None
  end.
End Assembly.
