(* ===== verification/Machine.v ===== *)
(** What the code of a block does: the emitted instructions run on the registers
    and the stack slots of [asm_head.h], the instructions of the user on the
    user's registers. An instruction reaches the registers that the translator
    moves about only through its operands, and its effect is the processor's. *)
From Stdlib Require Import ZArith Lia Bool String.
From stdpp Require Import base list strings functions.
From S2P Require Import Prelude Conflict.

Local Open Scope string_scope.
Local Open Scope Z_scope.
Local Open Scope ub_scope.

#[local] Set Warnings "-register-all".

(** An operand as an instruction sees it: the contents of a register that can be
    moved, the name of any other, the parts of an address. *)
Inductive value : Type :=
| VReg (contents size : Z) | VName (name : string) (size : Z) | VExpr (e : expr)
| VMem (sz : Z) (regs : list value) (im : option expr) (mul : list value)
| VArg (a : arg).

(** The key of a register that can be moved, by which [apply_map] finds it. *)
Definition reg_key (name : string) : option string :=
  let k1 := if (2 <? String.length name)%nat then slice 1 3 name else "" in
  let k2 := slice 0 2 name in
  if is_in special_regs k1 then Some k1 else if is_in special_regs k2 then Some k2 else None.

Abbreviation regfile := (string -> Z).

Definition value_of (f : regfile) (e : expr) : value :=
  match e with
  | ExprId n s => match reg_key n with Some k => VReg (f k) s | None => VName n s end
  | _ => VExpr e
  end.

Definition arg_value (f : regfile) (a : arg) : value :=
  match a with
  | AExpr e => value_of f e
  | ADict d => VMem (sz d) (map (value_of f) (regs d)) (im d) (map (value_of f) (mul d))
  | _ => VArg a
  end.

(** The new contents of the operands that are such registers, in their order. *)
Fixpoint write_back (f : regfile) (args : list arg) (outs : list Z) : regfile :=
  match args, outs with
  | AExpr (ExprId n _) :: args, o :: outs' =>
      match reg_key n with
      | Some k => write_back (<[k := o]> f) args outs'
      | None => write_back f args outs
      end
  | _ :: args, _ => write_back f args outs
  | [], _ => f
  end.

(** The processor, with the registers that stay in place (RBX, R8 to R11, RAX, RCX,
    RDX, RSI, RDI) and the state [X] that is neither of these: memory of the
    user, flags, vector registers. [None]: the instruction faults. *)
Class Cpu (X : Type) := {
  cpu : string -> list value -> list Z -> X -> option (list Z * list Z * X)
}.

Section Machine.
Context {X : Type} {processor : Cpu X}.

(** The user's state; the keys of [u_reg] are [special_regs]. *)
Record ustate : Type := U { u_reg : regfile; u_gp : list Z; u_rest : X }.

Definition user_step (i : line) (u : ustate) : option ustate :=
  match i with
  | Inst name args =>
      match cpu name (map (arg_value (u_reg u)) args) (u_gp u) (u_rest u) with
      | Some (outs, gp, x) => Some (U (write_back (u_reg u) args outs) gp x)
      | None => None
      end
  | _ => Some u
  end.

(** The machine's: [p_reg] has the keys "15" to "12", [p_stack n] is the word at
    [RBP - 8*n]. *)
Record mstate : Type := MState { p_reg : regfile; p_stack : nat -> Z; p_gp : list Z; p_rest : X }.

(** The [Stack_*] macros of [asm_head.h]. *)
Definition stack_slot (macro : string) : option nat :=
  let k := fun s n r => if String.eqb macro s then Some n else r in
  k "Stack_PT_REG" 6%nat (k "Stack_ARG_REG" 7%nat (k "Stack_RBP" 8%nat (k "Stack_RSP" 9%nat
  (k "Stack_R15" 10%nat (k "Stack_R14" 11%nat (k "Stack_R13" 12%nat (k "Stack_R12" 13%nat
  (k "Stack_RGS" 14%nat (k "Stack_RFS" 15%nat (k "Stack_RIP" 16%nat (k "Stack_IJ" 17%nat
  (k "Stack_INST_CNT" 18%nat None)))))))))))).

Definition machine_reg (s : string) : option string :=
  if is_in ["R15"; "R14"; "R13"; "R12"] s then Some (slice 1 3 s) else None.

(** The registers that keep their places, in the order in which [wrapper.S] loads
    them, and what they hold. *)
Definition gp_names : list string := ["RBX"; "R11"; "R10"; "R9"; "R8"; "RAX"; "RCX"; "RDX"; "RSI"; "RDI"].
Definition gp_reg (n : string) (gp : list Z) : option Z :=
  option_map snd (List.find (fun e => String.eqb (fst e) n) (zip gp_names gp)).

(** The numbers that are written as text. *)
Definition literal (s : string) : option Z :=
  if String.eqb s "0x0" then Some 0 else if String.eqb s "0x1" then Some 1 else None.

(** [MOV] between a register and a slot or another register, from a register that keeps
    its place, or of a number to a slot, as strings. *)
Definition move (dst src : string) (m : mstate) : option mstate :=
  match machine_reg dst, machine_reg src, stack_slot dst, stack_slot src with
  | Some d, Some s, _, _ => Some (MState (<[d := p_reg m s]> (p_reg m)) (p_stack m) (p_gp m) (p_rest m))
  | Some d, None, _, Some n => Some (MState (<[d := p_stack m n]> (p_reg m)) (p_stack m) (p_gp m) (p_rest m))
  | Some d, None, _, None =>
      match gp_reg src (p_gp m) with
      | Some z => Some (MState (<[d := z]> (p_reg m)) (p_stack m) (p_gp m) (p_rest m))
      | None => None
      end
  | None, Some s, Some n, _ => Some (MState (p_reg m) (<[n := p_reg m s]> (p_stack m)) (p_gp m) (p_rest m))
  | None, None, Some n, None =>
      match literal src with
      | Some z => Some (MState (p_reg m) (<[n := z]> (p_stack m)) (p_gp m) (p_rest m))
      | None => None
      end
  | _, _, _, _ => None
  end.

(** The translator writes its own operands as strings. Its jumps leave the code and
    have no meaning here. *)
Definition machine_step (i : line) (m : mstate) : option mstate :=
  match i with
  | Inst name (AStr dst :: args) =>
      if String.eqb name "MOV" then match args with [AStr src] => move dst src m | _ => None end
      else if String.eqb name "MOVABS" then
        match machine_reg dst, args with
        | Some d, [AHex z] => Some (MState (<[d := u64 z]> (p_reg m)) (p_stack m) (p_gp m) (p_rest m))
        | _, _ => None
        end
      else None
  | Inst name args =>
      match cpu name (map (arg_value (p_reg m)) args) (p_gp m) (p_rest m) with
      | Some (outs, gp, x) => Some (MState (write_back (p_reg m) args outs) (p_stack m) gp x)
      | None => None
      end
  | _ => Some m
  end.

Fixpoint run {S : Type} (step : line -> S -> option S) (c : code) (s : S) : option S :=
  match c with
  | [] => Some s
  | i :: c => match step i s with Some s => run step c s | None => None end
  end.

Lemma run_app {S : Type} (step : line -> S -> option S) c d s :
  run step (c ++ d)%list s = match run step c s with Some s => run step d s | None => None end.
Proof. revert s. induction c as [|i c IH]; intros s; [easy|]. simpl. destruct (step i s); auto. Qed.
(** ** States that differ in the rest *)

Record same (R : X -> X -> Prop) (u v : ustate) : Prop := {
  sa_reg : forall k, u_reg u k = u_reg v k;
  sa_gp : u_gp u = u_gp v;
  sa_rest : R (u_rest u) (u_rest v)
}.

Lemma same_args R u v args : same R u v -> map (arg_value (u_reg u)) args = map (arg_value (u_reg v)) args.
Proof.
  intros [H _ _]. assert (V : forall e, value_of (u_reg u) e = value_of (u_reg v) e).
  { intros [n z| | | |]; try reflexivity. cbn [value_of]. destruct (reg_key n); [now rewrite H|easy]. }
  apply map_ext. intros [e|d| | | |]; cbn [arg_value]; try reflexivity; [apply V|].
  f_equal; now apply map_ext.
Qed.

Lemma write_back_ext args : forall outs (f g : regfile), (forall k, f k = g k) ->
  forall k, write_back f args outs k = write_back g args outs k.
Proof.
  induction args as [|a args IH]; intros outs f g H k; [destruct outs; apply H|].
  destruct a as [[n z| | | |]|d|t|z|t z|]; cbn [write_back]; destruct outs as [|o outs]; try (now apply IH).
  destruct (reg_key n) as [k'|]; [|now apply IH]. apply IH. intros j. unfold insert, fn_insert.
  now destruct (decide (k' = j)).
Qed.

Lemma same_refl (R : X -> X -> Prop) u : R (u_rest u) (u_rest u) -> same R u u.
Proof. now split. Qed.

Lemma same_trans (R : X -> X -> Prop) `{!Transitive R} u v w : same R u v -> same R v w -> same R u w.
Proof. intros [A1 A2 A3] [B1 B2 B3]. split; [intros k; now rewrite A1|congruence|now transitivity (u_rest v)]. Qed.

(** Both stop, or both go on. *)
Definition both (P : ustate -> ustate -> Prop) (a b : option ustate) : Prop :=
  match a, b with Some u, Some v => P u v | None, None => True | _, _ => False end.

Lemma both_trans (P Q S : ustate -> ustate -> Prop) a b c : (forall u v w, P u v -> Q v w -> S u w) ->
  both P a b -> both Q b c -> both S a c.
Proof. intros H. destruct a, b, c; cbn; try easy. apply H. Qed.

Lemma both_impl (P Q : ustate -> ustate -> Prop) a b : (forall u v, P u v -> Q u v) -> both P a b -> both Q a b.
Proof. intros H. destruct a, b; cbn; auto. Qed.

Lemma equal_step i u v : same eq u v -> both (same eq) (user_step i u) (user_step i v).
Proof.
  intros S. destruct i as [nm args| |]; cbn [user_step]; try easy.
  rewrite (same_args eq u v _ S), (sa_gp _ _ _ S), (sa_rest _ _ _ S).
  destruct (cpu _ _ _ (u_rest v)) as [[[outs gp] x]|]; [|easy]. split; cbn; try easy.
  intros k. apply write_back_ext. apply S.
Qed.

Lemma equal_run c : forall u v, same eq u v -> both (same eq) (run user_step c u) (run user_step c v).
Proof.
  induction c as [|i c IH]; intros u v S; [exact S|]. cbn [run]. pose proof (equal_step i u v S) as H.
  destruct (user_step i u), (user_step i v); try easy. now apply IH.
Qed.
End Machine.

Arguments ustate : clear implicits.
Arguments mstate : clear implicits.
