(* ===== verification/ConflictSpec.v ===== *)
(** The registers of a block are moved about rightly: what [conflict_resolve] and
    [recover_stable] emit keeps, for every value, the place in which the map of
    registers or the stack slots say that it is. *)
From Stdlib Require Import ZArith Lia Bool String.
From stdpp Require Import base strings functions list.
From S2P Require Import Prelude Conflict Machine.

Local Open Scope string_scope.
Local Open Scope Z_scope.
Local Open Scope ub_scope.

(** ** Maps of registers *)

Definition phys : list string := ["15"; "14"; "13"; "12"].
Definition segments : list string := ["FS"; "GS"].
Definition gprs : list string := ["15"; "14"; "13"; "12"].
(** The values that have a stack slot, and those that can be anywhere. *)
Definition movable : list string := ["15"; "14"; "13"; "12"; "FS"; "GS"].
Definition homes : list string := ["15"; "14"; "13"; "12"; "FS"; "GS"; "SP"; "BP"].

(** The temporaries of the translator, which have none. *)
Definition temps : list string := ["T1"; "T2"].

Definition home_slot (v : string) : nat := default 0%nat (stack_slot ("Stack_R" +:+ v)).

Definition uniq (m : regmap) : Prop :=
  forall p q v, holds m p = Some v -> holds m q = Some v -> v <> "" -> p = q.

Record wfm (m : regmap) : Prop := { wf_keys : map fst m = phys; wf_uniq : uniq m }.

Lemma wfm_four (m : regmap) : map fst m = phys -> exists a b c d, m = [("15", a); ("14", b); ("13", c); ("12", d)].
Proof.
  destruct m as [|[k1 a] [|[k2 b] [|[k3 c] [|[k4 d] [|]]]]]; try easy. intros [= -> -> -> ->]. eauto.
Qed.

Lemma in_phys p : p ∈ phys <-> p = "15" \/ p = "14" \/ p = "13" \/ p = "12".
Proof. unfold phys. rewrite !elem_of_cons, elem_of_nil. tauto. Qed.

(** Comparisons of literals. *)
Ltac literals :=
  repeat match goal with
  | |- context [String.eqb (String ?a ?x) (String ?b ?y)] =>
      let r := eval vm_compute in (String.eqb (String a x) (String b y)) in
      change (String.eqb (String a x) (String b y)) with r; cbv iota
  end.

Ltac each H := rewrite ?elem_of_cons, ?elem_of_nil in H; repeat destruct H as [-> | H]; try easy.

Ltac map_cases H :=
  destruct (wfm_four _ H) as (a & b & c & d & ->).

Lemma holds_phys (m : regmap) p v : map fst m = phys -> holds m p = Some v -> p ∈ phys.
Proof.
  intros H. map_cases H. rewrite in_phys. unfold holds. cbn [List.find fst].
  destruct (String.eqb_spec "15" p); [auto|]. destruct (String.eqb_spec "14" p); [auto|].
  destruct (String.eqb_spec "13" p); [auto|]. destruct (String.eqb_spec "12" p); [auto|easy].
Qed.

Lemma holds_some (m : regmap) p : map fst m = phys -> p ∈ phys -> exists v, holds m p = Some v.
Proof.
  intros H. map_cases H. rewrite in_phys. intros [-> | [-> | [-> | ->]]]; cbn; eauto.
Qed.

Lemma in_holds (m : regmap) p v : map fst m = phys -> In (p, v) m -> holds m p = Some v.
Proof. intros H. map_cases H. intros I. repeat destruct I as [[= <- <-]|I]; easy. Qed.

Lemma hold_keys (m : regmap) p v : map fst m = phys -> map fst (hold p v m) = phys.
Proof.
  intros H. map_cases H. unfold hold. cbn [map fst].
  destruct (String.eqb_spec "15" p), (String.eqb_spec "14" p), (String.eqb_spec "13" p),
    (String.eqb_spec "12" p); cbn; subst; easy.
Qed.

Lemma holds_hold (m : regmap) p v q : map fst m = phys -> p ∈ phys ->
  holds (hold p v m) q = if String.eqb p q then Some v else holds m q.
Proof.
  intros H Hp. map_cases H. apply in_phys in Hp as [-> | [-> | [-> | ->]]];
  (destruct (String.eqb_spec "15" q) as [<-|]; [easy|]);
  (destruct (String.eqb_spec "14" q) as [<-|]; [easy|]);
  (destruct (String.eqb_spec "13" q) as [<-|]; [easy|]);
  (destruct (String.eqb_spec "12" q) as [<-|]; [easy|]);
  unfold holds, hold; cbn [map fst]; literals; cbn [List.find fst]; literals;
  repeat match goal with N : ?x <> q |- _ => apply String.eqb_neq in N; rewrite ?N; clear N end; easy.
Qed.

Lemma holds_hold_eq (m : regmap) p v : map fst m = phys -> p ∈ phys -> holds (hold p v m) p = Some v.
Proof. intros H Hp. now rewrite holds_hold, String.eqb_refl. Qed.

Lemma holds_hold_ne (m : regmap) p v q : map fst m = phys -> p ∈ phys -> p <> q -> holds (hold p v m) q = holds m q.
Proof. intros H Hp N. apply String.eqb_neq in N. now rewrite holds_hold, N. Qed.

Lemma hold_wfm m p v : wfm m -> p ∈ phys -> (v = "" \/ forall q, holds m q <> Some v) -> wfm (hold p v m).
Proof.
  intros [K U] Hp Hv. split; [now apply hold_keys|]. intros q r w. rewrite !holds_hold by easy.
  destruct (String.eqb_spec p q) as [<-|], (String.eqb_spec p r) as [<-|]; try easy.
  - intros [= <-] H N. destruct Hv as [|Hv]; [easy|]. now destruct (Hv r).
  - intros H [= <-] N. destruct Hv as [|Hv]; [easy|]. now destruct (Hv q).
  - apply U.
Qed.

Lemma inv_holds m v p : wfm m -> inv m v = Some p -> holds m p = Some v.
Proof.
  intros [K _]. map_cases K. unfold inv. cbn [rev app List.find snd].
  repeat (match goal with |- context [String.eqb ?x v] => destruct (String.eqb_spec x v) as [<-|] end;
    [intros [= <-]; reflexivity|]). easy.
Qed.

Lemma inv_some (m : regmap) v p : map fst m = phys -> v <> "" -> holds m p = Some v -> exists q, inv m v = Some q.
Proof.
  intros K N. map_cases K. unfold inv, holds. cbn [rev app List.find fst snd].
  destruct (String.eqb_spec d v); [cbn; eauto|]. destruct (String.eqb_spec c v); [cbn; eauto|].
  destruct (String.eqb_spec b v); [cbn; eauto|]. destruct (String.eqb_spec a v); [cbn; eauto|].
  destruct (String.eqb _ p); [cbn; congruence|]. destruct (String.eqb _ p); [cbn; congruence|].
  destruct (String.eqb _ p); [cbn; congruence|]. destruct (String.eqb _ p); [cbn; congruence|easy].
Qed.

Lemma holds_inv m v p : wfm m -> v <> "" -> holds m p = Some v -> inv m v = Some p.
Proof.
  intros W N H. destruct (inv_some m v p (wf_keys m W) N H) as [q E]. rewrite E.
  f_equal. apply (wf_uniq m W q p v); try easy. now apply inv_holds.
Qed.

Lemma inv_none m v : wfm m -> v <> "" -> inv m v = None <-> forall p, holds m p <> Some v.
Proof.
  intros W N. split.
  - intros E p H. apply (holds_inv m v p W N) in H. congruence.
  - intros H. destruct (inv m v) as [p|] eqn:E; [|easy]. now apply inv_holds, H in E.
Qed.

Lemma hold_hold (m : regmap) p v w : hold p v (hold p w m) = hold p v m.
Proof.
  unfold hold. rewrite map_map. apply map_ext. intros [k x]. cbn [fst].
  destruct (String.eqb_spec k p) as [-> |N]; cbn [fst]; [now rewrite String.eqb_refl|].
  apply String.eqb_neq in N. now rewrite N.
Qed.

Lemma hold_same (m : regmap) p v : map fst m = phys -> holds m p = Some v -> hold p v m = m.
Proof.
  intros H. map_cases H. unfold holds, hold. cbn [List.find map fst].
  destruct (String.eqb_spec "15" p) as [<-|]; [now intros [= ->]|].
  destruct (String.eqb_spec "14" p) as [<-|]; [now intros [= ->]|].
  destruct (String.eqb_spec "13" p) as [<-|]; [now intros [= ->]|].
  destruct (String.eqb_spec "12" p) as [<-|]; [now intros [= ->]|easy].
Qed.

(** ** Machine and user agree *)

Section Simulation.
Context {X : Type} {processor : Cpu X} {py : PySet} {py_ok : PySetOk py}.
Abbreviation ustate := (ustate X).
Abbreviation mstate := (mstate X).

(** The registers that the map names hold the user's values, and the slots of the
    others; FS and GS are always in their slots too. *)
Record agrees (m : regmap) (u : ustate) (s : mstate) : Prop := {
  ag_held : forall p v, holds m p = Some v -> v <> "" -> p_reg s p = u_reg u v;
  ag_home : forall v, v ∈ homes -> (forall p, holds m p <> Some v) \/ v ∈ segments ->
    p_stack s (home_slot v) = u_reg u v;
  ag_gp : p_gp s = u_gp u;
  ag_rest : p_rest s = u_rest u
}.

Definition put_reg (p : string) (z : Z) (s : mstate) : mstate :=
  MState (<[p := z]> (p_reg s)) (p_stack s) (p_gp s) (p_rest s).
Definition put_slot (n : nat) (z : Z) (s : mstate) : mstate :=
  MState (p_reg s) (<[n := z]> (p_stack s)) (p_gp s) (p_rest s).

Lemma step_load p v s : p ∈ phys -> v ∈ homes ->
  machine_step (Inst "MOV" [R p; Stack_R v]) s = Some (put_reg p (p_stack s (home_slot v)) s).
Proof. intros Hp Hv. unfold phys, homes in *. each Hp; each Hv; reflexivity. Qed.

Lemma step_save p v s : p ∈ phys -> v ∈ homes ->
  machine_step (Inst "MOV" [Stack_R v; R p]) s = Some (put_slot (home_slot v) (p_reg s p) s).
Proof. intros Hp Hv. unfold phys, homes in *. each Hp; each Hv; reflexivity. Qed.

Lemma step_abs p z s : p ∈ phys ->
  machine_step (Inst "MOVABS" [R p; AHex z]) s = Some (put_reg p (u64 z) s).
Proof. intros Hp. unfold phys in *. each Hp; reflexivity. Qed.

Lemma home_slot_inj v w : v ∈ homes -> w ∈ homes -> home_slot v = home_slot w -> v = w.
Proof. intros Hv Hw. unfold homes in *. each Hv; each Hw; vm_compute; congruence. Qed.

Lemma homes_named v : v ∈ homes -> v <> "" /\ v <> "IP" /\ v <> "T1" /\ v <> "T2".
Proof. intros H. unfold homes in H. each H; repeat split; discriminate. Qed.

Lemma segment_home v : v ∈ segments -> v ∈ homes.
Proof. unfold segments, homes. rewrite !elem_of_cons, !elem_of_nil. tauto. Qed.

(** A register is saved to the slot of its value. *)
Lemma agrees_save m u s p v : wfm m -> agrees m u s -> holds m p = Some v -> v ∈ homes ->
  agrees (hold p "" m) u (put_slot (home_slot v) (p_reg s p) s).
Proof.
  intros W [H1 H2 H3 H4] Hp Hv. pose proof (wf_keys m W) as K.
  pose proof (holds_phys m p v K Hp) as P. destruct (homes_named v Hv) as [Nv _].
  split; cbn; try easy.
  - intros q w. rewrite holds_hold by easy. destruct (String.eqb_spec p q); [congruence|]. apply H1.
  - intros w Hw Ho. destruct (decide (w = v)) as [-> |N].
    + rewrite fn_lookup_insert. now apply H1.
    + rewrite fn_lookup_insert_ne by (intros E; apply N; symmetry; now apply home_slot_inj).
      apply H2; [easy|]. destruct Ho as [Ho|]; [left|now right]. intros q Hq.
      apply (Ho q). rewrite holds_hold_ne; [easy|easy|easy|]. intros <-. congruence.
Qed.

(** A register is forgotten whose value is not lost. *)
Lemma agrees_drop m u s p v : wfm m -> agrees m u s -> holds m p = Some v -> v ∉ homes ->
  agrees (hold p "" m) u s.
Proof.
  intros W [H1 H2 H3 H4] Hp Hv. pose proof (wf_keys m W) as K.
  pose proof (holds_phys m p v K Hp) as P. split; try easy.
  - intros q w. rewrite holds_hold by easy. destruct (String.eqb_spec p q); [congruence|]. apply H1.
  - intros w Hw Ho. apply H2; [easy|]. destruct Ho as [Ho|]; [left|now right]. intros q Hq.
    apply (Ho q). rewrite holds_hold_ne; [easy|easy|easy|]. intros <-. congruence.
Qed.

(** An idle register gets a value that is not in another. *)
Lemma agrees_put m u s p v z : wfm m -> agrees m u s -> holds m p = Some "" ->
  z = u_reg u v -> agrees (hold p v m) u (put_reg p z s).
Proof.
  intros W [H1 H2 H3 H4] Hp ->. pose proof (wf_keys m W) as K.
  pose proof (holds_phys m p "" K Hp) as P. split; cbn; try easy.
  - intros q w. rewrite holds_hold by easy. destruct (String.eqb_spec p q) as [<-|N].
    + intros [= <-] _. apply fn_lookup_insert.
    + rewrite fn_lookup_insert_ne by congruence. apply H1.
  - intros w Hw Ho. apply H2; [easy|]. destruct Ho as [Ho|]; [left|now right]. intros q Hq.
    destruct (decide (q = p)) as [-> |N].
    + destruct (homes_named w Hw) as [Nw _]. congruence.
    + apply (Ho q). now rewrite holds_hold_ne by congruence.
Qed.

(** The part of the map that the loop of [conflict_resolve] may find: RSP and RBP are
    in their places, or a value that has a slot was put there. *)
Definition placed (m : regmap) : Prop :=
  (forall v, holds m "13" = Some v -> v = "SP" \/ v ∈ movable) /\
  (forall v, holds m "12" = Some v -> v = "BP" \/ v ∈ movable).

Lemma movable_home v : v ∈ movable -> v ∈ homes.
Proof. unfold movable, homes. rewrite !elem_of_cons, !elem_of_nil. tauto. Qed.

Definition resolvable (v : string) : Prop := v ∈ movable \/ v = "IP".

Lemma resolvable_named v : resolvable v -> v <> "".
Proof. intros [H| ->]; [now apply homes_named, movable_home|easy]. Qed.

Lemma load_of v p offset u s m : wfm m -> agrees m u s -> p ∈ phys -> holds m p = Some "" ->
  resolvable v -> (forall q, holds m q <> Some v) -> u_reg u "IP" = u64 offset ->
  exists s', run machine_step (swap_in v p offset) s = Some s' /\
    agrees (hold p v m) u s'.
Proof.
  intros W A Hp He Hv Hn Ip. destruct Hv as [Hv|Hv].
  - destruct (homes_named v (movable_home v Hv)) as (N1 & N2 & _).
    apply String.eqb_neq in N2.
    unfold swap_in. rewrite N2.
    assert (S : is_in stable_regs v = false) by (unfold movable in Hv; each Hv; reflexivity).
    rewrite S. cbn [negb run]. rewrite step_load by (easy || now apply movable_home).
    eexists. split; [reflexivity|]. apply agrees_put; try easy.
    apply (ag_home _ _ _ A); [now apply movable_home|now left].
  - subst v. cbn [swap_in run]. unfold swap_in. literals. cbn [run]. rewrite step_abs by easy.
    eexists. split; [reflexivity|]. apply agrees_put; easy.
Qed.
(** The registers that are still to be found, and where to look. *)
Record lists_ok (todo idle victims stable_victims : list string) (m : regmap) : Prop := {
  lo_todo : forall v, v ∈ todo -> resolvable v /\ forall p, holds m p <> Some v;
  lo_nodup : NoDup todo;
  lo_idle : forall p, p ∈ idle -> (p = "15" \/ p = "14") /\ holds m p = Some "";
  lo_victims : forall p, p ∈ victims -> (p = "15" \/ p = "14") /\ exists w, holds m p = Some w /\ w ∈ movable;
  lo_stable : forall p, p ∈ stable_victims -> (p = "13" \/ p = "12") /\
    exists w, holds m p = Some w /\ (w = "SP" \/ w = "BP")
}.

Lemma lists_ok_next todo idle victims stable_victims m p v :
  wfm m -> p ∈ phys -> lists_ok todo idle victims stable_victims m ->
  p ∉ (idle ++ victims ++ stable_victims)%list -> v ∉ todo ->
  lists_ok todo idle victims stable_victims (hold p v m).
Proof.
  intros [K _] Hp [A B C D E] N Nv. rewrite !elem_of_app in N.
  split; [| |intros q Hq; rewrite holds_hold_ne; [auto|easy|easy|intros <-; tauto]..].
  - intros w Hw. split; [now apply A|]. intros q. rewrite holds_hold by easy.
    destruct (String.eqb_spec p q); [intros [= <-]; easy|now apply A].
  - exact B.
Qed.

(** The values that the map may hold. *)
Definition known (m : regmap) : Prop :=
  forall p v, holds m p = Some v -> v = "" \/ v ∈ movable \/ v = "IP" \/
    (v = "SP" /\ p = "13") \/ (v = "BP" /\ p = "12") \/ (v ∈ temps /\ (p = "15" \/ p = "14")).

Lemma known_hold m p v : wfm m -> p ∈ phys -> known m -> resolvable v -> known (hold p v m).
Proof.
  intros [K _] Hp H Hv q w. rewrite holds_hold by easy. destruct (String.eqb_spec p q); [|apply H].
  intros [= <-]. destruct Hv; auto.
Qed.

Lemma placed_hold m p v : wfm m -> p ∈ phys -> placed m ->
  ((p = "15" \/ p = "14") \/ v ∈ movable) -> placed (hold p v m).
Proof.
  intros [K _] Hp [H1 H2] Hv. split; intros w; rewrite holds_hold by easy.
  - destruct (String.eqb_spec p "13") as [-> |]; [intros [= <-]|apply H1]. destruct Hv as [[|]|]; easy || auto.
  - destruct (String.eqb_spec p "12") as [-> |]; [intros [= <-]|apply H2]. destruct Hv as [[|]|]; easy || auto.
Qed.

(** One round: [v] comes to [p], whose value has been saved. *)
Lemma resolve_round offset u v p m s1 :
  u_reg u "IP" = u64 offset -> wfm m -> known m -> placed m -> p ∈ phys -> resolvable v ->
  (forall q, holds m q <> Some v) -> agrees (hold p "" m) u s1 ->
  ((p = "15" \/ p = "14") \/ v ∈ movable) ->
  wfm (hold p v m) /\ known (hold p v m) /\ placed (hold p v m) /\
  exists s2, run machine_step (swap_in v p offset) s1 = Some s2 /\
    agrees (hold p v m) u s2.
Proof.
  intros Ip W Kn Pl Hp Hv Hn A Hpl. pose proof (wf_keys m W) as K.
  assert (W1 : wfm (hold p "" m)) by (apply hold_wfm; auto).
  split; [apply hold_wfm; auto|]. split; [now apply known_hold|]. split; [now apply placed_hold|].
  destruct (load_of v p offset u s1 (hold p "" m)) as (s2 & E & A2); try easy.
  - now apply holds_hold_eq.
  - intros q. rewrite holds_hold by easy. destruct (String.eqb_spec p q); [|apply Hn].
    intros [= E]. now apply (resolvable_named v Hv).
  - exists s2. rewrite hold_hold in A2. now split.
Qed.
Definition sound (u : ustate) (m : regmap) (s : mstate) : Prop :=
  wfm m /\ known m /\ placed m /\ agrees m u s.

Lemma save_sound u v p m s : sound u m s -> holds m p = Some v -> v ∈ homes ->
  exists s1, machine_step (Inst "MOV" [Stack_R (default "" (holds m p)); R p]) s = Some s1 /\
    agrees (hold p "" m) u s1.
Proof.
  intros (W & _ & _ & A) Hp Hv. rewrite Hp. cbn [default].
  rewrite step_save; [|now apply (holds_phys m p v (wf_keys m W))|easy].
  eexists. split; [reflexivity|]. now apply agrees_save.
Qed.

Lemma resolve_spec offset u : u_reg u "IP" = u64 offset -> forall todo idle victims stable_victims m s c m',
  resolve todo idle victims stable_victims offset m = Some (c, m') ->
  sound u m s -> lists_ok todo idle victims stable_victims m ->
  NoDup (idle ++ victims ++ stable_victims)%list ->
  ("IP" ∉ todo \/ (length todo <= length idle + length victims)%nat) ->
  exists s', run machine_step c s = Some s' /\ sound u m' s'.
Proof.
  intros Ip. induction todo as [|v todo IH]; intros idle victims stable m s c m' E S L N Few.
  { injection E as <- <-. now exists s. }
  pose proof (lo_nodup _ _ _ _ _ L) as [Nv Nt]%NoDup_cons.
  destruct (lo_todo _ _ _ _ _ L v ltac:(left)) as [Hv Hn]. destruct S as (W & Kn & Pl & A).
  assert (Next : forall p before idle' victims' stable' s1, p ∈ phys ->
    NoDup (p :: idle' ++ victims' ++ stable')%list -> lists_ok todo idle' victims' stable' m ->
    ((p = "15" \/ p = "14") \/ v ∈ movable) ->
    ("IP" ∉ todo \/ (length todo <= length idle' + length victims')%nat) ->
    run machine_step before s = Some s1 -> agrees (hold p "" m) u s1 -> forall c m',
    match resolve todo idle' victims' stable' offset (hold p v m) with
    | Some (c, m) => Some ((before ++ (swap_in v p offset) ++ c)%list, m)
    | None => None
    end = Some (c, m') -> exists s', run machine_step c s = Some s' /\ sound u m' s').
  { intros p before idle' victims' stable' s1 Hp [Np Nl]%NoDup_cons L' Hpl Few' E1 A1 c1 m1.
    destruct (resolve todo idle' victims' stable' offset (hold p v m)) as [[c2 m2]|] eqn:E2; [|easy].
    intros [= <- <-].
    destruct (resolve_round offset u v p m s1 Ip W Kn Pl Hp Hv Hn A1 Hpl) as (W2 & K2 & P2 & s2 & R2 & A2).
    destruct (IH _ _ _ _ s2 _ _ E2) as (s3 & R3 & S3); try easy; [now apply lists_ok_next|].
    exists s3. split; [|exact S3]. rewrite run_app, E1, run_app, R2. exact R3. }
  assert (Todo : forall w, w ∈ todo -> w ∈ v :: todo) by (intros; now right).
  assert (Ph : forall p, p = "15" \/ p = "14" \/ p = "13" \/ p = "12" -> p ∈ phys) by (intros p H; now apply in_phys).
  destruct L as [La _ Lc Ld Le]. cbn [resolve] in E.
  assert (L' : forall a b c, (forall q, q ∈ a -> q ∈ idle) -> (forall q, q ∈ b -> q ∈ victims) ->
    (forall q, q ∈ c -> q ∈ stable) -> lists_ok todo a b c m) by (intros a b d Ha Hb Hd; split; auto).
  destruct idle as [|p idle]; [destruct victims as [|p victims]; [destruct stable as [|p stable]; [easy|]|]|].
  - destruct (Le p ltac:(left)) as (Hp & w & Hw & Ew).
    destruct (save_sound u w p m s (conj W (conj Kn (conj Pl A))) Hw) as (s1 & E1 & A1).
    { destruct Ew as [-> | ->]; unfold homes; rewrite !elem_of_cons; tauto. }
    apply (Next p (swap_out p m) [] [] stable s1) in E; try easy.
    + apply Ph. tauto.
    + apply L'; [easy|easy|now right].
    + right. destruct Hv as [| ->]; [easy|]. exfalso. destruct Few as [Few|Few]; [apply Few; left|cbn in Few; lia].
    + destruct Few as [Few|Few]; [left; intros Q; now apply Few, Todo|cbn in Few; lia].
    + cbn [run swap_out]. now rewrite E1.
  - destruct (Ld p ltac:(left)) as (Hp & w & Hw & Ew).
    destruct (save_sound u w p m s (conj W (conj Kn (conj Pl A))) Hw (movable_home w Ew)) as (s1 & E1 & A1).
    apply (Next p (swap_out p m) [] victims stable s1) in E; try easy.
    + apply Ph. tauto.
    + apply L'; [easy|now right|easy].
    + now left.
    + destruct Few as [Few|Few]; [left; intros Q; now apply Few, Todo|right; cbn in *; lia].
    + cbn [run swap_out]. now rewrite E1.
  - destruct (Lc p ltac:(left)) as [Hp Hw].
    apply (Next p [] idle victims stable s) in E; try easy.
    + apply Ph. tauto.
    + apply L'; [now right|easy|easy].
    + now left.
    + destruct Few as [Few|Few]; [left; intros Q; now apply Few, Todo|right; cbn in *; lia].
    + rewrite hold_same; [easy|apply W|easy].
Qed.
(** *** conflict_resolve *)

(** Between instructions, RSP and RBP are in their places. *)
Record stable_map (m : regmap) : Prop := {
  sm_wfm : wfm m;
  sm_SP : holds m "13" = Some "SP";
  sm_BP : holds m "12" = Some "BP";
  sm_free : forall p v, holds m p = Some v -> p = "15" \/ p = "14" -> v = "" \/ v ∈ movable \/ v ∈ temps
}.

Lemma stable_four m : stable_map m -> exists a b, m = [("15", a); ("14", b); ("13", "SP"); ("12", "BP")] /\
  (a = "" \/ a ∈ movable \/ a ∈ temps) /\ (b = "" \/ b ∈ movable \/ b ∈ temps) /\ (a <> "" -> a <> b).
Proof.
  intros [[K U] S B F]. map_cases K. injection S as ->. injection B as ->. exists a, b.
  split; [easy|]. split; [now apply (F "15"); auto|]. split; [now apply (F "14"); auto|].
  intros N ->. now specialize (U "15" "14" b eq_refl eq_refl N).
Qed.

Lemma stable_known m : stable_map m -> known m /\ placed m.
Proof.
  intros S. destruct (stable_four m S) as (a & b & -> & Ha & Hb & _). split.
  - intros p v H. pose proof (holds_phys _ p v (wf_keys _ (sm_wfm _ S)) H) as Hp.
    apply in_phys in Hp as [-> | [-> | [-> | ->]]]; cbn in H; injection H as <-; tauto.
  - split; intros v [= <-]; now left.
Qed.

Lemma is_in_elem l v : is_in l v = true <-> v ∈ l.
Proof.
  unfold is_in. rewrite existsb_exists. split.
  - intros (x & Hx & ->%String.eqb_eq). now apply list_elem_of_In.
  - intros H. exists v. split; [now apply list_elem_of_In|apply String.eqb_refl].
Qed.

Lemma is_in_not l v : is_in l v = false <-> v ∉ l.
Proof. rewrite <- not_true_iff_false, is_in_elem. reflexivity. Qed.

Lemma movable_unstable v : v ∈ movable -> is_in stable_regs v = false.
Proof. intros H. unfold movable in H. each H; reflexivity. Qed.

Lemma movable_free v : v ∈ movable -> v <> "SP" /\ v <> "BP".
Proof. intros H. unfold movable in H. each H; split; discriminate. Qed.

Lemma movable_no_temp v : v ∈ movable -> starts_with_T v = false.
Proof. intros H. unfold movable in H. each H; reflexivity. Qed.

(** What an instruction may name, and with the temporaries that have a place. *)
Definition user_reg (v : string) : Prop := resolvable v \/ v = "SP" \/ v = "BP".
Definition may_name (m : regmap) (v : string) : Prop := user_reg v \/ v ∈ temps /\ exists p, holds m p = Some v.

Lemma temp_stable v : v ∈ temps -> is_in stable_regs v = true /\ v <> "" /\ v <> "SP" /\ v <> "BP".
Proof. intros H. unfold temps in H. each H; repeat split; discriminate. Qed.

Lemma temp_not_movable v : v ∈ temps -> v ∉ movable.
Proof. intros H Q. apply movable_unstable in Q. now rewrite (proj1 (temp_stable v H)) in Q. Qed.

Definition unstable (conflict_regs : list string) : list string :=
  List.filter (fun v => negb (is_in stable_regs v)) conflict_regs.

Lemma in_filter (f : string -> bool) l v : v ∈ List.filter f l <-> v ∈ l /\ f v = true.
Proof. rewrite !list_elem_of_In. apply filter_In. Qed.

Lemma NoDup_keep (f : string -> bool) l : NoDup l -> NoDup (List.filter f l).
Proof. rewrite !NoDup_ListNoDup. apply List.NoDup_filter. Qed.

Lemma NoDup_short (l k : list string) : NoDup l -> (forall v, v ∈ l -> v ∈ k) -> (length l <= length k)%nat.
Proof.
  intros N H. apply NoDup_incl_length; [now apply NoDup_ListNoDup|].
  intros v Hv. apply list_elem_of_In, H. now apply list_elem_of_In.
Qed.

(** The temporaries that have a place. *)
Definition held_temps (m : regmap) : list string := List.filter (is_in temps) (map snd m).
Definition room (m : regmap) (conflict : list string) : Prop :=
  (length (unstable conflict) + length (held_temps m) <= 2)%nat.

(** A value of the first two places. *)
Lemma free_value a : a = "" \/ a ∈ movable \/ a ∈ temps ->
  a = "" \/ (String.eqb a "" = false /\ is_in stable_regs a = false /\ is_in temps a = false)
  \/ (String.eqb a "" = false /\ is_in stable_regs a = true /\ is_in temps a = true).
Proof.
  intros [H|[H|H]]; [now left|right; left|right; right].
  - split; [apply String.eqb_neq; now apply homes_named, movable_home|]. split; [now apply movable_unstable|].
    apply is_in_not. intros Q. now apply (temp_not_movable a).
  - destruct (temp_stable a H) as (H1 & H2 & _). split; [now apply String.eqb_neq|]. split; [easy|now apply is_in_elem].
Qed.

(** Each register to be found has a place when there are at most two. *)
Lemma enough_places a b conflict :
  let m := [("15", a); ("14", b); ("13", "SP"); ("12", "BP")] in
  (a = "" \/ a ∈ movable \/ a ∈ temps) -> (b = "" \/ b ∈ movable \/ b ∈ temps) -> (a <> "" -> a <> b) ->
  NoDup conflict -> (forall v, v ∈ conflict -> may_name m v) -> room m conflict ->
  (length (to_be_resolved conflict m) <= length (idle_regs m) + length (possible_victims conflict m))%nat.
Proof.
  intros m Ha Hb Hab N U L.
  set (keep v := is_in conflict v && negb (String.eqb v "") && negb (is_in stable_regs v)).
  set (L2 := ((if keep a then [a] else []) ++ (if keep b then [b] else []))%list).
  assert (Sum : (length L2 + (length (idle_regs m) + length (possible_victims conflict m))
    + length (held_temps m) = 2)%nat).
  { unfold L2, keep, m, idle_regs, possible_victims, held_temps. cbn [List.filter map snd]. literals.
    change (is_in temps "SP") with false. change (is_in temps "BP") with false. cbv iota.
    change (is_in stable_regs "SP") with true. change (is_in stable_regs "BP") with true.
    rewrite !andb_false_r. cbn [negb andb].
    destruct (free_value a Ha) as [-> |[(-> & -> & ->)|(-> & -> & ->)]];
      destruct (free_value b Hb) as [-> |[(-> & -> & ->)|(-> & -> & ->)]]; literals;
      change (is_in stable_regs "") with false; change (is_in temps "") with false; rewrite ?andb_false_r;
      try destruct (is_in conflict a); try destruct (is_in conflict b); try reflexivity. }
  assert (Keep : forall v, keep v = true -> v ∈ conflict /\ v <> "" /\ is_in stable_regs v = false).
  { intros v Hv. unfold keep in Hv. rewrite !andb_true_iff, !negb_true_iff in Hv. destruct Hv as [[H1 H2] H3].
    split; [now apply is_in_elem|]. split; [now apply String.eqb_neq|easy]. }
  assert (M : forall v, v ∈ L2 -> (v = a \/ v = b) /\ keep v = true).
  { intros v Hv. unfold L2 in Hv. apply elem_of_app in Hv as [Hv|Hv].
    - destruct (keep a) eqn:E; [|inversion Hv]. apply list_elem_of_singleton in Hv as ->. auto.
    - destruct (keep b) eqn:E; [|inversion Hv]. apply list_elem_of_singleton in Hv as ->. auto. }
  assert (Le : (length (L2 ++ to_be_resolved conflict m) <= length (unstable conflict))%nat).
  { apply NoDup_short.
    - apply NoDup_app. split; [|split; [|now apply NoDup_keep]].
      + unfold L2. destruct (keep a) eqn:Ka, (keep b) eqn:Kb; cbn; repeat constructor; rewrite ?elem_of_cons, ?elem_of_nil;
          try tauto. intros [Q|[]]. apply Keep in Ka. now apply Hab.
      + intros v Hv Hw. apply in_filter in Hw as [_ Hw]. apply M in Hv as [Hv Kv]. apply Keep in Kv as (_ & Nv & _).
        apply negb_true_iff, is_in_not in Hw. apply Hw, in_filter. split; [|now apply negb_true_iff, String.eqb_neq].
        unfold m. cbn. rewrite !elem_of_cons. tauto.
    - intros v Hv. apply elem_of_app in Hv as [Hv|Hv]; apply in_filter.
      + apply M in Hv as [_ Kv]. apply Keep in Kv as (Hc & _ & E). now rewrite E.
      + apply in_filter in Hv as [Hc Hv]. split; [easy|]. apply negb_true_iff, is_in_not in Hv.
        destruct (U v Hc) as [[[Hm| ->]|[-> | ->]]|[Ht (p & Hp)]]; [now rewrite movable_unstable|easy|exfalso..];
          apply Hv, in_filter.
        1,2: (split; [unfold m; cbn; rewrite !elem_of_cons; tauto|easy]).
        split; [|apply negb_true_iff, String.eqb_neq; now apply temp_stable].
        pose proof (holds_phys m p v eq_refl Hp) as P. apply in_phys in P as [-> | [-> | [-> | ->]]];
          cbn in Hp; injection Hp as <-; unfold m; cbn; rewrite !elem_of_cons; tauto. }
  rewrite length_app in Le. unfold room in L. lia.
Qed.

Lemma in_keys (f : string * string -> bool) m p : wfm m ->
  p ∈ map fst (List.filter f m) -> exists v, holds m p = Some v /\ f (p, v) = true.
Proof.
  intros [K _] H. map_cases K. apply list_elem_of_In, in_map_iff in H as ([q v] & <- & H).
  apply filter_In in H as [H Hf]. exists v. split; [|easy]. cbn [fst].
  repeat destruct H as [[= <- <-]|H]; easy.
Qed.

Lemma NoDup_keys (f : string * string -> bool) m : wfm m -> NoDup (map fst (List.filter f m)).
Proof.
  intros [K _]. assert (N : NoDup (map fst m)) by (rewrite K; apply (bool_decide_unpack _); exact I).
  clear K. induction m as [|[k v] m IH]; [constructor|]. cbn [List.filter].
  apply NoDup_cons in N as [N1 N2]. destruct (f (k, v)); [|now apply IH]. cbn [map fst]. constructor; [|now apply IH].
  intros H. apply N1. apply list_elem_of_In, in_map_iff in H as (e & <- & He). apply filter_In in He as [He _].
  apply list_elem_of_In, in_map_iff. now exists e.
Qed.
Lemma in_arrange l v : v ∈ arrange l <-> v ∈ l.
Proof. now rewrite arrange_perm. Qed.

(** The lists that [conflict_resolve] starts from. *)
Lemma lists_start m conflict : stable_map m -> NoDup conflict -> (forall v, v ∈ conflict -> may_name m v) ->
  lists_ok (arrange (to_be_resolved conflict m)) (arrange (idle_regs m))
    (arrange (possible_victims conflict m)) (arrange (possible_stable_victims conflict m)) m /\
  NoDup (arrange (idle_regs m) ++ arrange (possible_victims conflict m)
           ++ arrange (possible_stable_victims conflict m))%list.
Proof.
  intros S N U. pose proof (sm_wfm m S) as W. destruct (stable_known m S) as [Kn _].
  assert (Free : forall p v, holds m p = Some v -> v <> "SP" -> v <> "BP" -> p = "15" \/ p = "14").
  { intros p v H N1 N2. pose proof (holds_phys m p v (wf_keys m W) H) as Hp.
    apply in_phys in Hp as [-> | [-> | [-> | ->]]]; try tauto; [rewrite (sm_SP m S) in H|rewrite (sm_BP m S) in H]; congruence. }
  assert (Idle : forall p, p ∈ idle_regs m -> holds m p = Some "").
  { intros p H. apply (in_keys _ m p W) in H as (v & H & ->%String.eqb_eq). exact H. }
  assert (Vict : forall p, p ∈ possible_victims conflict m -> exists w, holds m p = Some w /\ w ∈ movable).
  { intros p H. apply (in_keys _ m p W) in H as (v & H & E). apply andb_prop in E as [E E3].
    apply andb_prop in E as [_ E2]. exists v. split; [easy|].
    apply negb_true_iff, String.eqb_neq in E2. apply negb_true_iff in E3.
    destruct (decide (v = "SP")) as [-> |N1]; [easy|]. destruct (decide (v = "BP")) as [-> |N2]; [easy|].
    destruct (sm_free m S p v H (Free p v H N1 N2)) as [|[|Ht]]; [easy|easy|]. now rewrite (proj1 (temp_stable v Ht)) in E3. }
  assert (Stab : forall p, p ∈ possible_stable_victims conflict m ->
    exists w, holds m p = Some w /\ (w = "SP" \/ w = "BP")).
  { intros p H. apply (in_keys _ m p W) in H as (v & H & E). apply andb_prop in E as [E E3].
    apply andb_prop in E as [_ E2]. exists v. split; [easy|].
    destruct (Kn p v H) as [->|[Hv|[->|[[-> _]|[[-> _]|[Ht _]]]]]]; [easy| |easy|tauto|tauto|].
    - now rewrite movable_unstable in E2.
    - unfold temps in Ht. each Ht. }
  split.
  - split.
    + intros v Hv. apply in_arrange, in_filter in Hv as [Hc Hv]. apply negb_true_iff, is_in_not in Hv.
      assert (Hn : forall p, holds m p <> Some v).
      { intros p H. apply Hv, in_filter. split.
        - pose proof (wf_keys m W) as K. map_cases K. pose proof (holds_phys _ p v K H) as P.
          apply in_phys in P as [-> | [-> | [-> | ->]]]; cbn in H; injection H as <-; cbn; rewrite !elem_of_cons; tauto.
        - apply negb_true_iff, String.eqb_neq. intros ->.
          destruct (U "" Hc) as [[Hr|[|]]|[Ht _]]; [now apply resolvable_named in Hr|easy|easy|].
          now apply temp_stable in Ht. }
      split; [|exact Hn]. destruct (U v Hc) as [[|[-> | ->]]|[_ (p & Hp)]]; [easy|
        now specialize (Hn "13"); rewrite (sm_SP m S) in Hn|now specialize (Hn "12"); rewrite (sm_BP m S) in Hn|
        now destruct (Hn p)].
    + rewrite arrange_perm. now apply NoDup_keep.
    + intros p H%in_arrange%Idle. split; [now apply (Free p "" H)|easy].
    + intros p H%in_arrange%Vict. destruct H as (w & H & Hw). split; [|now exists w].
      now apply (Free p w H); apply movable_free.
    + intros p H%in_arrange%Stab. destruct H as (w & H & Hw). split; [|now exists w].
      pose proof (holds_phys m p w (wf_keys m W) H) as Hp. apply in_phys in Hp as [-> | [-> |Hp]]; [| |tauto].
      * destruct (sm_free m S _ _ H ltac:(auto)) as [-> |[Hm|Hm]]; [now destruct Hw| |].
        -- apply movable_free in Hm. tauto.
        -- apply temp_stable in Hm. tauto.
      * destruct (sm_free m S _ _ H ltac:(auto)) as [-> |[Hm|Hm]]; [now destruct Hw| |].
        -- apply movable_free in Hm. tauto.
        -- apply temp_stable in Hm. tauto.
  - rewrite !arrange_perm. apply NoDup_app. split; [now apply NoDup_keys|]. split.
    + intros p H%Idle Q. apply elem_of_app in Q as [Q|Q].
      * apply Vict in Q as (w & Q & Hw). apply movable_home, homes_named in Hw. destruct Hw. congruence.
      * apply Stab in Q as (w & Q & [-> | ->]); congruence.
    + apply NoDup_app. split; [now apply NoDup_keys|]. split; [|now apply NoDup_keys].
      intros p H%Vict Q. destruct H as (v & H & Hv). apply Stab in Q as (w & Q & Hw).
      assert (v = w) as <- by congruence. apply movable_free in Hv. tauto.
Qed.

Definition few (m : regmap) (conflict : list string) : Prop := "IP" ∉ conflict \/ room m conflict.

Lemma conflict_resolve_spec offset u m s conflict c m' :
  u_reg u "IP" = u64 offset -> stable_map m -> agrees m u s -> NoDup conflict ->
  (forall v, v ∈ conflict -> may_name m v) -> few m conflict ->
  conflict_resolve m conflict offset = Some (c, m') ->
  exists s', run machine_step c s = Some s' /\ sound u m' s'.
Proof.
  intros Ip S A N U F E. destruct (lists_start m conflict S N U) as [L Nd].
  destruct (stable_known m S) as [Kn Pl].
  apply (resolve_spec offset u Ip _ _ _ _ _ s _ _ E); try easy; [split; [apply S|easy]|].
  destruct F as [F|F]; [left; intros Q; apply F; apply in_arrange, in_filter in Q; tauto|right].
  rewrite !(Permutation_length (arrange_perm _)).
  destruct (stable_four m S) as (a & b & -> & Ha & Hb & Hab). now apply enough_places.
Qed.
(** *** After the instruction *)

Lemma release_IP_sound u m s : sound u m s ->
  sound u (release_IP m) s /\ forall p, holds (release_IP m) p <> Some "IP".
Proof.
  intros (W & Kn & [P1 P2] & A). unfold release_IP. destruct (inv m "IP") as [p|] eqn:E.
  2:{ split; [easy|]. now apply inv_none. }
  apply inv_holds in E; [|easy]. pose proof (holds_phys m p _ (wf_keys m W) E) as Hp.
  assert (H : forall q v, holds (hold p "" m) q = Some v -> v = "" \/ (holds m q = Some v /\ q <> p)).
  { intros q v. rewrite holds_hold by (easy || apply W). destruct (String.eqb_spec p q) as [->|N]; [|auto].
    intros [= <-]. now left. }
  split.
  - split; [apply hold_wfm; auto|]. split; [|split; [split|]].
    + intros q v Hq. apply H in Hq as [->|[Hq _]]; [now left|now apply Kn].
    + intros v Hv. destruct (decide (p = "13")) as [->|N].
      * exfalso. apply P1 in E as [E|E]; [easy|]. now apply movable_home, homes_named in E.
      * rewrite holds_hold_ne in Hv by (easy || apply W). now apply P1.
    + intros v Hv. destruct (decide (p = "12")) as [->|N].
      * exfalso. apply P2 in E as [E|E]; [easy|]. now apply movable_home, homes_named in E.
      * rewrite holds_hold_ne in Hv by (easy || apply W). now apply P2.
    + apply (agrees_drop m u s p "IP"); try easy. now intros Q%homes_named.
  - intros q Hq. apply H in Hq as [|[Hq N]]; [easy|]. apply N.
    now apply (wf_uniq m W q p "IP").
Qed.
(** RSP or RBP comes back to its place [p], where it is or a movable value is. *)
Lemma recover_one_spec m0 v p u m s w : v ∈ homes -> starts_with_T v = false -> orig_stable_map v = p ->
  p ∈ phys -> wfm m -> agrees m u s -> holds m p = Some w -> (w = v \/ w ∈ movable) ->
  (w = v -> inv m0 v <> None) -> (w <> v -> inv m0 v = None /\ forall q, holds m q <> Some v) ->
  exists c m' s', recover_one m0 v m = (c, m') /\ run machine_step c s = Some s' /\ agrees m' u s' /\
    wfm m' /\ holds m' p = Some v /\ forall q, q <> p -> holds m' q = holds m q.
Proof.
  intros Hv Ht Ho Hp W A Hw Hm H1 H2. pose proof (wf_keys m W) as K. unfold recover_one. rewrite Ht, Ho.
  destruct (decide (w = v)) as [->|N].
  - destruct (inv m0 v) eqn:Ei; [|now destruct H1]. exists [], m, s. now repeat (split; [easy|]).
  - destruct (H2 N) as [-> Hn]. destruct Hm as [|Hm]; [easy|]. pose proof (movable_home w Hm) as Hh.
    rewrite Hw. cbn [default]. eexists _, _, _. split; [reflexivity|]. cbn [run].
    rewrite step_save, step_load by easy. split; [reflexivity|].
    assert (W1 : wfm (hold p "" m)) by (apply hold_wfm; auto).
    split; [|split; [|split]].
    + rewrite <- (hold_hold m p v ""). apply agrees_put; [easy|now apply agrees_save|now apply holds_hold_eq|].
      apply (ag_home (hold p "" m) u); [now apply agrees_save|easy|left].
      intros q. rewrite holds_hold by easy. destruct (String.eqb p q); [|apply Hn].
      destruct (homes_named v Hv) as [Nv _]. congruence.
    + apply hold_wfm; auto.
    + now apply holds_hold_eq.
    + intros q Nq. apply holds_hold_ne; [easy|easy|congruence].
Qed.

Lemma recover_stable_spec u m s : sound u m s -> (forall p, holds m p <> Some "IP") ->
  exists c m' s', recover_stable m = (c, m') /\ run machine_step c s = Some s' /\ agrees m' u s' /\ stable_map m' /\
    forall q, q <> "13" -> q <> "12" -> holds m' q = holds m q.
Proof.
  intros (W & Kn & [P1 P2] & A) Ip. pose proof (wf_keys m W) as K.
  assert (Hs : forall p, p ∈ phys -> exists w, holds m p = Some w) by (intros p; now apply holds_some).
  destruct (Hs "13" ltac:(apply in_phys; auto)) as [x Hx]. destruct (Hs "12" ltac:(apply in_phys; auto)) as [y Hy].
  assert (Only : forall v p, v = "SP" /\ p = "13" \/ v = "BP" /\ p = "12" -> forall q, holds m q = Some v -> q = p).
  { intros v p Hvp q Hq. destruct (Kn q v Hq) as [->|[Hv|[->|Hc]]]; [now destruct Hvp as [[]|[]]| | |].
    - apply movable_free in Hv. tauto.
    - now destruct Hvp as [[]|[]].
    - destruct Hvp as [[-> ->]|[-> ->]], Hc as [[]|[[]|[Ht _]]]; try easy; now apply temp_stable in Ht. }
  assert (Iv : forall v p w, v = "SP" /\ p = "13" \/ v = "BP" /\ p = "12" -> holds m p = Some w ->
    (w = v -> inv m v <> None) /\ (w <> v -> inv m v = None /\ forall q, holds m q <> Some v)).
  { intros v p w Hvp Hw. assert (Nv : v <> "") by now destruct Hvp as [[-> _]|[-> _]].
    split; [intros ->; rewrite (holds_inv m v p W Nv Hw); easy|]. intros N.
    assert (Q : forall q, holds m q <> Some v) by (intros q Hq; rewrite (Only v p Hvp q Hq) in Hq; congruence).
    split; [now apply inv_none|exact Q]. }
  destruct (Iv "SP" "13" x ltac:(auto) Hx) as [I1 I2].
  destruct (recover_one_spec m "SP" "13" u m s x) as (c1 & m1 & s1 & E1 & R1 & A1 & W1 & H1 & O1); try easy;
    [unfold homes; rewrite !elem_of_cons; tauto|apply in_phys; auto|now apply P1|].
  destruct (Iv "BP" "12" y ltac:(auto) Hy) as [J1 J2].
  destruct (recover_one_spec m "BP" "12" u m1 s1 y) as (c2 & m2 & s2 & E2 & R2 & A2 & W2 & H2 & O2); try easy;
    [unfold homes; rewrite !elem_of_cons; tauto|apply in_phys; auto|now rewrite O1|now apply P2| |].
  { intros N. destruct (J2 N) as [J3 J4]. split; [easy|]. intros q. destruct (decide (q = "13")) as [->|Nq];
      [rewrite H1; easy|rewrite O1 by easy; apply J4]. }
  exists (c1 ++ c2)%list, m2, s2. split; [|split; [now rewrite run_app, R1|split; [exact A2|split]]].
  - unfold recover_stable, stable_regs. cbn [fold_left].
    change (recover_one m "T1" m) with ([] : code, m). cbv beta iota.
    change (recover_one m "T2" m) with ([] : code, m). cbv beta iota. now rewrite E1, E2.
  - split; [easy|now rewrite O2|easy|]. intros p v Hp Hpp.
    rewrite O2, O1 in Hp by (intros ->; destruct Hpp; easy).
    destruct (Kn p v Hp) as [->|[Hv|[->|[[-> ->]|[[-> ->]|[Ht _]]]]]]; [now left|right; now left|now destruct (Ip p)| | |];
      [destruct Hpp; easy..|right; now right].
  - intros q N1 N2. now rewrite O2, O1.
Qed.

(** *** The loop does not give up *)

Lemma resolve_total offset todo : forall idle victims stable_victims m,
  (length todo <= length idle + length victims)%nat ->
  NoDup (idle ++ victims)%list -> (forall p, p ∈ (idle ++ victims)%list -> p ∈ phys) -> map fst m = phys ->
  exists c m', resolve todo idle victims stable_victims offset m = Some (c, m') /\ map fst m' = phys /\
    (forall p, p ∈ phys -> p ∉ (idle ++ victims)%list -> holds m' p = holds m p) /\
    (forall v, v ∈ todo -> exists p, holds m' p = Some v).
Proof.
  induction todo as [|v todo IH]; intros idle victims stable m Len N Ph K.
  { exists [], m. repeat (split; [easy|]). intros v Hv. inversion Hv. }
  assert (Step : forall p idle' victims' before, (length todo <= length idle' + length victims')%nat ->
    NoDup (p :: idle' ++ victims')%list -> p ∈ phys -> (forall q, q ∈ (idle' ++ victims')%list -> q ∈ phys) ->
    exists c m', match resolve todo idle' victims' stable offset (hold p v m) with
      | Some (c, m) => Some ((before ++ swap_in v p offset ++ c)%list, m)
      | None => None
      end = Some (c, m') /\ map fst m' = phys /\
      (forall q, q ∈ phys -> q <> p -> q ∉ (idle' ++ victims')%list -> holds m' q = holds m q) /\
      (forall w, w ∈ v :: todo -> exists q, holds m' q = Some w)).
  { intros p idle' victims' before Len' [Np N']%NoDup_cons Hp Ph'.
    destruct (IH idle' victims' stable (hold p v m) Len' N' Ph' (hold_keys m p v K)) as (c & m' & E & K' & Keep & Got).
    rewrite E. eexists _, m'. split; [reflexivity|]. split; [easy|]. split.
    - intros q Hq Nq Nl. rewrite Keep by easy. apply holds_hold_ne; [easy|easy|congruence].
    - intros w Hw. apply elem_of_cons in Hw as [->|Hw]; [|now apply Got]. exists p. rewrite Keep by easy.
      now apply holds_hold_eq. }
  cbn [resolve]. destruct idle as [|p idle]; [destruct victims as [|p victims]; [cbn in Len; lia|]|].
  - destruct (Step p [] victims (swap_out p m)) as (c & m' & E & K' & Keep & Got);
      [cbn in *; lia|exact N|apply Ph; now left|intros q Hq; apply Ph; now right|].
    exists c, m'. split; [exact E|]. split; [easy|]. split; [|easy]. intros q Hq Nq.
    apply not_elem_of_cons in Nq as [? ?]. now apply Keep.
  - destruct (Step p idle victims []) as (c & m' & E & K' & Keep & Got);
      [cbn in *; lia|exact N|apply Ph; now left|intros q Hq; apply Ph; now right|].
    exists c, m'. split; [exact E|]. split; [easy|]. split; [|easy]. intros q Hq Nq.
    apply not_elem_of_cons in Nq as [? ?]. now apply Keep.
Qed.

(** With at most two of them, all registers of an instruction find a place. *)
Lemma conflict_resolve_total m conflict offset : stable_map m -> NoDup conflict ->
  (forall v, v ∈ conflict -> may_name m v) -> room m conflict ->
  exists c m', conflict_resolve m conflict offset = Some (c, m') /\ map fst m' = phys /\
    forall v, v ∈ conflict -> exists p, holds m' p = Some v.
Proof.
  intros S N U L. destruct (lists_start m conflict S N U) as [Lo Nd].
  pose proof (wf_keys m (sm_wfm m S)) as K. rewrite app_assoc in Nd. apply NoDup_app in Nd as (Nd & _ & _).
  destruct (resolve_total offset (arrange (to_be_resolved conflict m)) (arrange (idle_regs m))
    (arrange (possible_victims conflict m)) (arrange (possible_stable_victims conflict m)) m)
    as (c & m' & E & K' & Keep & Got); try easy.
  - rewrite !(Permutation_length (arrange_perm _)).
    destruct (stable_four m S) as (a & b & -> & Ha & Hb & Hab). now apply enough_places.
  - intros p Hp. apply in_phys. apply elem_of_app in Hp as [Hp|Hp];
      [destruct (lo_idle _ _ _ _ _ Lo p Hp)|destruct (lo_victims _ _ _ _ _ Lo p Hp)]; tauto.
  - exists c, m'. split; [exact E|]. split; [exact K'|]. intros v Hv.
    destruct (is_in (resolved_regs m) v) eqn:Er.
    + apply is_in_elem, in_filter in Er as [Er Nv]. apply list_elem_of_fmap_1 in Er as ([p w] & -> & Er).
      cbn [snd] in *. assert (Hp : holds m p = Some w).
      { apply in_holds; [easy|]. now apply list_elem_of_In. }
      exists p. rewrite Keep; [easy|now apply (holds_phys m p w K)|]. intros Q.
      apply negb_true_iff, String.eqb_neq in Nv. apply elem_of_app in Q as [Q|Q].
      * destruct (lo_idle _ _ _ _ _ Lo p Q) as [_ Q']. congruence.
      * rewrite in_arrange in Q. apply (in_keys _ m p (sm_wfm m S)) in Q as (w' & H' & Q).
        assert (w' = w) as -> by congruence. apply andb_prop in Q as [Q _]. apply andb_prop in Q as [Q _].
        apply negb_true_iff, is_in_not in Q. now apply Q.
    + apply Got. apply in_arrange, in_filter. now rewrite Er.
Qed.

(** *** The temporaries *)

(** They stay where they are, and no other comes. *)
Definition same_temps (m m' : regmap) : Prop :=
  forall p t, t ∈ temps -> holds m p = Some t <-> holds m' p = Some t.

#[export] Instance same_temps_preorder : PreOrder same_temps.
Proof. split; [now intros m p t _|]. intros a b c H1 H2 p t Ht. rewrite (H1 p t Ht). now apply H2. Qed.

Lemma same_temps_hold m p v w : wfm m -> holds m p = Some w -> w ∉ temps -> v ∉ temps -> same_temps m (hold p v m).
Proof.
  intros [K _] Hw Nw Nv q t Ht. rewrite holds_hold by (easy || now apply (holds_phys m p w)).
  destruct (String.eqb_spec p q) as [<-|N]; [|easy]. split; intros E; exfalso; congruence.
Qed.

Lemma resolvable_no_temp v : resolvable v -> v ∉ temps.
Proof. intros [H| ->] Q; [now apply (temp_not_movable v)|now apply is_in_elem in Q]. Qed.

Lemma resolve_temps offset todo : forall idle victims stable_victims m c m',
  resolve todo idle victims stable_victims offset m = Some (c, m') -> wfm m ->
  lists_ok todo idle victims stable_victims m -> NoDup (idle ++ victims ++ stable_victims)%list ->
  same_temps m m'.
Proof.
  induction todo as [|v todo IH]; intros idle victims stable m c m' E W L N; [injection E as _ <-; reflexivity|].
  pose proof (lo_nodup _ _ _ _ _ L) as [Nv _]%NoDup_cons.
  destruct (lo_todo _ _ _ _ _ L v ltac:(left)) as [Hv Hn].
  assert (Next : forall p w idle' victims' stable', p ∈ phys -> holds m p = Some w -> w ∉ temps ->
    NoDup (p :: idle' ++ victims' ++ stable')%list -> lists_ok todo idle' victims' stable' m -> forall before c1 m1,
    match resolve todo idle' victims' stable' offset (hold p v m) with
    | Some (c, m) => Some ((before ++ swap_in v p offset ++ c)%list, m)
    | None => None
    end = Some (c1, m1) -> same_temps m m1).
  { intros p w idle' victims' stable' Hp Hw Nw [Np Nl]%NoDup_cons L' before c1 m1 E1.
    destruct (resolve todo idle' victims' stable' offset (hold p v m)) as [[c2 m2]|] eqn:E2; [|easy].
    injection E1 as _ <-. etransitivity; [apply (same_temps_hold m p v w); auto using resolvable_no_temp|].
    apply (IH _ _ _ _ _ _ E2); [apply hold_wfm; auto|now apply lists_ok_next|easy]. }
  assert (Ph : forall p, p = "15" \/ p = "14" \/ p = "13" \/ p = "12" -> p ∈ phys) by (intros p H; now apply in_phys).
  destruct L as [La Lb Lc Ld Le]. apply NoDup_cons in Lb as [_ Lb]. cbn [resolve] in E.
  assert (L' : forall a b c, (forall q, q ∈ a -> q ∈ idle) -> (forall q, q ∈ b -> q ∈ victims) ->
    (forall q, q ∈ c -> q ∈ stable) -> lists_ok todo a b c m).
  { intros a b d Ha Hb Hd. split; auto. intros w Hw. apply La. now right. }
  destruct idle as [|p idle]; [destruct victims as [|p victims]; [destruct stable as [|p stable]; [easy|]|]|].
  - destruct (Le p ltac:(left)) as (Hp & w & Hw & Ew). apply (Next p w [] [] stable) in E; try easy.
    + apply Ph. tauto.
    + intros Q. apply temp_stable in Q. tauto.
    + apply L'; [easy|easy|now right].
  - destruct (Ld p ltac:(left)) as (Hp & w & Hw & Ew). apply (Next p w [] victims stable) in E; try easy.
    + apply Ph. tauto.
    + intros Q. now apply (temp_not_movable w).
    + apply L'; [easy|now right|easy].
  - destruct (Lc p ltac:(left)) as [Hp Hw]. apply (Next p "" idle victims stable) in E; try easy.
    + apply Ph. tauto.
    + intros Q. now apply temp_stable in Q.
    + apply L'; [now right|easy|easy].
Qed.

Lemma conflict_resolve_temps m conflict offset c m' : stable_map m -> NoDup conflict ->
  (forall v, v ∈ conflict -> may_name m v) -> conflict_resolve m conflict offset = Some (c, m') -> same_temps m m'.
Proof.
  intros S N U E. destruct (lists_start m conflict S N U) as [L Nd].
  exact (resolve_temps _ _ _ _ _ _ _ _ E (sm_wfm m S) L Nd).
Qed.

Lemma release_IP_temps m : wfm m -> same_temps m (release_IP m).
Proof.
  intros W. unfold release_IP. destruct (inv m "IP") as [p|] eqn:E; [|reflexivity].
  apply (same_temps_hold m p "" "IP"); [easy|now apply inv_holds|..]; now intros Q%is_in_elem.
Qed.

Lemma recover_temps u m s m' : sound u m s -> stable_map m' ->
  (forall q, q <> "13" -> q <> "12" -> holds m' q = holds m q) -> same_temps m m'.
Proof.
  intros (W & _ & [P1 P2] & _) S H p t Ht. destruct (temp_stable t Ht) as (_ & _ & N1 & N2).
  assert (NT : forall v z, z = v \/ z ∈ movable -> v ∉ temps -> z <> t).
  { intros v z [-> |Hz] Hv ->; [easy|]. now apply (temp_not_movable t). }
  destruct (decide (p = "13")) as [->|Q1]; [|destruct (decide (p = "12")) as [->|Q2]; [|now rewrite H]].
  - rewrite (sm_SP _ S). split; [|congruence]. intros E. exfalso. apply (NT "SP" t); auto. now intros Q%is_in_elem.
  - rewrite (sm_BP _ S). split; [|congruence]. intros E. exfalso. apply (NT "BP" t); auto. now intros Q%is_in_elem.
Qed.

(** A register of the user, or a temporary, gets these contents. *)
Definition write_reg (t : string) (z : Z) (u : ustate) : ustate := U (<[t := z]> (u_reg u)) (u_gp u) (u_rest u).

Lemma temp_not_home t : t ∈ temps -> t ∉ homes.
Proof. intros H Q. apply homes_named in Q as (_ & _ & N1 & N2). unfold temps in H. each H. Qed.

Lemma agrees_temp m u s p t : wfm m -> agrees m u s -> holds m p = Some "" -> t ∈ temps ->
  (forall q, holds m q <> Some t) -> agrees (hold p t m) (write_reg t (p_reg s p) u) s.
Proof.
  intros W [H1 H2 H3 H4] Hp Ht Hn. pose proof (wf_keys m W) as K.
  pose proof (holds_phys m p "" K Hp) as P. split; cbn; try easy.
  - intros q w. rewrite holds_hold by easy. destruct (String.eqb_spec p q) as [<-|N].
    + intros [= <-] _. now rewrite fn_lookup_insert.
    + intros Hq Nw. rewrite fn_lookup_insert_ne; [now apply H1|]. intros <-. now apply (Hn q).
  - intros w Hw Ho. rewrite fn_lookup_insert_ne; [|intros <-; now apply (temp_not_home t)].
    apply H2; [easy|]. destruct Ho as [Ho|]; [left|now right]. intros q Hq.
    destruct (decide (q = p)) as [->|N].
    + destruct (homes_named w Hw) as [Nw _]. congruence.
    + apply (Ho q). now rewrite holds_hold_ne by congruence.
Qed.

Lemma agrees_same m u v s : same eq u v -> agrees m u s -> agrees m v s.
Proof.
  intros [H1 H2 H3] [A1 A2 A3 A4]. split; [| |congruence|congruence].
  - intros p k Hp N. now rewrite <- H1, (A1 p k).
  - intros k Hk Ho. now rewrite <- H1, (A2 k).
Qed.

(** Only [t] of the temporaries has a place. *)
Definition only_temp (t : string) (m : regmap) : Prop := forall p v, v ∈ temps -> holds m p = Some v -> v = t.

(** The temporary comes to [p], whose value has been saved. *)
Lemma place_temp t m u s p : t ∈ temps -> stable_map m -> only_temp t m -> (forall q, holds m q <> Some t) ->
  p = "15" \/ p = "14" -> agrees (hold p "" m) u s ->
  agrees (hold p t m) (write_reg t (p_reg s p) u) s /\ stable_map (hold p t m) /\ only_temp t (hold p t m) /\
  holds (hold p t m) p = Some t.
Proof.
  intros Ht S O Hn Hp A. pose proof (sm_wfm m S) as W. pose proof (wf_keys m W) as K.
  assert (P : p ∈ phys) by (apply in_phys; tauto). destruct (temp_stable t Ht) as (_ & N0 & _).
  assert (Hq : forall q, q <> p -> holds (hold p t m) q = holds m q) by (intros q N; apply holds_hold_ne; easy || congruence).
  split; [|split; [split|split]].
  - rewrite <- (hold_hold m p t ""). apply agrees_temp; [apply hold_wfm; auto|easy|now apply holds_hold_eq|easy|].
    intros q. rewrite holds_hold by easy. destruct (String.eqb p q); [congruence|apply Hn].
  - apply hold_wfm; auto.
  - rewrite Hq; [apply S|destruct Hp; congruence].
  - rewrite Hq; [apply S|destruct Hp; congruence].
  - intros q v. rewrite holds_hold by easy. destruct (String.eqb p q); [intros [= <-]; auto|apply S].
  - intros q v Hv. rewrite holds_hold by easy. destruct (String.eqb p q); [congruence|now apply O].
  - now apply holds_hold_eq.
Qed.

Lemma idle_or_victim t m : stable_map m -> only_temp t m -> (forall q, holds m q <> Some t) ->
  idle_regs m = [] -> possible_victims [t] m = [] -> False.
Proof.
  intros S O Hn I V. destruct (stable_four m S) as (a & b & -> & Ha & _).
  destruct Ha as [-> |[Ha|Ha]].
  - unfold idle_regs in I. cbn [List.filter] in I. now rewrite String.eqb_refl in I.
  - assert (E : is_in [t] a = false) by (apply is_in_not; intros Q%list_elem_of_singleton; subst; now apply (Hn "15")).
    destruct (homes_named a (movable_home a Ha)) as (N & _). apply String.eqb_neq in N.
    unfold possible_victims in V. cbn [List.filter] in V. rewrite E, N, movable_unstable in V by easy. discriminate V.
  - apply (Hn "15"). now rewrite <- (O "15" a Ha eq_refl).
Qed.

Lemma resident m v : wfm m -> v <> "" -> is_in (resolved_regs m) v = true <-> exists p, holds m p = Some v.
Proof.
  intros [K _] N. unfold resolved_regs. rewrite is_in_elem, in_filter, negb_true_iff, String.eqb_neq. split.
  - intros [Er _]. apply list_elem_of_fmap_1 in Er as ([p w] & -> & Er). exists p.
    apply in_holds; [easy|]. now apply list_elem_of_In.
  - intros [p H]. split; [|easy]. map_cases K. pose proof (holds_phys _ p v K H) as P.
    apply in_phys in P as [-> | [-> | [-> | ->]]]; cbn in H; injection H as <-; cbn; rewrite !elem_of_cons; tauto.
Qed.

Lemma resolve_temp_spec t m u s : t ∈ temps -> stable_map m -> agrees m u s -> only_temp t m ->
  exists c m' s' z, conflict_resolve m [t] 0 = Some (c, m') /\ run machine_step c s = Some s' /\
    agrees m' (write_reg t z u) s' /\ stable_map m' /\ only_temp t m' /\ exists p, holds m' p = Some t.
Proof.
  intros Ht S A O. destruct (temp_stable t Ht) as (St & N0 & N1 & N2). pose proof (sm_wfm m S) as W.
  destruct (stable_known m S) as [Kn Pl]. unfold conflict_resolve, to_be_resolved. cbn [List.filter].
  pose proof (resident m t W N0) as R. destruct (is_in (resolved_regs m) t); cbn [negb].
  { exists [], m, s, (u_reg u t). rewrite (proj1 (Permutation_nil_r _) (arrange_perm [])).
    split; [easy|]. split; [easy|]. split; [|split; [easy|]; split; [easy|now apply R]]. apply (agrees_same m u); [|easy].
    split; try easy. intros k. cbn. unfold insert, fn_insert. now destruct (decide (t = k)) as [->|]. }
  assert (Hn : forall q, holds m q <> Some t) by (intros q Q; now apply diff_false_true, R; exists q).
  rewrite (proj1 (Permutation_singleton_r _ _) (arrange_perm [t])). cbn [resolve].
  assert (U : forall v, v ∈ ([] : list string) -> may_name m v) by (intros v Q; inversion Q).
  assert (Sw : forall p, swap_in t p 0 = []).
  { intros p. unfold swap_in. rewrite St. assert (E : String.eqb t "IP" = false)
      by (unfold temps in Ht; each Ht; reflexivity). now rewrite E. }
  assert (Idle : forall p, p ∈ arrange (idle_regs m) -> (p = "15" \/ p = "14") /\ holds m p = Some "").
  { destruct (lists_start m [] S (NoDup_nil_2) U) as [L _]. exact (lo_idle _ _ _ _ _ L). }
  assert (Vict : forall p, p ∈ arrange (possible_victims [t] m) ->
    (p = "15" \/ p = "14") /\ exists w, holds m p = Some w /\ w ∈ movable).
  { destruct (lists_start m [] S (NoDup_nil_2) U) as [L _]. intros p Hp. apply (lo_victims _ _ _ _ _ L).
    rewrite in_arrange in Hp |- *. revert Hp. unfold possible_victims. rewrite !list_elem_of_In, !in_map_iff.
    intros (e & <- & He). exists e. split; [easy|]. apply filter_In in He as [He Hf]. apply filter_In. split; [easy|].
    destruct e as [k v]. apply andb_prop in Hf as [[_ Hf]%andb_prop Hf2]. now rewrite Hf, Hf2. }
  destruct (arrange (idle_regs m)) as [|p l] eqn:Ei; [destruct (arrange (possible_victims [t] m)) as [|p l] eqn:Ev|].
  - exfalso. apply (idle_or_victim t m S O Hn); symmetry; apply Permutation_nil_l.
    + pose proof (arrange_perm (idle_regs m)) as Q. now rewrite Ei in Q.
    + pose proof (arrange_perm (possible_victims [t] m)) as Q. now rewrite Ev in Q.
  - destruct (Vict p ltac:(now left)) as (Hp & w & Hw & Mw).
    destruct (save_sound u w p m s (conj W (conj Kn (conj Pl A))) Hw (movable_home w Mw)) as (s1 & E1 & A1).
    destruct (place_temp t m u s1 p Ht S O Hn Hp A1) as (A2 & S2 & O2 & H2). rewrite Sw.
    exists (swap_out p m), (hold p t m), s1, (p_reg s1 p). split; [now rewrite !app_nil_r|].
    split; [unfold swap_out; cbn [run]; now rewrite E1|]. repeat (split; [easy|]). now exists p.
  - destruct (Idle p ltac:(now left)) as (Hp & Hw).
    destruct (place_temp t m u s p Ht S O Hn Hp) as (A2 & S2 & O2 & H2).
    { rewrite hold_same; [exact A|apply W|easy]. }
    rewrite Sw. exists [], (hold p t m), s, (p_reg s p). repeat (split; [easy|]). now exists p.
Qed.
End Simulation.
