(* ===== verification/TranslateSpec.v ===== *)
(** The translation of straight-line code is right: the emitted code does on the
    machine what the instructions do on the user's registers, wherever the
    translator keeps them. *)
From Stdlib Require Import ZArith Lia Bool String.
From stdpp Require Import base strings functions list.
From S2P Require Import Prelude Conflict Translate Machine ConflictSpec.

Local Open Scope string_scope.
Local Open Scope Z_scope.
Local Open Scope ub_scope.

Section Simulation.
Context {X : Type} {processor : Cpu X} {py : PySet} {py_ok : PySetOk py}.
Abbreviation ustate := (ustate X).
Abbreviation mstate := (mstate X).
Implicit Types (u : ustate) (s : mstate).

(** *** One instruction *)

Lemma apply_reg_key m n size : apply_reg m n size =
  match reg_key n with
  | Some k => match inv m k, sz2sfx size with
              | Some p, Some sfx => Some (ExprId ("R" +:+ p +:+ sfx) size)
              | _, _ => None
              end
  | None => Some (ExprId n size)
  end.
Proof.
  unfold apply_reg, reg_key. destruct (is_in special_regs (if _ : bool then _ else _)); [easy|].
  now destruct (is_in special_regs (slice 0 2 n)).
Qed.

Lemma reg_key_special n k : reg_key n = Some k -> k ∈ special_regs.
Proof.
  unfold reg_key. destruct (is_in special_regs (if _ : bool then _ else _)) eqn:E1.
  - intros [= <-]. now apply is_in_elem.
  - destruct (is_in special_regs (slice 0 2 n)) eqn:E2; [|easy]. intros [= <-]. now apply is_in_elem.
Qed.

Lemma special_named k : k ∈ special_regs -> k <> "".
Proof. intros H. unfold special_regs in H. each H. Qed.

Lemma mapped_key p size sfx : p ∈ phys -> sz2sfx size = Some sfx -> reg_key ("R" +:+ p +:+ sfx) = Some p.
Proof.
  intros Hp. unfold sz2sfx. destruct (size =? 64); [|destruct (size =? 32); [|destruct (size =? 16);
    [|destruct (size =? 8); [|easy]]]]; intros [= <-]; unfold phys in Hp; each Hp; reflexivity.
Qed.

(** A register operand before and after [apply_map]. *)
Inductive mapped_reg (m : regmap) : expr -> expr -> Prop :=
| mr_other n size : reg_key n = None -> mapped_reg m (ExprId n size) (ExprId n size)
| mr_moved n n' size k p : reg_key n = Some k -> reg_key n' = Some p -> holds m p = Some k -> k <> "" ->
    mapped_reg m (ExprId n size) (ExprId n' size)
| mr_expr e : reg_name e = None -> mapped_reg m e e.

Lemma apply_expr_mapped m e e' : wfm m -> apply_expr m e = Some e' -> mapped_reg m e e'.
Proof.
  intros W. destruct e as [n size| | | |]; cbn [apply_expr]; try (intros [= <-]; now apply mr_expr).
  rewrite apply_reg_key. destruct (reg_key n) as [k|] eqn:Ek; [|intros [= <-]; now apply mr_other].
  destruct (inv m k) as [p|] eqn:Ei; [|easy]. destruct (sz2sfx size) as [sfx|] eqn:Es; [|easy].
  intros [= <-]. apply inv_holds in Ei; [|easy]. apply (mr_moved m n _ size k p); try easy.
  - apply (mapped_key p size sfx); [|easy]. now apply (holds_phys m p k (wf_keys m W)).
  - now apply special_named, (reg_key_special n).
Qed.

(** [agrees], but for the slots of FS and GS while they are in a register. *)
Record held (m : regmap) (u : ustate) (s : mstate) : Prop := {
  h_held : forall p v, holds m p = Some v -> v <> "" -> p_reg s p = u_reg u v;
  h_home : forall v, v ∈ homes -> (forall p, holds m p <> Some v) -> p_stack s (home_slot v) = u_reg u v;
  h_gp : p_gp s = u_gp u;
  h_rest : p_rest s = u_rest u
}.

Lemma agrees_held m u s : agrees m u s -> held m u s.
Proof. intros [H1 H2 H3 H4]. split; auto. Qed.

Lemma held_agrees m u s : held m u s -> (forall k, k ∈ segments -> p_stack s (home_slot k) = u_reg u k) ->
  agrees m u s.
Proof. intros [H1 H2 H3 H4] H. split; try easy. intros v Hv [Ho|Ho]; auto. Qed.

Lemma mapped_value m u s e e' : held m u s -> mapped_reg m e e' -> value_of (p_reg s) e' = value_of (u_reg u) e.
Proof.
  intros A [n size E|n n' size k p E E' H N|e0 E]; cbn [value_of].
  - now rewrite E.
  - rewrite E, E'. now rewrite (h_held m u s A p k H N).
  - now destruct e0.
Qed.

Inductive mapped_arg (m : regmap) : arg -> arg -> Prop :=
| ma_expr e e' : mapped_reg m e e' -> mapped_arg m (AExpr e) (AExpr e')
| ma_dict d rs ms : Forall2 (mapped_reg m) (regs d) rs -> Forall2 (mapped_reg m) (mul d) ms ->
    mapped_arg m (ADict d) (ADict (Mem (sz d) rs (im d) ms))
| ma_other a : (forall e, a <> AExpr e) -> (forall d, a <> ADict d) -> mapped_arg m a a.

Lemma apply_map_mapped m args args' : wfm m -> apply_map args m = Some args' -> Forall2 (mapped_arg m) args args'.
Proof.
  intros W H. apply mapM_Some_1 in H. induction H as [|a a' args args' Ha _ IH]; constructor; [|exact IH].
  assert (L : forall l l', mapM (apply_expr m) l = Some l' -> Forall2 (mapped_reg m) l l').
  { intros l l' E. apply mapM_Some_1 in E. eapply Forall2_impl; [exact E|]. intros x y. now apply apply_expr_mapped. }
  destruct a as [e|d|t|z|t z|]; cbn [apply_arg] in Ha; try (injection Ha as <-; now apply ma_other).
  - destruct (apply_expr m e) as [e'|] eqn:E; [|easy]. injection Ha as <-. apply ma_expr. now apply apply_expr_mapped.
  - destruct (mapM (apply_expr m) (regs d)) as [rs|] eqn:E1; [|easy].
    destruct (mapM (apply_expr m) (mul d)) as [ms|] eqn:E2; [|easy]. injection Ha as <-. now apply ma_dict; apply L.
Qed.

Lemma mapped_values m u s args args' : held m u s -> Forall2 (mapped_arg m) args args' ->
  map (arg_value (p_reg s)) args' = map (arg_value (u_reg u)) args.
Proof.
  intros A H. assert (L : forall l l', Forall2 (mapped_reg m) l l' ->
    map (value_of (p_reg s)) l' = map (value_of (u_reg u)) l).
  { intros l l' F. induction F as [|e e' l l' He _ IH]; [easy|]. cbn [map]. f_equal; [|exact IH].
    now apply (mapped_value m). }
  induction H as [|a a' args args' Ha _ IH]; [easy|]. cbn [map]. f_equal; [|exact IH].
  destruct Ha as [e e' He|d rs ms Hr Hm|a N1 N2]; cbn [arg_value sz regs im mul].
  - now apply (mapped_value m).
  - now rewrite (L _ _ Hr), (L _ _ Hm).
  - destruct a as [e|d| | | |]; [now destruct (N1 e)|now destruct (N2 d)|easy..].
Qed.

Lemma held_write m u s p k o : wfm m -> held m u s -> holds m p = Some k -> k <> "" ->
  held m (U (<[k := o]> (u_reg u)) (u_gp u) (u_rest u)) (put_reg p o s).
Proof.
  intros W [H1 H2 H3 H4] Hp Nk. split; cbn; try easy.
  - intros q v Hq Nv. destruct (decide (q = p)) as [->|N].
    + assert (v = k) as -> by congruence. now rewrite !fn_lookup_insert.
    + rewrite !fn_lookup_insert_ne; [now apply H1| |congruence].
      intros <-. apply N. now apply (wf_uniq m W q p k).
  - intros v Hv Ho. rewrite fn_lookup_insert_ne; [now apply H2|]. intros <-. now apply (Ho p).
Qed.

Lemma held_write_back m gp x : wfm m -> forall args args' u s outs, held m u s ->
  Forall2 (mapped_arg m) args args' ->
  held m (U (write_back (u_reg u) args outs) gp x) (MState (write_back (p_reg s) args' outs) (p_stack s) gp x).
Proof.
  intros W args args' u s outs A F. revert u s outs A.
  induction F as [|a a' args args' Ha F IH]; intros u s outs A.
  { cbn. destruct outs; destruct A; split; easy. }
  destruct Ha as [e e' He|d rs ms _ _|a N1 N2].
  - destruct He as [n size E|n n' size k p E E' H N|e E].
    + cbn [write_back]. rewrite E. destruct outs; now apply IH.
    + cbn [write_back]. rewrite E, E'. destruct outs as [|o outs]; [now apply IH|].
      exact (IH _ _ outs (held_write m u s p k o W A H N)).
    + destruct e; try easy; cbn [write_back]; destruct outs; now apply IH.
  - cbn [write_back]. destruct outs; now apply IH.
  - destruct a as [e|d| | | |]; [now destruct (N1 e)|now destruct (N2 d)|..];
      cbn [write_back]; destruct outs; now apply IH.
Qed.

(** The first operand is not text. *)
Definition user_operands (args : list arg) : Prop := forall t rest, args <> AStr t :: rest.

Lemma step_simulated m u s name args args' : wfm m -> held m u s -> Forall2 (mapped_arg m) args args' ->
  user_operands args ->
  match user_step (Inst name args) u with
  | Some u' => exists s', machine_step (Inst name args') s = Some s' /\ held m u' s' /\ p_stack s' = p_stack s
  | None => machine_step (Inst name args') s = None
  end.
Proof.
  intros W A E Ho.
  pose proof (mapped_values m u s args args' A E) as V.
  assert (M : machine_step (Inst name args') s =
    match cpu name (map (arg_value (p_reg s)) args') (p_gp s) (p_rest s) with
    | Some (outs, gp, x) => Some (MState (write_back (p_reg s) args' outs) (p_stack s) gp x)
    | None => None
    end).
  { destruct args' as [|[]]; try reflexivity. inversion E as [|a a' l l' Ha]; subst.
    inversion Ha; subst. now destruct (Ho s0 l). }
  rewrite M, V, (h_gp m u s A), (h_rest m u s A). cbn [user_step].
  destruct (cpu name (map (arg_value (u_reg u)) args) (u_gp u) (u_rest u)) as [[[outs gp] x]|]; [|easy]. eexists. split; [reflexivity|].
  split; [now apply held_write_back|easy].
Qed.
(** *** process_normal *)

(** What [process_normal] adds before the instruction is the user's too: the masks
    of a base register. *)
Definition body (name : string) (purified_args : list arg) (to_check : list expr) (can_check : bool) : code :=
  (check_code (map AExpr to_check) can_check ++ [Inst name purified_args])%list.

Lemma check_code_false to_check : check_code to_check false = [].
Proof. unfold check_code. now rewrite orb_true_r. Qed.

(** At most one mask is emitted. *)
Lemma check_code_cases to_check can_check :
  check_code to_check can_check = [] \/
  exists r, to_check = [r] /\ check_code to_check can_check = [Inst "SHL" [r; AStr "1"]; Inst "SHR" [r; AStr "1"]].
Proof.
  destruct can_check; [|left; apply check_code_false].
  destruct to_check as [|r [|r2 rest]]; [now left|right; now exists r|now left].
Qed.

Lemma body_simulated m u s to_check to_check' can_check name args args' : wfm m -> held m u s ->
  Forall2 (mapped_arg m) (map AExpr to_check) to_check' -> Forall2 (mapped_arg m) args args' -> user_operands args ->
  match run user_step (body name args to_check can_check) u with
  | Some u' => exists s', run machine_step (check_code to_check' can_check ++ [Inst name args'])%list s = Some s' /\
      held m u' s' /\ p_stack s' = p_stack s
  | None => run machine_step (check_code to_check' can_check ++ [Inst name args'])%list s = None
  end.
Proof.
  intros W A Ec Ea Ho. unfold body.
  assert (Last : forall u s, held m u s -> match run user_step [Inst name args] u with
    | Some u' => exists s', run machine_step [Inst name args'] s = Some s' /\ held m u' s' /\ p_stack s' = p_stack s
    | None => run machine_step [Inst name args'] s = None end).
  { intros u0 s0 A0. pose proof (step_simulated m u0 s0 name args args' W A0 Ea Ho) as H. cbn [run].
    destruct (user_step (Inst name args) u0); [|now rewrite H]. destruct H as (s' & E & A'). rewrite E. eauto. }
  pose proof (Forall2_length _ _ _ Ec) as Len. rewrite length_map in Len.
  destruct (check_code_cases (map AExpr to_check) can_check) as [E|(r & Er & E)].
  - replace (check_code to_check' can_check) with ([] : code); [rewrite E; now apply Last|].
    revert E. unfold check_code. rewrite length_map, <- Len.
    destruct (1 <? length to_check)%nat eqn:E1; [easy|]. destruct can_check; [|easy].
    destruct to_check; [|easy]. now destruct to_check'.
  - destruct to_check as [|e [|]]; try easy. injection Er as <-.
    destruct to_check' as [|r' [|]]; try easy.
    replace (check_code [r'] can_check) with [Inst "SHL" [r'; AStr "1"]; Inst "SHR" [r'; AStr "1"]].
    2:{ destruct can_check; [easy|]. unfold check_code in E. now rewrite orb_true_r in E. }
    rewrite E. cbn [app].
    assert (Em : Forall2 (mapped_arg m) [AExpr e; AStr "1"] [r'; AStr "1"]).
    { inversion Ec; subst. constructor; [easy|]. constructor; [now apply ma_other|constructor]. }
    assert (Uo : user_operands [AExpr e; AStr "1"]) by easy.
    cbn [run]. pose proof (step_simulated m u s "SHL" _ _ W A Em Uo) as S1.
    destruct (user_step (Inst "SHL" [AExpr e; AStr "1"]) u) as [u1|]; [|now rewrite S1].
    destruct S1 as (s1 & -> & A1 & <-). pose proof (step_simulated m u1 s1 "SHR" _ _ W A1 Em Uo) as S2.
    destruct (user_step (Inst "SHR" [AExpr e; AStr "1"]) u1) as [u2|]; [|now rewrite S2].
    destruct S2 as (s2 & -> & A2 & <-). exact (Last u2 s2 A2).
Qed.

(** Masks and instruction keep these registers, such as the bases of FS and GS. *)
Definition keeps (ks : list string) (c : code) (u : ustate) : Prop :=
  forall u', run user_step c u = Some u' -> forall k, k ∈ ks -> u_reg u' k = u_reg u k.

(** An instruction for [process_normal]: its first operand is one, the temporaries that
    it names have a place, and there is room for the registers that have to be moved. *)
Record plain (m : regmap) (args : list arg) : Prop := {
  pl_operands : user_operands args;
  pl_names : forall v, v ∈ conflict_regs_of args -> may_name m v;
  pl_room : room m (conflict_regs_of args)
}.

Lemma extract_in name conflict v : v ∈ extract_conflict_regs name conflict ->
  v ∈ conflict \/ v ∈ special_regs.
Proof.
  unfold extract_conflict_regs. assert (L : forall l c, (forall v, v ∈ l -> v ∈ special_regs) ->
    v ∈ fold_left add l c -> v ∈ c \/ v ∈ special_regs).
  { intros l. induction l as [|x l IH]; intros c Hl H; [now left|]. cbn [fold_left] in H.
    apply IH in H as [H|H]; [|now right|intros w Hw; apply Hl; now right].
    unfold add in H. destruct (is_in c x); [now left|]. apply elem_of_app in H as [H|H]; [now left|].
    apply list_elem_of_singleton in H as ->. right. apply Hl. now left. }
  apply L. intros w Hw. apply in_filter in Hw as [_ Hw]. now apply is_in_elem.
Qed.

Lemma extract_nodup name conflict : NoDup conflict -> NoDup (extract_conflict_regs name conflict).
Proof.
  unfold extract_conflict_regs. generalize (List.filter (is_in special_regs) (possible_keys name)) as l.
  intros l. revert conflict. induction l as [|x l IH]; intros c N; [easy|]. cbn [fold_left]. apply IH. unfold add.
  destruct (is_in c x) eqn:E; [easy|]. apply is_in_not in E. apply NoDup_app. split; [easy|]. split.
  - intros w Hw Hx. apply list_elem_of_singleton in Hx as ->. easy.
  - apply NoDup_singleton.
Qed.

Lemma conflict_regs_ok args : NoDup (conflict_regs_of args) /\
  forall v, v ∈ conflict_regs_of args -> v ∈ special_regs.
Proof.
  unfold conflict_regs_of. generalize (flat_map extract_reg args) as l. intros l.
  assert (L : forall c, NoDup c -> (forall v, v ∈ c -> v ∈ special_regs) ->
    let c' := fold_left (fun c r => extract_conflict_regs (default "" (reg_name r)) c) l c in
    NoDup c' /\ forall v, v ∈ c' -> v ∈ special_regs).
  { induction l as [|r l IH]; intros c N H; [easy|]. cbn [fold_left]. apply IH; [now apply extract_nodup|].
    intros v Hv. apply extract_in in Hv as [Hv|]; auto. }
  apply L; [constructor|]. intros v Hv. inversion Hv.
Qed.

Lemma special_user v : v ∈ special_regs -> v ∉ temps -> user_reg v.
Proof.
  unfold user_reg, resolvable, movable, special_regs, temps. rewrite !elem_of_cons. tauto.
Qed.

(** *** Instructions without such registers *)

Lemma extract_mono name c v : v ∈ c \/ v ∈ List.filter (is_in special_regs) (possible_keys name) ->
  v ∈ extract_conflict_regs name c.
Proof.
  unfold extract_conflict_regs. generalize (List.filter (is_in special_regs) (possible_keys name)) as l.
  intros l. revert c. induction l as [|x l IH]; intros c H; cbn [fold_left].
  - destruct H as [H|H]; [easy|inversion H].
  - apply IH. unfold add. destruct H as [H|H].
    + left. destruct (is_in c x); [easy|]. apply elem_of_app. now left.
    + apply elem_of_cons in H as [->|H]; [left|now right].
      destruct (is_in c x) eqn:E; [now apply is_in_elem|]. apply elem_of_app. right. now left.
Qed.

Lemma key_conflict n k : reg_key n = Some k -> k ∈ List.filter (is_in special_regs) (possible_keys n).
Proof.
  intros H. apply in_filter. split; [|now apply is_in_elem, (reg_key_special n)]. revert H.
  unfold reg_key, possible_keys. cbv zeta. destruct (2 <? String.length n)%nat.
  - destruct (is_in special_regs (slice 1 3 n)); [intros [= <-]; right; now left|].
    destruct (is_in special_regs (slice 0 2 n)); [intros [= <-]; now left|easy].
  - change (is_in special_regs "") with false. cbv iota.
    destruct (is_in special_regs (slice 0 2 n)); [intros [= <-]; now left|easy].
Qed.

Lemma key_in_conflict args e n size k : e ∈ flat_map extract_reg args -> e = ExprId n size ->
  reg_key n = Some k -> k ∈ conflict_regs_of args.
Proof.
  intros He -> Hk. apply key_conflict in Hk. unfold conflict_regs_of. revert He.
  generalize (flat_map extract_reg args) as l. intros l He. generalize ([] : list string) as c.
  assert (Keep : forall l c, k ∈ c -> k ∈ fold_left (fun c r => extract_conflict_regs (default "" (reg_name r)) c) l c).
  { intros l0. induction l0 as [|r l0 IH]; intros c H; [easy|]. cbn [fold_left]. apply IH, extract_mono. now left. }
  revert He. induction l as [|r l IH]; intros He c; [inversion He|]. cbn [fold_left].
  apply elem_of_cons in He as [<-|He]; [|now apply IH]. apply Keep, extract_mono. now right.
Qed.

(** A scale and a register, or nothing. *)
Definition scaled (d : mem) : Prop :=
  mul d = [] \/ exists n nsize r, mul d = [ExprInt n nsize; r].

Lemma mem_addr_scaled e : forall d, scaled d -> scaled (mem_addr e d).
Proof.
  revert e. fix IH 1. intros e d H. destruct e as [n s|n s|p s|op l|lc]; try exact H.
  cbn [mem_addr]. destruct (String.eqb op "+").
  - revert d H. induction l as [|x l IHl]; intros d H; [exact H|]. apply IHl, IH, H.
  - destruct (String.eqb op "*"); [|exact H].
    destruct (mul d) as [|m0 ml] eqn:Em; [|exact H].
    destruct l as [|[r size| | | |] [|[|n nsize| | |] l]]; try exact H.
    destruct (n mod 2 =? 1); right; cbn; eauto.
Qed.

Lemma purify_scaled a d : arg_purify a = ADict d -> (exists d0, a = ADict d0 /\ d0 = d) \/ scaled d.
Proof.
  destruct a as [e|d0| | | |]; cbn [arg_purify]; try easy; [|intros [= <-]; left; eauto].
  destruct e as [n s|n s|p s|op l|lc]; try easy. right. revert H.
  destruct (segm p) as [[seg q]|]; intros [= <-]; apply mem_addr_scaled; now left.
Qed.

(** Then [apply_map] would not change anything. *)
Lemma unmapped_reg m args e : conflict_regs_of args = [] -> e ∈ flat_map extract_reg args -> mapped_reg m e e.
Proof.
  intros Hc He. destruct e as [n size| | | |]; try now apply mr_expr. apply mr_other.
  destruct (reg_key n) as [k|] eqn:E; [|easy].
  pose proof (key_in_conflict args _ n size k He eq_refl E) as Q. rewrite Hc in Q. inversion Q.
Qed.

Lemma unmapped_args m args : conflict_regs_of args = [] -> (forall d, ADict d ∈ args -> scaled d) ->
  Forall2 (mapped_arg m) args args.
Proof.
  intros Hc Hs.
  assert (All : forall l : list arg, (forall a, a ∈ l -> mapped_arg m a a) -> Forall2 (mapped_arg m) l l).
  { intros l. induction l as [|a l IH]; intros H; constructor; [apply H; now left|apply IH; intros; apply H; now right]. }
  apply All. intros a Ha. assert (In_ : forall e, e ∈ extract_reg a -> mapped_reg m e e).
  { intros e He. apply (unmapped_reg m args); [easy|]. apply list_elem_of_In, in_flat_map. exists a. split; now apply list_elem_of_In. }
  destruct a as [e|d|t|z|t z|]; try now apply ma_other.
  - apply ma_expr. destruct e as [n size| | | |]; try now apply mr_expr. apply In_. now left.
  - destruct d as [z rs i ml] eqn:Ed. rewrite <- Ed in *.
    replace (ADict d) with (ADict (Mem (sz d) (regs d) (im d) (mul d))) at 2 by now destruct d.
    apply ma_dict.
    + apply Forall_Forall2_diag, Forall_forall. intros e He. apply In_. cbn [extract_reg]. apply elem_of_app. now left.
    + apply Forall_Forall2_diag, Forall_forall. intros e He.
      destruct (Hs d Ha) as [Hm|(n & nsize & r & Hm)]; rewrite Hm in He; [inversion He|].
      apply elem_of_cons in He as [->|He]; [now apply mr_expr|]. apply list_elem_of_singleton in He as ->.
      apply In_. cbn [extract_reg]. rewrite Hm. apply elem_of_app. right. now left.
Qed.
(** *** process_normal *)

(** The outcome [c] of the translation of the user's code [b]. *)
Definition simulates (b : code) (u : ustate) (c : code) (s : mstate) (m : regmap) : Prop :=
  match run user_step b u with
  | Some u' => exists s', run machine_step c s = Some s' /\ agrees m u' s'
  | None => run machine_step c s = None
  end.

Lemma held_segments m u u' s s' : agrees m u s -> held m u' s' -> p_stack s' = p_stack s ->
  (forall k, k ∈ segments -> u_reg u' k = u_reg u k) -> agrees m u' s'.
Proof.
  intros A H E K. apply held_agrees; [easy|]. intros k Hk. rewrite E, K by easy.
  apply (ag_home m u s A); [now apply segment_home|now right].
Qed.

Lemma bases_scaled nm args checked e : e ∈ fst (bases_to_check nm args checked) -> e ∈ flat_map extract_reg args.
Proof.
  unfold bases_to_check. cbn [fst]. intros H. apply list_elem_of_In, filter_In in H as [H _].
  unfold remove_dup in H. rewrite <- list_elem_of_In, elem_of_remove_dups in H.
  unfold get_mem_base in H. destruct (String.eqb nm "LEA"); [inversion H|].
  apply list_elem_of_In, in_flat_map in H as (a & Ha & H). apply list_elem_of_In, in_flat_map. exists a.
  split; [easy|]. destruct a as [|d| | | |]; try easy. destruct (1 <? length (regs d))%nat; [easy|].
  apply filter_In in H as [H _]. cbn [extract_reg]. apply in_or_app. now left.
Qed.

Lemma process_normal_sim nm args offset cc st c st' u s : let pargs := map arg_purify args in
  process_normal nm args offset cc st = Some (c, st') ->
  stable_map (reg_map st) -> agrees (reg_map st) u s -> u_reg u "IP" = u64 offset ->
  plain (reg_map st) pargs -> (forall d, ADict d ∈ pargs -> scaled d) ->
  let b := body nm pargs (fst (bases_to_check nm pargs (checked_regs st))) cc in
  keeps segments b u ->
  checked_regs st' = snd (bases_to_check nm pargs (checked_regs st)) /\ stable_map (reg_map st') /\
  same_temps (reg_map st) (reg_map st') /\ simulates b u c s (reg_map st').
Proof.
  intros pargs E S A Ip P Sc b Ks. unfold process_normal in E. fold pargs in E. unfold b in *. clear b.
  destruct (bases_to_check nm pargs (checked_regs st)) as [to_check checked] eqn:Eb. cbn [fst snd] in *.
  assert (Bs : forall e, e ∈ to_check -> e ∈ flat_map extract_reg pargs).
  { intros e He. apply (bases_scaled nm pargs (checked_regs st)). now rewrite Eb. }
  destruct (conflict_regs_of pargs) as [|v0 vs] eqn:Ec; cbn [length Nat.eqb] in E.
  - injection E as <- <-. cbn [reg_map checked_regs]. split; [easy|]. split; [easy|]. split; [reflexivity|]. unfold simulates.
    assert (Fa : Forall2 (mapped_arg (reg_map st)) pargs pargs) by now apply unmapped_args.
    assert (Fc : Forall2 (mapped_arg (reg_map st)) (map AExpr to_check) (map AExpr to_check)).
    { clear - Bs Ec. induction to_check as [|e l IH]; constructor.
      - apply ma_expr. apply (unmapped_reg _ pargs); [easy|]. apply Bs. now left.
      - apply IH. intros x Hx. apply Bs. now right. }
    pose proof (body_simulated (reg_map st) u s to_check _ cc nm pargs pargs (sm_wfm _ S)
      (agrees_held _ _ _ A) Fc Fa (pl_operands _ _ P)) as B.
    destruct (run user_step (body nm pargs to_check cc) u) as [u'|] eqn:Eu; [|exact B].
    destruct B as (s' & R1 & H & Es). exists s'. split; [exact R1|].
    apply (held_segments _ u u' s s'); try easy. now apply Ks.
  - rewrite <- Ec in E. destruct (conflict_regs_ok pargs) as [Nd _].
    destruct (conflict_resolve (reg_map st) (conflict_regs_of pargs) offset) as [[pre m1]|] eqn:Er; [|easy].
    destruct (conflict_resolve_spec offset u _ s _ _ _ Ip S A Nd (pl_names _ _ P)
      (or_intror (pl_room _ _ P)) Er)
      as (s1 & R1 & W1 & K1 & P1 & A1).
    destruct (apply_map pargs m1) as [args'|] eqn:Ea; [|easy].
    destruct (apply_map (map AExpr to_check) m1) as [chk'|] eqn:Ek; [|easy].
    pose proof (body_simulated m1 u s1 to_check chk' cc nm pargs args' W1 (agrees_held _ _ _ A1)
      (apply_map_mapped _ _ _ W1 Ek) (apply_map_mapped _ _ _ W1 Ea) (pl_operands _ _ P)) as B.
    destruct (recover_stable (release_IP m1)) as [post m3] eqn:Ep. injection E as <- <-.
    cbn [reg_map checked_regs]. split; [easy|]. unfold simulates.
    assert (Map : stable_map m3 /\ same_temps (reg_map st) m3).
    { destruct (release_IP_sound u m1 s1) as [S3 N3]; [easy|].
      destruct (recover_stable_spec u _ _ S3 N3) as (c3 & m3' & s3 & E3 & _ & _ & M3 & Q3).
      assert (m3 = m3') as -> by congruence. split; [exact M3|].
      transitivity m1; [exact (conflict_resolve_temps _ _ _ _ _ S Nd (pl_names _ _ P) Er)|].
      transitivity (release_IP m1); [now apply release_IP_temps|]. exact (recover_temps _ _ _ _ S3 M3 Q3). }
    destruct Map as [Map Tm]. split; [exact Map|]. split; [exact Tm|]. rewrite run_app, R1. cbn [app].
    rewrite (app_assoc _ [Inst nm args'] post : (_ ++ Inst nm args' :: post)%list = _), run_app.
    destruct (run user_step (body nm pargs to_check cc) u) as [u'|] eqn:Eu; [|now rewrite B].
    destruct B as (s2 & -> & H2 & Es).
    assert (A2 : agrees m1 u' s2) by (apply (held_segments m1 u u' s1 s2); [easy|easy|easy|now apply Ks]).
    destruct (release_IP_sound u' m1 s2) as [S3 N3]; [easy|].
    destruct (recover_stable_spec u' _ _ S3 N3) as (c3 & m3' & s3 & E3 & R3 & A3 & _).
    assert (post = c3 /\ m3 = m3') as [-> ->] by (rewrite Ep in E3; now injection E3).
    now exists s3.
Qed.

(** *** The translator does not give up *)

(** The registers that move have a size with a suffix. *)
Definition sized (args : list arg) : Prop :=
  forall n size k, ExprId n size ∈ flat_map extract_reg args -> reg_key n = Some k -> sz2sfx size <> None.

Lemma apply_expr_total m args e : map fst m = phys -> sized args ->
  (forall v, v ∈ conflict_regs_of args -> exists p, holds m p = Some v) ->
  e ∈ flat_map extract_reg args -> exists e', apply_expr m e = Some e'.
Proof.
  intros K Z G He. destruct e as [n size| | | |]; cbn [apply_expr]; eauto. rewrite apply_reg_key.
  destruct (reg_key n) as [k|] eqn:Ek; [|eauto]. pose proof (Z n size k He Ek) as Hz.
  destruct (sz2sfx size); [|easy]. pose proof (key_in_conflict args _ n size k He eq_refl Ek) as Hc.
  destruct (G k Hc) as [p Hp].
  destruct (inv_some m k p K (special_named k (reg_key_special n k Ek)) Hp) as [q ->]. eauto.
Qed.

Lemma mapM_total {A B : Type} (f : A -> option B) l : (forall a, a ∈ l -> exists b, f a = Some b) ->
  exists k, mapM f l = Some k.
Proof.
  induction l as [|a l IH]; intros H; [now exists []|].
  destruct (H a ltac:(now left)) as [b Hb]. destruct IH as [k Hk]; [intros x Hx; apply H; now right|].
  exists (b :: k). cbn. now rewrite Hb, Hk.
Qed.

Lemma apply_map_total m args : map fst m = phys -> sized args -> (forall d, ADict d ∈ args -> scaled d) ->
  (forall v, v ∈ conflict_regs_of args -> exists p, holds m p = Some v) -> exists args', apply_map args m = Some args'.
Proof.
  intros K Z Sc G. apply mapM_total. intros a Ha.
  assert (R : forall e, e ∈ extract_reg a -> exists e', apply_expr m e = Some e').
  { intros e He. apply (apply_expr_total m args); try easy.
    apply list_elem_of_In, in_flat_map. exists a. split; now apply list_elem_of_In. }
  destruct a as [e|d| | | |]; cbn [apply_arg]; eauto.
  - destruct e as [n size| | | |]; try (cbn; eauto; fail).
    destruct (R (ExprId n size) ltac:(now left)) as [e' ->]. cbn. eauto.
  - cbn [extract_reg] in R.
    destruct (mapM_total (apply_expr m) (regs d)) as [rs ->]; [intros e He; apply R, elem_of_app; now left|].
    destruct (mapM_total (apply_expr m) (mul d)) as [ms ->]; [|eauto]. intros e He.
    destruct (Sc d Ha) as [Hm|(n & nsize & r & Hm)]; rewrite Hm in He; [inversion He|].
    apply elem_of_cons in He as [->|He]; [cbn; eauto|]. apply list_elem_of_singleton in He as ->.
    apply R. rewrite Hm. apply elem_of_app. right. now left.
Qed.

Lemma process_normal_total nm args offset cc st : let pargs := map arg_purify args in
  stable_map (reg_map st) -> plain (reg_map st) pargs -> (forall d, ADict d ∈ pargs -> scaled d) -> sized pargs ->
  exists c st', process_normal nm args offset cc st = Some (c, st').
Proof.
  intros pargs S P Sc Z. unfold process_normal. fold pargs.
  destruct (bases_to_check nm pargs (checked_regs st)) as [to_check checked] eqn:Eb.
  destruct (length (conflict_regs_of pargs) =? 0)%nat eqn:E0; [eauto|].
  destruct (conflict_regs_ok pargs) as [Nd _].
  destruct (conflict_resolve_total (reg_map st) (conflict_regs_of pargs) offset S Nd
    (pl_names _ _ P) (pl_room _ _ P)) as (c & m & E & K & G). rewrite E.
  destruct (apply_map_total m pargs K Z Sc G) as [a' ->].
  assert (Bs : forall e, e ∈ to_check -> e ∈ flat_map extract_reg pargs).
  { intros e He. apply (bases_scaled nm pargs (checked_regs st)). now rewrite Eb. }
  destruct (mapM_total (apply_arg m) (map AExpr to_check)) as [k Ek].
  { intros a Ha. apply list_elem_of_fmap_1 in Ha as (e & -> & He). cbn [apply_arg].
    destruct (apply_expr_total m pargs e K Z G (Bs e He)) as [e' ->]. cbn. eauto. }
  unfold apply_map. rewrite Ek. destruct (recover_stable (release_IP m)). eauto.
Qed.

(** *** The end of a block *)

(** Writing the registers back at the end of a block. *)
Definition write_back_one (k v : string) : code :=
  if String.eqb v "" || is_in stable_regs v then []
  else if negb (String.eqb v "FS") && negb (String.eqb v "GS") then [Inst "MOV" [Stack_R v; R k]] else [].

Lemma write_back_one_spec u m s p v : wfm m -> agrees m u s -> holds m p = Some v -> v = "" \/ v ∈ movable \/ v ∈ temps ->
  exists s', run machine_step (write_back_one p v) s = Some s' /\ agrees (hold p "" m) u s' /\ p_reg s' = p_reg s.
Proof.
  intros W A Hp Hv. pose proof (holds_phys m p v (wf_keys m W) Hp) as P. unfold write_back_one.
  destruct Hv as [->|[Hv|Hv]].
  - exists s. split; [reflexivity|]. split; [|easy]. rewrite hold_same; [easy|apply W|easy].
  - pose proof (movable_home v Hv) as Hh. destruct (homes_named v Hh) as (N1 & _).
    apply String.eqb_neq in N1. rewrite N1, movable_unstable by easy. cbn [orb].
    destruct (decide (v ∈ segments)) as [Sg|Sg].
    + assert (E : negb (String.eqb v "FS") && negb (String.eqb v "GS") = false)
        by (unfold segments in Sg; each Sg; reflexivity).
      rewrite E. exists s. split; [reflexivity|]. split; [|easy]. destruct A as [A1 A2 A3 A4]. split; try easy.
      * intros q w. rewrite holds_hold by (easy || apply W). destruct (String.eqb p q); [congruence|apply A1].
      * intros w Hw [Ho|Ho]; [|auto]. destruct (decide (w = v)) as [->|N]; [auto|].
        apply A2; [easy|left]. intros q Hq. apply (Ho q). rewrite holds_hold_ne; [easy|apply W|easy|congruence].
    + assert (E : negb (String.eqb v "FS") && negb (String.eqb v "GS") = true).
      { apply andb_true_iff. split; apply negb_true_iff, String.eqb_neq; intros ->; apply Sg; unfold segments;
          rewrite !elem_of_cons; tauto. }
      rewrite E. cbn [run]. rewrite step_save by easy. eexists. split; [reflexivity|]. split; [now apply agrees_save|easy].
  - destruct (temp_stable v Hv) as (St & _). rewrite St, orb_true_r. exists s. split; [reflexivity|]. split; [|easy].
    apply (agrees_drop m u s p v); try easy. now apply temp_not_home.
Qed.

Lemma release_spec u m s : stable_map m -> agrees m u s ->
  exists s', run machine_step (release_conflict m true) s = Some s' /\ agrees block_init u s' /\ p_reg s' = p_reg s.
Proof.
  intros S A. pose proof (sm_wfm m S) as W. destruct (stable_four m S) as (a & b & -> & Ha & Hb & Hab).
  set (m := [("15", a); ("14", b); ("13", "SP"); ("12", "BP")]) in *.
  destruct (write_back_one_spec u m s "15" a W A eq_refl Ha) as (s1 & E1 & A1 & R1).
  assert (W1 : wfm (hold "15" "" m)) by (apply hold_wfm; [easy|apply in_phys; auto|now left]).
  destruct (write_back_one_spec u _ s1 "14" b W1 A1 eq_refl Hb) as (s2 & E2 & A2 & R2).
  exists s2. split; [|split; [exact A2|congruence]].
  change (release_conflict m true) with (write_back_one "15" a ++ write_back_one "14" b ++ [] ++ [])%list.
  cbn [app]. rewrite app_nil_r, run_app, E1. exact E2.
Qed.

Lemma agrees_other m u s k z : agrees m u s -> k ∉ homes -> (forall p, holds m p <> Some k) ->
  agrees m (U (<[k := z]> (u_reg u)) (u_gp u) (u_rest u)) s.
Proof.
  intros [H1 H2 H3 H4] Hk Hn. split; cbn; try easy.
  - intros p v Hp Nv. rewrite fn_lookup_insert_ne; [now apply H1|]. intros <-. now apply (Hn p).
  - intros v Hv Ho. rewrite fn_lookup_insert_ne; [now apply H2|]. now intros <-.
Qed.

End Simulation.
