(* ===== verification/Parts.v ===== *)
(** A line of a block as the translator takes it apart: the instructions that it puts
    through [process_normal], with the temporaries that it uses between them, and how
    the line ends. Every part does on the machine what it does on the user's
    registers. *)
From Stdlib Require Import ZArith Lia Bool String Setoid Morphisms.
From stdpp Require Import base strings functions list.
From S2P Require Import Prelude Conflict Translate Machine ConflictSpec TranslateSpec.

Local Open Scope string_scope.
Local Open Scope Z_scope.
Local Open Scope ub_scope.

#[local] Set Warnings "-register-all".

(** ** Lines in parts *)

(** An instruction, one that loads a temporary, the end of the temporaries, a NOP. *)
Inductive part : Type :=
| Do (name : string) (args : list arg) (can_check : bool)
| Load (t name : string) (a : arg)
| Drop
| Pad.

(** To the next line, to a label, to the address in a register, to a system call. *)
Inductive ending : Type := Fall | Direct (jump t : string) | Through (reg : string) | Sys.

Definition tmp (t : string) : arg := AExpr (ExprId ("R" +:+ t) 64).
Definition at_RSP : arg := ADict (make_mem_dict 64 ["RSP"] 0).
Definition move_RSP (z : Z) : part := Do "LEA" [RSP; ADict (make_mem_dict 64 ["RSP"] z)] false.

Definition push_parts (e : expr) : list part :=
  move_RSP (- 8) ::
  match e with
  | ExprMem _ _ => [Load "T1" "MOV" (AExpr e); Do "MOV" [at_RSP; tmp "T1"] false; Drop]
  | _ => [Do "MOV" [at_RSP; AExpr e] false]
  end.

Definition pop_parts (e : expr) : list part :=
  (match e with
   | ExprMem _ _ => [Load "T1" "MOV" at_RSP; Do "MOV" [AExpr e; tmp "T1"] false; Drop]
   | _ => [Do "MOV" [AExpr e; at_RSP] false]
   end ++ [move_RSP 8])%list.

Definition jump_parts (jump : string) (e : expr) : option (list part * ending) :=
  match e with
  | ExprLoc t => Some ([], Direct jump t)
  | ExprMem _ _ => if String.eqb jump "JMP" then Some ([Load "T2" "MOV" (AExpr e)], Through "RT2") else None
  | ExprId r _ => if String.eqb jump "JMP" then Some ([], Through r) else None
  | _ => None
  end.

(** A register or a word of memory. *)
Definition stack_operand (e : expr) : bool :=
  match e with ExprId _ _ | ExprMem _ _ => expr_size e =? 64 | _ => false end.

(** The lines that are taken apart here: no number pushed, no privileged instruction. *)
Definition line_parts (i : inst) (offset : Z) (can_check : bool) : option (list part * ending) :=
  let op := get_inst_name i in
  if is_in special_instruction (name i) then
    if String.eqb op "ENDBR64" || String.eqb (name i) "NOP" then Some ([Pad], Fall)
    else if String.eqb op "CALL" then
      match args i with
      | e :: _ =>
          match jump_parts "JMP" e with
          | Some (ps, en) =>
              Some ((Load "T2" "MOVABS" (AExpr (ExprInt offset 64)) :: push_parts (ExprId "RT2" 64) ++ ps)%list, en)
          | None => None
          end
      | [] => None
      end
    else if String.eqb op "PUSH" then
      match args i with
      | e :: _ => if stack_operand e then Some (push_parts e, Fall) else None
      | [] => None
      end
    else if String.eqb op "POP" then
      match args i with
      | e :: _ => if stack_operand e then Some (pop_parts e, Fall) else None
      | [] => None
      end
    else if String.eqb op "RET" then Some ([Load "T2" "MOV" at_RSP; move_RSP 8], Through "RT2")
    else if String.eqb op "LEAVE" then
      Some (Do "MOV" [RSP; AExpr (ExprId "RBP" 64)] false :: pop_parts (ExprId "RBP" 64), Fall)
    else if String.eqb op "SYSCALL" then Some ([], Sys)
    else None
  else if is_in conditional_branch (name i) || is_in unconditional_branch (name i) then
    match args i with e :: _ => jump_parts (name i) e | [] => None end
  else Some ([Do op (map AExpr (args i)) can_check], Fall).

(** ** The translator goes by the parts *)

Section Code.
Context {py : PySet}.
Abbreviation TM := (M tstate code).

Definition same_code (a b : TM) : Prop := forall st, a st = b st.
Infix "≈" := same_code (at level 70).
Notation "a '+=+' b" := (cat a b) (at level 61, left associativity).

#[export] Instance same_code_equiv : Equivalence same_code.
Proof. split; [easy|now intros a b H st|intros a b c H1 H2 st; now rewrite H1]. Qed.

#[export] Instance cat_proper : Proper (same_code ==> same_code ==> same_code) cat.
Proof.
  intros a a' Ha b b' Hb st. unfold cat, bind. rewrite Ha. destruct (a' st) as [[x st1]|]; [|easy]. now rewrite Hb.
Qed.

Lemma cat_assoc a b c : a +=+ b +=+ c ≈ a +=+ (b +=+ c).
Proof.
  intros st. unfold cat, bind, ret. destruct (a st) as [[x st1]|]; [|easy]. destruct (b st1) as [[y st2]|]; [|easy].
  destruct (c st2) as [[z st3]|]; [|easy]. now rewrite app_assoc.
Qed.

Lemma cat_nil a : emit [] +=+ a ≈ a.
Proof. intros st. unfold cat, bind, emit, ret. now destruct (a st) as [[x st1]|]. Qed.

Lemma cat_nil_r a : a +=+ emit [] ≈ a.
Proof.
  intros st. unfold cat, bind, emit, ret. destruct (a st) as [[x st1]|]; [|easy]. now rewrite app_nil_r.
Qed.

Definition part_code (p : part) (offset : Z) : TM :=
  match p with
  | Do nm args can_check => process_normal nm args offset can_check
  | Load t nm a => resolve_for t +=+ process_normal nm [tmp t; a] offset false
  | Drop => release_tmp
  | Pad => emit [Text "NOP"]
  end.

Definition parts_code (ps : list part) (offset : Z) : TM :=
  fold_right (fun p c => part_code p offset +=+ c) (emit []) ps.

Definition end_code (en : ending) (offset : Z) (block_end : bool) : TM :=
  match en with
  | Fall => released block_end
  | Direct jump t => released true +=+ emit [Inst jump [AStr t]]
  | Through r => jump_register "JMP" r offset
  | Sys => emit [Inst "MOVABS" [AStr "R14"; AHex (offset - 2)]; Inst "JMP" [AStr "comp_syscall"]]
  end.

Lemma parts_app ps qs offset : parts_code (ps ++ qs) offset ≈ parts_code ps offset +=+ parts_code qs offset.
Proof.
  induction ps as [|p ps IH]; cbn [app parts_code fold_right]; [now rewrite cat_nil|].
  fold (parts_code (ps ++ qs) offset) (parts_code ps offset). now rewrite IH, cat_assoc.
Qed.

Lemma operand_size e : stack_operand e = true -> expr_size e = 64.
Proof. destruct e; try discriminate; apply Z.eqb_eq. Qed.

(** Both sides in the same brackets. *)
Ltac flat := cbn [parts_code fold_right part_code app]; rewrite ?cat_assoc, ?cat_nil_r.

Lemma push_code e offset : stack_operand e = true -> process_push e offset ≈ parts_code (push_parts e) offset.
Proof.
  intros H. pose proof (operand_size e H) as S. unfold process_push, push_parts. rewrite S.
  destruct e; try discriminate; cbn [expr_size] in S; subst; flat; reflexivity.
Qed.

Lemma pop_code e offset : stack_operand e = true -> process_pop e offset ≈ parts_code (pop_parts e) offset.
Proof.
  intros H. pose proof (operand_size e H) as S. unfold process_pop, pop_parts. rewrite S.
  destruct e; try discriminate; cbn [expr_size] in S; subst; flat; reflexivity.
Qed.

Lemma jump_code jump e offset last ps en : jump_parts jump e = Some (ps, en) ->
  process_jump jump e offset ≈ parts_code ps offset +=+ end_code en offset last.
Proof.
  unfold jump_parts. destruct e; try easy; try (destruct (String.eqb_spec jump "JMP") as [->|]; [|easy]);
    intros [= <- <-]; cbn [end_code process_jump]; flat; rewrite ?cat_nil; reflexivity.
Qed.

(** The parts and the ending are what [translate] emits. *)
Lemma translate_parts i offset last can_check ps en : line_parts i offset can_check = Some (ps, en) ->
  translate i offset last can_check ≈ parts_code ps offset +=+ end_code en offset last.
Proof.
  unfold line_parts, translate, special_inst_dispatch. destruct (is_in special_instruction (name i)).
  - destruct (_ || _); [intros [= <- <-]; flat; reflexivity|].
    destruct (String.eqb _ "CALL").
    { unfold with_arg. destruct (args i) as [|e rest]; [easy|].
      destruct (jump_parts "JMP" e) as [[qs en']|] eqn:J; [|easy]. intros [= <- <-].
      rewrite (jump_code "JMP" e offset last qs en' J), (push_code (ExprId "RT2" 64)) by reflexivity.
      unfold push_parts. flat. rewrite ?cat_nil. reflexivity. }
    destruct (String.eqb _ "PUSH").
    { unfold with_arg. destruct (args i) as [|e rest]; [easy|]. destruct (stack_operand e) eqn:S; [|easy].
      intros [= <- <-]. now rewrite push_code. }
    destruct (String.eqb _ "POP").
    { unfold with_arg. destruct (args i) as [|e rest]; [easy|]. destruct (stack_operand e) eqn:S; [|easy].
      intros [= <- <-]. now rewrite pop_code. }
    destruct (String.eqb _ "RET").
    { intros [= <- <-]. rewrite pop_code by reflexivity. unfold pop_parts. flat. rewrite ?cat_nil. reflexivity. }
    destruct (String.eqb _ "LEAVE").
    { intros [= <- <-]. rewrite pop_code by reflexivity. unfold pop_parts. flat. rewrite ?cat_nil. reflexivity. }
    destruct (String.eqb _ "SYSCALL"); [|easy]. intros [= <- <-]. flat. now rewrite cat_nil.
  - destruct (_ || _); [|intros [= <- <-]; flat; reflexivity].
    unfold with_arg. destruct (args i) as [|e rest]; [easy|]. intros J. now apply jump_code.
Qed.
End Code.

(** ** Parts that the translator can place *)

(** The map of registers between two parts: at most one temporary has a place. *)
Definition holding (h : option string) (m : regmap) : Prop :=
  stable_map m /\
  match h with
  | Some t => t ∈ temps /\ only_temp t m /\ exists p, holds m p = Some t
  | None => forall p t, t ∈ temps -> holds m p <> Some t
  end.

Lemma holding_next h m m' : holding h m -> stable_map m' -> same_temps m m' -> holding h m'.
Proof.
  intros [S H] S' T. split; [easy|]. destruct h as [t|].
  - destruct H as (Ht & O & p & Hp). split; [easy|]. split.
    + intros q v Hv Hq. apply (O q v Hv). now apply (T q v Hv).
    + exists p. now apply (T p t Ht).
  - intros p t Ht Hp. apply (H p t Ht). now apply (T p t Ht).
Qed.

Definition held_count (h : option string) : nat := match h with Some _ => 1 | None => 0 end.

Lemma holding_temps h m : holding h m -> (length (held_temps m) <= held_count h)%nat.
Proof.
  intros [S H]. destruct (stable_four m S) as (a & b & -> & Ha & Hb & Hab).
  assert (E : held_temps [("15", a); ("14", b); ("13", "SP"); ("12", "BP")] =
    ((if is_in temps a then [a] else []) ++ (if is_in temps b then [b] else []))%list).
  { unfold held_temps. cbn [map snd List.filter]. change (is_in temps "SP") with false.
    change (is_in temps "BP") with false. now destruct (is_in temps a), (is_in temps b). }
  rewrite E. destruct (is_in temps a) eqn:Ea, (is_in temps b) eqn:Eb; cbn [app length];
    rewrite ?is_in_elem in *; destruct h as [t|]; cbn [held_count]; try lia.
  - destruct H as (Ht & O & _). exfalso. pose proof (O "15" a Ea eq_refl) as ->. pose proof (O "14" b Eb eq_refl) as ->.
    apply Hab; [now apply temp_stable|easy].
  - now destruct (H "15" a Ea).
  - now destruct (H "15" a Ea).
  - now destruct (H "14" b Eb).
Qed.

Lemma drop_holds m p : wfm m ->
  holds (release_tmp_conflict m) p = option_map (fun v => if starts_with_T v then "" else v) (holds m p).
Proof.
  intros [K _]. map_cases K. unfold holds, release_tmp_conflict. cbn [map].
  assert (R : forall k v : string, (let '(k, v) := (k, v) in if starts_with_T v then (k, "") else (k, v)) =
    (k, if starts_with_T v then "" else v)) by (intros k v; now destruct (starts_with_T v)).
  rewrite !R. cbn [List.find fst].
  destruct (String.eqb "15" p); [easy|]. destruct (String.eqb "14" p); [easy|].
  destruct (String.eqb "13" p); [easy|]. now destruct (String.eqb "12" p).
Qed.

Lemma drop_keys m : map fst (release_tmp_conflict m) = map fst m.
Proof. unfold release_tmp_conflict. rewrite map_map. apply map_ext. intros [k v]. now destruct (starts_with_T v). Qed.

Lemma temp_T v : v = "" \/ v ∈ movable \/ v ∈ temps -> starts_with_T v = true <-> v ∈ temps.
Proof.
  intros [-> |[H|H]].
  - split; [discriminate|]. now intros Q%temp_stable.
  - rewrite movable_no_temp by easy. split; [discriminate|]. intros Q. now destruct (temp_not_movable v Q).
  - split; [easy|]. intros _. unfold temps in H. each H; reflexivity.
Qed.

(** The value of a place, with and without the temporaries. *)
Lemma drop_value m p v : stable_map m -> holds (release_tmp_conflict m) p = Some v ->
  v = "" \/ (holds m p = Some v /\ v ∉ temps).
Proof.
  intros S. rewrite drop_holds by apply S. destruct (holds m p) as [w|] eqn:E; [|easy]. cbn [option_map].
  destruct (starts_with_T w) eqn:T; intros [= <-]; [now left|right]. split; [easy|]. intros Q. unfold temps in Q. each Q.
Qed.

(** *** Maps without a register of the user *)

(** The registers that the translator moves are all in their places. *)
Definition blank (m : regmap) : Prop := forall v, v ∈ map snd m -> v ∉ movable.

Lemma hold_values p v (m : regmap) w : w ∈ map snd (hold p v m) -> w = v \/ w ∈ map snd m.
Proof.
  unfold hold. rewrite map_map. intros ([q x] & -> & H)%list_elem_of_fmap. cbn [fst].
  destruct (String.eqb q p); [now left|right]. apply list_elem_of_fmap. now exists (q, x).
Qed.

Lemma hold_blank p v m : v ∉ movable -> blank m -> blank (hold p v m).
Proof. intros N B w [->|H]%hold_values; [easy|now apply B]. Qed.

Lemma blank_block_init m : holding None m -> blank m -> m = block_init.
Proof.
  intros [S H] B. destruct (stable_four m S) as (a & b & -> & Ha & Hb & _). unfold blank in B. cbn [map snd] in B.
  assert (E : forall p v, holds [("15", a); ("14", b); ("13", "SP"); ("12", "BP")] p = Some v ->
    v ∈ [a; b; "SP"; "BP"] -> v = "" \/ v ∈ movable \/ v ∈ temps -> v = "").
  { intros p v Hp Hv [Q|[Q|Q]]; [easy|now destruct (B v Hv)|now destruct (H p v Q)]. }
  rewrite (E "15" a eq_refl ltac:(left) Ha), (E "14" b eq_refl ltac:(right; left) Hb). reflexivity.
Qed.

Section Blank.
Context {py : PySet} {py_ok : PySetOk py}.

Lemma resolve_blank offset todo : forall idle victims stable_victims m c m',
  resolve todo idle victims stable_victims offset m = Some (c, m') -> (forall v, v ∈ todo -> v ∉ movable) ->
  blank m -> blank m'.
Proof.
  induction todo as [|v todo IH]; intros idle victims stable m c m' E H B; [now injection E as _ <-|].
  cbn [resolve] in E.
  destruct idle as [|p idle]; [destruct victims as [|p victims]; [destruct stable as [|p stable]; [easy|]|]|];
    (destruct (resolve todo _ _ _ offset (hold p v m)) as [[c2 m2]|] eqn:E2; [|easy]);
    injection E as _ <-; (eapply IH; [exact E2|intros w Hw; apply H; now right|]);
    (apply hold_blank; [apply H; now left|easy]).
Qed.

Lemma conflict_blank m conflict offset c m' : conflict_resolve m conflict offset = Some (c, m') ->
  forallb (fun v => negb (is_in movable v)) conflict = true -> blank m -> blank m'.
Proof.
  unfold conflict_resolve. rewrite forallb_forall. intros E H. apply (resolve_blank _ _ _ _ _ _ _ _ E). intros v Hv.
  rewrite arrange_perm in Hv. unfold to_be_resolved in Hv. apply in_filter in Hv as [Hv _].
  apply list_elem_of_In, H, negb_true_iff in Hv. now apply is_in_not.
Qed.

Lemma recover_blank m : blank m -> blank (snd (recover_stable m)).
Proof.
  intros B. unfold recover_stable.
  assert (G : forall l c (m1 : regmap), (forall v, v ∈ l -> v ∉ movable) -> blank m1 -> blank
    (snd (fold_left (fun '(c, m1) v => let '(c', m1) := recover_one m v m1 in ((c ++ c')%list, m1)) l (c, m1)))).
  { induction l as [|v l IH]; intros c m1 H B1; [exact B1|]. cbn [fold_left].
    destruct (recover_one m v m1) as [c' m2] eqn:E. apply IH; [intros w Hw; apply H; now right|].
    unfold recover_one in E. destruct (starts_with_T v); [now injection E as _ <-|].
    destruct (inv m v); injection E as _ <-; [easy|]. apply hold_blank; [apply H; now left|easy]. }
  apply G; [|exact B]. intros v Hv Q. unfold stable_regs in Hv. each Hv; now apply is_in_elem in Q.
Qed.

Lemma process_blank nm args offset cc st c st' : process_normal nm args offset cc st = Some (c, st') ->
  forallb (fun v => negb (is_in movable v)) (conflict_regs_of (map arg_purify args)) = true ->
  blank (reg_map st) -> blank (reg_map st').
Proof.
  unfold process_normal. intros E H B. destruct (bases_to_check _ _ _) as [todo checked].
  destruct (length _ =? 0)%nat; [now injection E as _ <-|].
  destruct (conflict_resolve _ _ offset) as [[pre m1]|] eqn:Er; [|easy].
  destruct (apply_map _ m1); [|easy]. destruct (apply_map (map AExpr todo) m1); [|easy].
  assert (B1 : blank (release_IP m1)).
  { apply (conflict_blank _ _ _ _ _ Er H) in B. unfold release_IP. destruct (inv m1 "IP"); [|easy].
    apply hold_blank; [|easy]. intros Q. now apply is_in_elem in Q. }
  pose proof (recover_blank _ B1) as B2. destruct (recover_stable (release_IP m1)) as [post m3].
  now injection E as _ <-.
Qed.
End Blank.

Section Simulation.
Context {X : Type} {processor : Cpu X}.
Implicit Types (u : ustate X) (s : mstate X).

Lemma drop_agrees m u s : stable_map m -> agrees m u s -> agrees (release_tmp_conflict m) u s.
Proof.
  intros S [A1 A2 A3 A4]. split; try easy.
  - intros p v Hp N. apply (drop_value m _ _ S) in Hp as [|[Hp _]]; [easy|now apply A1].
  - intros v Hv Ho. apply A2; [easy|]. destruct Ho as [Ho|]; [left|now right]. intros p Hp. apply (Ho p).
    rewrite drop_holds, Hp by apply S. cbn. assert (T : starts_with_T v = false); [|now rewrite T].
    unfold homes in Hv. each Hv; reflexivity.
Qed.

Lemma drop_holding h m : holding h m -> holding None (release_tmp_conflict m).
Proof.
  intros [S _]. pose proof (sm_wfm m S) as [K U].
  split.
  - split; [split|..].
    + now rewrite drop_keys.
    + intros p q v Hp Hq N. apply (drop_value m _ _ S) in Hp as [|[Hp _]]; [easy|].
      apply (drop_value m _ _ S) in Hq as [|[Hq _]]; [easy|]. now apply (U p q v).
    + rewrite drop_holds, (sm_SP m S) by apply S. reflexivity.
    + rewrite drop_holds, (sm_BP m S) by apply S. reflexivity.
    + intros p v Hp P. apply (drop_value m _ _ S) in Hp as [|[Hp _]]; [now left|now apply (sm_free m S p)].
  - intros p t Ht Hp. apply (drop_value m _ _ S) in Hp as [->|[_ N]]; [now apply temp_stable in Ht|easy].
Qed.

(** *** Operands *)

Definition purified (i : inst) : list arg := map arg_purify (map AExpr (args i)).

(** A register whose size has a suffix; FS and GS are 64 bits wide. *)
Definition good_size (e : expr) : bool :=
  match e with
  | ExprId n size =>
      match reg_key n with
      | Some k => match sz2sfx size with Some _ => true | None => false end
                  && (negb (is_in segments k) || (size =? 64))
      | None => true
      end
  | _ => true
  end.

(** An operand that is not RIP, FS or GS itself. *)
Definition fixed : list string := ["IP"; "FS"; "GS"].
Definition unfixed (a : arg) : bool :=
  match a with
  | AExpr (ExprId n _) => match reg_key n with Some k => negb (is_in fixed k) | None => true end
  | _ => true
  end.
Definition no_rip (e : expr) : bool :=
  match e with ExprId n _ => match reg_key n with Some k => negb (String.eqb k "IP") | None => true end | _ => true end.

(** An expression, or an address without a scale. *)
Definition simple (a : arg) : bool :=
  match a with AExpr _ => true | ADict d => (length (mul d) =? 0)%nat | _ => false end.

(** An instruction can be placed beside the temporary [h]: it names no other, and with
    it at most two registers have to be found a place. *)
Definition fits (h : option string) (nm : string) (args : list arg) : bool :=
  forallb simple args
  && match map arg_purify args with AStr _ :: _ => false | _ => true end
  && forallb (fun v => negb (is_in temps v) || bool_decide (h = Some v)) (conflict_regs_of (map arg_purify args))
  && (length (unstable (conflict_regs_of (map arg_purify args))) + held_count h <=? 2)%nat
  && forallb good_size (flat_map extract_reg (map arg_purify args))
  && forallb unfixed (map arg_purify args)
  && forallb no_rip (get_mem_base nm (map arg_purify args)).

Record fitting (h : option string) (nm : string) (args : list arg) : Prop := {
  fi_scaled : forall d, ADict d ∈ map arg_purify args -> scaled d;
  fi_operands : user_operands (map arg_purify args);
  fi_temps : forall v, v ∈ conflict_regs_of (map arg_purify args) -> v ∈ temps -> h = Some v;
  fi_room : (length (unstable (conflict_regs_of (map arg_purify args))) + held_count h <= 2)%nat;
  fi_sized : forall e, e ∈ flat_map extract_reg (map arg_purify args) -> good_size e = true;
  fi_unfixed : forall a, a ∈ map arg_purify args -> unfixed a = true;
  fi_bases : forall e, e ∈ get_mem_base nm (map arg_purify args) -> no_rip e = true
}.

Lemma simple_scaled args d : forallb simple args = true -> ADict d ∈ map arg_purify args -> scaled d.
Proof.
  rewrite forallb_forall. intros H Hd. apply list_elem_of_fmap_1 in Hd as (a & Ha & Hin).
  apply list_elem_of_In, H in Hin. symmetry in Ha. apply purify_scaled in Ha as [(d0 & -> & ->)|Ha]; [|easy].
  cbn in Hin. left. now destruct (mul d).
Qed.

Lemma fits_spec h nm args : fits h nm args = true -> fitting h nm args.
Proof.
  unfold fits. rewrite !andb_true_iff, Nat.leb_le, !forallb_forall. intros ((((((H1 & H2) & H3) & H4) & H5) & H6) & H7).
  split; try (intros x Hx%list_elem_of_In; auto; fail).
  - intros d. apply simple_scaled. now apply forallb_forall.
  - intros t rest E. now rewrite E in H2.
  - intros v Hv Ht. apply list_elem_of_In, H3 in Hv. apply orb_true_iff in Hv as [Hv|Hv].
    + apply is_in_elem in Ht. now rewrite Ht in Hv.
    + now apply bool_decide_eq_true in Hv.
  - exact H4.
Qed.

Lemma fitting_plain h m nm args : holding h m -> fitting h nm args -> plain m (map arg_purify args).
Proof.
  intros H [_ F1 F2 F3 _ _ _]. split; [exact F1|..].
  - intros v Hv. destruct (decide (v ∈ temps)) as [Ht|Ht].
    + right. split; [easy|]. pose proof (F2 v Hv Ht) as ->. apply H.
    + left. apply special_user; [|easy]. now apply (conflict_regs_ok (map arg_purify args)).
  - pose proof (holding_temps h m H). unfold room. lia.
Qed.

Lemma fitting_sized h nm args : fitting h nm args -> sized (map arg_purify args).
Proof.
  intros F n size k He Hk Hs. pose proof (fi_sized _ _ _ F _ He) as G. cbn [good_size] in G. now rewrite Hk, Hs in G.
Qed.

(** Operands see the registers that [conflict_regs_of] finds. *)
Lemma args_ext args (f g : regfile) : (forall d, ADict d ∈ args -> scaled d) ->
  (forall k, k ∈ conflict_regs_of args -> f k = g k) -> map (arg_value f) args = map (arg_value g) args.
Proof.
  intros Sc H. assert (V : forall e, e ∈ flat_map extract_reg args -> value_of f e = value_of g e).
  { intros e He. destruct e as [n size| | | |]; try easy. cbn [value_of]. destruct (reg_key n) as [k|] eqn:Ek; [|easy].
    f_equal. apply H. now apply (key_in_conflict args _ n size k He). }
  assert (All : forall l, (forall a, a ∈ l -> a ∈ args) -> map (arg_value f) l = map (arg_value g) l).
  2:{ now apply All. }
  induction l as [|a l IH]; intros Hl; [easy|]. cbn [map]. f_equal; [|apply IH; intros x Hx; apply Hl; now right].
  assert (Ha : a ∈ args) by (apply Hl; now left).
  assert (R : forall e, e ∈ extract_reg a -> value_of f e = value_of g e).
  { intros e He. apply V, list_elem_of_In, in_flat_map. exists a. split; now apply list_elem_of_In. }
  destruct a as [e|d| | | |]; cbn [arg_value]; try easy.
  - destruct e as [n size| | | |]; try easy. apply R. now left.
  - cbn [extract_reg] in R. f_equal.
    + apply map_ext_in. intros e He. apply R, elem_of_app. left. now apply list_elem_of_In.
    + destruct (Sc d Ha) as [->|(n & ns & r & Hm)]; [easy|]. rewrite Hm in *. cbn [map]. f_equal. f_equal.
      apply R, elem_of_app. right. now left.
Qed.
End Simulation.

(** ** Parts on the machine *)

(** A move to a register does not read it before, and writes it only. *)
Class Moves {X : Type} (processor : Cpu X) : Prop := {
  load_new : forall nm a b v gp x, is_in ["MOV"; "MOVABS"] nm = true ->
    cpu nm [VReg a 64; v] gp x = cpu nm [VReg b 64; v] gp x;
  load_out : forall nm a v gp x outs gp' x', is_in ["MOV"; "MOVABS"] nm = true ->
    cpu nm [VReg a 64; v] gp x = Some (outs, gp', x') -> exists z, outs = [z]
}.

(** What a part is to the user, with the masks, and the bases that are checked then. *)
Definition part_args (p : part) : string * list arg * bool :=
  match p with
  | Do nm args can_check => (nm, map arg_purify args, can_check)
  | Load t nm a => (nm, [tmp t; arg_purify a], false)
  | Drop | Pad => ("", [], false)
  end.
Definition part_body (p : part) (checked : list expr) : code :=
  match p with
  | Drop | Pad => []
  | _ => let '(nm, pargs, cc) := part_args p in body nm pargs (fst (bases_to_check nm pargs checked)) cc
  end.
Definition part_checked (p : part) (checked : list expr) : list expr :=
  match p with
  | Drop | Pad => checked
  | _ => let '(nm, pargs, _) := part_args p in snd (bases_to_check nm pargs checked)
  end.

(** With [h] the temporary that has a place. *)
Definition part_ok (p : part) (h : option string) : bool :=
  match p with
  | Do nm args _ => fits h nm args
  | Load t nm a =>
      is_in temps t && (match h with Some k => String.eqb k t | None => true end)
      && is_in ["MOV"; "MOVABS"] nm
      && forallb (fun v => negb (is_in temps v)) (conflict_regs_of [arg_purify a])
      && fits (Some t) nm [tmp t; a]
  | Drop | Pad => true
  end.
Definition part_held (p : part) (h : option string) : option string :=
  match p with Load t _ _ => Some t | Drop => None | _ => h end.

(** No register of the user has to be moved for a part. *)
Definition unmoved (p : part) : bool :=
  match p with
  | Do _ args _ => forallb (fun v => negb (is_in movable v)) (conflict_regs_of (map arg_purify args))
  | Load t _ a => forallb (fun v => negb (is_in movable v)) (conflict_regs_of [tmp t; arg_purify a])
  | Drop | Pad => true
  end.

Section Simulation.
Context {X : Type} {processor : Cpu X} {py : PySet} {py_ok : PySetOk py}.
Implicit Types (u : ustate X) (s : mstate X).

Lemma simulates_same m b c s u v : both (same eq) (run user_step b u) (run user_step b v) ->
  simulates b u c s m -> simulates b v c s m.
Proof.
  unfold simulates. destruct (run user_step b u) as [u'|], (run user_step b v) as [v'|]; cbn; try easy.
  intros S (s' & R & A). exists s'. split; [exact R|]. now apply (agrees_same _ u').
Qed.

Lemma tmp_key t : t ∈ temps -> reg_key ("R" +:+ t) = Some t.
Proof. intros H. unfold temps in H. each H; reflexivity. Qed.

(** A load gives the same, whatever the temporary was. *)
Lemma load_same {moves : Moves processor} t nm a u z : t ∈ temps -> is_in ["MOV"; "MOVABS"] nm = true ->
  (forall d, ADict d ∈ [arg_purify a] -> scaled d) -> t ∉ conflict_regs_of [arg_purify a] ->
  both (same eq) (run user_step [Inst nm [tmp t; arg_purify a]] (write_reg t z u))
    (run user_step [Inst nm [tmp t; arg_purify a]] u).
Proof.
  intros Ht Hn Sc Na. pose proof (tmp_key t Ht) as K. cbn [run user_step].
  assert (V : arg_value (u_reg (write_reg t z u)) (arg_purify a) = arg_value (u_reg u) (arg_purify a)).
  { pose proof (args_ext [arg_purify a] (u_reg (write_reg t z u)) (u_reg u) Sc) as E. cbn [map] in E.
    enough ([arg_value (u_reg (write_reg t z u)) (arg_purify a)] = [arg_value (u_reg u) (arg_purify a)]) by congruence.
    apply E. intros k Hk. cbn. rewrite fn_lookup_insert_ne; [easy|]. now intros ->. }
  cbn [map]. rewrite V. unfold tmp. cbn [arg_value value_of]. rewrite K. cbn [u_gp u_rest write_reg].
  rewrite (load_new nm _ (u_reg u t)) by easy.
  destruct (cpu nm _ (u_gp u) (u_rest u)) as [[[outs gp] x]|] eqn:E; [|easy].
  destruct (load_out _ _ _ _ _ _ _ _ Hn E) as [o ->]. cbn [both].
  assert (W : forall f : regfile, write_back f [AExpr (ExprId ("R" +:+ t) 64); arg_purify a] [o] = <[t := o]> f).
  { intros f. cbn [write_back]. rewrite K. now destruct (arg_purify a) as [[]| | | | |]. }
  rewrite !W. split; [|easy|easy]. intros j. cbn [write_reg u_reg].
  destruct (decide (j = t)) as [->|N]; [now rewrite !fn_lookup_insert|now rewrite !fn_lookup_insert_ne by congruence].
Qed.

Lemma write_reg_keep t z u k : k <> t -> u_reg (write_reg t z u) k = u_reg u k.
Proof. intros N. cbn. now rewrite fn_lookup_insert_ne by congruence. Qed.

Lemma part_sim {moves : Moves processor} p h offset st c st' u s :
  part_code p offset st = Some (c, st') -> part_ok p h = true -> holding h (reg_map st) ->
  agrees (reg_map st) u s -> u_reg u "IP" = u64 offset -> keeps segments (part_body p (checked_regs st)) u ->
  checked_regs st' = part_checked p (checked_regs st) /\ holding (part_held p h) (reg_map st') /\
  simulates (part_body p (checked_regs st)) u c s (reg_map st').
Proof.
  intros E O H A Ip Ks. destruct p as [nm args cc|t nm a| |]; cbn [part_code part_ok part_held part_body part_args] in *.
  - apply fits_spec in O.
    destruct (process_normal_sim nm args offset cc st c st' u s E) as (Ec & M & T & Sim); try easy;
      [apply H|now apply (fitting_plain h _ nm)|apply O|].
    split; [exact Ec|]. split; [now apply (holding_next h (reg_map st))|exact Sim].
  - rewrite !andb_true_iff in O. destruct O as ((((Ht & Hh) & Hn) & Hc) & Hf). apply is_in_elem in Ht.
    rewrite forallb_forall in Hc.
    assert (Na : t ∉ conflict_regs_of [arg_purify a]).
    { intros Q. apply list_elem_of_In, Hc in Q. apply is_in_elem in Ht. now rewrite Ht in Q. }
    assert (Oo : only_temp t (reg_map st)).
    { destruct H as [_ H]. destruct h as [k|]; [apply String.eqb_eq in Hh as ->; apply H|].
      intros p v Hv Hp. now destruct (H p v Hv). }
    apply fits_spec in Hf. unfold cat, bind, resolve_for in E.
    destruct (resolve_temp_spec t (reg_map st) u s Ht (proj1 H) A Oo) as (c1 & m1 & s1 & z & E1 & R1 & A1 & S1 & O1 & P1).
    rewrite E1 in E.
    destruct (process_normal nm [tmp t; a] offset false (set_reg_map m1 st)) as [[c2 st2]|] eqn:E2; [|easy].
    injection E as <- <-.
    assert (H1 : holding (Some t) m1) by (split; [easy|]; now split).
    assert (Sc : forall d, ADict d ∈ [arg_purify a] -> scaled d)
      by (intros d Hd; apply (fi_scaled _ _ _ Hf); now right).
    pose proof (load_same t nm a u z Ht Hn Sc Na) as Same.
    destruct (process_normal_sim nm [tmp t; a] offset false (set_reg_map m1 st) c2 st2 (write_reg t z u) s1 E2)
      as (Ec & M & T & Sim); try easy.
    + rewrite write_reg_keep; [easy|]. intros <-. now apply is_in_elem in Ht.
    + now apply (fitting_plain (Some t) _ nm).
    + apply Hf.
    + intros u2 E3 k Hk. cbn [map] in *. change (arg_purify (tmp t)) with (tmp t) in *.
      cbn [set_reg_map checked_regs] in *. unfold keeps in Ks. unfold body in *.
      rewrite !check_code_false in *. cbn [app] in *. rewrite E3 in Same.
      destruct (run user_step [Inst nm [tmp t; arg_purify a]] u) as [u3|]; [|easy].
      rewrite (sa_reg _ _ _ Same), write_reg_keep; [now apply Ks|]. intros ->.
      now apply (temp_not_home t), segment_home.
    + split; [exact Ec|]. split; [now apply (holding_next (Some t) m1)|].
      unfold simulates in *. cbn [map set_reg_map checked_regs] in *. change (arg_purify (tmp t)) with (tmp t) in *.
      unfold body in *. rewrite !check_code_false in *. cbn [app] in *.
      pose proof (simulates_same _ _ _ _ _ _ Same Sim) as Sim'. unfold simulates in Sim'. rewrite run_app, R1. exact Sim'.
  - injection E as <- <-. split; [easy|]. split; [now apply (drop_holding h)|]. exists s. split; [easy|].
    apply drop_agrees; [apply H|easy].
  - injection E as <- <-. split; [easy|]. split; [easy|]. now exists s.
Qed.

Lemma part_blank p h offset st c st' : part_code p offset st = Some (c, st') -> part_ok p h = true -> unmoved p = true ->
  blank (reg_map st) -> blank (reg_map st').
Proof.
  intros E O U B. destruct p as [nm args cc|t nm a| |]; cbn [part_code unmoved part_ok] in *.
  - exact (process_blank _ _ _ _ _ _ _ E U B).
  - rewrite !andb_true_iff in O. destruct O as ((((Ht & _) & _) & _) & _). apply is_in_elem in Ht.
    unfold cat, bind, resolve_for in E. destruct (conflict_resolve _ _ 0) as [[c1 m1]|] eqn:Er; [|easy].
    destruct (process_normal nm [tmp t; a] offset false (set_reg_map m1 st)) as [[c2 st2]|] eqn:E2; [|easy].
    injection E as _ <-. apply (process_blank _ _ _ _ _ _ _ E2 U). apply (conflict_blank _ _ _ _ _ Er); [|exact B].
    cbn [forallb]. rewrite andb_true_r, negb_true_iff, is_in_not. now apply temp_not_movable.
  - injection E as _ <-. cbn [reg_map set_reg_map release_tmp_conflict]. intros v Hv.
    unfold release_tmp_conflict in Hv. rewrite map_map in Hv. apply list_elem_of_fmap in Hv as ([k w] & -> & Hk).
    destruct (starts_with_T w); [intros Q; now apply is_in_elem in Q|]. apply B, list_elem_of_fmap. now exists (k, w).
  - now injection E as _ <-.
Qed.
End Simulation.
