(* ===== verification/Lines.v ===== *)
(** Lines and blocks: the parts of all lines in turn, the jump at the end, and that
    the translator finds registers for the lines that it supports. *)
From Stdlib Require Import ZArith Lia Bool String.
From stdpp Require Import base strings functions list.
From S2P Require Import Prelude Conflict Translate Machine ConflictSpec TranslateSpec Parts.

Local Open Scope string_scope.
Local Open Scope Z_scope.
Local Open Scope ub_scope.

(** ** The parts of a line *)

Fixpoint parts_body (ps : list part) (checked : list expr) : code :=
  match ps with
  | [] => []
  | p :: ps => (part_body p checked ++ parts_body ps (part_checked p checked))%list
  end.
Definition parts_checked (ps : list part) (checked : list expr) : list expr :=
  fold_left (fun checked p => part_checked p checked) ps checked.

Fixpoint parts_ok (ps : list part) (h : option string) : bool :=
  match ps with [] => true | p :: ps => part_ok p h && parts_ok ps (part_held p h) end.
Definition parts_held (ps : list part) (h : option string) : option string :=
  fold_left (fun h p => part_held p h) ps h.

(** A jump goes through the temporary or a register that keeps its place. *)
Definition end_ok (en : ending) (h : option string) : bool :=
  match en with
  | Fall => match h with None => true | Some _ => false end
  | Direct _ _ => true
  | Through r => is_in gp_names r || (String.eqb r "RT2" && match h with Some t => String.eqb t "T2" | None => false end)
  | Sys => match h with None => true | Some _ => false end
  end.

Definition supported (i : inst) : bool :=
  match line_parts i 0 true with
  | Some (ps, en) => parts_ok ps None && end_ok en (parts_held ps None)
  | None => false
  end.
Definition line_ending (i : inst) : ending :=
  match line_parts i 0 true with Some (_, en) => en | None => Fall end.
Definition falls_line (i : inst) : bool := match line_ending i with Fall => true | _ => false end.

Definition lines_ending (lines : list inst) : ending :=
  match last lines with Some i => line_ending i | None => Fall end.

(** No register of the user is moved for the line. *)
Definition unmoved_line (i : inst) : bool :=
  match line_parts i 0 true with Some (ps, _) => forallb unmoved ps | None => false end.
Definition ends_in_call (lines : list inst) : bool := match lines_ending lines with Sys => true | _ => false end.

(** Only the last line of a block may jump. Before a system call the translator does not
    write the registers back, so none may have been moved. *)
Fixpoint lines_ok (lines : list inst) : bool :=
  match lines with
  | [] => true
  | i :: rest =>
      supported i
      && match rest with [] => true | _ => falls_line i && (unmoved_line i || negb (ends_in_call rest)) end
      && lines_ok rest
  end.
Definition lines_end (lines : list inst) (offset : Z) : Z := fold_left (fun z i => z + l i) lines offset.

(** The code of the ending behind the registers that are written back. *)
Definition tail (en : ending) (offset : Z) : code :=
  match en with
  | Fall => []
  | Direct jump t => [Inst jump [AStr t]]
  | Through _ => [Inst "JMP" [ALabel "ij_" offset]]
  | Sys => [Inst "JMP" [AStr "comp_syscall"]]
  end.

(** What the user's line is in the parts, with the masks. *)
Definition line_body (i : inst) (offset : Z) (checked : list expr) (can_check : bool) : code :=
  match line_parts i offset can_check with Some (ps, _) => parts_body ps checked | None => [] end.
Definition line_checked (i : inst) (checked : list expr) : list expr :=
  match line_parts i 0 true with Some (ps, _) => parts_checked ps checked | None => checked end.

(** Address and masks are of no account for the rest. *)
Definition alike (a b : option (list part * ending)) : Prop :=
  match a, b with
  | Some (ps, en), Some (qs, en') => en = en' /\ parts_ok ps None = parts_ok qs None /\
      parts_held ps None = parts_held qs None /\ forallb unmoved ps = forallb unmoved qs /\
      forall checked, parts_checked ps checked = parts_checked qs checked
  | None, None => True
  | _, _ => False
  end.

Lemma line_parts_alike i offset can_check : alike (line_parts i 0 true) (line_parts i offset can_check).
Proof.
  unfold line_parts. destruct (is_in special_instruction (name i)).
  - destruct (_ || _); [now cbn|]. destruct (String.eqb _ "CALL").
    { destruct (args i) as [|e rest]; [easy|]. destruct (jump_parts "JMP" e) as [[ps en]|]; [|easy].
      repeat (split; [reflexivity|]). reflexivity. }
    destruct (String.eqb _ "PUSH").
    { destruct (args i) as [|e rest]; [easy|]. destruct (stack_operand e); [now split|easy]. }
    destruct (String.eqb _ "POP").
    { destruct (args i) as [|e rest]; [easy|]. destruct (stack_operand e); [now split|easy]. }
    destruct (String.eqb _ "RET"); [now cbn|]. destruct (String.eqb _ "LEAVE"); [now split|].
    now destruct (String.eqb _ "SYSCALL").
  - destruct (_ || _); [|easy]. destruct (args i) as [|e rest]; [easy|].
    now destruct (jump_parts (name i) e) as [[]|].
Qed.

Lemma supported_parts i offset can_check : supported i = true -> exists ps,
  line_parts i offset can_check = Some (ps, line_ending i) /\ parts_ok ps None = true /\
  end_ok (line_ending i) (parts_held ps None) = true /\ forallb unmoved ps = unmoved_line i /\
  forall checked, parts_checked ps checked = line_checked i checked.
Proof.
  unfold supported, line_ending, line_checked, unmoved_line. pose proof (line_parts_alike i offset can_check) as A.
  destruct (line_parts i 0 true) as [[ps en]|]; [|easy]. rewrite andb_true_iff. intros [P E].
  destruct (line_parts i offset can_check) as [[qs en']|]; [|easy]. destruct A as (<- & H1 & H2 & Hu & H3).
  exists qs. split; [easy|]. split; [congruence|]. split; [congruence|]. split; [easy|]. intros checked. now rewrite H3.
Qed.

(** ** The map of registers *)

Lemma stable_no_IP m p : stable_map m -> holds m p <> Some "IP".
Proof.
  intros S Hp. destruct (stable_four m S) as (a & b & -> & Ha & Hb & _).
  assert (N : forall v, v = "" \/ v ∈ movable \/ v ∈ temps -> v <> "IP").
  { intros v [->|[Hv|Hv]]; [easy|..]; intros ->; now apply is_in_elem in Hv. }
  pose proof (holds_phys _ p _ (wf_keys _ (sm_wfm _ S)) Hp) as P.
  apply in_phys in P as [-> | [-> | [-> | ->]]]; cbn in Hp; injection Hp as E; try easy; now apply (N "IP"); subst.
Qed.

Lemma block_init_stable : stable_map block_init.
Proof.
  split; [split; [easy|]|easy|easy|].
  - intros p q v Hp Hq N. pose proof (holds_phys block_init p v eq_refl Hp) as P1.
    pose proof (holds_phys block_init q v eq_refl Hq) as P2.
    apply in_phys in P1 as [-> | [-> | [-> | ->]]], P2 as [-> | [-> | [-> | ->]]]; cbn in Hp, Hq; congruence.
  - intros p v H [-> | ->]; cbn in H; left; congruence.
Qed.

Lemma block_init_holding : holding None block_init.
Proof.
  split; [exact block_init_stable|]. intros p t Ht Hp. unfold temps in Ht.
  pose proof (holds_phys block_init p t eq_refl Hp) as P. apply in_phys in P as [-> | [-> | [-> | ->]]];
    cbn in Hp; injection Hp as <-; now apply is_in_elem in Ht.
Qed.

(** RIP is the address behind the line. *)
Definition at_rip {X : Type} (z : Z) (u : ustate X) : ustate X := write_reg "IP" (u64 z) u.

Lemma at_rip_agrees {X : Type} m (u : ustate X) s z : stable_map m -> agrees m u s -> agrees m (at_rip z u) s.
Proof.
  intros S A. apply agrees_other; [easy|now intros Q%homes_named|]. intros p. now apply stable_no_IP.
Qed.

(** The map does not depend on the processor, so any one will do here. *)
Definition halt : Cpu unit := {| cpu := fun _ _ _ _ => None |}.
#[local] Instance halt_moves : Moves halt.
Proof. split; easy. Qed.

Lemma part_map {py : PySet} {py_ok : PySetOk py} p h offset st c st' :
  part_code p offset st = Some (c, st') -> part_ok p h = true -> holding h (reg_map st) ->
  checked_regs st' = part_checked p (checked_regs st) /\ holding (part_held p h) (reg_map st').
Proof.
  intros E O H.
  assert (A : agrees (reg_map st) (U (fun _ => 0) [] tt) (MState (fun _ => 0) (fun _ => 0) [] tt)) by now split.
  apply (at_rip_agrees _ _ _ offset (proj1 H)) in A.
  destruct (part_sim (processor := halt) p h offset st c st' _ _ E O H A) as (Ec & Hm & _); [reflexivity| |easy].
  intros u' R. destruct p as [nm args cc|t nm a| |]; cbn [part_body part_args] in R.
  - unfold body in R. destruct (check_code_cases (map AExpr (fst (bases_to_check nm (map arg_purify args)
      (checked_regs st)))) cc) as [Eb | (r & _ & Eb)]; rewrite Eb in R; discriminate R.
  - unfold body in R. rewrite check_code_false in R. discriminate R.
  - injection R as <-. easy.
  - injection R as <-. easy.
Qed.

Section Maps.
Context {py : PySet} {py_ok : PySetOk py}.

Lemma parts_map ps : forall h offset st c st', parts_code ps offset st = Some (c, st') -> parts_ok ps h = true ->
  holding h (reg_map st) ->
  checked_regs st' = parts_checked ps (checked_regs st) /\ holding (parts_held ps h) (reg_map st').
Proof.
  induction ps as [|p ps IH]; intros h offset st c st' E O H; [now injection E as <- <-|].
  change (parts_code (p :: ps) offset) with (cat (part_code p offset) (parts_code ps offset)) in E.
  cbn [parts_ok] in O. apply andb_prop in O as [Op O]. unfold cat, bind in E.
  destruct (part_code p offset st) as [[c1 st1]|] eqn:E1; [|easy].
  destruct (parts_code ps offset st1) as [[c2 st2]|] eqn:E2; [|easy]. injection E as <- <-.
  destruct (part_map p h offset st c1 st1 E1 Op H) as [Ec H1]. cbn [parts_checked fold_left parts_held].
  rewrite <- Ec. exact (IH _ _ _ _ _ E2 O H1).
Qed.

Lemma parts_blank ps : forall h offset st c st', parts_code ps offset st = Some (c, st') -> parts_ok ps h = true ->
  forallb unmoved ps = true -> blank (reg_map st) -> blank (reg_map st').
Proof.
  induction ps as [|p ps IH]; intros h offset st c st' E O U B; [now injection E as _ <-|].
  change (parts_code (p :: ps) offset) with (cat (part_code p offset) (parts_code ps offset)) in E.
  cbn [parts_ok forallb] in *. apply andb_prop in O as [Op O]. apply andb_prop in U as [Up U]. unfold cat, bind in E.
  destruct (part_code p offset st) as [[c1 st1]|] eqn:E1; [|easy].
  destruct (parts_code ps offset st1) as [[c2 st2]|] eqn:E2; [|easy]. injection E as _ <-.
  exact (IH _ _ _ _ _ E2 O U (part_blank p h offset st c1 st1 E1 Op Up B)).
Qed.

(** The code of a line: that of its parts and that of its ending. *)
Lemma line_split i offset last can_check st c st' : supported i = true -> holding None (reg_map st) ->
  translate i offset last can_check st = Some (c, st') -> exists ps c1 c2 st1,
  line_parts i offset can_check = Some (ps, line_ending i) /\ parts_ok ps None = true /\
  parts_code ps offset st = Some (c1, st1) /\ end_code (line_ending i) offset last st1 = Some (c2, st') /\
  c = (c1 ++ c2)%list /\ checked_regs st1 = line_checked i (checked_regs st) /\
  holding (parts_held ps None) (reg_map st1) /\ end_ok (line_ending i) (parts_held ps None) = true /\
  (unmoved_line i = true -> blank (reg_map st) -> blank (reg_map st1)).
Proof.
  intros S H E. destruct (supported_parts i offset can_check S) as (ps & L & P & En & Um & Ck).
  rewrite (translate_parts i offset last can_check ps _ L) in E. unfold cat, bind in E.
  destruct (parts_code ps offset st) as [[c1 st1]|] eqn:E1; [|easy].
  destruct (end_code (line_ending i) offset last st1) as [[c2 st2]|] eqn:E2; [|easy]. injection E as <- <-.
  destruct (parts_map ps None offset st c1 st1 E1 P H) as [Ec Hm].
  exists ps, c1, c2, st1. rewrite Ec, Ck. repeat (split; [easy|]). rewrite <- Um.
  exact (parts_blank ps None offset st c1 st1 E1 P).
Qed.

Lemma end_state en offset last st c st' : end_code en offset last st = Some (c, st') -> st' = st.
Proof.
  destruct en as [|jump t|r|]; try now intros [= _ <-]. cbn [end_code]. unfold jump_register, cat, bind, released.
  destruct (reverse_reg (reg_map st) r); [|easy]. now intros [= _ <-].
Qed.

Lemma line_map i offset last can_check st c st' : supported i = true -> holding None (reg_map st) ->
  translate i offset last can_check st = Some (c, st') ->
  checked_regs st' = line_checked i (checked_regs st) /\ (falls_line i = true -> holding None (reg_map st')) /\
  (unmoved_line i = true -> blank (reg_map st) -> blank (reg_map st')).
Proof.
  intros S H E. destruct (line_split i offset last can_check st c st' S H E)
    as (ps & c1 & c2 & st1 & _ & _ & _ & E2 & _ & Ec & Hm & En & Bl).
  apply end_state in E2 as ->. split; [easy|]. split; [|easy]. unfold falls_line. destruct (line_ending i); try easy. intros _.
  cbn [end_ok] in En. now destruct (parts_held ps None).
Qed.

Lemma end_tail en offset st c st' : end_code en offset true st = Some (c, st') ->
  exists c0, c = (c0 ++ tail en offset)%list.
Proof.
  destruct en as [|jump t|r|]; cbn [end_code tail].
  - intros _. exists c. now rewrite app_nil_r.
  - intros [= <- _]. now eexists.
  - unfold jump_register, cat, bind, released. destruct (reverse_reg (reg_map st) r); [|easy]. intros [= <- _].
    rewrite app_assoc. now eexists.
  - intros [= <- _]. now exists [Inst "MOVABS" [AStr "R14"; AHex (offset - 2)]].
Qed.

Lemma sys_parts i offset cc ps : line_parts i offset cc = Some (ps, Sys) -> ps = [].
Proof.
  assert (Jump : forall jump e qs en, jump_parts jump e = Some (qs, en) -> en <> Sys).
  { intros jump e qs en. unfold jump_parts. destruct e; try easy; try (destruct (String.eqb jump "JMP"); [|easy]);
      now intros [= <- <-]. }
  unfold line_parts. destruct (is_in special_instruction (name i)).
  - destruct (_ || _); [easy|]. destruct (String.eqb _ "CALL").
    { destruct (args i) as [|e rest]; [easy|]. destruct (jump_parts "JMP" e) as [[qs en]|] eqn:J; [|easy].
      intros [= _ ->]. now destruct (Jump _ _ _ _ J). }
    destruct (String.eqb _ "PUSH"). { destruct (args i) as [|e rest]; [easy|]. now destruct (stack_operand e). }
    destruct (String.eqb _ "POP"). { destruct (args i) as [|e rest]; [easy|]. now destruct (stack_operand e). }
    destruct (String.eqb _ "RET"); [easy|]. destruct (String.eqb _ "LEAVE"); [easy|].
    destruct (String.eqb _ "SYSCALL"); [|easy]. now intros [= <-].
  - destruct (_ || _); [|easy]. destruct (args i) as [|e rest]; [easy|]. intros J. now destruct (Jump _ _ _ _ J).
Qed.

(** The code of a block ends in the jump. *)
Lemma translate_lines_tail lines : forall ccs offset st c st', length ccs = length lines -> lines_ok lines = true ->
  holding None (reg_map st) -> translate_lines lines ccs offset st = Some (c, st') ->
  exists c0, c = (c0 ++ tail (lines_ending lines) (lines_end lines offset))%list.
Proof.
  induction lines as [|i lines IH]; intros [|cc ccs] offset st c st' Len O H E; try easy.
  { injection E as <- <-. now exists []. }
  cbn [translate_lines lines_ok] in *. apply andb_prop in O as [[S F]%andb_prop O]. unfold cat, bind in E.
  destruct (translate i (offset + l i) (length lines =? 0)%nat cc st) as [[c1 st1]|] eqn:E1; [|easy].
  destruct (translate_lines lines ccs (offset + l i) st1) as [[c2 st2]|] eqn:E2; [|easy].
  injection E as <- <-. destruct lines as [|i2 lines].
  - destruct ccs; [|easy]. injection E2 as <- <-. rewrite app_nil_r.
    destruct (line_split i _ _ cc st c1 st1 S H E1) as (ps & c3 & c4 & st3 & _ & _ & _ & E4 & -> & _).
    apply end_tail in E4 as [c5 ->]. exists (c3 ++ c5)%list. apply app_assoc.
  - apply andb_prop in F as [F _]. destruct (line_map i _ _ cc st c1 st1 S H E1) as (_ & H1 & _).
    destruct (IH ccs _ st1 c2 st2 ltac:(now injection Len) O (H1 F) E2) as [c3 ->].
    exists (c1 ++ c3)%list. apply app_assoc.
Qed.
End Maps.

Section Simulation.
Context {X : Type} {processor : Cpu X} {moves : Moves processor} {py : PySet} {py_ok : PySetOk py}.
Implicit Types (u : ustate X) (s : mstate X).

(** Along the parts, RIP and the bases of FS and GS are kept. *)
Fixpoint parts_keep (ps : list part) (checked : list expr) u : Prop :=
  match ps with
  | [] => True
  | p :: ps => keeps fixed (part_body p checked) u /\
      forall u', run user_step (part_body p checked) u = Some u' -> parts_keep ps (part_checked p checked) u'
  end.

Lemma fixed_segments k : k ∈ segments -> k ∈ fixed.
Proof. unfold segments, fixed. rewrite !elem_of_cons, !elem_of_nil. tauto. Qed.

Lemma parts_sim ps : forall h offset st c st' u s,
  parts_code ps offset st = Some (c, st') -> parts_ok ps h = true -> holding h (reg_map st) ->
  agrees (reg_map st) u s -> u_reg u "IP" = u64 offset -> parts_keep ps (checked_regs st) u ->
  simulates (parts_body ps (checked_regs st)) u c s (reg_map st').
Proof.
  induction ps as [|p ps IH]; intros h offset st c st' u s E O H A Ip K.
  { injection E as <- <-. now exists s. }
  change (parts_code (p :: ps) offset) with (cat (part_code p offset) (parts_code ps offset)) in E.
  cbn [parts_ok parts_keep] in *. apply andb_prop in O as [Op O]. destruct K as [Kp K].
  unfold cat, bind in E. destruct (part_code p offset st) as [[c1 st1]|] eqn:E1; [|easy].
  destruct (parts_code ps offset st1) as [[c2 st2]|] eqn:E2; [|easy].
  injection E as <- <-.
  destruct (part_sim p h offset st c1 st1 u s E1 Op H A Ip) as (Ec & H1 & Sim).
  { intros u' R k Hk. now apply Kp, fixed_segments. }
  cbn [parts_body]. rewrite <- Ec in *. unfold simulates in *. rewrite !run_app.
  destruct (run user_step (part_body p (checked_regs st)) u) as [u1|] eqn:Eu; [|now rewrite Sim].
  destruct Sim as (s1 & R1 & A1). rewrite R1. apply (IH _ offset st1 c2 st2 u1 s1 E2 O H1 A1); [|now apply K].
  rewrite (Kp u1 Eu "IP"); [easy|now left].
Qed.

(** *** The end of a line *)

(** Where the user goes through a register. *)
Definition jump_value (r : string) u : option Z :=
  match reg_key r with Some k => Some (u_reg u k) | None => gp_reg r (u_gp u) end.

(** All registers are back, and the address is in R14; of a system call, that of the
    instruction, two bytes before RIP. *)
Definition ended (en : ending) u (o : option (mstate X)) : Prop :=
  match en with
  | Through r =>
      match jump_value r u with
      | Some z => exists s, o = Some s /\ agrees block_init u s /\ p_reg s "14" = z
      | None => o = None
      end
  | Sys => exists s, o = Some s /\ agrees block_init u s /\ p_reg s "14" = u64 (u_reg u "IP" - 2)
  | _ => exists s, o = Some s /\ agrees block_init u s
  end.

Lemma agrees_idle m u s p z : wfm m -> holds m p = Some "" -> agrees m u s -> agrees m u (put_reg p z s).
Proof.
  intros W Hp [A1 A2 A3 A4]. split; try easy. intros q v Hq N. cbn. rewrite fn_lookup_insert_ne; [now apply A1|].
  intros <-. congruence.
Qed.

(** The move to R14. *)
Lemma to_R14_temp u s p : p ∈ phys -> agrees block_init u s ->
  exists s', run machine_step (if String.eqb p "14" then [] else [Inst "MOV" [AStr "R14"; R p]]) s = Some s' /\
    agrees block_init u s' /\ p_reg s' "14" = p_reg s p.
Proof.
  intros P A. destruct (String.eqb_spec p "14") as [->|N]; [now exists s|].
  exists (put_reg "14" (p_reg s p) s). split; [|split].
  - unfold phys in P. each P; reflexivity.
  - now apply agrees_idle; [apply block_init_stable| |].
  - cbn. apply fn_lookup_insert.
Qed.

Lemma to_R14_gp u s r : is_in gp_names r = true -> agrees block_init u s -> exists k,
  (forall m, reverse_reg m r = Some k) /\ String.eqb k "14" = false /\
  match jump_value r u with
  | Some z => exists s', run machine_step [Inst "MOV" [AStr "R14"; R k]] s = Some s' /\
      agrees block_init u s' /\ p_reg s' "14" = z
  | None => run machine_step [Inst "MOV" [AStr "R14"; R k]] s = None
  end.
Proof.
  intros Hr A. exists (slice 1 3 r). apply is_in_elem in Hr.
  assert (E : reg_key r = None /\ "R" +:+ slice 1 3 r = r /\ String.eqb (slice 1 3 r) "14" = false /\
    is_in special_regs (slice 1 3 r) = false /\ machine_reg r = None /\ stack_slot r = None).
  { unfold gp_names in Hr. each Hr; repeat split; reflexivity. }
  destruct E as (E1 & E2 & E3 & E4 & E5 & E6). split; [|split; [easy|]].
  - intros m. unfold reverse_reg. now rewrite E4.
  - unfold jump_value, R. rewrite E1, E2, <- (ag_gp _ _ _ A). cbn [run machine_step].
    change (String.eqb "MOV" "MOV") with true. cbv iota. unfold move. change (machine_reg "R14") with (Some "14").
    rewrite E5, E6. destruct (gp_reg r (p_gp s)) as [z|]; [|easy]. eexists. split; [reflexivity|]. split.
    + now apply (agrees_idle block_init u s "14" z); [apply block_init_stable| |].
    + cbn. apply fn_lookup_insert.
Qed.

Lemma end_sim en h offset st c st' u s : end_code en offset true st = Some (c, st') ->
  end_ok en h = true -> holding h (reg_map st) -> agrees (reg_map st) u s ->
  (en = Sys -> blank (reg_map st) /\ u_reg u "IP" = u64 offset) ->
  exists c0, c = (c0 ++ tail en offset)%list /\ ended en u (run machine_step c0 s).
Proof.
  intros E O H A Bl. destruct (release_spec u (reg_map st) s (proj1 H) A) as (s1 & R1 & A1 & G1).
  destruct en as [|jump t|r|]; cbn [end_code tail] in *.
  - injection E as <- <-. exists (release_conflict (reg_map st) true). rewrite app_nil_r. split; [easy|].
    rewrite R1. now exists s1.
  - injection E as <- <-. exists (release_conflict (reg_map st) true). split; [reflexivity|]. rewrite R1. now exists s1.
  - unfold jump_register, cat, bind, released in E. cbn [end_ok] in O. apply orb_true_iff in O as [O|O].
    + destruct (to_R14_gp u s1 r O A1) as (k & K1 & K2 & G). rewrite K1, K2 in E. injection E as <- <-.
      exists (release_conflict (reg_map st) true ++ [Inst "MOV" [AStr "R14"; R k]])%list.
      split; [now rewrite <- app_assoc|]. unfold ended. rewrite run_app, R1. exact G.
    + apply andb_prop in O as [->%String.eqb_eq O]. destruct h as [t|]; [|easy]. apply String.eqb_eq in O as ->.
      destruct H as [S (_ & _ & p & Hp)]. pose proof (sm_wfm _ S) as W.
      change (reverse_reg (reg_map st) "RT2") with (inv (reg_map st) "T2") in E.
      rewrite (holds_inv _ "T2" p W ltac:(discriminate) Hp) in E. injection E as <- <-.
      pose proof (holds_phys _ p _ (wf_keys _ W) Hp) as P. destruct (to_R14_temp u s1 p P A1) as (s2 & R2 & A2 & G2).
      exists (release_conflict (reg_map st) true ++ (if String.eqb p "14" then [] else [Inst "MOV" [AStr "R14"; R p]]))%list.
      split; [now rewrite <- !app_assoc|]. unfold ended. change (jump_value "RT2" u) with (Some (u_reg u "T2")). cbv iota.
      exists s2. rewrite run_app, R1. split; [exact R2|]. split; [exact A2|].
      rewrite G2, G1. now apply (ag_held _ _ _ A).
  - injection E as <- <-. exists [Inst "MOVABS" [AStr "R14"; AHex (offset - 2)]]. split; [reflexivity|].
    destruct (Bl eq_refl) as [B Ip]. cbn [end_ok] in O. destruct h; [easy|].
    rewrite (blank_block_init _ H B) in A. exists (put_reg "14" (u64 (offset - 2)) s).
    assert (U : u64 (u64 offset - 2) = u64 (offset - 2)) by (unfold u64; now rewrite Zminus_mod_idemp_l).
    split; [reflexivity|]. rewrite Ip, U.
    split; [now apply agrees_idle; [apply block_init_stable| |]|]. cbn. apply fn_lookup_insert.
Qed.

(** *** The lines of a block *)

(** The user's meaning of the lines: the translator's masks come first. *)
Fixpoint run_lines (lines : list inst) (can_check : list bool) (offset : Z) (checked : list expr) u
  : option (ustate X) :=
  match lines, can_check with
  | i :: lines, c :: can_check =>
      let offset := offset + l i in
      match run user_step (line_body i offset checked c) (at_rip offset u) with
      | Some u => run_lines lines can_check offset (line_checked i checked) u
      | None => None
      end
  | _, _ => Some u
  end.

(** Along the run, no line changes RIP or the bases of FS and GS. *)
Definition line_keeps (i : inst) (offset : Z) (checked : list expr) (can_check : bool) u : Prop :=
  match line_parts i offset can_check with Some (ps, _) => parts_keep ps checked u | None => True end.
Fixpoint lines_keep (lines : list inst) (can_check : list bool) (offset : Z) (checked : list expr) u : Prop :=
  match lines, can_check with
  | i :: lines, c :: can_check =>
      let offset := offset + l i in
      line_keeps i offset checked c (at_rip offset u) /\
      forall u', run user_step (line_body i offset checked c) (at_rip offset u) = Some u' ->
        lines_keep lines can_check offset (line_checked i checked) u'
  | _, _ => True
  end.

(** A line that goes on to the next. *)
Lemma line_sim i offset cc st c st' u s : supported i = true -> falls_line i = true -> holding None (reg_map st) ->
  translate i offset false cc st = Some (c, st') -> agrees (reg_map st) u s ->
  line_keeps i offset (checked_regs st) cc (at_rip offset u) ->
  simulates (line_body i offset (checked_regs st) cc) (at_rip offset u) c s (reg_map st').
Proof.
  intros S F H E A K. destruct (line_split i offset false cc st c st' S H E)
    as (ps & c1 & c2 & st1 & L & P & E1 & E2 & -> & Ec & Hm & En & _).
  unfold falls_line in F. destruct (line_ending i); try easy. injection E2 as <- <-. unfold line_keeps in K.
  unfold line_body. rewrite L in K |- *. rewrite app_nil_r.
  apply (parts_sim ps None offset st c1 st1); try easy. now apply at_rip_agrees; [apply H|].
Qed.

(** The last line, with its ending. *)
Lemma last_sim i offset cc st c st' u s : supported i = true -> holding None (reg_map st) ->
  translate i offset true cc st = Some (c, st') -> agrees (reg_map st) u s ->
  line_keeps i offset (checked_regs st) cc (at_rip offset u) -> (line_ending i = Sys -> blank (reg_map st)) ->
  exists c0, c = (c0 ++ tail (line_ending i) offset)%list /\
  match run user_step (line_body i offset (checked_regs st) cc) (at_rip offset u) with
  | Some u' => ended (line_ending i) u' (run machine_step c0 s)
  | None => run machine_step c0 s = None
  end.
Proof.
  intros S H E A K Bl. destruct (line_split i offset true cc st c st' S H E)
    as (ps & c1 & c2 & st1 & L & P & E1 & E2 & -> & Ec & Hm & En & _).
  unfold line_body. unfold line_keeps in K. rewrite L in K |- *.
  assert (Sp : line_ending i = Sys -> ps = []) by (intros Q; rewrite Q in L; exact (sys_parts i offset cc ps L)).
  pose proof (parts_sim ps None offset st c1 st1 (at_rip offset u) s E1 P H (at_rip_agrees _ _ _ _ (proj1 H) A)
    eq_refl K) as Sim. unfold simulates in Sim.
  destruct (run user_step (parts_body ps (checked_regs st)) (at_rip offset u)) as [u'|] eqn:Ru.
  - destruct Sim as (s1 & R1 & A1). destruct (end_sim _ _ offset st1 c2 st' u' s1 E2 En Hm A1) as (c3 & -> & En').
    { intros Q. rewrite (Sp Q) in *. injection E1 as _ <-. injection Ru as <-. now split; [apply Bl|]. }
    exists (c1 ++ c3)%list. split; [apply app_assoc|]. now rewrite run_app, R1.
  - destruct (end_tail _ _ _ _ _ E2) as (c3 & ->). exists (c1 ++ c3)%list. split; [apply app_assoc|].
    now rewrite run_app, Sim.
Qed.

Lemma translate_lines_sim lines : forall ccs offset st c st' u s,
  translate_lines lines ccs offset st = Some (c, st') -> length ccs = length lines -> lines <> [] ->
  lines_ok lines = true -> holding None (reg_map st) -> agrees (reg_map st) u s ->
  lines_keep lines ccs offset (checked_regs st) u -> (ends_in_call lines = true -> blank (reg_map st)) ->
  exists c0, c = (c0 ++ tail (lines_ending lines) (lines_end lines offset))%list /\
  match run_lines lines ccs offset (checked_regs st) u with
  | Some u' => ended (lines_ending lines) u' (run machine_step c0 s)
  | None => run machine_step c0 s = None
  end.
Proof.
  induction lines as [|i lines IH]; intros [|cc ccs] offset st c st' u s E Len N O H A K Bl; try easy.
  cbn [translate_lines lines_ok lines_keep run_lines] in *. apply andb_prop in O as [[S F]%andb_prop O].
  destruct K as [K1 K2]. injection Len as Len. unfold cat, bind in E.
  destruct (translate i (offset + l i) (length lines =? 0)%nat cc st) as [[c1 st1]|] eqn:E1; [|easy].
  destruct (translate_lines lines ccs (offset + l i) st1) as [[c2 st2]|] eqn:E2; [|easy].
  injection E as <- <-. destruct lines as [|i2 lines].
  - destruct ccs; [|easy]. injection E2 as <- <-. rewrite app_nil_r.
    destruct (last_sim i _ cc st c1 st1 u s S H E1 A K1) as (c0 & -> & Sim).
    { intros Q. apply Bl. unfold ends_in_call, lines_ending. cbn [last]. now rewrite Q. }
    exists c0. split; [reflexivity|].
    now destruct (run user_step _ _).
  - apply andb_prop in F as [F Um]. pose proof (line_sim i _ cc st c1 st1 u s S F H E1 A K1) as Sim. unfold simulates in Sim.
    destruct (line_map i _ _ cc st c1 st1 S H E1) as (Ec & H1 & B1). specialize (H1 F).
    destruct (translate_lines_tail (i2 :: lines) ccs _ st1 c2 st2 Len O H1 E2) as [c3 Et].
    destruct (run user_step (line_body i (offset + l i) (checked_regs st) cc) (at_rip (offset + l i) u)) as [u1|].
    + destruct Sim as (s1 & R1 & A1). rewrite <- Ec in *.
      destruct (IH ccs _ st1 c2 st2 u1 s1 E2 Len ltac:(easy) O H1 A1 (K2 u1 eq_refl)) as (c0 & -> & Sim).
      { intros Q. apply B1; [|now apply Bl]. rewrite Q in Um. cbn [negb] in Um. now rewrite orb_false_r in Um. }
      exists (c1 ++ c0)%list. split; [apply app_assoc|]. now rewrite run_app, R1.
    + exists (c1 ++ c3)%list. split; [rewrite Et; apply app_assoc|]. now rewrite run_app, Sim.
Qed.

Lemma flag_uses_length lines : length (fst (check_flag_def_use lines)) = length lines.
Proof.
  induction lines as [|i lines IH]; [easy|]. cbn [check_flag_def_use].
  destruct (check_flag_def_use lines) as [r b]. cbn [fst length] in *. congruence.
Qed.
End Simulation.

(** ** The translator finds registers for the lines that it supports *)

Section Total.
Context {py : PySet} {py_ok : PySetOk py}.

Lemma part_total p h offset st : part_ok p h = true -> holding h (reg_map st) ->
  exists c st', part_code p offset st = Some (c, st').
Proof.
  intros O H. destruct p as [nm args cc|t nm a| |]; cbn [part_code part_ok] in *; try (eexists _, _; reflexivity).
  - apply fits_spec in O. apply process_normal_total; [apply H|now apply (fitting_plain h _ nm)|apply O|].
    now apply (fitting_sized h nm).
  - rewrite !andb_true_iff in O. destruct O as ((((Ht & Hh) & _) & _) & Hf). apply is_in_elem in Ht. apply fits_spec in Hf.
    assert (Oo : only_temp t (reg_map st)).
    { destruct H as [_ H]. destruct h as [k|]; [apply String.eqb_eq in Hh as ->; apply H|].
      intros p v Hv Hp. now destruct (H p v Hv). }
    destruct (resolve_temp_spec (processor := halt) t (reg_map st) (U (fun _ => 0) [] tt)
      (MState (fun _ => 0) (fun _ => 0) [] tt) Ht (proj1 H)) as (c1 & m1 & s1 & z & E1 & _ & _ & S1 & O1 & P1);
      [now split|easy|].
    unfold cat, bind, resolve_for. rewrite E1.
    assert (H1 : holding (Some t) m1) by (split; [easy|]; now split).
    destruct (process_normal_total nm [tmp t; a] offset false (set_reg_map m1 st)) as (c2 & st2 & ->);
      [easy|now apply (fitting_plain (Some t) _ nm)|apply Hf|now apply (fitting_sized (Some t) nm)|].
    eexists _, _. reflexivity.
Qed.

Lemma parts_total ps : forall h offset st, parts_ok ps h = true -> holding h (reg_map st) ->
  exists c st', parts_code ps offset st = Some (c, st').
Proof.
  induction ps as [|p ps IH]; intros h offset st O H; [eexists _, _; reflexivity|].
  change (parts_code (p :: ps) offset) with (cat (part_code p offset) (parts_code ps offset)).
  cbn [parts_ok] in O. apply andb_prop in O as [Op O]. destruct (part_total p h offset st Op H) as (c1 & st1 & E1).
  destruct (part_map p h offset st c1 st1 E1 Op H) as [_ H1].
  destruct (IH _ offset st1 O H1) as (c2 & st2 & E2). unfold cat, bind. rewrite E1, E2. eexists _, _. reflexivity.
Qed.

Lemma end_total en h offset last st : end_ok en h = true -> holding h (reg_map st) ->
  exists c st', end_code en offset last st = Some (c, st').
Proof.
  intros O H. destruct en as [|jump t|r|]; cbn [end_code]; try (eexists _, _; reflexivity).
  unfold jump_register, cat, bind, released. cbn [end_ok] in O. apply orb_true_iff in O as [O|O].
  - assert (E : reverse_reg (reg_map st) r = Some (slice 1 3 r)).
    { apply is_in_elem in O. unfold gp_names in O. each O; reflexivity. }
    rewrite E. eexists _, _. reflexivity.
  - apply andb_prop in O as [->%String.eqb_eq O]. destruct h as [t|]; [|easy]. apply String.eqb_eq in O as ->.
    destruct H as [S (_ & _ & p & Hp)]. change (reverse_reg (reg_map st) "RT2") with (inv (reg_map st) "T2").
    rewrite (holds_inv _ "T2" p (sm_wfm _ S) ltac:(discriminate) Hp). eexists _, _. reflexivity.
Qed.

Lemma translate_total i offset last cc st : supported i = true -> holding None (reg_map st) ->
  exists c st', translate i offset last cc st = Some (c, st').
Proof.
  intros S H. destruct (supported_parts i offset cc S) as (ps & L & P & En & _ & _).
  rewrite (translate_parts i offset last cc ps _ L). unfold cat, bind.
  destruct (parts_total ps None offset st P H) as (c1 & st1 & E1). rewrite E1.
  destruct (parts_map ps None offset st c1 st1 E1 P H) as [_ H1].
  destruct (end_total _ _ offset last st1 En H1) as (c2 & st2 & ->). eexists _, _. reflexivity.
Qed.

Lemma translate_lines_total lines : forall ccs offset st, lines_ok lines = true -> holding None (reg_map st) ->
  exists c st', translate_lines lines ccs offset st = Some (c, st').
Proof.
  induction lines as [|i lines IH]; intros ccs offset st O H; [now exists [], st|].
  destruct ccs as [|cc ccs]; [now exists [], st|].
  cbn [translate_lines lines_ok] in *. apply andb_prop in O as [[S F]%andb_prop O]. unfold cat, bind.
  destruct (translate_total i (offset + l i) (length lines =? 0)%nat cc st S H) as (c1 & st1 & E1). rewrite E1.
  destruct lines as [|i2 lines]; [eexists _, _; reflexivity|].
  apply andb_prop in F as [F _]. destruct (line_map i _ _ cc st c1 st1 S H E1) as (_ & H1 & _).
  destruct (IH ccs (offset + l i) st1 O (H1 F)) as (c2 & st2 & ->). eexists _, _. reflexivity.
Qed.
End Total.
