(* ===== verification/Meaning.v ===== *)
(** The lines of the user as the processor's manual describes them: a push stores what
    its operand was before RSP is lowered, a pop writes its operand after RSP is
    raised. The parts of a line do the same, but for operands that use RSP. *)
From Stdlib Require Import ZArith Lia Bool String.
From stdpp Require Import base strings functions list.
From S2P Require Import Prelude Conflict Translate Machine ConflictSpec TranslateSpec Parts Lines.

Local Open Scope string_scope.
Local Open Scope Z_scope.
Local Open Scope ub_scope.

(** ** Lines *)

(** Sums of an address and moves of a number. A word that is moved to a register changes
    no other register, no flags and no memory. *)
Class StackMoves {X : Type} (processor : Cpu X) : Prop := {
  lea_plus : forall a b z gp x,
    cpu "LEA" [VReg a 64; VMem 64 [VReg b 64] (if z =? 0 then None else Some (ExprInt (u64 z) 64)) []] gp x
    = Some ([u64 (b + z)], gp, x);
  movabs_number : forall a z gp x, cpu "MOVABS" [VReg a 64; VExpr (ExprInt z 64)] gp x = Some ([u64 z], gp, x);
  mov_loads : forall a v gp x outs gp' x', cpu "MOV" [VReg a 64; v] gp x = Some (outs, gp', x') -> gp' = gp /\ x' = x
}.

Section Meaning.
Context {X : Type} {processor : Cpu X}.
Implicit Types (u : ustate X) (s : mstate X).

Definition mov (dst src : arg) u : option (ustate X) := user_step (Inst "MOV" [dst; src]) u.
Definition add_RSP (z : Z) u : ustate X := write_reg "SP" (u64 (u_reg u "SP" + z)) u.
Definition operand (e : expr) : arg := arg_purify (AExpr e).

(** The two temporaries stand for the words that the processor keeps for itself. *)
Definition push (e : expr) u : option (ustate X) :=
  match e with
  | ExprMem _ _ =>
      match mov (tmp "T1") (operand e) u with
      | Some u => mov at_RSP (tmp "T1") (add_RSP (- 8) u)
      | None => None
      end
  | _ => mov at_RSP (AExpr e) (add_RSP (- 8) u)
  end.

Definition pop (e : expr) u : option (ustate X) :=
  match e with
  | ExprMem _ _ =>
      match mov (tmp "T1") at_RSP u with
      | Some u => mov (operand e) (tmp "T1") (add_RSP 8 u)
      | None => None
      end
  | _ => option_map (add_RSP 8) (mov (AExpr e) at_RSP u)
  end.

(** What is left of a jump is where it goes: to T2, if not to a label or to a register. *)
Definition jump_operand (e : expr) u : option (ustate X) :=
  match e with ExprMem _ _ => mov (tmp "T2") (operand e) u | _ => Some u end.

(** The target of a call is read first; the return address is pushed by way of T2. *)
Definition call (e : expr) (offset : Z) u : option (ustate X) :=
  match jump_operand e u with
  | Some v =>
      option_map (fun w => match e with ExprMem _ _ => write_reg "T2" (u_reg v "T2") w | _ => w end)
        (push (ExprId "RT2" 64) (write_reg "T2" (u64 offset) v))
  | None => None
  end.

(** A line with the address behind it. A system call is not done here: the block ends
    before it. *)
Definition user_line (i : inst) (offset : Z) u : option (ustate X) :=
  let op := get_inst_name i in
  let arg f := match args i with e :: _ => f e | [] => None end in
  if is_in special_instruction (name i) then
    if String.eqb op "ENDBR64" || String.eqb (name i) "NOP" then Some u
    else if String.eqb op "CALL" then
      arg (fun e => call e offset u)
    else if String.eqb op "PUSH" then arg (fun e => push e u)
    else if String.eqb op "POP" then arg (fun e => pop e u)
    else if String.eqb op "RET" then option_map (add_RSP 8) (mov (tmp "T2") at_RSP u)
    else if String.eqb op "LEAVE" then
      match mov RSP (AExpr (ExprId "RBP" 64)) u with
      | Some u => pop (ExprId "RBP" 64) u
      | None => None
      end
    else if String.eqb op "SYSCALL" then Some u
    else None
  else if is_in conditional_branch (name i) || is_in unconditional_branch (name i) then
    arg (fun e => jump_operand e u)
  else user_step (Inst op (purified i)) u.

(** Neither special nor a jump. *)
Definition plain_line (i : inst) : bool :=
  negb (is_in special_instruction (name i))
  && negb (is_in conditional_branch (name i) || is_in unconditional_branch (name i)).

(** The stack is not addressed by the operand of an instruction that moves RSP. *)
Definition no_RSP (e : expr) : bool := negb (is_in (conflict_regs_of [operand e]) "SP").
Definition exact_line (i : inst) : bool :=
  negb (is_in special_instruction (name i)) || negb (is_in ["CALL"; "PUSH"; "POP"] (get_inst_name i))
  || match args i with e :: _ => no_RSP e | [] => false end.

(** The translator reads the target of a call after it has stored the return address:
    the line is right where the two do not meet. *)
Definition jump_target (e : expr) u : option Z := option_map (fun v => u_reg v "T2") (jump_operand e u).
Definition target_kept (i : inst) (offset : Z) u : bool :=
  match args i with
  | ExprMem ptr size :: _ =>
      negb (is_in special_instruction (name i)) || negb (String.eqb (get_inst_name i) "CALL") ||
      match push (ExprId "RT2" 64) (write_reg "T2" (u64 offset) u) with
      | Some v => bool_decide (jump_target (ExprMem ptr size) v = jump_target (ExprMem ptr size) u)
      | None => true
      end
  | _ => true
  end.

(** ** Instructions that do not use a register *)

Lemma fold_add l : forall c v, v ∈ fold_left add l c <-> v ∈ c \/ v ∈ l.
Proof.
  induction l as [|x l IH]; intros c v; cbn [fold_left]; [rewrite elem_of_nil; tauto|].
  rewrite IH, elem_of_cons. unfold add. destruct (is_in c x) eqn:E.
  - apply is_in_elem in E. split; [tauto|]. intros [H|[->|H]]; auto.
  - rewrite elem_of_app, list_elem_of_singleton. tauto.
Qed.

(** A register is in conflict when one of the names has its key. *)
Lemma in_conflict args v : v ∈ conflict_regs_of args <-> exists e, e ∈ flat_map extract_reg args /\
  v ∈ List.filter (is_in special_regs) (possible_keys (default "" (reg_name e))).
Proof.
  unfold conflict_regs_of. generalize (flat_map extract_reg args) as l.
  assert (G : forall l c, v ∈ fold_left (fun c r => extract_conflict_regs (default "" (reg_name r)) c) l c <->
    v ∈ c \/ exists e, e ∈ l /\ v ∈ List.filter (is_in special_regs) (possible_keys (default "" (reg_name e)))).
  { induction l as [|r l IH]; intros c; cbn [fold_left].
    - split; [now left|]. intros [H|(e & H & _)]; [easy|inversion H].
    - rewrite IH. unfold extract_conflict_regs. rewrite fold_add. split.
      + intros [[H|H]|(e & He & H)]; [now left|right; exists r; split; [left|easy]|right; exists e; split; [now right|easy]].
      + intros [H|(e & He & H)]; [left; now left|]. apply elem_of_cons in He as [->|He]; [left; now right|right; now exists e]. }
  intros l. rewrite G. split; [|now right]. intros [H|H]; [inversion H|easy].
Qed.

Lemma conflict_two a b v : v ∈ conflict_regs_of [a; b] <-> v ∈ conflict_regs_of [a] \/ v ∈ conflict_regs_of [b].
Proof.
  rewrite !in_conflict. cbn [flat_map]. rewrite !app_nil_r. setoid_rewrite elem_of_app. firstorder.
Qed.

Lemma write_back_frame k args : (forall n size, AExpr (ExprId n size) ∈ args -> reg_key n <> Some k) ->
  forall outs (f g : regfile), (forall j, j <> k -> f j = g j) ->
  write_back f args outs k = f k /\ forall j, j <> k -> write_back f args outs j = write_back g args outs j.
Proof.
  induction args as [|a args IH]; intros H outs f g E; [destruct outs; cbn; auto|].
  assert (IH' : forall outs (f g : regfile), (forall j, j <> k -> f j = g j) ->
    write_back f args outs k = f k /\ forall j, j <> k -> write_back f args outs j = write_back g args outs j)
    by (apply IH; intros n size Hn; apply (H n size); now right).
  destruct a as [[n size| | | |]|d|t|z|t z|]; cbn [write_back]; destruct outs as [|o outs]; auto.
  destruct (reg_key n) as [k'|] eqn:Ek; [|auto]. assert (N : k' <> k) by (intros ->; now apply (H n size ltac:(left))).
  destruct (IH' outs (<[k' := o]> f) (<[k' := o]> g)) as [H1 H2].
  - intros j Nj. unfold insert, fn_insert. destruct (decide (k' = j)); auto.
  - split; [|exact H2]. rewrite H1. now rewrite fn_lookup_insert_ne.
Qed.

(** RSP may be moved before or after an instruction that does not name it. *)
Lemma add_RSP_commutes nm args z u : "SP" ∉ conflict_regs_of args -> (forall d, ADict d ∈ args -> scaled d) ->
  both (same eq) (user_step (Inst nm args) (add_RSP z u)) (option_map (add_RSP z) (user_step (Inst nm args) u)).
Proof.
  intros N Sc. cbn [user_step].
  rewrite (args_ext args (u_reg (add_RSP z u)) (u_reg u) Sc).
  2:{ intros k Hk. unfold add_RSP. rewrite write_reg_keep; [easy|]. now intros ->. }
  cbn [add_RSP write_reg u_gp u_rest].
  destruct (cpu nm (map (arg_value (u_reg u)) args) (u_gp u) (u_rest u)) as [[[outs gp] x]|]; [|easy].
  assert (Nk : forall n size, AExpr (ExprId n size) ∈ args -> reg_key n <> Some "SP").
  { intros n size Hn E. apply N. apply (key_in_conflict args (ExprId n size) n size "SP"); [|easy|easy].
    apply list_elem_of_In, in_flat_map. exists (AExpr (ExprId n size)). split; [now apply list_elem_of_In|now left]. }
  destruct (write_back_frame "SP" args Nk outs (u_reg u) (u_reg u)) as [H1 _]; [easy|].
  destruct (write_back_frame "SP" args Nk outs (<["SP" := u64 (u_reg u "SP" + z)]> (u_reg u)) (u_reg u)) as [H2 H3].
  { intros j Nj. now apply fn_lookup_insert_ne. }
  cbn [option_map both]. split; [|easy|easy]. intros k. cbn [add_RSP write_reg u_reg].
  destruct (decide (k = "SP")) as [->|Nj].
  - now rewrite H2, !fn_lookup_insert, H1.
  - now rewrite (fn_lookup_insert_ne _ "SP" k), H3.
Qed.

Lemma add_RSP_same z u v : same eq u v -> same eq (add_RSP z u) (add_RSP z v).
Proof.
  intros [H1 H2 H3]. split; try easy. intros k. cbn. unfold insert, fn_insert.
  destruct (decide ("SP" = k)); now rewrite ?H1.
Qed.

Lemma both_refl (o : option (ustate X)) : both (same eq) o o.
Proof. destruct o as [u|]; [|easy]. now apply same_refl. Qed.

Lemma both_same_trans (a b c : option (ustate X)) : both (same eq) a b -> both (same eq) b c -> both (same eq) a c.
Proof. apply both_trans. intros u v w. apply same_trans. exact _. Qed.

Lemma both_sym (a b : option (ustate X)) : both (same eq) a b -> both (same eq) b a.
Proof. destruct a, b; cbn; try easy. intros [H1 H2 H3]. now split. Qed.

(** One after the other. *)
Lemma both_bind (P Q : ustate X -> ustate X -> Prop) a b f g : both P a b -> (forall u v, P u v -> both Q (f u) (g v)) ->
  both Q (match a with Some u => f u | None => None end) (match b with Some v => g v | None => None end).
Proof. intros H F. destruct a, b; cbn in *; try easy. now apply F. Qed.

Lemma mov_same dst src u v : same eq u v -> both (same eq) (mov dst src u) (mov dst src v).
Proof. apply equal_step. Qed.

(** ** Parts without masks *)

Lemma run_one (i : line) u : run user_step [i] u = user_step i u.
Proof. cbn [run]. now destruct (user_step i u). Qed.

Lemma run_do nm args checked u : run user_step (part_body (Do nm args false) checked) u = user_step (Inst nm (map arg_purify args)) u.
Proof. cbn [part_body part_args]. unfold body. rewrite check_code_false. apply run_one. Qed.

Lemma run_load t nm a checked u : run user_step (part_body (Load t nm a) checked) u = user_step (Inst nm [tmp t; arg_purify a]) u.
Proof. cbn [part_body part_args]. unfold body. rewrite check_code_false. apply run_one. Qed.

Lemma run_parts p ps checked u : run user_step (parts_body (p :: ps) checked) u =
  match run user_step (part_body p checked) u with
  | Some u => run user_step (parts_body ps (part_checked p checked)) u
  | None => None
  end.
Proof. cbn [parts_body]. now rewrite run_app. Qed.

Lemma run_last p checked u : run user_step (parts_body [p] checked) u = run user_step (part_body p checked) u.
Proof. cbn [parts_body]. now rewrite app_nil_r. Qed.

Lemma run_drop checked u : run user_step (part_body Drop checked) u = Some u.
Proof. reflexivity. Qed.

Lemma some_match (o : option (ustate X)) : match o with Some u => Some u | None => None end = o.
Proof. now destruct o. Qed.

Context {stack_moves : StackMoves processor}.

Lemma run_move_RSP z checked u : run user_step (part_body (move_RSP z) checked) u = Some (add_RSP z u).
Proof.
  unfold move_RSP. rewrite run_do. cbn [map arg_purify user_step].
  assert (E : arg_value (u_reg u) (ADict (make_mem_dict 64 ["RSP"] z)) =
    VMem 64 [VReg (u_reg u "SP") 64] (if z =? 0 then None else Some (ExprInt (u64 z) 64)) []) by reflexivity.
  change (arg_value (u_reg u) (arg_purify RSP)) with (VReg (u_reg u "SP") 64). rewrite E, lea_plus. reflexivity.
Qed.

Lemma operand_scaled e d : ADict d ∈ [operand e] -> scaled d.
Proof.
  intros H%list_elem_of_singleton. symmetry in H. destruct (purify_scaled (AExpr e) d H) as [(d0 & H0 & _)|]; easy.
Qed.

Lemma no_RSP_spec t e : no_RSP e = true -> t ∈ temps ->
  ("SP" ∉ conflict_regs_of [tmp t; operand e]) /\ ("SP" ∉ conflict_regs_of [operand e; tmp t]) /\
  forall d, ADict d ∈ [tmp t; operand e] \/ ADict d ∈ [operand e; tmp t] -> scaled d.
Proof.
  unfold no_RSP. rewrite negb_true_iff, is_in_not. intros N Ht.
  assert (Nt : "SP" ∉ conflict_regs_of [tmp t])
    by (unfold temps in Ht; each Ht; now intros Q%is_in_elem).
  rewrite !conflict_two. split; [tauto|]. split; [tauto|]. intros d Hd. apply (operand_scaled e).
  assert (Ne : ADict d <> tmp t) by discriminate. rewrite !elem_of_cons in *. tauto.
Qed.

Ltac parts := repeat (progress (rewrite ?run_last, ?run_parts, ?run_do, ?run_load, ?run_move_RSP, ?run_drop)).

Lemma push_meaning e checked u : stack_operand e = true -> no_RSP e = true ->
  both (same eq) (run user_step (parts_body (push_parts e) checked) u) (push e u).
Proof.
  intros So N. destruct e as [r size| |ptr size| |]; try discriminate; unfold push_parts, push; parts.
  - apply both_refl.
  - destruct (no_RSP_spec "T1" (ExprMem ptr size) N) as (N1 & N2 & Sc); [now left|].
    change (arg_purify (AExpr (ExprMem ptr size))) with (operand (ExprMem ptr size)).
    set (a := operand (ExprMem ptr size)) in *.
    apply both_same_trans with (match option_map (add_RSP (-8)) (mov (tmp "T1") a u) with
      | Some u => mov at_RSP (tmp "T1") u | None => None end).
    + apply (both_bind (same eq)); [apply add_RSP_commutes; auto|]. intros v w S. parts.
      pose proof (mov_same at_RSP (tmp "T1") v w S) as M. unfold mov in *. cbn [map].
      change (arg_purify at_RSP) with at_RSP. change (arg_purify (tmp "T1")) with (tmp "T1").
      now destruct (user_step _ v), (user_step _ w).
    + destruct (mov (tmp "T1") a u); apply both_refl.
Qed.

Lemma pop_meaning e checked u : stack_operand e = true -> no_RSP e = true ->
  both (same eq) (run user_step (parts_body (pop_parts e) checked) u) (pop e u).
Proof.
  intros So N. destruct e as [r size| |ptr size| |]; try discriminate; unfold pop_parts, pop; cbn [app]; parts.
  - unfold mov, at_RSP. cbn [arg_purify]. destruct (user_step _ u) as [v|]; [|easy]. parts. apply both_refl.
  - destruct (no_RSP_spec "T1" (ExprMem ptr size) N) as (N1 & N2 & Sc); [now left|].
    change (arg_purify (AExpr (ExprMem ptr size))) with (operand (ExprMem ptr size)).
    change (arg_purify at_RSP) with at_RSP. set (a := operand (ExprMem ptr size)) in *. unfold mov at 1.
    destruct (user_step (Inst "MOV" [tmp "T1"; at_RSP]) u) as [v|]; [|easy]. parts.
    change (map arg_purify [AExpr (ExprMem ptr size); tmp "T1"]) with [a; tmp "T1"].
    pose proof (add_RSP_commutes "MOV" [a; tmp "T1"] 8 v N2 ltac:(auto)) as C. unfold mov.
    apply both_sym in C. eapply both_same_trans; [|exact C].
    destruct (user_step (Inst "MOV" [a; tmp "T1"]) v) as [w|]; [|easy]. parts. apply both_refl.
Qed.

(** ** Lines without masks *)

Lemma jump_meaning jump e ps en checked u : jump_parts jump e = Some (ps, en) ->
  run user_step (parts_body ps checked) u = jump_operand e u.
Proof.
  unfold jump_parts. destruct e; try easy; try (destruct (String.eqb jump "JMP"); [|easy]);
    intros [= <- <-]; try reflexivity. parts. reflexivity.
Qed.

Lemma parts_body_app ps : forall qs checked,
  parts_body (ps ++ qs) checked = (parts_body ps checked ++ parts_body qs (parts_checked ps checked))%list.
Proof.
  induction ps as [|p ps IH]; intros qs checked; [reflexivity|]. cbn [app parts_body parts_checked fold_left].
  now rewrite IH, app_assoc.
Qed.

Lemma jump_operand_same e u v : same eq u v -> both (same eq) (jump_operand e u) (jump_operand e v).
Proof. intros S. destruct e; try exact S. now apply mov_same. Qed.

Context {moves : Moves processor}.

Lemma write_T2 z u : u_reg (write_reg "T2" z u) "T2" = z.
Proof. apply fn_lookup_insert. Qed.

(** A load of T2. *)
Lemma load_T2 a u :
  mov (tmp "T2") a u = option_map (fun v => write_reg "T2" (u_reg v "T2") u) (mov (tmp "T2") a u).
Proof.
  unfold mov. cbn [user_step map]. change (arg_value (u_reg u) (tmp "T2")) with (VReg (u_reg u "T2") 64).
  destruct (cpu "MOV" _ (u_gp u) (u_rest u)) as [[[outs gp] x]|] eqn:E; [|reflexivity].
  destruct (mov_loads _ _ _ _ _ _ _ E) as [-> ->].
  destruct (load_out "MOV" _ _ _ _ _ _ _ eq_refl E) as (z & ->). cbn [option_map]. unfold write_reg. cbn [u_reg u_gp u_rest].
  f_equal. f_equal. change (write_back (u_reg u) [tmp "T2"; a] [z]) with (write_back (<["T2" := z]> (u_reg u)) [a] []).
  assert (W : write_back (<["T2" := z]> (u_reg u)) [a] [] = <["T2" := z]> (u_reg u)) by (now destruct a as [[]| | | | |]).
  now rewrite W, fn_lookup_insert.
Qed.

Lemma T2_twice a b u : same eq (write_reg "T2" a (write_reg "T2" b u)) (write_reg "T2" a u).
Proof. split; try easy. intros k. cbn. unfold insert, fn_insert. now destruct (decide ("T2" = k)). Qed.

Lemma T2_same z u v : same eq u v -> same eq (write_reg "T2" z u) (write_reg "T2" z v).
Proof. intros [H1 H2 H3]. split; try easy. intros k. cbn. unfold insert, fn_insert. now destruct (decide ("T2" = k)). Qed.

Lemma push_T2_same u v : same eq u v -> both (same eq) (push (ExprId "RT2" 64) u) (push (ExprId "RT2" 64) v).
Proof. intros S. cbn [push]. now apply mov_same, add_RSP_same. Qed.

(** The push before the target is read, or behind it. *)
Lemma call_order e offset u :
  (forall v, (exists ptr size, e = ExprMem ptr size) -> push (ExprId "RT2" 64) (write_reg "T2" (u64 offset) u) = Some v ->
    jump_target e v = jump_target e u) ->
  both (same eq)
    (match push (ExprId "RT2" 64) (write_reg "T2" (u64 offset) u) with Some v => jump_operand e v | None => None end)
    (call e offset u).
Proof.
  intros K. unfold call. destruct e as [| |ptr size| |]; try (cbn [jump_operand]; rewrite some_match;
    destruct (push _ _) as [v|]; cbn; [now apply same_refl|easy]).
  specialize (fun v => K v ltac:(eauto)). unfold jump_target in K. cbn [jump_operand] in *.
  rewrite (load_T2 _ u) in *. destruct (mov (tmp "T2") (operand (ExprMem ptr size)) u) as [u1|]; cbn [option_map] in *.
  - set (z := u_reg u1 "T2"). rewrite write_T2 in *.
    pose proof (push_T2_same _ _ (T2_twice (u64 offset) z u)) as Q.
    destruct (push _ (write_reg "T2" (u64 offset) (write_reg "T2" z u))) as [w|], (push _ (write_reg "T2" (u64 offset) u)) as [v|];
      try easy. specialize (K v eq_refl). rewrite load_T2.
    destruct (mov (tmp "T2") (operand (ExprMem ptr size)) v) as [v1|]; [|easy]. injection K as K. cbn [option_map both].
    rewrite K. apply T2_same. destruct Q as [Q1 Q2 Q3]. now split.
  - destruct (push _ _) as [v|]; [|easy]. specialize (K v eq_refl). now destruct (mov _ _ v).
Qed.

Lemma call_meaning i e rest qs en offset checked u : jump_parts "JMP" e = Some (qs, en) ->
  args i = e :: rest -> is_in special_instruction (name i) = true -> get_inst_name i = "CALL" ->
  target_kept i offset u = true ->
  both (same eq)
    (run user_step (parts_body (Load "T2" "MOVABS" (AExpr (ExprInt offset 64)) :: push_parts (ExprId "RT2" 64) ++ qs)
       checked) u)
    (call e offset u).
Proof.
  intros J Ei Si Ni K. rewrite run_parts, run_load, parts_body_app.
  assert (E : user_step (Inst "MOVABS" [tmp "T2"; arg_purify (AExpr (ExprInt offset 64))]) u =
    Some (write_reg "T2" (u64 offset) u)).
  { cbn [user_step map arg_purify].
    change (arg_value (u_reg u) (AExpr (ExprInt offset 64))) with (VExpr (ExprInt offset 64)).
    change (arg_value (u_reg u) (tmp "T2")) with (VReg (u_reg u "T2") 64). now rewrite movabs_number. }
  rewrite E, run_app. eapply both_same_trans; [|apply call_order].
  - apply (both_bind (same eq)); [now apply push_meaning|].
    intros v w S. rewrite (jump_meaning "JMP" e qs en _ v J). now apply jump_operand_same.
  - intros v (ptr & size & ->) P. unfold target_kept in K. rewrite Ei, Si, Ni, P in K.
    cbn [negb orb String.eqb] in K. now apply bool_decide_eq_true in K.
Qed.

(** The parts of a special line or a jump do what the manual says. *)
Lemma special_meaning i offset checked cc u : supported i = true -> plain_line i = false ->
  exact_line i = true -> target_kept i offset u = true ->
  both (same eq) (run user_step (line_body i offset checked cc) u) (user_line i offset u).
Proof.
  intros S P Ex K. destruct (supported_parts i offset cc S) as (ps & L & _). unfold line_body. rewrite L.
  revert L P Ex. generalize (line_ending i) as en. unfold line_parts, plain_line, exact_line, user_line. intros en.
  destruct (is_in special_instruction (name i)) eqn:Si; cbn [negb orb andb].
  - intros L _. destruct (_ || _); [injection L as <- <-; intros _; now apply same_refl|].
    destruct (String.eqb_spec (get_inst_name i) "CALL") as [Ni|_].
    { try rewrite Ni. destruct (args i) as [|e rest] eqn:Ei; [easy|]. destruct (jump_parts "JMP" e) as [[qs en']|] eqn:J; [|easy].
      injection L as <- <-. intros _. exact (call_meaning i e rest qs en' offset checked u J Ei Si Ni K). }
    destruct (String.eqb_spec (get_inst_name i) "PUSH") as [->|_].
    { destruct (args i) as [|e rest]; [easy|]. destruct (stack_operand e) eqn:So; [|easy]. injection L as <- <-.
      intros N. now apply push_meaning. }
    destruct (String.eqb_spec (get_inst_name i) "POP") as [->|_].
    { destruct (args i) as [|e rest]; [easy|]. destruct (stack_operand e) eqn:So; [|easy]. injection L as <- <-.
      intros N. now apply pop_meaning. }
    destruct (String.eqb _ "RET").
    { injection L as <- <-. intros _. rewrite run_parts, run_load. change (arg_purify at_RSP) with at_RSP. unfold mov.
      destruct (user_step _ u) as [v|]; [|easy]. parts. apply both_refl. }
    destruct (String.eqb _ "LEAVE").
    { injection L as <- <-. intros _. rewrite run_parts, run_do. unfold mov at 1.
      change (map arg_purify [RSP; AExpr (ExprId "RBP" 64)]) with [RSP; AExpr (ExprId "RBP" 64)].
      destruct (user_step _ u) as [v|]; [|easy]. now apply pop_meaning. }
    destruct (String.eqb _ "SYSCALL"); [|easy]. injection L as <- <-. intros _. now apply same_refl.
  - destruct (_ || _); [|easy]. intros L _ _. destruct (args i) as [|e rest]; [easy|].
    rewrite (jump_meaning (name i) e ps en checked u L). apply both_refl.
Qed.

(** A plain line with its masks. *)
Lemma plain_body i offset checked cc : plain_line i = true -> line_body i offset checked cc =
  body (get_inst_name i) (purified i) (fst (bases_to_check (get_inst_name i) (purified i) checked)) cc.
Proof.
  unfold plain_line, line_body, line_parts. intros [->%negb_true_iff ->%negb_true_iff]%andb_prop.
  cbn [parts_body part_body part_args]. apply app_nil_r.
Qed.

Lemma plain_meaning i offset u : plain_line i = true -> user_line i offset u = user_step (Inst (get_inst_name i) (purified i)) u.
Proof. unfold plain_line, user_line. now intros [->%negb_true_iff ->%negb_true_iff]%andb_prop. Qed.
End Meaning.
