(* ===== verification/TranslateBlock.v ===== *)
(** A block as a whole: lines that the translator supports keep the bases of the
    segments, so the code it writes for them is what the lines mean. With a small
    processor to try it on. *)
From Stdlib Require Import ZArith Lia Bool String.
From stdpp Require Import base strings functions list.
From S2P Require Import Prelude Conflict Translate Machine ConflictSpec TranslateSpec Parts Lines.

Local Open Scope string_scope.
Local Open Scope Z_scope.
Local Open Scope ub_scope.

(** ** The masks *)

(** What a shift by one does to a register of 64 bits. *)
Class Shifts {X : Type} (processor : Cpu X) : Prop := {
  shl_1 : forall v gp x, exists x', cpu "SHL" [VReg v 64; VArg (AStr "1")] gp x = Some ([u64 (2 * v)], gp, x');
  shr_1 : forall v gp x, exists x', cpu "SHR" [VReg v 64; VArg (AStr "1")] gp x = Some ([v / 2], gp, x')
}.

Lemma shift_and_back v : 0 <= v < 2 ^ 63 -> u64 (2 * v) / 2 = v.
Proof. intros H. rewrite u64_small by (unfold is_u64; lia). rewrite Z.mul_comm. apply Z.div_mul. lia. Qed.

Section Blocks.
Context {X : Type} {processor : Cpu X} {shifts : Shifts processor} {moves : Moves processor}
  {py : PySet} {py_ok : PySetOk py}.
Implicit Types (u : ustate X) (s : mstate X).

(** The bases of FS and GS are addresses of the user. *)
Definition user_bases u : Prop := forall k, k ∈ segments -> 0 <= u_reg u k < 2 ^ 63.

Lemma write_back_keeps k args : (forall a, a ∈ args -> unfixed a = true) -> k ∈ fixed ->
  forall outs (f : regfile), write_back f args outs k = f k.
Proof.
  induction args as [|a args IH]; intros H Hk outs f; [now destruct outs|].
  assert (Ha : unfixed a = true) by (apply H; now left).
  assert (IH' : forall outs (f : regfile), write_back f args outs k = f k)
    by (intros; apply IH; [intros; apply H; now right|easy]).
  destruct a as [[n size| | | |]|d|t|z|t z|]; cbn [write_back]; destruct outs as [|o outs]; auto.
  cbn [unfixed] in Ha. destruct (reg_key n) as [k'|]; [|auto].
  rewrite IH', fn_lookup_insert_ne; [easy|]. intros ->. apply negb_true_iff, is_in_not in Ha. easy.
Qed.

(** A mask leaves the base of a segment as it is. *)
Lemma mask_keeps e u : user_bases u -> good_size e = true -> no_rip e = true ->
  keeps fixed [Inst "SHL" [AExpr e; AStr "1"]; Inst "SHR" [AExpr e; AStr "1"]] u.
Proof.
  intros B G Nr u' H k Hk. revert H.
  assert (Same : forall nm u1 u2, unfixed (AExpr e) = true -> user_step (Inst nm [AExpr e; AStr "1"]) u1 = Some u2 ->
    u_reg u2 k = u_reg u1 k).
  { intros nm u1 u2 N E. cbn [user_step] in E. destruct (cpu nm _ _ _) as [[[outs gp] x]|]; [|easy].
    injection E as <-. change (write_back (u_reg u1) [AExpr e; AStr "1"] outs k = u_reg u1 k).
    apply write_back_keeps; [|easy]. intros a Ha.
    apply elem_of_cons in Ha as [->|Ha]; [easy|]. now apply list_elem_of_singleton in Ha as ->. }
  destruct (unfixed (AExpr e)) eqn:N.
  - cbn [run]. destruct (user_step (Inst "SHL" _) u) as [u1|] eqn:E1; [|easy].
    destruct (user_step (Inst "SHR" _) u1) as [u2|] eqn:E2; [|easy]. intros [= <-].
    now rewrite (Same _ _ _ eq_refl E2), (Same _ _ _ eq_refl E1).
  - destruct e as [n size| | | |]; try easy. cbn [unfixed good_size no_rip] in N, G, Nr.
    destruct (reg_key n) as [k'|] eqn:Ek; [|easy]. apply negb_false_iff, is_in_elem in N.
    assert (Sk : k' ∈ segments).
    { apply negb_true_iff, String.eqb_neq in Nr. unfold fixed, segments in *. rewrite !elem_of_cons in *. tauto. }
    rewrite (proj2 (is_in_elem segments k') Sk) in G. cbn [negb orb] in G.
    apply andb_prop in G as [_ ->%Z.eqb_eq]. cbn [run user_step map arg_value value_of].
    rewrite Ek. destruct (shl_1 (u_reg u k') (u_gp u) (u_rest u)) as [x1 ->].
    cbn [write_back u_reg u_gp u_rest]. rewrite ?Ek, fn_lookup_insert.
    destruct (shr_1 (u64 (2 * u_reg u k')) (u_gp u) x1) as [x2 ->]. rewrite ?Ek. intros [= <-].
    cbn [u_reg]. rewrite shift_and_back by now apply B. destruct (decide (k = k')) as [->|Nk].
    + apply fn_lookup_insert.
    + now rewrite !fn_lookup_insert_ne by congruence.
Qed.

Lemma bases_of nm args checked e : e ∈ fst (bases_to_check nm args checked) -> e ∈ get_mem_base nm args.
Proof.
  unfold bases_to_check. cbn [fst]. intros H. apply list_elem_of_In, filter_In in H as [H _].
  unfold remove_dup in H. now rewrite <- list_elem_of_In, elem_of_remove_dups in H.
Qed.

Lemma body_keeps h nm args checked cc u : fits h nm args = true -> user_bases u ->
  keeps fixed (body nm (map arg_purify args) (fst (bases_to_check nm (map arg_purify args) checked)) cc) u.
Proof.
  intros F B u' H k Hk. apply fits_spec in F. revert H. unfold body.
  set (pargs := map arg_purify args) in *.
  assert (Last : forall u1 u2, run user_step [Inst nm pargs] u1 = Some u2 -> u_reg u2 k = u_reg u1 k).
  { intros u1 u2 E. cbn [run user_step] in E. destruct (cpu nm _ _ _) as [[[outs gp] x]|]; [|easy].
    injection E as <-. apply write_back_keeps; [apply F|easy]. }
  pose proof (bases_scaled nm pargs checked) as Bs. pose proof (bases_of nm pargs checked) as Bb.
  destruct (bases_to_check nm pargs checked) as [todo rest]. cbn [fst] in *.
  destruct (check_code_cases (map AExpr todo) cc) as [-> | (r & Er & ->)]; [apply Last|].
  destruct todo as [|e [|]]; try easy. injection Er as <-. rewrite run_app.
  destruct (run user_step _ u) as [u1|] eqn:E1; [|easy]. intros E2. rewrite (Last u1 u' E2).
  apply (mask_keeps e u); try easy; [apply (fi_sized _ _ _ F), Bs|apply (fi_bases _ _ _ F), Bb]; now left.
Qed.

Lemma part_keeps p h checked u : part_ok p h = true -> user_bases u -> keeps fixed (part_body p checked) u.
Proof.
  intros O B. destruct p as [nm args cc|t nm a| |]; cbn [part_ok part_body part_args] in *.
  - now apply (body_keeps h).
  - apply andb_prop in O as [_ O]. exact (body_keeps (Some t) nm [tmp t; a] checked false u O B).
  - now intros u' [= <-].
  - now intros u' [= <-].
Qed.

Lemma keeps_bases c u u' : keeps fixed c u -> user_bases u -> run user_step c u = Some u' -> user_bases u'.
Proof. intros K B E k Hk. rewrite (K u' E k) by now apply fixed_segments. now apply B. Qed.

Lemma parts_kept ps : forall h checked u, parts_ok ps h = true -> user_bases u ->
  parts_keep ps checked u /\ forall u', run user_step (parts_body ps checked) u = Some u' -> user_bases u'.
Proof.
  induction ps as [|p ps IH]; intros h checked u O B.
  { split; [exact I|]. now intros u' [= <-]. }
  cbn [parts_ok] in O. apply andb_prop in O as [Op O]. pose proof (part_keeps p h checked u Op B) as K.
  cbn [parts_keep parts_body]. split.
  - split; [exact K|]. intros u' E. now apply (IH (part_held p h)), (keeps_bases _ u u' K).
  - intros u' E. rewrite run_app in E. destruct (run user_step (part_body p checked) u) as [u1|] eqn:E1; [|easy].
    destruct (IH (part_held p h) (part_checked p checked) u1 O) as [_ H]; [now apply (keeps_bases _ u u1 K)|now apply H].
Qed.

Lemma at_rip_bases z u : user_bases u -> user_bases (at_rip z u).
Proof.
  intros B k Hk. unfold at_rip. rewrite write_reg_keep; [now apply B|]. intros ->. now apply is_in_elem in Hk.
Qed.

Lemma line_kept i offset checked cc u : supported i = true -> user_bases u ->
  line_keeps i offset checked cc (at_rip offset u) /\
  forall u', run user_step (line_body i offset checked cc) (at_rip offset u) = Some u' -> user_bases u'.
Proof.
  intros S B. destruct (supported_parts i offset cc S) as (ps & L & O & _). unfold line_keeps, line_body. rewrite L.
  apply (parts_kept ps None); [easy|now apply at_rip_bases].
Qed.

Lemma lines_ok_cons i rest : lines_ok (i :: rest) = true -> supported i = true /\ lines_ok rest = true.
Proof. cbn [lines_ok]. intros [[H _]%andb_prop R]%andb_prop. now split. Qed.

Lemma lines_kept lines : forall ccs offset checked u, lines_ok lines = true -> user_bases u ->
  lines_keep lines ccs offset checked u /\
  forall u', run_lines lines ccs offset checked u = Some u' -> user_bases u'.
Proof.
  induction lines as [|i lines IH]; intros [|cc ccs] offset checked u S B;
    try (split; [easy|]; now intros u' [= <-]).
  apply lines_ok_cons in S as [Si S]. destruct (line_kept i (offset + l i) checked cc u Si B) as [K H].
  cbn [lines_keep run_lines]. split.
  - split; [exact K|]. intros u' E. now apply IH, H.
  - destruct (run user_step _ _) as [u1|]; [|easy]. apply IH; [easy|now apply H].
Qed.

(** ** The block *)

(** The translator finds registers for the lines that it supports, and the code before
    the jump does what the lines do, masks included. *)
Lemma translated_block lines offset u s :
  lines <> [] -> lines_ok lines = true -> user_bases u -> agrees block_init u s ->
  exists c, translate_block lines offset = Some (c ++ tail (lines_ending lines) (lines_end lines offset))%list /\
    match run_lines lines (fst (check_flag_def_use lines)) offset [] u with
    | Some u' => ended (lines_ending lines) u' (run machine_step c s)
    | None => run machine_step c s = None
    end.
Proof.
  intros N O B A. unfold translate_block. pose proof block_init_holding as H.
  destruct (translate_lines_total lines (fst (check_flag_def_use lines)) offset (Tr block_init []) O H)
    as (c & st' & E). rewrite E.
  destruct (translate_lines_sim lines _ offset _ c st' u s E (flag_uses_length lines) N O H A) as (c0 & -> & Sim).
  - now apply lines_kept.
  - intros _ v Hv Q. cbn in Hv. each Hv; now apply is_in_elem in Q.
  - now exists c0.
Qed.
End Blocks.
