(* ===== verification/Sample.v ===== *)
(** A processor with six instructions and a memory, on which the theorems about the
    translator are tried, and a block for it. *)
From Stdlib Require Import ZArith Lia Bool String.
From stdpp Require Import base strings functions list gmap.
From S2P Require Import Prelude Conflict Translate Machine ConflictSpec TranslateSpec Parts Lines TranslateBlock Meaning.

Local Open Scope string_scope.
Local Open Scope Z_scope.
Local Open Scope ub_scope.

(** ** The processor *)

(** The words that were written, by their addresses; any other is twice its address. At
    [-1] is the zero flag. *)
Abbreviation sample_state := (gmap Z Z).
Definition word (m : sample_state) (a : Z) : Z := default (u64 (2 * a)) (m !! a).
Definition zero_flag (m : sample_state) : bool := default 0 (m !! (-1)) =? 1.
Definition with_flag (f : bool) (m : sample_state) : sample_state := <[-1 := Z.b2z f]> m.

Definition gp_value (n : string) (gp : list Z) : Z := default 0 (gp_reg n gp).
Fixpoint gp_put (names : list string) (n : string) (z : Z) (gp : list Z) : list Z :=
  match names, gp with
  | a :: names, b :: gp => if String.eqb a n then z :: gp else b :: gp_put names n z gp
  | _, _ => gp
  end.

(** An operand as a number; of an address, the sum of its parts. *)
Fixpoint number (gp : list Z) (v : value) : Z :=
  match v with
  | VReg z _ => z
  | VName n _ => gp_value n gp
  | VExpr (ExprInt z _) => u64 z
  | VMem _ rs i ms =>
      (fix sum (l : list value) : Z := match l with [] => 0 | x :: l => number gp x + sum l end) rs
      + match i with Some (ExprInt z _) => z | _ => 0 end
      + match ms with [a; b] => number gp a * number gp b | _ => 0 end
  | _ => 0
  end.

Definition read (gp : list Z) (m : sample_state) (v : value) : Z :=
  match v with VMem _ _ _ _ => word m (u64 (number gp v)) | _ => number gp v end.
Definition write (gp : list Z) (v : value) (z : Z) (m : sample_state) : option (list Z * list Z * sample_state) :=
  match v with
  | VReg _ _ => Some ([z], gp, m)
  | VName n _ => Some ([], gp_put gp_names n z gp, m)
  | VMem _ _ _ _ => Some ([], gp, <[u64 (number gp v) := z]> m)
  | _ => None
  end.

#[export] Instance sample_cpu : Cpu sample_state := {|
  cpu := fun name vs gp m =>
    match vs with
    | [a; b] =>
        let result z := write gp a z (with_flag (z =? 0) m) in
        if is_in ["MOV"; "MOVABS"] name then write gp a (read gp m b) m
        else if String.eqb name "LEA" then write gp a (u64 (number gp b)) m
        else if String.eqb name "ADD" then result (u64 (read gp m a + read gp m b))
        else if String.eqb name "SHL" then result (u64 (2 * read gp m a))
        else if String.eqb name "SHR" then result (read gp m a / 2)
        else None
    | _ => None
    end
|}.

#[export] Instance sample_shifts : Shifts sample_cpu.
Proof. split; intros v gp m; eexists; reflexivity. Qed.

#[export] Instance sample_moves : Moves sample_cpu.
Proof.
  split.
  - intros nm a b v gp m H. cbn [cpu sample_cpu]. now rewrite H.
  - intros nm a v gp m outs gp' x' H. cbn [cpu sample_cpu]. rewrite H. cbn [write]. intros [= <- _ _]. eauto.
Qed.

#[export] Instance sample_stack_moves : StackMoves sample_cpu.
Proof.
  split; intros.
  - unfold cpu, sample_cpu.
    change (is_in ["MOV"; "MOVABS"] "LEA") with false. change (String.eqb "LEA" "LEA") with true. cbv iota.
    cbn [write]. do 3 f_equal. f_equal. cbn [number]. destruct (Z.eqb_spec z 0) as [-> |].
    + f_equal. lia.
    + rewrite !Z.add_0_r. apply Zplus_mod_idemp_r.
  - reflexivity.
  - match goal with H : cpu _ _ _ _ = _ |- _ => revert H end. cbn [cpu sample_cpu].
    change (is_in ["MOV"; "MOVABS"] "MOV") with true. cbn [write]. intros [= _ <- <-]. now split.
Qed.

(** The sets of Python in the order of their insertion. *)
#[export] Instance in_order : PySet := {| arrange := fun s => s |}.
#[export] Instance in_order_ok : PySetOk in_order.
Proof. now split. Qed.

Definition reg64 (n : string) : expr := ExprId n 64.
Definition word_at (base : string) (z : Z) : expr := ExprMem (ExprOp "+" [reg64 base; ExprInt z 64]) 64.
Definition plain_inst (n : string) (es : list expr) (len : Z) : inst := MkInst n 0 0 es len.

(** ** A block *)

(** [MOV R12, [R13+8]; ADD R14, R12; PUSH [R13+8]; LEA R13, [RSP+16]; POP RBP; MOV R15, R14; CALL loc_7000]:
    more registers than there are places. *)
Definition sample_block : list inst :=
  [plain_inst "MOV" [reg64 "R12"; word_at "R13" 8] 4; plain_inst "ADD" [reg64 "R14"; reg64 "R12"] 3;
   plain_inst "PUSH" [word_at "R13" 8] 4; plain_inst "LEA" [reg64 "R13"; word_at "RSP" 16] 5;
   plain_inst "POP" [reg64 "RBP"] 1; plain_inst "MOV" [reg64 "R15"; reg64 "R14"] 3;
   plain_inst "CALL" [ExprLoc "loc_7000"] 5].

Definition sample_gp : list Z := [0x402000; 1; 2; 3; 4; 5; 6; 7; 8; 9].
Definition sample_user : ustate sample_state :=
  U (fun k => if String.eqb k "13" then 0x5000 else if String.eqb k "14" then 7
              else if String.eqb k "SP" then 0x7000 else 1) sample_gp ∅.
(** Its registers in the places that a block finds them in. *)
Definition sample_machine : mstate sample_state :=
  MState (fun p => if String.eqb p "13" then 0x7000 else 1)
    (fun n => if (n =? 12)%nat then 0x5000 else if (n =? 11)%nat then 7 else 1) sample_gp ∅.

Lemma sample_bases : user_bases sample_user.
Proof. intros k Hk. unfold segments in Hk. each Hk. Qed.

Lemma sample_agrees : agrees block_init sample_user sample_machine.
Proof.
  split; try reflexivity.
  - intros p v H N. pose proof (holds_phys block_init p v eq_refl H) as Hp.
    apply in_phys in Hp as [-> | [-> | [-> | ->]]]; cbn in H; injection H as <-; easy.
  - intros v Hv Ho. unfold homes in Hv. each Hv; destruct Ho as [Ho|Ho]; try reflexivity;
      try (apply is_in_elem in Ho; discriminate).
    now destruct (Ho "13").
Qed.
