(* ===== verification/Masks.v ===== *)
(** The masks of base registers are not seen by the program: where the translator
    emits them, the flags that they change are dead, and the address of a user is
    what it was. *)
From Stdlib Require Import ZArith Lia Bool String.
From stdpp Require Import base strings functions list gmap.
From S2P Require Import Prelude Conflict Translate Machine ConflictSpec TranslateSpec Parts Lines TranslateBlock Meaning Sample.

Local Open Scope string_scope.
Local Open Scope Z_scope.
Local Open Scope ub_scope.

(** ** The lines without their masks *)

Section Unmasked.
Context {X : Type} {processor : Cpu X}.

(** What the user's lines do. *)
Fixpoint run_unmasked (lines : list inst) (offset : Z) (u : ustate X) : option (ustate X) :=
  match lines with
  | [] => Some u
  | i :: lines =>
      let offset := offset + l i in
      match user_line i offset (at_rip offset u) with
      | Some u => run_unmasked lines offset u
      | None => None
      end
  end.

(** Only the bases of plain lines are masked. *)
Definition line_bases (i : inst) (checked : list expr) : list expr :=
  if plain_line i then fst (bases_to_check (get_inst_name i) (purified i) checked) else [].

(** Along the run, the bases that are masked satisfy [P], and the target of a call is not
    the word that the call pushes. *)
Fixpoint fits_along (P : expr -> ustate X -> Prop) (lines : list inst) (offset : Z) (checked : list expr)
  (u : ustate X) : Prop :=
  match lines with
  | [] => True
  | i :: lines =>
      let offset := offset + l i in
      (forall e, e ∈ line_bases i checked -> P e (at_rip offset u)) /\
      target_kept i offset (at_rip offset u) = true /\
      forall u', user_line i offset (at_rip offset u) = Some u' ->
        fits_along P lines offset (line_checked i checked) u'
  end.

(** The same as a test. *)
Fixpoint fits_alongb (p : expr -> ustate X -> bool) (lines : list inst) (offset : Z) (checked : list expr)
  (u : ustate X) : bool :=
  match lines with
  | [] => true
  | i :: lines =>
      let offset := offset + l i in
      forallb (fun e => p e (at_rip offset u)) (line_bases i checked) &&
      target_kept i offset (at_rip offset u) &&
      match user_line i offset (at_rip offset u) with
      | Some u => fits_alongb p lines offset (line_checked i checked) u
      | None => true
      end
  end.

Lemma fits_along_test (P : expr -> ustate X -> Prop) p : (forall e u, p e u = true -> P e u) ->
  forall lines offset checked u, fits_alongb p lines offset checked u = true -> fits_along P lines offset checked u.
Proof.
  intros H lines. induction lines as [|i lines IH]; intros offset checked u B; [exact I|].
  cbn [fits_alongb fits_along] in *. apply andb_prop in B as [[B1 Bt]%andb_prop B2]. rewrite forallb_forall in B1.
  split; [|split; [exact Bt|]].
  - intros e He. apply H, B1. now apply list_elem_of_In.
  - intros u' E. rewrite E in B2. now apply IH.
Qed.
End Unmasked.

(** ** What is relied on *)

(** States that differ in the flags only. *)
Class Flags (X : Type) := { but_flags : X -> X -> Prop }.

Section Masks.
Context {X : Type} {processor : Cpu X} {shifts : Shifts processor} {moves : Moves processor}
  {stack_moves : StackMoves processor} {flags : Flags X}.
Implicit Types (u v : ustate X).

Definition named (n : string) : list value := [VName n 64; VArg (AStr "1")].

(** Shifts change registers and flags as the manual says. *)
Class ShiftFlags : Prop := {
  but_flags_equiv :: Equivalence but_flags;
  shl_flags : forall z gp x outs gp' x', cpu "SHL" [VReg z 64; VArg (AStr "1")] gp x = Some (outs, gp', x') ->
    but_flags x x';
  shr_flags : forall z gp x outs gp' x', cpu "SHR" [VReg z 64; VArg (AStr "1")] gp x = Some (outs, gp', x') ->
    but_flags x x';
  named_mask : forall n z gp x, gp_reg n gp = Some z -> 0 <= z < 2 ^ 63 -> exists gp' x' x'',
    cpu "SHL" (named n) gp x = Some ([], gp', x') /\ cpu "SHR" (named n) gp' x' = Some ([], gp, x'') /\
    but_flags x x''
}.

(** An instruction is what its name says to [check_flag_def_use]: one that defines
    flags does so whatever they were, one that is in neither list passes them on. *)
Definition honest (nm : string) : Prop :=
  forall vs gp x y, but_flags x y -> check_in_list nm ops_def_flags = true \/ check_in_list nm ops_use_flags = false ->
  match cpu nm vs gp x, cpu nm vs gp y with
  | Some (outs, gp', x'), Some (outs', gp'', y') =>
      outs = outs' /\ gp' = gp'' /\ if check_in_list nm ops_def_flags then x' = y' else but_flags x' y'
  | None, None => True
  | _, _ => False
  end.

(** The others are done by moves and sums of addresses. *)
Definition moving : list string := ["LEA"; "MOV"; "MOVABS"].
Definition honest_line (i : inst) : Prop :=
  forall nm, nm ∈ (if plain_line i then [get_inst_name i] else moving) -> honest nm.

(** A base register that the mask leaves as it is. *)
Definition user_base (e : expr) u : Prop :=
  exists n, e = ExprId n 64 /\
    match reg_key n with
    | Some k => 0 <= u_reg u k < 2 ^ 63
    | None => exists z, gp_reg n (u_gp u) = Some z /\ 0 <= z < 2 ^ 63
    end.

Definition user_baseb (e : expr) u : bool :=
  match e with
  | ExprId n size =>
      match (match reg_key n with Some k => Some (u_reg u k) | None => gp_reg n (u_gp u) end) with
      | Some z => (size =? 64) && (0 <=? z) && (z <? 2 ^ 63)
      | None => false
      end
  | _ => false
  end.

Lemma user_base_test e u : user_baseb e u = true -> user_base e u.
Proof.
  destruct e as [n size| | | |]; try discriminate. cbn [user_baseb].
  intros H. exists n. destruct (reg_key n) as [k|]; [|destruct (gp_reg n (u_gp u)) as [z|]; [|easy]];
    apply andb_prop in H as [[->%Z.eqb_eq H1%Z.leb_le]%andb_prop H2%Z.ltb_lt]; (split; [reflexivity|]); [easy|].
  now exists z.
Qed.

(** ** States that differ in the flags *)

Lemma same_rip R z u v : same R u v -> same R (at_rip z u) (at_rip z v).
Proof.
  intros [H1 H2 H3]. split; try easy. intros k. unfold at_rip, write_reg. cbn [u_reg]. unfold insert, fn_insert.
  now destruct (decide ("IP" = k)).
Qed.

Context {shift_flags : ShiftFlags}.

(** A mask changes the flags only. *)
Lemma mask_unseen e u : user_base e u -> exists u',
  run user_step [Inst "SHL" [AExpr e; AStr "1"]; Inst "SHR" [AExpr e; AStr "1"]] u = Some u' /\ same but_flags u u'.
Proof.
  intros (n & -> & H). cbn [run user_step map arg_value value_of]. destruct (reg_key n) as [k|] eqn:Ek.
  - destruct (shl_1 (u_reg u k) (u_gp u) (u_rest u)) as [x1 E1]. rewrite E1. pose proof (shl_flags _ _ _ _ _ _ E1) as F1.
    cbn [write_back u_reg u_gp u_rest]. rewrite ?Ek, fn_lookup_insert.
    destruct (shr_1 (u64 (2 * u_reg u k)) (u_gp u) x1) as [x2 E2]. rewrite E2.
    pose proof (shr_flags _ _ _ _ _ _ E2) as F2. rewrite ?Ek. eexists. split; [reflexivity|].
    rewrite shift_and_back by easy. split; cbn; [|easy|now transitivity x1]. intros j.
    destruct (decide (j = k)) as [->|N]; [now rewrite fn_lookup_insert|now rewrite !fn_lookup_insert_ne by congruence].
  - destruct H as (z & Hz & H). destruct (named_mask n z (u_gp u) (u_rest u) Hz H) as (gp' & x' & x'' & E1 & E2 & F). unfold named in *.
    rewrite E1. cbn [write_back u_reg u_gp u_rest]. rewrite ?Ek, E2. cbn [write_back]. rewrite ?Ek.
    eexists. split; [reflexivity|]. now split.
Qed.

(** One instruction on states that differ in the flags. *)
Lemma honest_step nm args u v : honest nm ->
  check_in_list nm ops_def_flags = true \/ check_in_list nm ops_use_flags = false -> same but_flags u v ->
  both (same (if check_in_list nm ops_def_flags then eq else but_flags)) (user_step (Inst nm args) u)
    (user_step (Inst nm args) v).
Proof.
  intros Hi Hc S. cbn [user_step]. rewrite (same_args but_flags u v _ S), (sa_gp _ _ _ S).
  pose proof (Hi (map (arg_value (u_reg v)) args) (u_gp v) _ _ (sa_rest _ _ _ S) Hc) as H.
  destruct (cpu _ _ _ (u_rest u)) as [[[outs gp] x]|], (cpu _ _ _ (u_rest v)) as [[[outs' gp'] x']|]; try easy.
  destruct H as (<- & <- & Hx). split; cbn [u_reg u_gp u_rest]; [|easy|now destruct (check_in_list _ _)].
  intros k. apply write_back_ext. apply S.
Qed.

Lemma same_weaken (b : bool) u v : same eq u v -> same (if b then but_flags else eq) u v.
Proof. intros [H1 H2 H3]. destruct b; [|easy]. split; try easy. now rewrite H3. Qed.

Lemma user_base_same R e u v : same R u v -> user_base e v -> user_base e u.
Proof.
  intros [H1 H2 _] (n & -> & H). exists n. split; [easy|]. rewrite H2. destruct (reg_key n); [now rewrite H1|easy].
Qed.

(** The masked and the plain instruction. *)
Lemma masked_line nm args todo u v : honest nm ->
  check_in_list nm ops_def_flags = true \/ check_in_list nm ops_use_flags = false ->
  same but_flags u v -> (forall e, e ∈ todo -> user_base e v) ->
  both (same (if check_in_list nm ops_def_flags then eq else but_flags)) (run user_step (body nm args todo true) u)
    (user_step (Inst nm args) v).
Proof.
  intros Hi Hc S B. unfold body. rewrite run_app.
  assert (M : exists u1, run user_step (check_code (map AExpr todo) true) u = Some u1 /\ same but_flags u1 v).
  { destruct (check_code_cases (map AExpr todo) true) as [-> | (r & Er & ->)]; [now exists u|].
    destruct todo as [|e [|]]; try easy. injection Er as <-.
    destruct (mask_unseen e u) as (u1 & E & S1); [now apply (user_base_same but_flags e u v S), B; left|].
    exists u1. split; [exact E|]. destruct S as [A1 A2 A3], S1 as [B1 B2 B3]. split.
    - intros k. now rewrite <- B1.
    - now rewrite <- B2.
    - transitivity (u_rest u); [now symmetry|easy]. }
  destruct M as (u1 & -> & S1). rewrite run_one. now apply honest_step.
Qed.

(** Moves pass the flags on. *)
Definition passes (i : line) : bool := match i with Inst nm _ => is_in moving nm | _ => true end.

Lemma passing_run c : (forall nm, nm ∈ moving -> honest nm) -> forallb passes c = true -> forall u v, same but_flags u v ->
  both (same but_flags) (run user_step c u) (run user_step c v).
Proof.
  intros Hm. induction c as [|i c IH]; intros P u v S; [exact S|]. cbn [forallb] in P. apply andb_prop in P as [Pi P].
  cbn [run]. assert (H : both (same but_flags) (user_step i u) (user_step i v)).
  { destruct i as [nm args| |]; [|exact S..]. cbn [passes] in Pi. apply is_in_elem in Pi.
    assert (N : check_in_list nm ops_def_flags = false /\ check_in_list nm ops_use_flags = false)
      by (unfold moving in Pi; each Pi; split; vm_compute; reflexivity).
    destruct N as [N1 N2]. pose proof (honest_step nm args u v (Hm nm Pi) (or_intror N2) S) as H. now rewrite N1 in H. }
  destruct (user_step i u), (user_step i v); try easy. now apply IH.
Qed.

Lemma push_passes e checked : forallb passes (parts_body (push_parts e) checked) = true.
Proof.
  destruct e; unfold push_parts, move_RSP; cbn [parts_body part_body part_args]; unfold body;
    rewrite !check_code_false; reflexivity.
Qed.

Lemma pop_passes e checked : forallb passes (parts_body (pop_parts e) checked) = true.
Proof.
  destruct e; unfold pop_parts, move_RSP; cbn [app parts_body part_body part_args]; unfold body;
    rewrite !check_code_false; reflexivity.
Qed.

Lemma jump_passes jump e ps en checked : jump_parts jump e = Some (ps, en) ->
  forallb passes (parts_body ps checked) = true.
Proof.
  unfold jump_parts. destruct e; try easy; try (destruct (String.eqb jump "JMP"); [|easy]); intros [= <- <-];
    cbn [parts_body part_body part_args]; unfold body; rewrite ?check_code_false; reflexivity.
Qed.

Lemma special_passes i offset checked cc : plain_line i = false -> forallb passes (line_body i offset checked cc) = true.
Proof.
  unfold plain_line, line_body, line_parts. destruct (is_in special_instruction (name i)); cbn [negb andb].
  - intros _. destruct (_ || _); [reflexivity|].
    destruct (String.eqb _ "CALL").
    { destruct (args i) as [|e rest]; [easy|]. destruct (jump_parts "JMP" e) as [[qs en']|] eqn:J; [|easy].
      cbn [parts_body part_body part_args]. unfold body at 1. rewrite check_code_false, parts_body_app, !forallb_app.
      now rewrite push_passes, (jump_passes _ _ _ _ _ J). }
    destruct (String.eqb _ "PUSH").
    { destruct (args i) as [|e rest]; [easy|]. destruct (stack_operand e); [apply push_passes|easy]. }
    destruct (String.eqb _ "POP").
    { destruct (args i) as [|e rest]; [easy|]. destruct (stack_operand e); [apply pop_passes|easy]. }
    destruct (String.eqb _ "RET").
    { unfold move_RSP. cbn [parts_body part_body part_args]. unfold body. now rewrite !check_code_false. }
    destruct (String.eqb _ "LEAVE").
    { cbn [parts_body part_body part_args]. unfold body at 1. rewrite check_code_false, !forallb_app.
      now rewrite pop_passes. }
    now destruct (String.eqb _ "SYSCALL").
  - destruct (_ || _); [|easy]. intros _. destruct (args i) as [|e rest]; [easy|].
    destruct (jump_parts (name i) e) as [[ps en]|] eqn:J; [|easy]. now apply (jump_passes _ _ _ _ _ J).
Qed.

(** A line without masks. *)
Lemma unmasked_line i offset checked cc u v : supported i = true -> exact_line i = true -> honest_line i ->
  plain_line i = false -> target_kept i offset v = true -> same but_flags u v ->
  both (same but_flags) (run user_step (line_body i offset checked cc) u) (user_line i offset v).
Proof.
  intros Su Ex Ho P K S. unfold honest_line in Ho. rewrite P in Ho.
  eapply (both_trans (same but_flags) (same eq) (same but_flags)); [|apply passing_run; [exact Ho| |exact S]|
    exact (special_meaning i offset checked cc v Su P Ex K)].
  - intros a b c [A1 A2 A3] [B1 B2 B3]. split; [intros k; now rewrite A1|congruence|congruence].
  - now apply special_passes.
Qed.

Lemma equal_line i offset checked u v : supported i = true -> exact_line i = true ->
  target_kept i offset v = true -> same eq u v -> both (same eq) (run user_step (line_body i offset checked false) u) (user_line i offset v).
Proof.
  intros Su Ex K S. eapply both_same_trans; [exact (equal_run _ u v S)|].
  destruct (plain_line i) eqn:P; [|now apply special_meaning].
  rewrite plain_body, plain_meaning by easy. unfold body. rewrite check_code_false. cbn [app]. rewrite run_one. apply both_refl.
Qed.

(** The names of the special lines and of the jumps tell of no flags that they define. *)
Lemma special_not_defining i : plain_line i = false -> check_in_list (get_inst_name i) ops_def_flags = false.
Proof.
  intros H. assert (Hb : name i ∈ (special_instruction ++ conditional_branch ++ unconditional_branch)%list).
  { unfold plain_line in H. rewrite !elem_of_app, <- !is_in_elem.
    destruct (is_in special_instruction (name i)), (is_in conditional_branch (name i)),
      (is_in unconditional_branch (name i)); auto. }
  unfold get_inst_name. clear H. cbn [app special_instruction conditional_branch unconditional_branch] in Hb.
  generalize (g1 i .& 1) (g1 i .& 2) (g1 i .& 8) (g1 i .& 4) (prefixed i =? 0xf2) (prefixed i =? 0xf3).
  intros b1 b2 b3 b4 b5 b6.
  repeat (apply elem_of_cons in Hb as [-> | Hb]; [destruct b1, b2, b3, b4, b5, b6; vm_compute; reflexivity|]).
  inversion Hb.
Qed.

(** One line, before which the flags are dead or the same. *)
Lemma line_unseen i offset checked b u v : supported i = true -> exact_line i = true -> honest_line i ->
  let nm := get_inst_name i in
  let c := if check_in_list nm ops_def_flags then true else if check_in_list nm ops_use_flags then false else b in
  same (if c then but_flags else eq) u v -> (forall e, e ∈ line_bases i checked -> user_base e v) ->
  target_kept i offset v = true ->
  both (same (if b then but_flags else eq)) (run user_step (line_body i offset checked c) u) (user_line i offset v).
Proof.
  intros Su Ex Ho nm c S B K. destruct c eqn:E; unfold c in E.
  - assert (Hc : check_in_list nm ops_def_flags = true \/ check_in_list nm ops_use_flags = false)
      by (destruct (check_in_list _ ops_def_flags), (check_in_list _ ops_use_flags); auto).
    destruct (plain_line i) eqn:P.
    + unfold line_bases in B. unfold honest_line in Ho. rewrite P in B, Ho. rewrite plain_body, plain_meaning by easy.
      assert (Hn : honest nm) by (apply Ho; now left).
      pose proof (masked_line nm (purified i) _ u v Hn Hc S B) as H. eapply both_impl; [|exact H]. intros x y.
      destruct (check_in_list nm ops_def_flags); [now apply same_weaken|].
      destruct (check_in_list nm ops_use_flags); [easy|]. now rewrite E.
    + pose proof (special_not_defining i P) as D. fold nm in D. rewrite D in E, Hc.
      destruct (check_in_list nm ops_use_flags); [easy|]. subst b. now apply unmasked_line.
  - eapply both_impl; [|apply equal_line; [exact Su|exact Ex|exact K|exact S]]. intros x y. now apply same_weaken.
Qed.

(** A line that neither defines nor uses flags, with no mask. *)
Definition untouching (i : inst) : bool :=
  negb (check_in_list (get_inst_name i) ops_def_flags) && negb (check_in_list (get_inst_name i) ops_use_flags).

Lemma line_untouched i offset checked u v : supported i = true -> exact_line i = true -> honest_line i ->
  untouching i = true -> target_kept i offset v = true -> same but_flags u v ->
  both (same but_flags) (run user_step (line_body i offset checked false) u) (user_line i offset v).
Proof.
  unfold untouching. intros Su Ex Ho [D%negb_true_iff U%negb_true_iff]%andb_prop K S.
  destruct (plain_line i) eqn:P; [|now apply unmasked_line].
  unfold honest_line in Ho. rewrite P in Ho. rewrite plain_body, plain_meaning by easy.
  unfold body. rewrite check_code_false. cbn [app]. rewrite run_one.
  pose proof (honest_step _ (purified i) u v (Ho _ ltac:(now left)) (or_intror U) S) as H. now rewrite D in H.
Qed.

Lemma untouching_flags lines : forallb untouching lines = true ->
  check_flag_def_use lines = (replicate (length lines) false, false).
Proof.
  induction lines as [|i lines IH]; [reflexivity|]. cbn [forallb check_flag_def_use]. unfold untouching at 1.
  intros [[D%negb_true_iff U%negb_true_iff]%andb_prop H]%andb_prop. rewrite (IH H). cbv zeta. now rewrite D, U.
Qed.

Lemma untouched_run lines : forall offset checked u v, lines_ok lines = true -> forallb exact_line lines = true ->
  Forall honest_line lines -> forallb untouching lines = true -> same but_flags u v ->
  fits_along user_base lines offset checked v ->
  both (same but_flags) (run_lines lines (replicate (length lines) false) offset checked u) (run_unmasked lines offset v).
Proof.
  induction lines as [|i lines IH]; intros offset checked u v O Ex Hh T S B; [exact S|].
  apply lines_ok_cons in O as [Oi O]. cbn [forallb] in Ex, T. apply andb_prop in Ex as [Ei Ex].
  apply andb_prop in T as [Ti T]. apply Forall_cons in Hh as [Hi Hh]. destruct B as (_ & Bt & B2).
  cbn [length replicate run_lines run_unmasked].
  pose proof (line_untouched i (offset + l i) checked _ _ Oi Ei Hi Ti Bt (same_rip _ (offset + l i) u v S)) as H.
  destruct (run user_step _ _) as [u1|], (user_line i _ _) as [v1|] eqn:Ev; try easy. apply IH; auto.
Qed.

(** If the instructions of a block use and define flags as their names tell
    [check_flag_def_use], and each base that is masked is an address below 2^63, the
    block with masks does what the user's lines do without them. *)
Lemma masked_run lines : forall offset checked u v, lines_ok lines = true -> forallb exact_line lines = true ->
  Forall honest_line lines -> same (if snd (check_flag_def_use lines) then but_flags else eq) u v ->
  fits_along user_base lines offset checked v ->
  both (same eq) (run_lines lines (fst (check_flag_def_use lines)) offset checked u) (run_unmasked lines offset v).
Proof.
  induction lines as [|i lines IH]; intros offset checked u v O Ex Hh S B; [exact S|].
  apply lines_ok_cons in O as [Oi O]. cbn [forallb] in Ex. apply andb_prop in Ex as [Ei Ex].
  apply Forall_cons in Hh as [Hi Hh]. destruct B as (B1 & Bt & B2). cbn [check_flag_def_use] in *.
  destruct (check_flag_def_use lines) as [ret b] eqn:Ec. cbn [fst snd run_lines run_unmasked] in *.
  pose proof (line_unseen i (offset + l i) checked b _ _ Oi Ei Hi (same_rip _ (offset + l i) u v S) B1 Bt) as H.
  destruct (run user_step _ _) as [u1|], (user_line i _ _) as [v1|] eqn:Ev; try easy.
  apply IH; auto.
Qed.

(** Are the flags of the machine those of the user? Behind a block entered with others,
    they are if the block defines flags before it uses any; a block that does neither
    leaves it at that; of any other nothing is told. *)
Definition flags_met (known : bool) (lines : list inst) : option bool :=
  if known || snd (check_flag_def_use lines) then Some true
  else if forallb untouching lines then Some false else None.

Definition flag_rel (known : bool) : X -> X -> Prop := if known then eq else but_flags.

Lemma masks_unseen known met lines offset u v : lines_ok lines = true -> forallb exact_line lines = true ->
  Forall honest_line lines -> flags_met known lines = Some met -> same (flag_rel known) u v ->
  fits_along user_base lines offset [] v ->
  both (same (flag_rel met)) (run_lines lines (fst (check_flag_def_use lines)) offset [] u) (run_unmasked lines offset v).
Proof.
  unfold flags_met, flag_rel. intros O Ex H F S B. destruct (known || snd (check_flag_def_use lines)) eqn:E.
  - injection F as <-. apply masked_run; try easy. destruct known; [now apply same_weaken|].
    cbn [orb] in E. now rewrite E.
  - apply orb_false_iff in E as [-> E]. destruct (forallb untouching lines) eqn:T; [|easy]. injection F as <-.
    rewrite (untouching_flags lines T). cbn [fst]. now apply untouched_run.
Qed.

Lemma ended_same en u v (o : option (mstate X)) : same eq u v -> ended en u o -> ended en v o.
Proof.
  intros S. destruct en as [|jump t|r|]; cbn [ended].
  - intros (s & E & A). exists s. split; [easy|]. now apply (agrees_same _ u).
  - intros (s & E & A). exists s. split; [easy|]. now apply (agrees_same _ u).
  - unfold jump_value. rewrite (sa_gp _ _ _ S). destruct (reg_key r) as [k|].
    + rewrite (sa_reg _ _ _ S). intros (s & E & A & R). exists s. split; [easy|]. split; [|easy]. now apply (agrees_same _ u).
    + destruct (gp_reg r (u_gp v)); [|easy]. intros (s & E & A & R). exists s. split; [easy|]. split; [|easy].
      now apply (agrees_same _ u).
  - rewrite (sa_reg _ _ _ S). intros (s & E & A & R). exists s. split; [easy|]. split; [|easy]. now apply (agrees_same _ u).
Qed.

Context {py : PySet} {py_ok : PySetOk py}.

End Masks.

(** ** The masks of the sample block *)

#[export] Instance sample_flags : Flags sample_state := {| but_flags := fun x y => delete (-1) x = delete (-1) y |}.

Lemma flag_unseen f (x : sample_state) : delete (-1) (with_flag f x) = delete (-1) x.
Proof. apply delete_insert_eq. Qed.

Lemma flag_same f (x y : sample_state) : but_flags x y -> with_flag f x = with_flag f y.
Proof. intros E. unfold with_flag. rewrite <- (insert_delete_eq x), <- (insert_delete_eq y). now rewrite E. Qed.

Lemma u64_no_flag z : -1 <> u64 z.
Proof. pose proof (u64_range z) as U. unfold is_u64 in U. lia. Qed.

Lemma read_same gp (x y : sample_state) v : but_flags x y -> read gp x v = read gp y v.
Proof.
  intros E. destruct v; try reflexivity. cbn [read]. unfold word.
  pose proof (u64_no_flag (number gp (VMem sz regs im mul))) as N.
  rewrite <- (lookup_delete_ne x (-1)), <- (lookup_delete_ne y (-1)) by easy. now rewrite E.
Qed.

Lemma write_same gp v z (x y : sample_state) : but_flags x y ->
  match write gp v z x, write gp v z y with
  | Some (outs, gp', x'), Some (outs', gp'', y') => outs = outs' /\ gp' = gp'' /\ but_flags x' y'
  | None, None => True
  | _, _ => False
  end.
Proof.
  intros E. destruct v; cbn [write]; try easy. split; [easy|]. split; [easy|]. cbn [but_flags sample_flags].
  pose proof (u64_no_flag (number gp (VMem sz regs im mul))) as N.
  rewrite !delete_insert_ne by congruence. now rewrite E.
Qed.

Lemma gp_put_back ns : forall n z z' gp,
  option_map snd (List.find (fun e => String.eqb (fst e) n) (zip ns gp)) = Some z ->
  gp_put ns n z (gp_put ns n z' gp) = gp /\
  option_map snd (List.find (fun e => String.eqb (fst e) n) (zip ns (gp_put ns n z' gp))) = Some z'.
Proof.
  induction ns as [|a ns IH]; intros n z z' [|b gp] H; try discriminate. cbn [zip zip_with List.find fst gp_put] in *.
  destruct (String.eqb a n) eqn:E.
  - injection H as ->. cbn [gp_put zip zip_with List.find fst]. rewrite E. split; reflexivity.
  - cbn [gp_put zip zip_with List.find fst]. rewrite E. destruct (IH n z z' gp H) as [H1 H2]. now rewrite H1.
Qed.

#[export] Instance sample_shift_flags : ShiftFlags (processor := sample_cpu).
Proof.
  split.
  - split; [easy|now intros x y|intros x y z; cbn; congruence].
  - intros z gp x outs gp' x'. cbn. intros [= _ _ <-]. now rewrite flag_unseen.
  - intros z gp x outs gp' x'. cbn. intros [= _ _ <-]. now rewrite flag_unseen.
  - intros n z gp x Hz H. destruct (gp_put_back gp_names n z (u64 (2 * z)) gp Hz) as [H1 H2].
    unfold named. cbn [cpu sample_cpu]. change (is_in ["MOV"; "MOVABS"] "SHL") with false.
    change (is_in ["MOV"; "MOVABS"] "SHR") with false. literals. cbn [read number write].
    assert (G : gp_value n gp = z) by (unfold gp_value; now rewrite Hz). rewrite !G.
    eexists _, _, _. split; [reflexivity|]. cbn [read number write].
    assert (G' : gp_value n (gp_put gp_names n (u64 (2 * z)) gp) = u64 (2 * z))
      by (unfold gp_value, gp_reg; now rewrite H2).
    rewrite !G', shift_and_back, H1 by easy. split; [reflexivity|]. cbn. now rewrite !flag_unseen.
Qed.

Lemma sample_honest nm : is_in ["MOV"; "MOVABS"; "LEA"; "ADD"] nm = true -> honest nm.
Proof.
  intros H vs gp x y E _. apply is_in_elem in H. rewrite !elem_of_cons, elem_of_nil in H.
  destruct vs as [|a [|b [|]]]; try (destruct H as [-> | [-> | [-> | [-> | []]]]]; exact I).
  pose proof (read_same gp x y a E) as Ea. pose proof (read_same gp x y b E) as Eb.
  destruct H as [-> | [-> | [-> | [-> | []]]]]; cbn [cpu sample_cpu]; literals; rewrite <- ?Ea, <- ?Eb; try now apply write_same.
  change (is_in ["MOV"; "MOVABS"] "ADD") with false. cbv iota. rewrite (flag_same _ x y E).
  match goal with |- context [write ?g ?v ?z ?m] => destruct (write g v z m) as [[[]]|] end; [|exact I].
  repeat split.
Qed.

Lemma sample_honest_line i : is_in ["MOV"; "LEA"; "ADD"] (get_inst_name i) || negb (plain_line i) = true -> honest_line i.
Proof.
  intros H nm Hn. apply sample_honest. destruct (plain_line i).
  - apply list_elem_of_singleton in Hn as ->. rewrite orb_false_r in H. apply is_in_elem in H. apply is_in_elem.
    rewrite !elem_of_cons in *. tauto.
  - unfold moving in Hn. apply is_in_elem. rewrite !elem_of_cons in *. tauto.
Qed.


(** What the lines do: [0xa010] from memory, added to R14; the address [0x401019] behind
    the call is on the stack. *)
Example sample_result :
  option_map (fun u' => (u_reg u' "15", u_reg u' "13", u_reg u' "BP", u_reg u' "SP", word (u_rest u') 0x6ff8))
    (run_unmasked sample_block 0x401000 sample_user) = Some (0xa017, 0x7008, 0xa010, 0x6ff8, 0x401019).
Proof. vm_compute. reflexivity. Qed.

(** [CALL [R13+0x1ff8]], with the return address as its own target: the manual has the
    word that was there, the translator what it has just pushed. *)
Example call_target_overwritten :
  let i := plain_inst "CALL" [word_at "R13" 0x1ff8] 4 in let target u := u_reg u "T2" in
  target_kept i 0x401004 sample_user = false /\
  option_map target (user_line i 0x401004 sample_user) = Some 0xdff0 /\
  option_map target (run user_step (line_body i 0x401004 [] false) sample_user) = Some 0x401004.
Proof. vm_compute. repeat split; reflexivity. Qed.
