(* ===== verification/Jit.v ===== *)
(** The translated program: the text of [jit.S] with its labels and jumps, run from
    block to block beside the blocks of the user. *)
From Stdlib Require Import ZArith Lia Bool String Ascii.
From stdpp Require Import base strings functions list.
From S2P Require Import Prelude Conflict Translate Machine ConflictSpec TranslateSpec Parts Lines TranslateBlock Meaning Sample Masks.

Local Open Scope string_scope.
Local Open Scope Z_scope.
Local Open Scope ub_scope.

(** ** The machine *)

(** Conditional branches and the comparison of two registers, which changes the flags
    only. *)
Class Branches (X : Type) := { taken : string -> X -> bool; compare : Z -> Z -> X -> X }.
Class BranchesOk (X : Type) {branches : Branches X} {flags : Flags X} : Prop := {
  taken_JZ : forall a b x, taken "JZ" (compare a b x) = (a =? b);
  compare_flags : forall a b x, but_flags x (compare a b x)
}.

Definition branch (n : string) : bool := is_in conditional_branch n || is_in unconditional_branch n.

Section Jit.
Context {X : Type} {processor : Cpu X} {branches : Branches X} {printing : Printing}.
Implicit Types (u : ustate X).

Definition label_name (prefix : string) (z : Z) : string :=
  prefix +:+ substring 2 (String.length (hex z)) (hex z).

Definition target (a : arg) : option string :=
  match a with AStr t => Some t | ALabel prefix z => Some (label_name prefix z) | _ => None end.

Definition is_label (t : string) (i : line) : bool :=
  match i with
  | Text s => String.eqb s (t +:+ ":")
  | Label prefix z => String.eqb (label_name prefix z) t
  | Inst _ _ => false
  end.

(** What follows the label. *)
Fixpoint goto (prog : code) (t : string) : option code :=
  match prog with
  | [] => None
  | i :: prog => if is_label t i then Some prog else goto prog t
  end.

(** At a line of the text, or gone to a label of [wrapper.S]. *)
Inductive jstate : Type := Running (pc : code) (m : mstate X) | Gone (t : string) (m : mstate X).

Definition enter (prog : code) (t : string) (m : mstate X) : jstate :=
  match goto prog t with Some pc => Running pc m | None => Gone t m end.

Definition set_rest (x : X) (m : mstate X) : mstate X := MState (p_reg m) (p_stack m) (p_gp m) x.

(** Behind the text, [wrapper.S] goes on with [comp_syscall]. *)
Definition jit_step (prog : code) (st : jstate) : option jstate :=
  match st with
  | Gone t m => Some (Gone t m)
  | Running [] m => Some (Gone "comp_syscall" m)
  | Running (Inst name args :: pc) m =>
      if branch name then
        match args with
        | [a] =>
            match target a with
            | Some t => Some (if is_in unconditional_branch name || taken name (p_rest m)
                              then enter prog t m else Running pc m)
            | None => None
            end
        | _ => None
        end
      else
        match String.eqb name "CMP", args with
        | true, [AStr a; AStr b] =>
            match machine_reg a, machine_reg b with
            | Some a, Some b => Some (Running pc (set_rest (compare (p_reg m a) (p_reg m b) (p_rest m)) m))
            | _, _ => None
            end
        | _, _ => option_map (Running pc) (machine_step (Inst name args) m)
        end
  | Running (_ :: pc) m => Some (Running pc m)
  end.

Fixpoint jit_run (k : nat) (prog : code) (st : jstate) : option jstate :=
  match k with
  | O => Some st
  | S k => match jit_step prog st with Some st => jit_run k prog st | None => None end
  end.

Lemma jit_run_add j k prog st :
  jit_run (j + k) prog st = match jit_run j prog st with Some st => jit_run k prog st | None => None end.
Proof.
  revert st. induction j as [|j IH]; intros st; [reflexivity|]. cbn [Nat.add jit_run].
  now destruct (jit_step prog st).
Qed.

(** ** The user's program *)

(** What [dis_assem] has: the blocks, the targets seen of each indirect jump, by the
    address behind it, and the callees that are not among the blocks. *)
Record program : Type := Prog { pr_entry : Z; pr_blocks : list block; pr_table : list (Z * list Z); pr_missing : list Z }.

Definition b_end (b : block) : Z := lines_end (b_lines b) (b_offset b).
Definition find_block (p : program) (a : Z) : option block := List.find (fun b => b_offset b =? a) (pr_blocks p).

(** Where the user goes on: at a block, at an address that the text does not know, of
    which it tells the kernel [why], or with the system call at an address. *)
Inductive place : Type := At (a : Z) | Out (a why : Z) | Call (a : Z).
Definition address (a : place) : Z := match a with At z | Out z _ | Call z => z end.
Definition place_block (p : program) (a : place) : option block :=
  match a with At z => find_block p z | _ => None end.

(** An address that the text mentions: of a block, or of a callee that it has not. *)
Definition known_place (p : program) (z : Z) : place := match find_block p z with Some _ => At z | None => Out z 1 end.

(** What a label stands for. *)
Definition label_place (p : program) (t : string) : option place :=
  match List.find (fun b => String.eqb (b_label b) t) (pr_blocks p) with
  | Some b => Some (At (b_offset b))
  | None => option_map (fun z => Out z 1) (List.find (fun z => String.eqb (label_name "loc_" z) t) (pr_missing p))
  end.

Definition seen_targets (p : program) (offset : Z) : list Z :=
  match List.find (fun e => fst e =? offset) (pr_table p) with Some (_, ts) => ts | None => [] end.

(** An address in a register is looked up in the table of the jump. *)
Definition table_place (p : program) (offset z : Z) : place :=
  match List.find (fun t => z =? u64 t) (seen_targets p offset) with
  | Some _ => known_place p z
  | None => Out z offset
  end.

(** The block at an address, to the place where the user goes on. A jump changes neither
    registers nor flags of the user. *)
Definition user_block (p : program) (a : place) u : option (place * ustate X) :=
  match place_block p a with
  | None => None
  | Some b =>
      match run_unmasked (b_lines b) (b_offset b) u with
      | None => None
      | Some u =>
          match lines_ending (b_lines b) with
          | Fall => Some (At (b_end b), u)
          | Direct name t =>
              if is_in unconditional_branch name || taken name (u_rest u) then
                option_map (fun a => (a, u)) (label_place p t)
              else Some (At (b_end b), u)
          | Through r =>
              option_map (fun z => (table_place p (b_end b) z, u)) (jump_value r u)
          | Sys => Some (Call (u64 (u_reg u "IP" - 2)), u)
          end
      end
  end.

Fixpoint user_run (n : nat) (p : program) (a : place) u : option (place * ustate X) :=
  match n with
  | O => Some (a, u)
  | S n => match user_block p a u with Some (a, u) => user_run n p a u | None => None end
  end.

(** Along the first [n] blocks, the bases that are masked satisfy [P], and the targets of
    calls are not the words that they push. *)
Fixpoint fits_run (P : expr -> ustate X -> Prop) (n : nat) (p : program) (a : place) u : Prop :=
  match n with
  | O => True
  | S n =>
      match place_block p a with
      | Some b => fits_along P (b_lines b) (b_offset b) [] u
      | None => True
      end /\
      match user_block p a u with Some (a, u) => fits_run P n p a u | None => True end
  end.

(** The same as a test. *)
Fixpoint fits_runb (f : expr -> ustate X -> bool) (n : nat) (p : program) (a : place) u : bool :=
  match n with
  | O => true
  | S n =>
      match place_block p a with
      | Some b => fits_alongb f (b_lines b) (b_offset b) [] u
      | None => true
      end &&
      match user_block p a u with Some (a, u) => fits_runb f n p a u | None => true end
  end.

Lemma fits_run_test (P : expr -> ustate X -> Prop) f : (forall e u, f e u = true -> P e u) ->
  forall n p a u, fits_runb f n p a u = true -> fits_run P n p a u.
Proof.
  intros H n. induction n as [|n IH]; intros p a u B; [exact I|].
  cbn [fits_runb fits_run] in *. apply andb_prop in B as [B1 B2]. split.
  - destruct (place_block p a); [|exact I]. now apply (fits_along_test P f).
  - destruct (user_block p a u) as [[a1 u1]|]; [now apply IH|exact I].
Qed.

(** *** The flags *)

(** The comparisons of a jump table change the flags of the machine, which the user's
    jump keeps. Whether the machine has the user's flags behind a block: not behind an
    indirect jump. A block that starts without them has to define flags before it uses
    any, or to leave them alone and not to branch on them. *)
Definition flags_after (known : bool) (b : block) : option bool :=
  match flags_met known (b_lines b), lines_ending (b_lines b) with
  | Some _, Through _ => Some false
  | Some met, Direct n _ => if met || is_in unconditional_branch n then Some met else None
  | met, _ => met
  end.

(** Behind the first [n] blocks. *)
Fixpoint flags_run (n : nat) (p : program) (a : place) (known : bool) u : option bool :=
  match n with
  | O => Some known
  | S n =>
      match place_block p a with
      | Some b =>
          match flags_after known b, user_block p a u with
          | Some known, Some (a, u) => flags_run n p a known u
          | known, _ => known
          end
      | None => Some known
      end
  end.

(** ** Programs *)

Definition block_ok (b : block) : bool :=
  negb (length (b_lines b) =? 0)%nat && lines_ok (b_lines b) && forallb exact_line (b_lines b).

Definition falls (b : block) : bool :=
  match lines_ending (b_lines b) with
  | Fall => true
  | Direct n _ => negb (is_in unconditional_branch n)
  | Through _ | Sys => false
  end.

(** A block that does not end in a jump is before the one at its end. *)
Fixpoint chained (blocks : list block) : bool :=
  match blocks with
  | [] => true
  | b :: rest =>
      (negb (falls b) || match rest with b' :: _ => b_offset b' =? b_end b | [] => false end) && chained rest
  end.

(** The labels of the text; three more are those of [wrapper.S]. *)
Definition ij_label (o : Z) : string := label_name "ij_" o.
Definition loc_label (z : Z) : string := label_name "loc_" z.
Definition labels (p : program) : list string :=
  (map b_label (pr_blocks p) ++ map (fun e => ij_label (fst e)) (pr_table p) ++ map loc_label (pr_missing p))%list.

(** An indirect jump has its table. *)
Definition jump_listed (p : program) (b : block) : bool :=
  match lines_ending (b_lines b) with
  | Through _ => bool_decide (b_end b ∈ map fst (pr_table p))
  | _ => true
  end.
(** A target is an address, of a block with its label or of a missing callee. *)
Definition target_known (p : program) (t : Z) : bool :=
  (0 <=? t) && (t <? 2 ^ 64) &&
  match find_block p t with
  | Some b => String.eqb (b_label b) (loc_label t)
  | None => bool_decide (t ∈ pr_missing p)
  end.

(** The assembler would refuse a text with the same label twice, or without one. *)
Record program_ok (p : program) : Prop := {
  po_blocks : forallb block_ok (pr_blocks p) = true;
  po_chained : chained (pr_blocks p) = true;
  po_offsets : NoDup (map b_offset (pr_blocks p));
  po_labels : NoDup ("exit" :: "ij_failed" :: "comp_syscall" :: labels p);
  po_entry : option_map b_label (find_block p (pr_entry p)) = Some (loc_label (pr_entry p));
  po_listed : forallb (jump_listed p) (pr_blocks p) = true;
  po_targets : forallb (fun e => forallb (target_known p) (snd e)) (pr_table p) = true;
  po_missing : forallb (fun z => (0 <=? z) && (z <? 2 ^ 64)) (pr_missing p) = true;
  po_jumps : forallb (fun e => (1 <? fst e) && (fst e <? 2 ^ 64)) (pr_table p) = true
}.

(** ** Lines that go on to the next *)

Definition ordinary (i : line) : bool :=
  match i with
  | Inst n args => negb (branch n) && match args with AStr _ :: _ => negb (String.eqb n "CMP") | _ => true end
  | Text t => String.eqb t "NOP"
  | Label _ _ => false
  end.

Lemma ordinary_step prog n args pc m : ordinary (Inst n args) = true ->
  jit_step prog (Running (Inst n args :: pc) m) = option_map (Running pc) (machine_step (Inst n args) m).
Proof.
  cbn [ordinary jit_step]. intros [Hb Ha]%andb_prop. apply negb_true_iff in Hb. rewrite Hb.
  destruct (String.eqb n "CMP"); [|reflexivity]. destruct args as [|[]]; try reflexivity. discriminate.
Qed.

Lemma jit_run_ordinary prog c : forall pc m m', forallb ordinary c = true -> run machine_step c m = Some m' ->
  jit_run (length c) prog (Running (c ++ pc)%list m) = Some (Running pc m').
Proof.
  induction c as [|i c IH]; intros pc m m' O R; [now injection R as <-|].
  cbn [forallb] in O. apply andb_prop in O as [Oi O]. cbn [run] in R. cbn [length app jit_run].
  destruct i as [n args| |t]; [|discriminate|].
  - rewrite ordinary_step by easy. destruct (machine_step (Inst n args) m) as [m1|]; [|easy]. cbn [option_map]. now apply IH.
  - cbn [machine_step] in R. cbn [jit_step]. now apply IH.
Qed.

Lemma nop_no_label t : is_label t (Text "NOP") = false.
Proof.
  apply String.eqb_neq. destruct t as [|a [|b [|c [|]]]]; cbn; intros H; discriminate.
Qed.

Lemma ordinary_no_label t c : forallb ordinary c = true -> forallb (fun i => negb (is_label t i)) c = true.
Proof.
  rewrite !forallb_forall. intros H i Hi. specialize (H i Hi). destruct i as [| |x]; try easy.
  apply String.eqb_eq in H as ->. now rewrite nop_no_label.
Qed.

(** ** What the translator emits is ordinary *)

Context {py : PySet} {py_ok : PySetOk py}.

Lemma resolve_ordinary offset todo : forall idle victims stable_victims (rm : regmap) c rm',
  resolve todo idle victims stable_victims offset rm = Some (c, rm') -> forallb ordinary c = true.
Proof.
  assert (Swap : forall v p, forallb ordinary (swap_in v p offset) = true).
  { intros v p. unfold swap_in. destruct (String.eqb v "IP"); [reflexivity|].
    now destruct (negb (is_in stable_regs v)). }
  induction todo as [|v todo IH]; intros idle victims stable rm c rm' E; [now injection E as <- <-|].
  cbn [resolve] in E.
  destruct idle as [|p idle]; [destruct victims as [|p victims]; [destruct stable as [|p stable]; [easy|]|]|];
    (destruct (resolve todo _ _ _ offset (hold p v rm)) as [[c2 m2]|] eqn:E2; [|easy]);
    injection E as <- <-; change (forallb ordinary (swap_in v p offset ++ c2)%list = true);
    now rewrite forallb_app, Swap, (IH _ _ _ _ _ _ E2).
Qed.

Lemma recover_ordinary rm : forallb ordinary (fst (recover_stable rm)) = true.
Proof.
  assert (One : forall (m0 : regmap) v (m : regmap), forallb ordinary (fst (recover_one m0 v m)) = true).
  { intros m0 v m. unfold recover_one. destruct (starts_with_T v); [easy|]. now destruct (inv m0 v). }
  unfold recover_stable. assert (G : forall l c (m1 : regmap), forallb ordinary c = true -> forallb ordinary
    (fst (fold_left (fun '(c, m1) v => let '(c', m1) := recover_one rm v m1 in ((c ++ c')%list, m1)) l (c, m1))) = true).
  { induction l as [|v l IH]; intros c m1 H; [exact H|]. cbn [fold_left].
    specialize (One rm v m1). destruct (recover_one rm v m1) as [c' m2]. apply IH. now rewrite forallb_app, H. }
  now apply G.
Qed.

Lemma release_ordinary rm block_end : forallb ordinary (release_conflict rm block_end) = true.
Proof.
  unfold release_conflict. destruct (negb block_end); [easy|]. induction rm as [|[k v] rm IH]; [easy|].
  cbn [flat_map]. rewrite forallb_app, IH, andb_true_r. destruct (_ || _); [easy|].
  now destruct (negb (String.eqb v "FS") && negb (String.eqb v "GS")).
Qed.

Lemma get_inst_name_branch i : branch (name i) = false -> branch (get_inst_name i) = false.
Proof.
  intros H. unfold get_inst_name. cbv zeta.
  repeat match goal with |- context [if ?b then _ else _] => destruct b end; easy.
Qed.

(** The instruction and its mask. *)
Lemma body_ordinary nm todo cc args : branch nm = false -> user_operands args ->
  (forall a s, a ∈ todo -> a <> AStr s) ->
  forallb ordinary (check_code todo cc ++ [Inst nm args])%list = true.
Proof.
  intros Hn Ho Ht. assert (Last : ordinary (Inst nm args) = true).
  { cbn [ordinary]. rewrite Hn. destruct args as [|[]]; try easy. now destruct (Ho s args). }
  rewrite forallb_app. cbn [forallb]. rewrite Last.
  destruct (check_code_cases todo cc) as [-> | (r & -> & ->)]; [easy|].
  specialize (Ht r). destruct r; try reflexivity.
Qed.

Lemma apply_map_operands args args' rm : apply_map args rm = Some args' -> user_operands args -> user_operands args'.
Proof.
  intros E Ho t rest ->. apply mapM_Some in E. inversion E as [|a ? l ? Ha Hl]; subst.
  destruct a as [e|d|t'| | |]; cbn [apply_arg] in Ha; try discriminate.
  - now destruct (apply_expr rm e).
  - destruct (mapM (apply_expr rm) (regs d)); [|easy]. now destruct (mapM (apply_expr rm) (mul d)).
  - now destruct (Ho t' l).
Qed.

Lemma apply_map_regs es es' rm : apply_map (map AExpr es) rm = Some es' -> forall a s, a ∈ es' -> a <> AStr s.
Proof.
  intros E a s Ha ->. apply mapM_Some in E. apply list_elem_of_lookup in Ha as [j Hj].
  destruct (Forall2_lookup_r _ _ _ _ _ E Hj) as (x & Hx & Ex). apply list_lookup_fmap_Some in Hx as (e & -> & _).
  cbn [apply_arg] in Ex. now destruct (apply_expr rm e).
Qed.

(** The instructions of the parts do not jump. *)
Definition stays (p : part) : bool :=
  match p with Do nm _ _ | Load _ nm _ => negb (branch nm) | Drop | Pad => true end.

Lemma line_stays i offset cc ps en : line_parts i offset cc = Some (ps, en) -> forallb stays ps = true.
Proof.
  assert (Jump : forall jump e qs en, jump_parts jump e = Some (qs, en) -> forallb stays qs = true).
  { intros jump e qs en'. unfold jump_parts. destruct e; try easy; try (destruct (String.eqb jump "JMP"); [|easy]);
      now intros [= <- <-]. }
  unfold line_parts. destruct (is_in special_instruction (name i)).
  - destruct (_ || _); [now intros [= <- <-]|]. destruct (String.eqb _ "CALL").
    { destruct (args i) as [|e rest]; [easy|]. destruct (jump_parts "JMP" e) as [[qs en']|] eqn:J; [|easy].
      intros [= <- <-]. cbn. now apply (Jump "JMP" e qs en'). }
    destruct (String.eqb _ "PUSH").
    { destruct (args i) as [|e rest]; [easy|]. destruct (stack_operand e); [|easy]. intros [= <- <-]. now destruct e. }
    destruct (String.eqb _ "POP").
    { destruct (args i) as [|e rest]; [easy|]. destruct (stack_operand e); [|easy]. intros [= <- <-]. now destruct e. }
    destruct (String.eqb _ "RET"); [now intros [= <- <-]|].
    destruct (String.eqb _ "LEAVE"); [now intros [= <- <-]|]. destruct (String.eqb _ "SYSCALL"); [|easy]. now intros [= <- <-].
  - destruct (_ || _) eqn:E.
    + destruct (args i) as [|e rest]; [easy|]. now apply Jump.
    + intros [= <- <-]. cbn [forallb stays]. rewrite andb_true_r, negb_true_iff. now apply get_inst_name_branch.
Qed.

Lemma process_ordinary nm args offset cc st c st' : negb (branch nm) = true -> user_operands (map arg_purify args) ->
  process_normal nm args offset cc st = Some (c, st') -> forallb ordinary c = true.
Proof.
  intros Hb Ho E. apply negb_true_iff in Hb. unfold process_normal in E.
  destruct (bases_to_check _ _ _) as [todo checked]. destruct (length _ =? 0)%nat.
  - injection E as <- <-. apply body_ordinary; try easy. intros a s Ha ->.
    now apply list_elem_of_fmap in Ha as (e & ? & _).
  - destruct (conflict_resolve _ _ offset) as [[pre m1]|] eqn:Er; [|easy].
    destruct (apply_map _ m1) as [args'|] eqn:Ea; [|easy].
    destruct (apply_map (map AExpr todo) m1) as [todo'|] eqn:Et; [|easy].
    pose proof (recover_ordinary (release_IP m1)) as Rc.
    destruct (recover_stable (release_IP m1)) as [post m3]. injection E as <- <-.
    rewrite forallb_app, (resolve_ordinary _ _ _ _ _ _ _ _ Er). cbn [andb].
    rewrite (app_assoc _ [Inst _ args'] post : (_ ++ Inst _ args' :: post)%list = _), forallb_app.
    rewrite body_ordinary; [exact Rc|easy|now apply (apply_map_operands _ _ m1 Ea)|now apply (apply_map_regs todo _ m1)].
Qed.

Lemma part_ordinary p h offset st c st' : stays p = true -> part_ok p h = true ->
  part_code p offset st = Some (c, st') -> forallb ordinary c = true.
Proof.
  intros S O E. destruct p as [nm args cc|t nm a| |]; cbn [stays part_ok part_code] in *.
  - apply fits_spec in O. exact (process_ordinary nm args offset cc st c st' S (fi_operands _ _ _ O) E).
  - apply andb_prop in O as [_ O]. apply fits_spec in O. unfold cat, bind, resolve_for in E.
    destruct (conflict_resolve _ _ 0) as [[c1 m1]|] eqn:Er; [|easy].
    destruct (process_normal nm [tmp t; a] offset false (set_reg_map m1 st)) as [[c2 st2]|] eqn:E2; [|easy].
    injection E as <- <-. rewrite forallb_app, (resolve_ordinary _ _ _ _ _ _ _ _ Er).
    exact (process_ordinary _ _ _ _ _ _ _ S (fi_operands _ _ _ O) E2).
  - now injection E as <- <-.
  - now injection E as <- <-.
Qed.

Lemma parts_ordinary ps : forall h offset st c st', forallb stays ps = true -> parts_ok ps h = true ->
  parts_code ps offset st = Some (c, st') -> forallb ordinary c = true.
Proof.
  induction ps as [|p ps IH]; intros h offset st c st' S O E; [now injection E as <- <-|].
  change (parts_code (p :: ps) offset) with (cat (part_code p offset) (parts_code ps offset)) in E.
  cbn [forallb parts_ok] in S, O. apply andb_prop in S as [Sp S]. apply andb_prop in O as [Op O]. unfold cat, bind in E.
  destruct (part_code p offset st) as [[c1 st1]|] eqn:E1; [|easy].
  destruct (parts_code ps offset st1) as [[c2 st2]|] eqn:E2; [|easy]. injection E as <- <-.
  now rewrite forallb_app, (part_ordinary p h offset st c1 st1 Sp Op E1), (IH _ _ _ _ _ S O E2).
Qed.

Lemma end_ordinary en offset st c st' : end_code en offset true st = Some (c, st') ->
  exists c0, c = (c0 ++ tail en offset)%list /\ forallb ordinary c0 = true.
Proof.
  destruct en as [|jump t|r|]; cbn [end_code tail].
  - intros [= <- <-]. eexists. rewrite app_nil_r. split; [reflexivity|]. apply release_ordinary.
  - intros [= <- _]. eexists. split; [reflexivity|]. apply release_ordinary.
  - unfold jump_register, cat, bind, released. destruct (reverse_reg (reg_map st) r) as [p|]; [|easy]. intros [= <- _].
    rewrite app_assoc. eexists. split; [reflexivity|]. rewrite forallb_app, release_ordinary.
    now destruct (String.eqb p "14").
  - intros [= <- _]. now exists [Inst "MOVABS" [AStr "R14"; AHex (offset - 2)]].
Qed.

Lemma translate_lines_ordinary lines : forall ccs offset st c st', length ccs = length lines ->
  lines_ok lines = true -> holding None (reg_map st) -> translate_lines lines ccs offset st = Some (c, st') ->
  exists c0, c = (c0 ++ tail (lines_ending lines) (lines_end lines offset))%list /\ forallb ordinary c0 = true.
Proof.
  induction lines as [|i lines IH]; intros [|cc ccs] offset st c st' Len O H E; try easy.
  { injection E as <- <-. now exists []. }
  cbn [translate_lines lines_ok] in *. apply andb_prop in O as [[S F]%andb_prop O]. unfold cat, bind in E.
  destruct (translate i (offset + l i) (length lines =? 0)%nat cc st) as [[c1 st1]|] eqn:E1; [|easy].
  destruct (translate_lines lines ccs (offset + l i) st1) as [[c2 st2]|] eqn:E2; [|easy].
  injection E as <- <-.
  destruct (line_split i _ _ cc st c1 st1 S H E1) as (ps & c3 & c4 & st3 & L & P & E3 & E4 & -> & _).
  pose proof (parts_ordinary ps None _ st c3 st3 (line_stays _ _ _ _ _ L) P E3) as O3.
  destruct lines as [|i2 lines].
  - destruct ccs; [|easy]. injection E2 as <- <-. rewrite app_nil_r. apply end_ordinary in E4 as (c5 & -> & O5).
    exists (c3 ++ c5)%list. split; [apply app_assoc|]. now rewrite forallb_app, O3.
  - apply andb_prop in F as [F _]. destruct (line_map i _ _ cc st _ st1 S H E1) as (_ & H1 & _). specialize (H1 F).
    destruct (IH ccs _ st1 c2 st2 ltac:(now injection Len) O H1 E2) as (c5 & -> & O5).
    exists (c3 ++ c4 ++ c5)%list. split; [now rewrite <- !app_assoc|]. rewrite !forallb_app, O3, O5, andb_true_r.
    unfold falls_line in F. destruct (line_ending i); try easy. injection E4 as <- <-. now rewrite release_ordinary.
Qed.

(** ** The text of a program *)

Lemma goto_skip pre rest t : forallb (fun i => negb (is_label t i)) pre = true ->
  goto (pre ++ rest)%list t = goto rest t.
Proof.
  induction pre as [|i pre IH]; intros H; [easy|]. cbn [forallb] in H. apply andb_prop in H as [Hi H].
  apply negb_true_iff in Hi. cbn [app goto]. rewrite Hi. now apply IH.
Qed.

Lemma label_inj a b : (a +:+ ":") = (b +:+ ":") -> a = b.
Proof.
  revert b. induction a as [|c a IH]; intros [|d b] H; [easy| | |].
  - injection H as _ H. destruct b; discriminate.
  - injection H as _ H. destruct a; discriminate.
  - injection H as -> H. f_equal. now apply IH.
Qed.

Definition newline : line := Text (String "010" "").

Lemma newline_no_label t : is_label t newline = false.
Proof.
  apply String.eqb_neq. destruct t as [|a t]; [discriminate|]. intros H. injection H as _ H. destruct t; discriminate.
Qed.

Lemma block_ok_spec b : block_ok b = true ->
  b_lines b <> [] /\ lines_ok (b_lines b) = true /\ forallb exact_line (b_lines b) = true.
Proof.
  unfold block_ok. rewrite !andb_true_iff, negb_true_iff, Nat.eqb_neq. intros [[H S] E]. split; [|easy].
  intros Q. now rewrite Q in H.
Qed.

(** The jump at the end of a block. *)
Definition b_tail (b : block) : code := tail (lines_ending (b_lines b)) (b_end b).

(** The text of a block. *)
Lemma emit_block_ok b : block_ok b = true -> exists c0,
  emit_block b = Some (Text (b_label b +:+ ":") :: (c0 ++ b_tail b) ++ [newline])%list /\
  translate_block (b_lines b) (b_offset b) = Some (c0 ++ b_tail b)%list /\
  forallb ordinary c0 = true.
Proof.
  intros (N & O & _)%block_ok_spec. unfold emit_block, translate_block.
  destruct (translate_lines_total (b_lines b) (fst (check_flag_def_use (b_lines b))) (b_offset b) (Tr block_init []) O
    block_init_holding) as (c & st' & E).
  rewrite E.
  destruct (translate_lines_ordinary (b_lines b) _ (b_offset b) (Tr block_init []) c st' (flag_uses_length (b_lines b)) O
    block_init_holding E) as (c0 & -> & Oc).
  now exists c0.
Qed.

Lemma emitted_other b t c : block_ok b = true -> emit_block b = Some c -> b_label b <> t ->
  forallb (fun i => negb (is_label t i)) c = true.
Proof.
  intros B E N. destruct (emit_block_ok b B) as (c0 & E0 & _ & O). rewrite E0 in E. injection E as <-.
  cbn [forallb is_label]. apply andb_true_iff. split.
  - apply negb_true_iff, String.eqb_neq. intros H. now apply N, label_inj.
  - rewrite !forallb_app, ordinary_no_label by easy. cbn [forallb]. rewrite newline_no_label.
    unfold b_tail. now destruct (lines_ending (b_lines b)).
Qed.

Lemma emit_all blocks : forallb block_ok blocks = true -> exists cs, mapM emit_block blocks = Some cs.
Proof.
  rewrite forallb_forall. intros H. apply mapM_total. intros b Hb.
  destruct (emit_block_ok b (H b ltac:(now apply list_elem_of_In))) as (c0 & -> & _). eauto.
Qed.

(** Where the code of a block is. *)
Lemma goto_at entry pre b cs1 c cs3 tables :
  forallb block_ok pre = true -> (forall b1, b1 ∈ pre -> b_label b1 <> b_label b) ->
  Forall2 (fun b c => emit_block b = Some c) pre cs1 ->
  goto (Inst "JMP" [ALabel "loc_" entry] :: List.concat (cs1 ++ (Text (b_label b +:+ ":") :: c) :: cs3) ++ tables)%list
    (b_label b) = Some (c ++ List.concat cs3 ++ tables)%list.
Proof.
  intros B N E. cbn [goto is_label]. rewrite concat_app, <- app_assoc. rewrite goto_skip.
  - cbn [concat app goto is_label]. rewrite String.eqb_refl. f_equal. now rewrite <- !app_assoc.
  - rewrite forallb_forall in *. intros i Hi. apply in_concat in Hi as (c1 & Hc & Hi).
    apply list_elem_of_In, list_elem_of_lookup in Hc as [j Hj].
    destruct (Forall2_lookup_r _ _ _ _ _ E Hj) as (b1 & Hb1 & Eb1). apply list_elem_of_lookup_2 in Hb1.
    pose proof (emitted_other b1 (b_label b) c1 (B b1 ltac:(now apply list_elem_of_In)) Eb1 (N b1 Hb1)) as Q.
    rewrite forallb_forall in Q. now apply Q.
Qed.

Lemma labels_before pre b post b1 : NoDup (map b_label (pre ++ b :: post)%list) -> b1 ∈ pre -> b_label b1 <> b_label b.
Proof.
  intros N H Q. rewrite map_app in N. apply NoDup_app in N as (_ & N & _). apply (N (b_label b1)).
  - apply list_elem_of_fmap. now exists b1.
  - rewrite Q. cbn [map]. now left.
Qed.

(** The code of a block, and the block behind it. *)
Lemma goto_block entry pre b post cs tables :
  let blocks := (pre ++ b :: post)%list in
  let prog := (Inst "JMP" [ALabel "loc_" entry] :: List.concat cs ++ tables)%list in
  forallb block_ok blocks = true -> NoDup (map b_label blocks) -> mapM emit_block blocks = Some cs ->
  exists c0 rest, translate_block (b_lines b) (b_offset b) = Some (c0 ++ b_tail b)%list /\
    forallb ordinary c0 = true /\
    goto prog (b_label b) = Some (c0 ++ b_tail b ++ newline :: rest)%list /\
    forall b' post', post = (b' :: post')%list ->
      exists rest', rest = (Text (b_label b' +:+ ":") :: rest')%list /\ goto prog (b_label b') = Some rest'.
Proof.
  intros blocks prog B N E. unfold prog, blocks in *. clear blocks prog. apply mapM_Some in E.
  pose proof B as Ball. rewrite forallb_app in B. apply andb_prop in B as [Bp B].
  cbn [forallb] in B. apply andb_prop in B as [Bb Bq].
  apply Forall2_app_inv_l in E as (cs1 & cs2 & E1 & E2 & ->). inversion E2 as [|? c ? cs3 Ec E3]; subst. clear E2.
  destruct (emit_block_ok b Bb) as (c0 & Ec0 & Et & O). rewrite Ec0 in Ec. injection Ec as <-.
  exists c0, (List.concat cs3 ++ tables)%list. split; [exact Et|]. split; [exact O|]. split.
  - rewrite goto_at with (pre := pre); [|easy|intros b1; apply (labels_before pre b post); easy|easy].
    f_equal. now rewrite <- !app_assoc.
  - intros b' post' ->. inversion E3 as [|? c' ? cs4 Ec' E4]; subst. cbn [forallb] in Bq.
    apply andb_prop in Bq as [Bb' _]. destruct (emit_block_ok b' Bb') as (c1 & Ec1 & _). rewrite Ec1 in Ec'.
    injection Ec' as <-. eexists. split; [reflexivity|].
    rewrite (cons_middle _ cs1), app_assoc. rewrite goto_at with (pre := (pre ++ [b])%list).
    + f_equal. exact (app_assoc _ _ _).
    + rewrite forallb_app. cbn [forallb]. now rewrite Bp, Bb.
    + intros b1. apply (labels_before _ b' post'). now rewrite <- app_assoc.
    + apply Forall2_app; [easy|]. constructor; [exact Ec0|constructor].
Qed.

(** ** The tables *)

Lemma text_no_label blocks cs t : forallb block_ok blocks = true -> mapM emit_block blocks = Some cs ->
  t ∉ map b_label blocks -> forallb (fun i => negb (is_label t i)) (List.concat cs) = true.
Proof.
  intros B E N. apply mapM_Some in E. rewrite forallb_forall in *. intros i Hi.
  apply in_concat in Hi as (c & Hc & Hi). apply list_elem_of_In, list_elem_of_lookup in Hc as [j Hj].
  destruct (Forall2_lookup_r _ _ _ _ _ E Hj) as (b & Hb & Eb). apply list_elem_of_lookup_2 in Hb.
  assert (Nb : b_label b <> t) by (intros Q; apply N, list_elem_of_fmap; now exists b).
  pose proof (emitted_other b t c (B b ltac:(now apply list_elem_of_In)) Eb Nb) as Q.
  rewrite forallb_forall in Q. now apply Q.
Qed.

(** The lines of the table behind the label [ij_...]. *)
Definition ij_code (offset : Z) (psb_targets : list Z) : code :=
  List.tl (make_jump_table [(offset, psb_targets)]).

Lemma ij_code_cons offset t ts :
  ij_code offset (t :: ts) = (Inst "MOVABS" [AStr "R15"; AHex t] :: Inst "CMP" [AStr "R14"; AStr "R15"]
    :: Inst "JZ" [ALabel "loc_" t] :: ij_code offset ts)%list.
Proof. reflexivity. Qed.

Lemma make_table_cons o ts jt :
  make_jump_table ((o, ts) :: jt) = (Label "ij_" o :: ij_code o ts ++ make_jump_table jt)%list.
Proof. unfold ij_code, make_jump_table. cbn [flat_map]. now rewrite app_nil_r. Qed.

Lemma ij_code_no_label o ts t : forallb (fun i => negb (is_label t i)) (ij_code o ts) = true.
Proof. induction ts as [|z ts IH]; [reflexivity|]. rewrite ij_code_cons. exact IH. Qed.

Lemma goto_past pre i rest t : forallb (fun i => negb (is_label t i)) pre = true -> is_label t i = true ->
  goto (pre ++ i :: rest)%list t = Some rest.
Proof. intros H Hi. rewrite goto_skip by easy. cbn [goto]. now rewrite Hi. Qed.

Lemma goto_table o ts jt rest : NoDup (map (fun e => ij_label (fst e)) jt) ->
  List.find (fun e => fst e =? o) jt = Some (o, ts) ->
  exists rest', goto (make_jump_table jt ++ rest)%list (ij_label o) = Some (ij_code o ts ++ rest')%list.
Proof.
  induction jt as [|[o1 ts1] jt IH]; [discriminate|]. cbn [map fst List.find]. intros N H.
  apply NoDup_cons in N as [N1 N]. rewrite make_table_cons. cbn [app goto is_label].
  destruct (Z.eqb_spec o1 o) as [->|Ne].
  - injection H as ->. unfold ij_label. rewrite String.eqb_refl. rewrite <- app_assoc. now eexists.
  - fold (ij_label o1). assert (Nl : String.eqb (ij_label o1) (ij_label o) = false).
    { apply String.eqb_neq. intros Q. apply N1. rewrite Q. apply list_elem_of_fmap. exists (o, ts). split; [easy|].
      apply list_elem_of_In. now apply List.find_some in H. }
    rewrite Nl, <- app_assoc, goto_skip by apply ij_code_no_label. now apply IH.
Qed.

Lemma table_no_label jt t : t ∉ map (fun e => ij_label (fst e)) jt ->
  forallb (fun i => negb (is_label t i)) (make_jump_table jt) = true.
Proof.
  induction jt as [|[o ts] jt IH]; [reflexivity|]. cbn [map fst]. intros [N1 N]%not_elem_of_cons.
  rewrite make_table_cons. cbn [forallb is_label]. fold (ij_label o).
  rewrite forallb_app, ij_code_no_label, IH, !andb_true_r by easy. apply negb_true_iff, String.eqb_neq. congruence.
Qed.

Definition callee_code (z : Z) : code :=
  [Inst "MOVABS" [AStr "R14"; AHex z]; Inst "MOV" [AStr "Stack_IJ"; AStr "0x1"]; Inst "JMP" [AStr "exit"]].

Lemma goto_callee l t z rest : List.find (fun z => String.eqb (loc_label z) t) l = Some z ->
  exists rest', goto (make_callee_table l ++ rest)%list t = Some (callee_code z ++ rest')%list.
Proof.
  induction l as [|z1 l IH]; [discriminate|]. cbn [List.find].
  change (make_callee_table (z1 :: l)) with (Label "loc_" z1 :: callee_code z1 ++ make_callee_table l)%list.
  cbn [app goto is_label]. fold (loc_label z1). destruct (String.eqb (loc_label z1) t); [|exact IH].
  intros [= ->]. now eexists.
Qed.

Lemma callees_no_label l t : t ∉ map loc_label l -> forallb (fun i => negb (is_label t i)) (make_callee_table l) = true.
Proof.
  induction l as [|z l IH]; [reflexivity|]. cbn [map]. intros [N1 N]%not_elem_of_cons.
  change (make_callee_table (z :: l)) with (Label "loc_" z :: callee_code z ++ make_callee_table l)%list.
  cbn [forallb is_label app callee_code]. fold (loc_label z). rewrite IH, !andb_true_r by easy.
  apply negb_true_iff, String.eqb_neq. congruence.
Qed.

(** An indirect jump goes where it should or nowhere: the table behind its label
    leads to the block of the first address on its list that is the one in R14; when
    there is none, the code leaves by [ij_failed] with the place of the jump in R15.
    No register but R15, which block code does not rely on, no slot and no memory
    changes, but the flags do. *)
Lemma jump_table_dispatch {flags : Flags X} {ok : BranchesOk X} {equiv : Equivalence but_flags} prog offset psb_targets rest m : exists k m',
  jit_run k prog (Running (ij_code offset psb_targets ++ rest)%list m) =
    Some (match List.find (fun t => p_reg m "14" =? u64 t) psb_targets with
          | Some t => enter prog (loc_label t) m'
          | None => enter prog "ij_failed" m'
          end) /\
  (forall p, p <> "15" -> p_reg m' p = p_reg m p) /\ p_stack m' = p_stack m /\ p_gp m' = p_gp m /\
  but_flags (p_rest m) (p_rest m') /\
  (List.find (fun t => p_reg m "14" =? u64 t) psb_targets = None -> p_reg m' "15" = u64 offset).
Proof.
  revert m. induction psb_targets as [|t ts IH]; intros m.
  - exists 2%nat. eexists. split; [reflexivity|]. cbn. split; [|easy]. intros p N.
    now rewrite fn_lookup_insert_ne by congruence.
  - rewrite ij_code_cons.
    set (m2 := MState (<["15" := u64 t]> (p_reg m)) (p_stack m) (p_gp m) (compare (p_reg m "14") (u64 t) (p_rest m))).
    assert (R14 : p_reg m2 "14" = p_reg m "14") by reflexivity.
    assert (F2 : but_flags (p_rest m) (p_rest m2)) by apply compare_flags.
    assert (Step : forall pc k, jit_run (3 + k) prog (Running (Inst "MOVABS" [AStr "R15"; AHex t]
      :: Inst "CMP" [AStr "R14"; AStr "R15"] :: Inst "JZ" [ALabel "loc_" t] :: pc)%list m) =
      jit_run k prog (if p_reg m "14" =? u64 t then enter prog (loc_label t) m2 else Running pc m2)).
    { intros pc k. rewrite <- (taken_JZ (p_reg m "14") (u64 t) (p_rest m)). reflexivity. }
    cbn [List.find]. destruct (p_reg m "14" =? u64 t) eqn:E.
    + exists 3%nat, m2. cbn [app]. rewrite (Step _ O). split; [reflexivity|]. split; [|easy]. intros p N. cbn.
      now rewrite fn_lookup_insert_ne by congruence.
    + destruct (IH m2) as (k & m' & J & Hr & Hs & Hg & Hx & H15). rewrite R14 in J, H15.
      exists (3 + k)%nat, m'. cbn [app]. rewrite Step. split; [exact J|]. split; [|repeat split; try easy; now transitivity (p_rest m2)].
      intros p N. rewrite Hr by easy. cbn. now rewrite fn_lookup_insert_ne by congruence.
Qed.

End Jit.
