(* ===== verification/JitRun.v ===== *)
(** The translated program runs beside the user's: from block to block, through the
    tables of the indirect jumps, and out of the text where it has no block. *)
From Stdlib Require Import ZArith Lia Bool String Ascii.
From stdpp Require Import base strings functions list gmap.
From S2P Require Import Prelude Conflict Translate Machine ConflictSpec TranslateSpec Parts Lines TranslateBlock Meaning Sample Masks Jit.

Local Open Scope string_scope.
Local Open Scope Z_scope.
Local Open Scope ub_scope.

Lemma find_block_unique p b : NoDup (map b_offset (pr_blocks p)) -> b ∈ pr_blocks p ->
  find_block p (b_offset b) = Some b.
Proof.
  unfold find_block. generalize (pr_blocks p) as blocks. induction blocks as [|b0 blocks IH]; intros N Hb; [inversion Hb|].
  cbn [map] in N. apply NoDup_cons in N as [Nb N]. cbn [List.find].
  apply elem_of_cons in Hb as [->|Hb]; [now rewrite Z.eqb_refl|].
  destruct (Z.eqb_spec (b_offset b0) (b_offset b)) as [Q|_]; [|now apply IH]. exfalso. apply Nb. rewrite Q.
  apply list_elem_of_fmap. now exists b.
Qed.

(** The first with the key is the one with the key. *)
Lemma find_key {A : Type} (f : A -> string) l a : NoDup (map f l) -> a ∈ l ->
  List.find (fun x => String.eqb (f x) (f a)) l = Some a.
Proof.
  induction l as [|x l IH]; intros N Ha; [inversion Ha|]. cbn [map List.find] in *. apply NoDup_cons in N as [Nx N].
  apply elem_of_cons in Ha as [->|Ha]; [now rewrite String.eqb_refl|].
  destruct (String.eqb_spec (f x) (f a)) as [Q|_]; [|now apply IH]. exfalso. apply Nx. rewrite Q.
  apply list_elem_of_fmap. now exists a.
Qed.

Lemma find_no_key {A : Type} (f : A -> string) l t : t ∉ map f l -> List.find (fun x => String.eqb (f x) t) l = None.
Proof.
  induction l as [|x l IH]; [reflexivity|]. cbn [map List.find]. intros [N1 N]%not_elem_of_cons.
  destruct (String.eqb_spec (f x) t); [congruence|now apply IH].
Qed.

Lemma chained_next pre b post : chained (pre ++ b :: post)%list = true -> falls b = true ->
  exists b' post', post = (b' :: post')%list /\ b_offset b' = b_end b.
Proof.
  induction pre as [|b0 pre IH]; intros C F.
  - cbn [app chained] in C. apply andb_prop in C as [C _]. rewrite F in C. destruct post as [|b' post]; [easy|].
    cbn [negb orb] in C. apply Z.eqb_eq in C. now exists b', post.
  - cbn [app chained] in C. apply andb_prop in C as [_ C]. now apply IH.
Qed.

(** A direct jump is a branch. *)
Lemma ending_branch lines n t : lines_ending lines = Direct n t -> branch n = true.
Proof.
  unfold lines_ending. destruct (last lines) as [i|]; [|easy]. unfold line_ending, line_parts, branch.
  assert (Jump : forall jump e ps en, jump_parts jump e = Some (ps, en) -> en = Direct n t -> n = jump).
  { intros jump e ps en. unfold jump_parts. destruct e; try easy; try (destruct (String.eqb jump "JMP"); [|easy]);
      intros [= <- <-]; congruence. }
  destruct (is_in special_instruction (name i)).
  - destruct (_ || _); [easy|]. destruct (String.eqb _ "CALL").
    { destruct (args i) as [|e rest]; [easy|]. destruct (jump_parts "JMP" e) as [[ps en]|] eqn:J; [|easy].
      intros E. now rewrite (Jump _ _ _ _ J E). }
    destruct (String.eqb _ "PUSH").
    { destruct (args i) as [|e rest]; [easy|]. now destruct (stack_operand e). }
    destruct (String.eqb _ "POP").
    { destruct (args i) as [|e rest]; [easy|]. now destruct (stack_operand e). }
    destruct (String.eqb _ "RET"); [easy|]. destruct (String.eqb _ "LEAVE"); [easy|].
    now destruct (String.eqb _ "SYSCALL").
  - destruct (is_in conditional_branch (name i) || is_in unconditional_branch (name i)) eqn:Eb; [|easy].
    destruct (args i) as [|e rest]; [easy|]. destruct (jump_parts (name i) e) as [[ps en]|] eqn:J; [|easy].
    intros E. now rewrite (Jump _ _ _ _ J E).
Qed.

Section Run.
Context {X : Type} {processor : Cpu X} {branches : Branches X} {flags : Flags X} {branches_ok : BranchesOk X} {printing : Printing}.
Context {py : PySet} {py_ok : PySetOk py} {moves : Moves processor} {stack_moves : StackMoves processor}.
Context {shifts : Shifts processor} {shift_flags : ShiftFlags}.
Implicit Types (u : ustate X) (m : mstate X).

(** The instructions of all blocks use and define flags as their names tell. *)
Definition honest_blocks (blocks : list block) : Prop := Forall (fun b => Forall honest_line (b_lines b)) blocks.

Definition callee_state (z : Z) m : mstate X :=
  MState (<["14" := u64 z]> (p_reg m)) (<[17%nat := 1]> (p_stack m)) (p_gp m) (p_rest m).

Lemma callee_run prog z rest m :
  jit_run 3 prog (Running (callee_code z ++ rest)%list m) = Some (enter prog "exit" (callee_state z m)).
Proof. reflexivity. Qed.

Lemma callee_agrees z u m : agrees block_init u m -> agrees block_init u (callee_state z m).
Proof.
  intros A. apply (agrees_idle _ _ _ "14" (u64 z)) in A as [A1 A2 A3 A4]; [|apply block_init_stable|reflexivity].
  split; try easy. intros v Hv Ho. cbn. rewrite fn_lookup_insert_ne; [now apply A2|].
  unfold homes in Hv. each Hv; vm_compute; congruence.
Qed.

(** The machine has the registers and the memory of the user, and the flags if [known]. *)
Definition meets (known : bool) u m : Prop := exists v, same (flag_rel known) v u /\ agrees block_init v m.

Lemma meets_exactly u m : agrees block_init u m -> meets true u m.
Proof. intros A. exists u. split; [now apply (same_refl eq)|easy]. Qed.

Lemma meets_callee known z u m : meets known u m -> meets known u (callee_state z m).
Proof. intros (v & S & A). exists v. split; [exact S|now apply callee_agrees]. Qed.

(** The flags of both, up to what is known of them. *)
Lemma meets_rest known u m : meets known u m -> flag_rel known (p_rest m) (u_rest u).
Proof. intros (v & S & A). rewrite (ag_rest _ _ _ A). apply S. Qed.

(** The dispatch changes R15 and the flags. *)
Lemma dispatch_agrees u m m' : agrees block_init u m -> (forall q, q <> "15" -> p_reg m' q = p_reg m q) ->
  p_stack m' = p_stack m -> p_gp m' = p_gp m -> agrees block_init (U (u_reg u) (u_gp u) (p_rest m')) m'.
Proof.
  intros [A1 A2 A3 A4] Hr Hs Hg. split; cbn; try congruence.
  - intros q v Hq N. rewrite Hr; [now apply A1|]. intros ->. cbn in Hq. congruence.
  - intros v Hv Ho. rewrite Hs. now apply A2.
Qed.

Lemma dispatch_meets known u m m' : meets known u m -> (forall q, q <> "15" -> p_reg m' q = p_reg m q) ->
  p_stack m' = p_stack m -> p_gp m' = p_gp m -> but_flags (p_rest m) (p_rest m') -> meets false u m'.
Proof.
  intros (v & [S1 S2 S3] & A) Hr Hs Hg Hx. exists (U (u_reg v) (u_gp v) (p_rest m')).
  split; [|now apply (dispatch_agrees v m)]. split; [exact S1|exact S2|]. cbn. transitivity (p_rest m); [now symmetry|].
  rewrite (ag_rest _ _ _ A). destruct known; [|exact S3]. cbn in S3. now rewrite S3.
Qed.

(** The machine is where the user is. *)
Definition at_block (p : program) (prog : code) (a : place) (known : bool) u (st : jstate) : Prop := user_bases u /\
  exists b pc m, place_block p a = Some b /\ goto prog (b_label b) = Some pc /\ st = Running pc m /\ meets known u m.

(** Why it has left: a target that the text does not know, or a system call. *)
Definition left_by (a : place) (t : string) m : Prop :=
  match a with
  | At _ => False
  | Out _ why => t = "exit" /\ p_stack m 17%nat = why \/ t = "ij_failed" /\ p_reg m "15" = why
  | Call _ => t = "comp_syscall"
  end.

(** It has left, with the address of the user in R14. *)
Definition left_at (a : place) (known : bool) u (st : jstate) : Prop :=
  exists t m, st = Gone t m /\ left_by a t m /\ p_reg m "14" = address a /\ meets known u m.

Section Program.
Variables (p : program) (cs : list code).
Hypothesis ok : program_ok p.
Hypothesis honests : honest_blocks (pr_blocks p).
Hypothesis emitted : mapM emit_block (pr_blocks p) = Some cs.
Let tables : code := (make_jump_table (pr_table p) ++ make_callee_table (pr_missing p))%list.
Let prog : code := (Inst "JMP" [ALabel "loc_" (pr_entry p)] :: List.concat cs ++ tables)%list.

Definition reaches (a : place) (known : bool) u (st : jstate) : Prop :=
  exists k st', jit_run k prog st = Some st' /\ (at_block p prog a known u st' \/ left_at a known u st').

(** *** Labels *)

Lemma labels_parts : NoDup (labels p) /\ ("exit" ∉ labels p) /\ ("ij_failed" ∉ labels p) /\ ("comp_syscall" ∉ labels p).
Proof.
  pose proof (po_labels p ok) as [N1 [N2 [N3 N]%NoDup_cons]%NoDup_cons]%NoDup_cons.
  rewrite !not_elem_of_cons in *. tauto.
Qed.

Lemma labels_blocks : NoDup (map b_label (pr_blocks p)).
Proof. pose proof labels_parts as [N _]. now apply NoDup_app in N. Qed.

Lemma goto_tables t : t ∉ map b_label (pr_blocks p) -> goto prog t = goto tables t.
Proof.
  intros N. unfold prog. cbn [goto is_label]. apply goto_skip.
  apply (text_no_label (pr_blocks p) cs t); [apply ok|exact emitted|exact N].
Qed.

Lemma outside t : t ∉ labels p -> goto prog t = None.
Proof.
  unfold labels. rewrite !not_elem_of_app. intros (N1 & N2 & N3). rewrite goto_tables by easy. unfold tables.
  rewrite goto_skip by now apply table_no_label. rewrite <- (app_nil_r (make_callee_table _)).
  now rewrite goto_skip by now apply callees_no_label.
Qed.

Lemma goto_of b : b ∈ pr_blocks p -> exists pc, goto prog (b_label b) = Some pc.
Proof.
  intros Hb. apply list_elem_of_split in Hb as (pre & post & E).
  pose proof (po_blocks p ok) as B. pose proof labels_blocks as N. pose proof emitted as Em. rewrite E in *.
  destruct (goto_block (pr_entry p) pre b post cs tables B N Em) as (c0 & rest & _ & _ & G & _). eauto.
Qed.

Lemma enter_at b known u m : b ∈ pr_blocks p -> user_bases u -> meets known u m ->
  at_block p prog (At (b_offset b)) known u (enter prog (b_label b) m).
Proof.
  intros Hb B A. destruct (goto_of b Hb) as [pc G]. split; [easy|]. exists b, pc, m.
  split; [apply find_block_unique; [apply ok|easy]|]. unfold enter. rewrite G. easy.
Qed.

(** The label of a target stands for it. *)
Lemma known_label t : target_known p t = true -> label_place p (loc_label t) = Some (known_place p t) /\ is_u64 t.
Proof.
  unfold target_known. intros [[H1%Z.leb_le H2%Z.ltb_lt]%andb_prop H]%andb_prop. split; [|easy].
  pose proof labels_parts as [N _]. unfold labels in N. apply NoDup_app in N as (Nb & Nd & N).
  apply NoDup_app in N as (_ & _ & Nm). unfold label_place, known_place. destruct (find_block p t) as [b|] eqn:F.
  - apply String.eqb_eq in H. unfold find_block in F.
    apply List.find_some in F as [Hb <-%Z.eqb_eq]. rewrite <- H. rewrite (find_key b_label); [easy|exact Nb|].
    now apply list_elem_of_In.
  - apply bool_decide_eq_true in H. rewrite find_no_key.
    + change (fun z => String.eqb (label_name "loc_" z) (loc_label t))
        with (fun z => String.eqb (loc_label z) (loc_label t)). now rewrite (find_key loc_label).
    + intros Q. apply (Nd _ Q), elem_of_app. right. apply list_elem_of_fmap. now exists t.
Qed.

(** The code that a jump to a label finds. *)
Lemma enter_label t a known u m : label_place p t = Some a -> user_bases u -> meets known u m ->
  reaches a known u (enter prog t m).
Proof.
  intros H B A. unfold label_place in H.
  destruct (List.find (fun b => String.eqb (b_label b) t) (pr_blocks p)) as [b|] eqn:F.
  - injection H as <-. apply List.find_some in F as [Hb <-%String.eqb_eq]. apply list_elem_of_In in Hb.
    exists O, (enter prog (b_label b) m). split; [reflexivity|]. left. now apply enter_at.
  - assert (N : t ∉ map b_label (pr_blocks p)).
    { intros Q. apply list_elem_of_fmap in Q as (b & -> & Hb). apply list_elem_of_In in Hb.
      pose proof (List.find_none _ _ F b Hb) as Q.
      cbv beta in Q. now rewrite String.eqb_refl in Q. }
    destruct (List.find _ (pr_missing p)) as [z|] eqn:Fz in H; [|easy]. injection H as <-. rename Fz into H.
    pose proof H as Hz. apply List.find_some in Hz as [Hm <-%String.eqb_eq]. fold (loc_label z) in *.
    assert (Uz : is_u64 z).
    { pose proof (po_missing p ok) as M. rewrite forallb_forall in M. apply M, andb_prop in Hm as [H1%Z.leb_le H2%Z.ltb_lt].
      easy. }
    pose proof labels_parts as (Nl & Ne & _). unfold labels in Nl. rewrite app_assoc in Nl.
    apply NoDup_app in Nl as (_ & Nd & _).
    assert (Nj : loc_label z ∉ map (fun e => ij_label (fst e)) (pr_table p)).
    { intros Q. apply (Nd (loc_label z)); [apply elem_of_app; now right|]. apply list_elem_of_fmap. exists z.
      split; [easy|]. now apply list_elem_of_In. }
    unfold enter. rewrite goto_tables by easy. unfold tables. rewrite goto_skip by now apply table_no_label.
    destruct (goto_callee (pr_missing p) (loc_label z) z [] H) as (rest & G). rewrite app_nil_r in G. rewrite G.
    exists 3%nat. eexists. split; [apply callee_run|]. right. unfold enter. rewrite (outside "exit" Ne).
    exists "exit", (callee_state z m). split; [reflexivity|]. split; [now left; split|].
    split; [now apply u64_small|now apply meets_callee].
Qed.

(** *** One block *)

(** The block behind comes next in the text. *)
Lemma fall_through pre b post rest known u m : pr_blocks p = (pre ++ b :: post)%list -> falls b = true ->
  (forall b' post', post = (b' :: post')%list ->
    exists rest', rest = (Text (b_label b' +:+ ":") :: rest')%list /\ goto prog (b_label b') = Some rest') ->
  user_bases u -> meets known u m -> reaches (At (b_end b)) known u (Running (newline :: rest) m).
Proof.
  intros E F Hr B A. pose proof (po_chained _ ok) as C. rewrite E in C.
  destruct (chained_next pre b post C F) as (b' & post' & Ep & Eo). destruct (Hr b' post' Ep) as (rest' & -> & G).
  exists 2%nat. eexists. split; [reflexivity|]. left. rewrite <- Eo. split; [easy|]. exists b', rest', m.
  split; [|easy]. apply find_block_unique; [apply ok|]. rewrite E, Ep. apply elem_of_app. right. right. now left.
Qed.

Lemma reaches_after k a known u st st' : jit_run k prog st = Some st' -> reaches a known u st' -> reaches a known u st.
Proof.
  intros J (j & st2 & J2 & H). exists (k + j)%nat, st2. split; [|exact H]. now rewrite jit_run_add, J.
Qed.

(** An indirect jump by the table. *)
Lemma through_table b z known u m rest : b ∈ pr_blocks p -> jump_listed p b = true -> (exists r, lines_ending (b_lines b) = Through r) ->
  user_bases u -> meets known u m -> p_reg m "14" = z ->
  reaches (table_place p (b_end b) z) false u (Running (Inst "JMP" [ALabel "ij_" (b_end b)] :: rest) m).
Proof.
  intros Hb L (r & Er) B A <-. unfold jump_listed in L. rewrite Er in L. apply bool_decide_eq_true in L.
  pose proof labels_parts as (N & Ne & Nf & _). unfold labels in N. apply NoDup_app in N as (Nb & Nd & N).
  apply NoDup_app in N as (Nj & _ & _).
  assert (Ft : exists ts, List.find (fun e => fst e =? b_end b) (pr_table p) = Some (b_end b, ts)).
  { apply list_elem_of_fmap in L as ([o ts] & Eo & Hin). cbn [fst] in Eo.
    destruct (List.find (fun e => fst e =? b_end b) (pr_table p)) as [[o' ts']|] eqn:F.
    - apply List.find_some in F as [_ Q%Z.eqb_eq]. cbn [fst] in Q. subst o'. now exists ts'.
    - apply list_elem_of_In in Hin. pose proof (List.find_none _ _ F _ Hin) as Q. cbv beta in Q. cbn [fst] in Q.
      rewrite <- Eo, Z.eqb_refl in Q. discriminate. }
  destruct Ft as (ts & Ft).
  assert (Nl : ij_label (b_end b) ∉ map b_label (pr_blocks p)).
  { intros Q. apply (Nd _ Q), elem_of_app. left. apply list_elem_of_fmap. exists (b_end b, ts). split; [easy|].
    apply list_elem_of_In. now apply List.find_some in Ft. }
  destruct (goto_table (b_end b) ts (pr_table p) (make_callee_table (pr_missing p)) Nj Ft) as (rest' & G).
  assert (S1 : jit_run 1 prog (Running (Inst "JMP" [ALabel "ij_" (b_end b)] :: rest) m) =
    Some (Running (ij_code (b_end b) ts ++ rest')%list m)).
  { change (jit_run 1 prog (Running (Inst "JMP" [ALabel "ij_" (b_end b)] :: rest) m))
      with (Some (enter prog (ij_label (b_end b)) m)). unfold enter. rewrite goto_tables by easy. unfold tables. now rewrite G. }
  apply (reaches_after 1 _ _ _ _ _ S1).
  destruct (jump_table_dispatch prog (b_end b) ts rest' m) as (k & m' & J & Hr & Hs & Hg & Hx & H15).
  apply (reaches_after k _ _ _ _ _ J).
  pose proof (dispatch_meets known u m m' A Hr Hs Hg Hx) as A'.
  unfold table_place, seen_targets. rewrite Ft.
  destruct (List.find (fun t => p_reg m "14" =? u64 t) ts) as [t|] eqn:Fd.
  - apply List.find_some in Fd as [Ht Et%Z.eqb_eq].
    assert (Kt : target_known p t = true).
    { pose proof (po_targets _ ok) as T. rewrite forallb_forall in T. apply List.find_some in Ft as [Ft _].
      specialize (T _ Ft). cbn [snd] in T. rewrite forallb_forall in T. now apply T. }
    destruct (known_label t Kt) as [La Ut]. rewrite Et, u64_small by easy. now apply (enter_label (loc_label t)).
  - exists O. eexists. split; [reflexivity|]. right. unfold enter. rewrite (outside "ij_failed" Nf).
    exists "ij_failed", m'. split; [reflexivity|]. split; [|split; [now apply Hr|exact A']]. right. split; [reflexivity|].
    rewrite (H15 eq_refl). pose proof (po_jumps _ ok) as Pj. rewrite forallb_forall in Pj. apply List.find_some in Ft as [Ft _].
    specialize (Pj _ Ft). cbn [fst] in Pj. apply andb_prop in Pj as [P1%Z.ltb_lt P2%Z.ltb_lt].
    apply u64_small. unfold is_u64. lia.
Qed.

Lemma block_step a a' known known' u u' st : at_block p prog a known u st -> user_block p a u = Some (a', u') ->
  match place_block p a with
  | Some b => fits_along user_base (b_lines b) (b_offset b) [] u /\ flags_after known b = Some known'
  | None => True
  end -> reaches a' known' u' st.
Proof.
  intros [B (b & pc & m & Fb & G & -> & v & S & A)] H Ba. unfold user_block in H. rewrite Fb in H, Ba.
  destruct Ba as [Ba Fl].
  destruct a as [a|a w|a]; try easy. unfold place_block in Fb. apply List.find_some in Fb as [Hb <-%Z.eqb_eq]. apply list_elem_of_In in Hb.
  pose proof Hb as (pre & post & E)%list_elem_of_split.
  pose proof (po_blocks _ ok) as Bo. pose proof labels_blocks as N. pose proof emitted as Em.
  pose proof (po_listed _ ok) as Li. rewrite forallb_forall in Li. specialize (Li b ltac:(now apply list_elem_of_In)).
  rewrite forallb_forall in Bo. destruct (block_ok_spec b (Bo b ltac:(now apply list_elem_of_In))) as (Nl & Sup & Ex).
  rewrite <- forallb_forall in Bo. rewrite E in Bo, N, Em.
  destruct (goto_block (pr_entry p) pre b post cs tables Bo N Em) as (c0 & rest & Et & O & G' & Hr). fold prog in G', Hr.
  rewrite G in G'. injection G' as ->.
  assert (Bv : user_bases v) by (intros k Hk; rewrite (sa_reg _ _ _ S); now apply B).
  destruct (translated_block (b_lines b) (b_offset b) v m Nl Sup Bv A) as (c1 & Et' & Sim).
  rewrite Et in Et'. injection Et' as Ec. apply app_inv_tail in Ec as <-.
  assert (Hh : Forall honest_line (b_lines b)).
  { unfold honest_blocks in honests. rewrite Forall_forall in honests. now apply honests. }
  unfold flags_after in Fl. destruct (flags_met known (b_lines b)) as [met|] eqn:Fm; [|easy].
  pose proof (masks_unseen known met (b_lines b) (b_offset b) v u Sup Ex Hh Fm S Ba) as M.
  destruct (run_lines _ _ (b_offset b) [] v) as [u0|] eqn:Eu;
    destruct (run_unmasked _ (b_offset b) u) as [u1|]; try easy.
  assert (B1 : user_bases u1).
  { intros k Hk. rewrite <- (sa_reg _ _ _ M). now apply (lines_kept (b_lines b) (fst (check_flag_def_use (b_lines b))) (b_offset b) [] v Sup Bv). }
  assert (Met : forall m1, agrees block_init u0 m1 -> meets met u1 m1) by (intros m1 A1; now exists u0).
  assert (Run : forall m1, run machine_step c0 m = Some m1 -> forall z known v,
    reaches z known v (Running (b_tail b ++ newline :: rest)%list m1) ->
    reaches z known v (Running (c0 ++ b_tail b ++ newline :: rest)%list m)).
  { intros m1 R z kn w. apply reaches_after with (length c0). now apply jit_run_ordinary. }
  assert (Falls : forall m1, falls b = true -> agrees block_init u0 m1 ->
    reaches (At (b_end b)) met u1 (Running (newline :: rest) m1)).
  { intros m1 F A1. apply (fall_through pre b post); auto. }
  unfold falls in Falls. unfold b_tail in Run |- *. destruct (lines_ending (b_lines b)) as [|n t|r|] eqn:Ej; cbn [ended tail app] in *.
  - injection Fl as <-. destruct Sim as (m1 & R & A1). injection H as <- <-. apply (Run m1 R). now apply Falls.
  - destruct Sim as (m1 & R & A1). apply (Run m1 R).
    assert (Tk' : is_in unconditional_branch n || taken n (p_rest m1) = is_in unconditional_branch n || taken n (u_rest u1)).
    { destruct (is_in unconditional_branch n); [reflexivity|]. destruct met; [|easy].
      pose proof (meets_rest true u1 m1 (Met m1 A1)) as Q. cbn in Q. now rewrite Q. }
    rewrite <- Tk' in H.
    assert (Ek : known' = met) by (destruct (met || is_in unconditional_branch n); congruence). subst known'.
    assert (S1 : jit_run 1 prog (Running (Inst n [AStr t] :: newline :: rest) m1) =
      Some (if is_in unconditional_branch n || taken n (p_rest m1) then enter prog t m1 else Running (newline :: rest) m1)).
    { cbn [jit_run jit_step target]. now rewrite (ending_branch _ n t Ej). }
    apply (reaches_after 1 _ _ _ _ _ S1). destruct (is_in unconditional_branch n || taken n (p_rest m1)) eqn:Tk.
    + destruct (label_place p t) as [a|] eqn:La; [|easy]. injection H as <- <-. apply (enter_label t); auto.
    + injection H as <- <-. apply orb_false_iff in Tk as [Tu _]. apply Falls; [now rewrite Tu|easy].
  - injection Fl as <-.
    assert (Ez : jump_value r u0 = jump_value r u1).
    { unfold jump_value. rewrite (sa_gp _ _ _ M). destruct (reg_key r); [now rewrite (sa_reg _ _ _ M)|easy]. }
    rewrite Ez in Sim. destruct (jump_value r u1) as [z|]; [|easy]. destruct Sim as (m1 & R & A1 & E14). apply (Run m1 R).
    injection H as <- <-. apply (through_table b z met); auto. now exists r.
  - injection Fl as <-. destruct Sim as (m1 & R & A1 & E14). apply (Run m1 R). injection H as <- <-.
    rewrite (sa_reg _ _ _ M) in E14.
    exists 1%nat. eexists. split; [reflexivity|]. right. unfold enter. rewrite (outside "comp_syscall") by apply labels_parts.
    exists "comp_syscall", m1. split; [reflexivity|]. split; [reflexivity|]. auto.
Qed.

(** *** Many blocks *)

Lemma blocks_run n : forall a a' known known' u u' st, at_block p prog a known u st ->
  user_run n p a u = Some (a', u') -> fits_run user_base n p a u -> flags_run n p a known u = Some known' ->
  reaches a' known' u' st.
Proof.
  induction n as [|n IH]; intros a a' known known' u u' st At H Ba Fl.
  { injection H as <- <-. injection Fl as <-. exists O, st. split; [reflexivity|]. now left. }
  cbn [user_run] in H. destruct (user_block p a u) as [[a1 u1]|] eqn:E; [|easy].
  destruct Ba as [Ba1 Ba]. rewrite E in Ba. cbn [flags_run] in Fl.
  assert (Hp : exists k1, match place_block p a with Some b => flags_after known b = Some k1 | None => True end /\
    flags_run n p a1 k1 u1 = Some known').
  { pose proof At as [_ (b & _ & _ & Pb & _)]. rewrite Pb in Fl |- *.
    destruct (flags_after known b) as [k1|]; [|easy]. rewrite E in Fl. now exists k1. }
  destruct Hp as (kn & Hk & Fl1).
  destruct (block_step a a1 known kn u u1 st At E) as (k1 & st1 & J1 & [At1|Lt]).
  { destruct (place_block p a); [now split|exact I]. }
  - apply (reaches_after k1 _ _ _ _ _ J1). now apply (IH a1 a' kn known' u1).
  - destruct n as [|n].
    + injection H as <- <-. injection Fl1 as <-. exists k1, st1. split; [exact J1|]. now right.
    + exfalso. cbn [user_run] in H. destruct Lt as (t & m & _ & Lb & _). unfold user_block in H. now destruct a1.
Qed.

Lemma start_at known u m : user_bases u -> meets known u m -> exists st,
  jit_run 1 prog (Running prog m) = Some st /\ at_block p prog (At (pr_entry p)) known u st.
Proof.
  intros B A. pose proof (po_entry _ ok) as En. destruct (find_block p (pr_entry p)) as [b|] eqn:Fb; [|easy].
  injection En as En. unfold find_block in Fb. apply List.find_some in Fb as [Hb Eb%Z.eqb_eq]. apply list_elem_of_In in Hb.
  exists (enter prog (loc_label (pr_entry p)) m). split; [reflexivity|]. rewrite <- En, <- Eb. now apply enter_at.
Qed.
End Program.

End Run.

(** ** A program of five blocks *)

Fixpoint hex_digits (fuel : nat) (z : Z) (s : string) : string :=
  match fuel with
  | O => s
  | S fuel =>
      let d := Z.to_nat (z mod 16) in
      let s := (substring d 1 "0123456789abcdef" +:+ s) in
      if z / 16 =? 0 then s else hex_digits fuel (z / 16) s
  end.
#[export] Instance sample_printing : Printing :=
  {| str := fun e => default "" (reg_name e); hex := fun z => "0x" +:+ hex_digits 16 z "" |}.

#[export] Instance sample_branches : Branches sample_state :=
  {| taken := fun n x => if String.eqb n "JZ" then zero_flag x else if String.eqb n "JNZ" then negb (zero_flag x) else false;
     compare := fun a b x => with_flag (a =? b) x |}.
#[export] Instance sample_branches_ok : BranchesOk sample_state.
Proof.
  split; intros a b x; [|symmetry; apply flag_unseen].
  cbn. unfold zero_flag, with_flag. rewrite lookup_insert_eq. cbn. now destruct (a =? b).
Qed.

(** The flag is set before the jump and not behind the table. *)
Example table_loses_flags :
  let m := MState (fun _ => 0x402000) (fun _ => 1) [] (with_flag true ∅) in
  zero_flag (p_rest m) = true /\
  match jit_run 5 [] (Running (ij_code 0x401022 [0x401010]) m) with
  | Some (Gone t m) => t = "ij_failed" /\ zero_flag (p_rest m) = false
  | _ => False
  end.
Proof. vm_compute. repeat split; reflexivity. Qed.

(** A call between pushes and pops, a return, and a jump through RBX, to a system call
    or to a callee that is not among the blocks. *)
Definition sample_program : program :=
  Prog 0x401000
    [MkBlock "loc_401000" 0x401000
       [plain_inst "ADD" [reg64 "R12"; reg64 "R13"] 3; plain_inst "JZ" [ExprLoc "loc_401010"] 2];
     MkBlock "loc_401005" 0x401005
       [plain_inst "MOV" [reg64 "R14"; word_at "R12" 8] 4; plain_inst "PUSH" [reg64 "R14"] 2;
        plain_inst "CALL" [ExprLoc "loc_401020"] 5];
     MkBlock "loc_401010" 0x401010
       [plain_inst "POP" [word_at "R12" 16] 4; plain_inst "LEA" [reg64 "R13"; word_at "RSP" 16] 5;
        plain_inst "JMP" [reg64 "RBX"] 2];
     MkBlock "loc_401020" 0x401020 [plain_inst "NOP" [] 1; plain_inst "RET" [] 1];
     MkBlock "loc_401030" 0x401030 [plain_inst "MOV" [reg64 "RAX"; word_at "RDI" 8] 4; plain_inst "SYSCALL" [] 2]]
    [(0x401022, [0x401010]); (0x40101b, [0x401000; 0x402000; 0x401030])] [0x402000].

Lemma sample_program_ok : program_ok sample_program.
Proof.
  split; try (vm_compute; reflexivity); refine (bool_decide_eq_true_1 (NoDup _) _); vm_compute; reflexivity.
Qed.

Lemma sample_program_honest : honest_blocks (pr_blocks sample_program).
Proof.
  repeat (constructor; [repeat (constructor; [apply sample_honest_line; vm_compute; reflexivity|]); constructor|]).
  constructor.
Qed.

(** The only base is R12, in the second block. *)
Lemma sample_program_bases : fits_run user_base 4 sample_program (At 0x401000) sample_user.
Proof. apply (fits_run_test _ user_baseb); [exact user_base_test|]. vm_compute. reflexivity. Qed.

(** It starts without the flags, gets them from ADD and loses them in the table. *)
Lemma sample_program_flags : flags_run 4 sample_program (At 0x401000) false sample_user = Some false.
Proof. vm_compute. reflexivity. Qed.

Lemma sample_meets : meets false sample_user sample_machine.
Proof. exists sample_user. split; [now apply (same_refl but_flags)|exact sample_agrees]. Qed.

