(* ===== verification/IndirectJump.v ===== *)
(** The targets of indirect jumps: [find] and [dfs] of [zz_disassem/indirect_jump.py],
    which collect, for every RET, the addresses behind the calls that reach it. *)
From Stdlib Require Import ZArith Lia Bool String Ascii.
From stdpp Require Import base strings list relations.
From S2P Require Import Prelude Conflict Translate.

Local Open Scope string_scope.
Local Open Scope Z_scope.
Local Open Scope ub_scope.

(** ** Data *)

(** A block of the control-flow graph: its lines, and the addresses in the labels of
    the blocks that it goes to. *)
Record node : Type := Node { n_lines : list inst; bto : list Z }.
Abbreviation graph := (list (Z * node)).
Abbreviation jtable := (list (Z * list Z)).

(** [dict[k]], and the test for the key. *)
Definition lookup {A : Type} (k : Z) (d : list (Z * A)) : option A :=
  option_map snd (List.find (fun e => fst e =? k) d).
Definition has_key {A : Type} (k : Z) (d : list (Z * A)) : bool := existsb (fun e => fst e =? k) d.

(** [if offset not in jump_table: jump_table[offset] = []] *)
Definition touch (offset : Z) (t : jtable) : jtable :=
  if has_key offset t then t else (t ++ [(offset, [])])%list.
(** [jump_table[offset].append(ret_addr)] *)
Definition append (offset ret_addr : Z) (t : jtable) : jtable :=
  map (fun e => if fst e =? offset then (fst e, (snd e ++ [ret_addr])%list) else e) t.

(** [int(label.split('_')[1], 16)]; None is an error of Python. *)
Definition hex_digit (c : ascii) : option Z :=
  let n := Z.of_nat (nat_of_ascii c) in
  if (48 <=? n) && (n <=? 57) then Some (n - 48)
  else if (97 <=? n) && (n <=? 102) then Some (n - 87)
  else if (65 <=? n) && (n <=? 70) then Some (n - 55) else None.

Fixpoint hex_value (acc : Z) (s : string) : option Z :=
  match s with
  | "" => Some acc
  | String c s => match hex_digit c with Some d => hex_value (16 * acc + d) s | None => None end
  end.

(** What is before the next underscore, and what is behind it. *)
Fixpoint before_underscore (s : string) : string :=
  match s with
  | "" => ""
  | String c s => if Ascii.eqb c "_" then "" else String c (before_underscore s)
  end.
Fixpoint behind_underscore (s : string) : option string :=
  match s with
  | "" => None
  | String c s => if Ascii.eqb c "_" then Some s else behind_underscore s
  end.

Definition label_address (label : string) : option Z :=
  match behind_underscore label with
  | Some s => match before_underscore s with "" => None | d => hex_value 0 d end
  | None => None
  end.

(** ** dfs *)

(** Each RET of the block, with the offset behind it. *)
Definition add_ret (ret_addr : Z) (state : Z * jtable) (i : inst) : Z * jtable :=
  let '(offset, t) := state in
  let offset := offset + l i in
  (offset, if String.eqb (name i) "RET" then append offset ret_addr (touch offset t) else t).

Section Find.
Variable blocks : graph.

(** The global [visited] and [jump_table] are passed on; None: a block that is not in
    the graph, or no fuel. *)
Fixpoint dfs (fuel : nat) (entry ret_addr : Z) (visited : list Z) (t : jtable) : option (list Z * jtable) :=
  match fuel, lookup entry blocks with
  | S fuel, Some b =>
      let t := snd (fold_left (add_ret ret_addr) (n_lines b) (entry, t)) in
      fold_left (fun state tgt =>
        match state with
        | None => None
        | Some (visited, t) =>
            if bool_decide (tgt ∈ visited) then Some (visited, t)
            else dfs fuel tgt ret_addr (tgt :: visited) t
        end) (bto b) (Some (visited, t))
  | _, _ => None
  end.

(** ** find *)

Definition is_loc (i : inst) : option string :=
  match args i with ExprLoc s :: _ => Some s | _ => None end.

(** [name[0] == 'J'] *)
Definition starts_with_J (n : string) : bool := String.eqb (slice 0 1 n) "J".

Definition find_line (fuel : nat) (offset : Z) (i : inst) (missing : list Z) (t : jtable)
  : option (list Z * jtable) :=
  match (if String.eqb (name i) "CALL" then is_loc i else None) with
  | Some loc =>
      match label_address loc with
      | None => None
      | Some callee =>
          if has_key callee blocks then
            option_map (fun s => (missing, snd s)) (dfs fuel callee offset [] t)
          else Some (if bool_decide (callee ∈ missing) then missing else (missing ++ [callee])%list, t)
      end
  | None =>
      if (starts_with_J (name i) || String.eqb (name i) "CALL")
         && match is_loc i with Some _ => false | None => true end || String.eqb (name i) "RET"
      then Some (missing, touch offset t) else Some (missing, t)
  end.

Fixpoint find_lines (fuel : nat) (offset : Z) (lines : list inst) (missing : list Z) (t : jtable)
  : option (list Z * jtable) :=
  match lines with
  | [] => Some (missing, t)
  | i :: lines =>
      let offset := offset + l i in
      match find_line fuel offset i missing t with
      | Some (missing, t) => find_lines fuel offset lines missing t
      | None => None
      end
  end.

Definition find_block (fuel : nat) (state : option (list Z * jtable)) (e : Z * node) : option (list Z * jtable) :=
  match state with
  | Some (missing, t) => find_lines fuel (fst e) (n_lines (snd e)) missing t
  | None => None
  end.

(** The missing callees and the table; the set of callees is a list here. *)
Definition find (fuel : nat) (pre_jump_table : jtable) : option (list Z * jtable) :=
  fold_left (find_block fuel) blocks (Some ([], pre_jump_table)).
End Find.

(** ** Tables *)

(** The table leads from the place [o] to [r]. *)
Definition leads (t : jtable) (o r : Z) : Prop := exists ts, lookup o t = Some ts /\ r ∈ ts.

(** A table with the entries of another. *)
Record extends (t t' : jtable) : Prop := {
  ex_leads : forall o r, leads t o r -> leads t' o r;
  ex_key : forall o, has_key o t = true -> has_key o t' = true
}.

#[export] Instance extends_preorder : PreOrder extends.
Proof. split; [now split|]. intros a b c [H1 H2] [H3 H4]. split; auto. Qed.

Lemma lookup_has_key {A : Type} k (d : list (Z * A)) : has_key k d = true <-> is_Some (lookup k d).
Proof.
  unfold lookup, has_key. induction d as [|[k' a] d IH]; cbn; [split; [discriminate|intros [? [=]]]|].
  destruct (k' =? k); cbn; [split; eauto|exact IH].
Qed.

Lemma lookup_touch o p t : lookup o (touch p t) = match lookup o t with Some ts => Some ts
  | None => if o =? p then Some [] else None end.
Proof.
  unfold touch. destruct (has_key p t) eqn:K.
  - apply lookup_has_key in K as [ts K]. destruct (lookup o t) eqn:E; [easy|].
    destruct (Z.eqb_spec o p) as [->|]; [congruence|easy].
  - unfold lookup. clear K. induction t as [|[k ts] t IH]; cbn.
    + rewrite Z.eqb_sym. now destruct (o =? p).
    + destruct (k =? o); [easy|exact IH].
Qed.

Lemma lookup_append o p r t :
  lookup o (append p r t) = option_map (fun ts => if o =? p then (ts ++ [r])%list else ts) (lookup o t).
Proof.
  unfold lookup, append. induction t as [|[k ts] t IH]; [easy|]. cbn. destruct (Z.eqb_spec k p) as [->|N]; cbn.
  - destruct (Z.eqb_spec p o) as [->|]; [cbn; now rewrite Z.eqb_refl|exact IH].
  - destruct (Z.eqb_spec k o) as [->|]; [cbn|exact IH]. destruct (Z.eqb_spec o p); [easy|easy].
Qed.

Lemma extends_touch p t : extends t (touch p t).
Proof.
  split.
  - intros o r (ts & E & H). exists ts. split; [|easy]. now rewrite lookup_touch, E.
  - intros o [ts E]%lookup_has_key. apply lookup_has_key. exists ts. now rewrite lookup_touch, E.
Qed.

Lemma extends_append p r t : extends t (append p r t).
Proof.
  split.
  - intros o r' (ts & E & H). eexists. rewrite lookup_append, E. split; [reflexivity|].
    destruct (o =? p); [apply elem_of_app; now left|easy].
  - intros o [ts E]%lookup_has_key. apply lookup_has_key. rewrite lookup_append, E. cbn. eauto.
Qed.

Lemma touched p t : has_key p (touch p t) = true.
Proof. apply lookup_has_key. rewrite lookup_touch, Z.eqb_refl. destruct (lookup p t); eauto. Qed.

Lemma appended p r t : has_key p t = true -> leads (append p r t) p r.
Proof.
  intros [ts E]%lookup_has_key. eexists. rewrite lookup_append, E. split; [reflexivity|]. rewrite Z.eqb_refl.
  apply elem_of_app. right. now left.
Qed.

(** ** The lines of a block, each with the offset behind it *)

Fixpoint ends (offset : Z) (lines : list inst) : list (Z * inst) :=
  match lines with [] => [] | i :: lines => (offset + l i, i) :: ends (offset + l i) lines end.

Definition returns_at (offset : Z) (lines : list inst) (o : Z) : Prop :=
  exists i, (o, i) ∈ ends offset lines /\ name i = "RET".

Lemma add_rets ret_addr lines : forall offset t, let t' := snd (fold_left (add_ret ret_addr) lines (offset, t)) in
  extends t t' /\ forall o, returns_at offset lines o -> leads t' o ret_addr.
Proof.
  induction lines as [|i lines IH]; intros offset t; cbn [fold_left].
  - split; [reflexivity|]. intros o (i & H & _). inversion H.
  - set (t1 := snd (add_ret ret_addr (offset, t) i)).
    assert (E : add_ret ret_addr (offset, t) i = (offset + l i, t1)) by reflexivity. rewrite E.
    destruct (IH (offset + l i) t1) as [X H].
    assert (X1 : extends t t1).
    { unfold t1. cbn. destruct (String.eqb (name i) "RET"); [|reflexivity].
      etransitivity; [apply extends_touch|apply extends_append]. }
    split; [now transitivity t1|]. intros o (j & Hj & Nj). cbn [ends] in Hj.
    apply elem_of_cons in Hj as [[= -> ->]|Hj]; [|apply H; now exists j].
    apply (ex_leads _ _ X). unfold t1. cbn. rewrite Nj. cbn. apply appended, touched.
Qed.

(** ** dfs *)

Section Dfs.
Variable blocks : graph.

(** The control flow goes from block [a] to block [b]. *)
Definition flows (a b : Z) : Prop := exists n, lookup a blocks = Some n /\ b ∈ bto n.

(** Block [x] has been dealt with. *)
Definition done (ret_addr : Z) (visited : list Z) (t : jtable) (x : Z) : Prop :=
  exists n, lookup x blocks = Some n /\ (forall y, y ∈ bto n -> y ∈ visited) /\
    forall o, returns_at x (n_lines n) o -> leads t o ret_addr.

Lemma done_mono ret_addr v v' t t' x : done ret_addr v t x -> (forall y, y ∈ v -> y ∈ v') -> extends t t' ->
  done ret_addr v' t' x.
Proof.
  intros (n & E & H1 & H2) Hv [X _]. exists n. split; [easy|]. split; [auto|]. intros o Ho. now apply X, H2.
Qed.

Lemma dfs_spec ret_addr fuel : forall entry visited t visited' t',
  dfs blocks fuel entry ret_addr visited t = Some (visited', t') ->
  (forall x, x ∈ visited -> x ∈ visited') /\ extends t t' /\
  (forall x, x ∈ visited' -> x ∉ visited -> done ret_addr visited' t' x) /\ done ret_addr visited' t' entry.
Proof.
  induction fuel as [|fuel IH]; intros entry visited t visited' t' H; [easy|]. cbn [dfs] in H.
  destruct (lookup entry blocks) as [n|] eqn:En; [|easy].
  destruct (add_rets ret_addr (n_lines n) entry t) as [X1 R1].
  set (t1 := snd (fold_left (add_ret ret_addr) (n_lines n) (entry, t))) in *.
  assert (None_ : forall ts, fold_left (fun state tgt => match state with
    | None => None
    | Some (visited, t) => if bool_decide (tgt ∈ visited) then Some (visited, t)
                           else dfs blocks fuel tgt ret_addr (tgt :: visited) t
    end) ts None = None) by (intros ts; induction ts; easy).
  assert (Loop : forall ts v t2, fold_left (fun state tgt => match state with
    | None => None
    | Some (visited, t) => if bool_decide (tgt ∈ visited) then Some (visited, t)
                           else dfs blocks fuel tgt ret_addr (tgt :: visited) t
    end) ts (Some (v, t2)) = Some (visited', t') ->
    (forall x, x ∈ v -> x ∈ visited') /\ extends t2 t' /\
    (forall x, x ∈ visited' -> x ∉ v -> done ret_addr visited' t' x) /\ forall x, x ∈ ts -> x ∈ visited').
  { induction ts as [|x ts IHts]; intros v t2 L.
    - injection L as -> ->. split; [easy|]. split; [reflexivity|]. split; [easy|]. intros x Hx. inversion Hx.
    - cbn [fold_left] in L. destruct (bool_decide_reflect (x ∈ v)) as [Hx|Hx].
      + destruct (IHts v t2 L) as (H1 & H2 & H3 & H4). repeat (split; [easy|]).
        intros y Hy. apply elem_of_cons in Hy as [->|Hy]; auto.
      + destruct (dfs blocks fuel x ret_addr (x :: v) t2) as [[v3 t3]|] eqn:Ed; [|now rewrite None_ in L].
        destruct (IH _ _ _ _ _ Ed) as (D1 & D2 & D3 & D4). destruct (IHts v3 t3 L) as (H1 & H2 & H3 & H4).
        split; [intros y Hy; apply H1, D1; now right|]. split; [now transitivity t3|]. split.
        * intros y Hy Ny. destruct (decide (y ∈ v3)) as [H3'|N3]; [|now apply H3].
          apply (done_mono _ v3 _ t3); [|easy|easy]. destruct (decide (y = x)) as [->|Nx]; [easy|].
          apply D3; [easy|]. intros Q. apply elem_of_cons in Q as [|]; easy.
        * intros y Hy. apply elem_of_cons in Hy as [->|Hy]; [apply H1, D1; now left|auto]. }
  destruct (Loop _ _ _ H) as (L1 & L2 & L3 & L4). split; [easy|]. split; [now transitivity t1|]. split; [easy|].
  exists n. split; [easy|]. split; [easy|]. intros o Ho. now apply (ex_leads _ _ L2), R1.
Qed.

(** Everything that the flow reaches from the entry has been dealt with. *)
Lemma dfs_reaches ret_addr fuel entry t visited t' :
  dfs blocks fuel entry ret_addr [] t = Some (visited, t') ->
  forall x n o, rtc flows entry x -> lookup x blocks = Some n -> returns_at x (n_lines n) o -> leads t' o ret_addr.
Proof.
  intros H. destruct (dfs_spec _ _ _ _ _ _ _ H) as (_ & _ & D & De). clear H.
  assert (All : forall x, rtc flows entry x -> done ret_addr visited t' x).
  { intros x R. revert De. induction R as [y|y z w (n & En & Hz) _ IHr]; intros Dy; [exact Dy|]. apply IHr.
    destruct Dy as (n' & En' & Sz & _). assert (n' = n) as -> by congruence. apply D; [now apply Sz|].
    intros Q. inversion Q. }
  intros x n o R En Ho. destruct (All x R) as (n' & En' & _ & L). assert (n' = n) as -> by congruence. now apply L.
Qed.

(** *** It ends *)

(** Every block that is gone to is in the graph. *)
Definition closed_graph : Prop := forall a b, flows a b -> has_key b blocks = true.

(** The blocks that have not been seen. *)
Definition unseen (visited : list Z) : nat :=
  length (List.filter (fun k => negb (bool_decide (k ∈ visited))) (map fst blocks)).

Lemma filter_le {A : Type} (f g : A -> bool) l : (forall a, f a = true -> g a = true) ->
  (length (List.filter f l) <= length (List.filter g l))%nat.
Proof.
  intros H. induction l as [|a l IH]; [easy|]. cbn. specialize (H a).
  destruct (f a); [rewrite H by easy; cbn; lia|]. destruct (g a); cbn; lia.
Qed.

Lemma filter_lt {A : Type} (f g : A -> bool) l a : (forall a, f a = true -> g a = true) ->
  a ∈ l -> f a = false -> g a = true -> (length (List.filter f l) < length (List.filter g l))%nat.
Proof.
  intros H Ha Fa Ga. induction l as [|b l IH]; [inversion Ha|]. cbn.
  apply elem_of_cons in Ha as [<-|Ha].
  - rewrite Fa, Ga. cbn. pose proof (filter_le f g l H). lia.
  - specialize (IH Ha). pose proof (H b) as Hb. destruct (f b); [rewrite Hb by easy; cbn; lia|].
    destruct (g b); cbn; lia.
Qed.

Lemma unseen_mono v v' : (forall x, x ∈ v -> x ∈ v') -> (unseen v' <= unseen v)%nat.
Proof.
  intros H. apply filter_le. intros a Ha. apply negb_true_iff, bool_decide_eq_false in Ha.
  apply negb_true_iff, bool_decide_eq_false. auto.
Qed.

Lemma has_key_in {A : Type} k (d : list (Z * A)) : has_key k d = true -> k ∈ map fst d.
Proof.
  unfold has_key. rewrite existsb_exists. intros ([k' a] & H & E%Z.eqb_eq). cbn in E. subst k'.
  apply list_elem_of_fmap. exists (k, a). split; [easy|]. now apply list_elem_of_In.
Qed.

Lemma unseen_next x v : has_key x blocks = true -> x ∉ v -> (unseen (x :: v) < unseen v)%nat.
Proof.
  intros K N. apply (filter_lt _ _ _ x).
  - intros a Ha. apply negb_true_iff, bool_decide_eq_false in Ha. apply negb_true_iff, bool_decide_eq_false.
    intros Q. apply Ha. now right.
  - now apply has_key_in.
  - apply negb_false_iff, bool_decide_eq_true. now left.
  - now apply negb_true_iff, bool_decide_eq_false.
Qed.

Lemma dfs_ends ret_addr fuel : closed_graph -> forall entry visited t, has_key entry blocks = true ->
  (unseen visited < fuel)%nat -> exists visited' t', dfs blocks fuel entry ret_addr visited t = Some (visited', t').
Proof.
  intros C. induction fuel as [|fuel IH]; intros entry visited t K F; [lia|]. cbn [dfs].
  apply lookup_has_key in K as [n En]. rewrite En.
  assert (Loop : forall ts v t1, (forall x, x ∈ ts -> has_key x blocks = true) -> (unseen v <= fuel)%nat ->
    exists visited' t', fold_left (fun state tgt => match state with
    | None => None
    | Some (visited, t) => if bool_decide (tgt ∈ visited) then Some (visited, t)
                           else dfs blocks fuel tgt ret_addr (tgt :: visited) t
    end) ts (Some (v, t1)) = Some (visited', t')).
  { induction ts as [|x ts IHts]; intros v t1 H Fv; [now exists v, t1|]. cbn [fold_left].
    assert (Hts : forall y, y ∈ ts -> has_key y blocks = true) by (intros y Hy; apply H; now right).
    destruct (bool_decide_reflect (x ∈ v)) as [Hx|Hx]; [now apply IHts|].
    assert (Kx : has_key x blocks = true) by (apply H; now left).
    pose proof (unseen_next x v Kx Hx) as L. destruct (IH x (x :: v) t1 Kx ltac:(lia)) as (v3 & t3 & E). rewrite E.
    apply IHts; [easy|]. destruct (dfs_spec _ _ _ _ _ _ _ E) as (D1 & _).
    pose proof (unseen_mono v v3 ltac:(intros y Hy; apply D1; now right)). lia. }
  apply Loop; [|lia]. intros x Hx. apply (C entry). now exists n.
Qed.

(** ** find *)

(** What the table must tell of the line [i] that ends at [o]. *)
Definition served (missing : list Z) (t : jtable) (o : Z) (i : inst) : Prop :=
  match (if String.eqb (name i) "CALL" then is_loc i else None) with
  | Some loc => exists callee, label_address loc = Some callee /\
      if has_key callee blocks then
        forall x n o', rtc flows callee x -> lookup x blocks = Some n -> returns_at x (n_lines n) o' -> leads t o' o
      else callee ∈ missing
  | None => (starts_with_J (name i) || String.eqb (name i) "CALL")
              && match is_loc i with Some _ => false | None => true end || String.eqb (name i) "RET" = true ->
      has_key o t = true
  end.

Lemma served_mono m m' t t' o i : served m t o i -> (forall x, x ∈ m -> x ∈ m') -> extends t t' -> served m' t' o i.
Proof.
  unfold served. intros H Hm [X1 X2]. destruct (if String.eqb (name i) "CALL" then is_loc i else None); [|auto].
  destruct H as (c & E & H). exists c. split; [easy|]. destruct (has_key c blocks); [|auto].
  intros x n o' R En Ho. eapply X1, H; eauto.
Qed.

(** The direct calls have labels with an address. *)
Definition good_calls (lines : list inst) : Prop :=
  forall i loc, i ∈ lines -> name i = "CALL" -> is_loc i = Some loc -> is_Some (label_address loc).

Section Found.
Variable fuel : nat.
Hypothesis closed : closed_graph.
Hypothesis enough : (length blocks < fuel)%nat.

Lemma find_line_spec o i missing t : good_calls [i] -> exists missing' t',
  find_line blocks fuel o i missing t = Some (missing', t') /\ (forall x, x ∈ missing -> x ∈ missing') /\
  (forall x, x ∈ missing' -> x ∈ missing \/ has_key x blocks = false) /\ extends t t' /\ served missing' t' o i.
Proof.
  intros G. unfold find_line, served. destruct (if String.eqb (name i) "CALL" then is_loc i else None) as [loc|] eqn:L.
  - destruct (String.eqb_spec (name i) "CALL") as [N|]; [|easy].
    destruct (G i loc ltac:(now left) N L) as [c Ec]. rewrite Ec. destruct (has_key c blocks) eqn:K.
    + assert (F : (unseen [] < fuel)%nat).
      { pose proof (filter_length_le (fun k => negb (bool_decide (k ∈ ([] : list Z)))) (map fst blocks)) as Q.
        rewrite length_map in Q. unfold unseen. lia. }
      destruct (dfs_ends o fuel closed c [] t K F) as (v & t' & E). rewrite E. cbn [option_map snd].
      exists missing, t'. split; [easy|]. split; [easy|]. split; [auto|]. split; [now apply (dfs_spec _ _ _ _ _ _ _ E)|].
      exists c. split; [easy|]. rewrite K. exact (dfs_reaches _ _ _ _ _ _ E).
    + eexists _, t. split; [reflexivity|]. destruct (bool_decide_reflect (c ∈ missing)) as [Hc|Hc].
      * split; [easy|]. split; [auto|]. split; [reflexivity|]. exists c. now rewrite K.
      * split; [intros x Hx; apply elem_of_app; now left|]. split.
        -- intros x Hx. apply elem_of_app in Hx as [|Hx]; [now left|]. apply list_elem_of_singleton in Hx as ->. now right.
        -- split; [reflexivity|]. exists c. rewrite K. split; [easy|]. apply elem_of_app. right. now left.
  - destruct (_ || _) eqn:J.
    + exists missing, (touch o t). split; [easy|]. split; [easy|]. split; [auto|]. split; [apply extends_touch|].
      intros _. apply touched.
    + exists missing, t. split; [easy|]. split; [easy|]. split; [auto|]. split; [reflexivity|discriminate].
Qed.

Lemma find_lines_spec lines : forall o missing t, good_calls lines -> exists missing' t',
  find_lines blocks fuel o lines missing t = Some (missing', t') /\ (forall x, x ∈ missing -> x ∈ missing') /\
  (forall x, x ∈ missing' -> x ∈ missing \/ has_key x blocks = false) /\ extends t t' /\
  forall o' i, (o', i) ∈ ends o lines -> served missing' t' o' i.
Proof.
  induction lines as [|i lines IH]; intros o missing t G.
  { exists missing, t. repeat (split; [easy || auto || reflexivity|]). intros o' i H. inversion H. }
  destruct (find_line_spec (o + l i) i missing t) as (m1 & t1 & E1 & M1 & N1 & X1 & S1).
  { intros j loc Hj. apply list_elem_of_singleton in Hj as ->. apply G. now left. }
  destruct (IH (o + l i) m1 t1) as (m2 & t2 & E2 & M2 & N2 & X2 & S2).
  { intros j loc Hj. apply G. now right. }
  exists m2, t2. cbn [find_lines]. rewrite E1. split; [easy|]. split; [auto|]. split.
  - intros x [Hx|]%N2; [now apply N1|now right].
  - split; [now transitivity t1|]. intros o' j Hj. cbn [ends] in Hj.
    apply elem_of_cons in Hj as [[= -> ->]|Hj]; [|now apply S2]. now apply (served_mono m1 m2 t1 t2).
Qed.

Lemma find_blocks_spec part : forall missing t, (forall a n, (a, n) ∈ part -> good_calls (n_lines n)) ->
  exists missing' t', fold_left (find_block blocks fuel) part (Some (missing, t)) = Some (missing', t') /\
  (forall x, x ∈ missing -> x ∈ missing') /\ (forall x, x ∈ missing' -> x ∈ missing \/ has_key x blocks = false) /\
  extends t t' /\ forall a n o i, (a, n) ∈ part -> (o, i) ∈ ends a (n_lines n) -> served missing' t' o i.
Proof.
  induction part as [|[a n] part IH]; intros missing t G.
  { exists missing, t. repeat (split; [easy || auto || reflexivity|]). intros a n o i H. inversion H. }
  destruct (find_lines_spec (n_lines n) a missing t) as (m1 & t1 & E1 & M1 & N1 & X1 & S1).
  { apply (G a). now left. }
  destruct (IH m1 t1) as (m2 & t2 & E2 & M2 & N2 & X2 & S2).
  { intros b k Hb. apply (G b). now right. }
  exists m2, t2. cbn [fold_left find_block fst snd]. rewrite E1. split; [easy|]. split; [auto|]. split.
  - intros x [Hx|]%N2; [now apply N1|now right].
  - split; [now transitivity t1|]. intros b k o i Hb Hi. apply elem_of_cons in Hb as [[= -> ->]|Hb]; [|now apply (S2 b k)].
    apply (served_mono m1 m2 t1 t2); auto.
Qed.

(** C14. [find] ends with more fuel than there are blocks, and misses no way back: for
    every direct call of a block of the graph, the table leads from each RET that the
    flow reaches from the callee to the address behind the call; every RET and every
    other indirect jump or call has an entry; what the table had before it keeps; every
    callee that is not in the graph is among the missing, and nothing of the graph. *)
Theorem find_complete pre_jump_table : (forall a n, (a, n) ∈ blocks -> good_calls (n_lines n)) ->
  exists missing t, find blocks fuel pre_jump_table = Some (missing, t) /\ extends pre_jump_table t /\
  (forall x, x ∈ missing -> has_key x blocks = false) /\
  forall a n o i, (a, n) ∈ blocks -> (o, i) ∈ ends a (n_lines n) -> served missing t o i.
Proof.
  intros G. destruct (find_blocks_spec blocks [] pre_jump_table G) as (m & t & E & _ & N & X & S).
  exists m, t. split; [exact E|]. split; [exact X|]. split; [|exact S].
  intros x [Hx|]%N; [inversion Hx|easy].
Qed.
End Found.
End Dfs.

(** ** A graph with a call and a loop *)

Definition sample_inst (n : string) (es : list expr) (len : Z) : inst := MkInst n 0 0 es len.

Definition sample_graph : graph :=
  [(0x1000, Node [sample_inst "CALL" [ExprLoc "loc_2000"] 5] []);
   (0x1005, Node [sample_inst "CALL" [ExprLoc "loc_9000"] 5] []);
   (0x2000, Node [sample_inst "JZ" [ExprLoc "loc_2010"] 2] [0x2002; 0x2010]);
   (0x2002, Node [sample_inst "JMP" [ExprLoc "loc_2000"] 5] [0x2000]);
   (0x2010, Node [sample_inst "RET" [] 1] [])].

Lemma find_complete_witness :
  find sample_graph 6 [(0x2011, [0x7000])] = Some ([0x9000], [(0x2011, [0x7000; 0x1005])]) /\
  exists missing t, find sample_graph 6 [(0x2011, [0x7000])] = Some (missing, t) /\
  extends [(0x2011, [0x7000])] t /\ (forall x, x ∈ missing -> has_key x sample_graph = false) /\
  forall a n o i, (a, n) ∈ sample_graph -> (o, i) ∈ ends a (n_lines n) -> served sample_graph missing t o i.
Proof.
  split; [vm_compute; reflexivity|].
  apply (find_complete sample_graph 6).
  - intros a b (n & E & Hb). unfold lookup in E.
    destruct (List.find (fun e => fst e =? a) sample_graph) as [[k m]|] eqn:F; [|discriminate].
    injection E as <-. apply List.find_some in F as [F _]. cbn [In sample_graph] in F. cbn [snd] in Hb.
    repeat destruct F as [[= <- <-]|F]; try contradiction; cbn [bto] in Hb;
      rewrite ?elem_of_cons, elem_of_nil in Hb; repeat destruct Hb as [->|Hb]; try contradiction; reflexivity.
  - vm_compute. lia.
  - intros a n H i loc Hi Hn Hl. rewrite list_elem_of_In in H. cbn [In sample_graph] in H.
    repeat destruct H as [[= <- <-]|H]; try contradiction; cbn [n_lines] in Hi;
      apply list_elem_of_singleton in Hi as ->; try discriminate; injection Hl as <-; eexists; vm_compute; reflexivity.
Defined.
