(* ===== verification/TranslateCases.v ===== *)
(** Lines on which the translator goes wrong, each with the code that it writes. *)
From Stdlib Require Import ZArith Lia Bool String.
From stdpp Require Import base strings list.
From S2P Require Import Prelude Conflict Translate Machine Sample.

Local Open Scope string_scope.
Local Open Scope Z_scope.
Local Open Scope ub_scope.

Definition mem64 (ptr : expr) : expr := ExprMem ptr 64.
Definition at_reg (n : string) : expr := mem64 (reg64 n).
Definition block_code (lines : list inst) : option code := translate_block lines 0x401000.

(** ** Registers *)

(** With R12, R13 and a third of its registers in one instruction, no place is left:
    the test that spares the registers in use compares the numbers of the places with
    the names of the values. *)
Example three_registers :
  block_code [plain_inst "MOV" [reg64 "R15"; mem64 (ExprOp "+" [reg64 "R12"; ExprOp "*" [reg64 "R13"; ExprInt 8 64]])] 4]
  = None.
Proof. vm_compute. reflexivity. Qed.

(** Other three registers find one. *)
Example three_other_registers : exists c,
  block_code [plain_inst "MOV" [reg64 "R15"; mem64 (ExprOp "+" [reg64 "R14"; ExprOp "*" [reg64 "R13"; ExprInt 8 64]])] 4]
  = Some c.
Proof. eexists. vm_compute. reflexivity. Qed.

(** A jump through a register that is in its stack slot finds no place for it. *)
Example jump_through_slot :
  block_code [plain_inst "JMP" [reg64 "R12"] 3] = None /\
  block_code [plain_inst "JMP" [reg64 "RAX"] 3] = Some
    [Inst "MOV" [AStr "R14"; AStr "RAX"]; Inst "JMP" [ALabel "ij_" 0x401003]].
Proof. split; vm_compute; reflexivity. Qed.

(** Before a system call the registers are not written back: R12 stays in R15, and
    the code behind [exit] takes the old R12 from its slot. *)
Example syscall_loses_register :
  block_code [plain_inst "MOV" [reg64 "R12"; reg64 "RAX"] 3; plain_inst "SYSCALL" [] 2] = Some
    [Inst "MOV" [AStr "R15"; AStr "Stack_R12"]; Inst "MOV" [AExpr (reg64 "R15"); AExpr (reg64 "RAX")];
     Inst "MOVABS" [AStr "R14"; AHex 0x401003]; Inst "JMP" [AStr "comp_syscall"]] /\
  block_code [plain_inst "MOV" [reg64 "R12"; reg64 "RAX"] 3; plain_inst "JMP" [ExprLoc "loc_402000"] 5] = Some
    [Inst "MOV" [AStr "R15"; AStr "Stack_R12"]; Inst "MOV" [AExpr (reg64 "R15"); AExpr (reg64 "RAX")];
     Inst "MOV" [AStr "Stack_R12"; AStr "R15"]; Inst "JMP" [AStr "loc_402000"]].
Proof. split; vm_compute; reflexivity. Qed.

(** ** The stack *)

(** RSP in R13. *)
Definition place_SP : expr := reg64 "R13".
Definition sp_plus (z : Z) : arg :=
  ADict (Mem 64 [place_SP] (if z =? 0 then None else Some (ExprInt (u64 z) 64)) []).
Definition set_sp (z : Z) : line := Inst "LEA" [AExpr place_SP; sp_plus z].

(** RSP is pushed after it has been lowered; an operand at RSP is read there too. *)
Example push_rsp :
  block_code [plain_inst "PUSH" [reg64 "RSP"] 1] = Some [set_sp (- 8); Inst "MOV" [sp_plus 0; AExpr place_SP]] /\
  block_code [plain_inst "PUSH" [word_at "RSP" 8] 4] = Some
    [set_sp (- 8); Inst "MOV" [AExpr (reg64 "R15"); sp_plus 8]; Inst "MOV" [sp_plus 0; AExpr (reg64 "R15")]].
Proof. split; vm_compute; reflexivity. Qed.

(** The popped RSP is raised by eight, and an operand at RSP written before it is. *)
Example pop_rsp :
  block_code [plain_inst "POP" [reg64 "RSP"] 1] = Some [Inst "MOV" [AExpr place_SP; sp_plus 0]; set_sp 8] /\
  block_code [plain_inst "POP" [word_at "RSP" 8] 4] = Some
    [Inst "MOV" [AExpr (reg64 "R15"); sp_plus 0]; Inst "MOV" [sp_plus 8; AExpr (reg64 "R15")]; set_sp 8].
Proof. split; vm_compute; reflexivity. Qed.

(** A target in memory is read after the return address has been pushed. *)
Example call_rsp :
  block_code [plain_inst "CALL" [word_at "RSP" 8] 4] = Some
    [Inst "MOVABS" [AExpr (reg64 "R15"); AExpr (ExprInt 0x401004 64)]; set_sp (- 8);
     Inst "MOV" [sp_plus 0; AExpr (reg64 "R15")]; Inst "MOV" [AExpr (reg64 "R15"); sp_plus 8];
     Inst "MOV" [AStr "R14"; AStr "R15"]; Inst "JMP" [ALabel "ij_" 0x401004]].
Proof. vm_compute. reflexivity. Qed.

(** Of a pushed number, four of its eight bytes are written. *)
Example push_number :
  block_code [plain_inst "PUSH" [ExprInt 5 64] 2] = Some
    [set_sp (- 8); Inst "MOV" [ADict (Mem 32 [place_SP] None []); AExpr (ExprInt 5 32)]].
Proof. vm_compute. reflexivity. Qed.

(** ** Lines that vanish *)

Example dropped :
  block_code [plain_inst "PUSHF" [] 1] = Some [] /\ block_code [plain_inst "POPF" [] 1] = Some [] /\
  block_code [MkInst "RET" 8 0 [] 2] = Some [].
Proof. repeat split; vm_compute; reflexivity. Qed.

(** ** The masks *)

(** A read through the register that is loaded leaves it marked as checked. *)
Example loaded_base_unchecked :
  let checked := snd (bases_to_check "MOV" (map arg_purify [AExpr (reg64 "RAX"); AExpr (at_reg "RAX")]) []) in
  checked = [reg64 "RAX"] /\ fst (bases_to_check "MOV" (map arg_purify [AExpr (reg64 "RBX"); AExpr (at_reg "RAX")]) checked) = [].
Proof. split; vm_compute; reflexivity. Qed.

(** A mask that is dropped, for the flags of CMOVZ, counts as done: the second access
    is not masked either, although ADD defines the flags. *)
Example dropped_mask_done :
  let lines := [plain_inst "MOV" [reg64 "RAX"; at_reg "RBX"] 3; plain_inst "CMOVZ" [reg64 "RAX"; reg64 "RCX"] 4;
                plain_inst "MOV" [reg64 "RDX"; at_reg "RBX"] 3; plain_inst "ADD" [reg64 "RDX"; reg64 "RAX"] 3] in
  fst (check_flag_def_use lines) = [false; false; true; true] /\
  block_code lines = Some
    [Inst "MOV" [AExpr (reg64 "RAX"); ADict (Mem 64 [reg64 "RBX"] None [])];
     Inst "CMOVZ" [AExpr (reg64 "RAX"); AExpr (reg64 "RCX")];
     Inst "MOV" [AExpr (reg64 "RDX"); ADict (Mem 64 [reg64 "RBX"] None [])];
     Inst "ADD" [AExpr (reg64 "RDX"); AExpr (reg64 "RAX")]].
Proof. split; vm_compute; reflexivity. Qed.

(** An address with two registers is not masked. *)
Example two_bases_unmasked : forall checked,
  fst (bases_to_check "MOV" (map arg_purify [AExpr (reg64 "RAX");
    AExpr (mem64 (ExprOp "+" [reg64 "RBX"; reg64 "RCX"]))]) checked) = [].
Proof. reflexivity. Qed.

(** The code that saves the flags around the masks is never emitted, and two masks
    are none. *)
Lemma masks_never_save_flags to_check can_check :
  ~ In (Text "PUSHF") (check_code to_check can_check) /\
  ((1 < length to_check)%nat -> check_code to_check can_check = []).
Proof.
  split.
  - unfold check_code. destruct can_check; [|now rewrite orb_true_r]. rewrite andb_false_r. cbn [app].
    rewrite app_nil_r, orb_false_r. destruct (1 <? length to_check)%nat; [easy|].
    intros (r & _ & H)%in_flat_map. now destruct H as [H|[H|[]]].
  - intros H%Nat.ltb_lt. unfold check_code. now rewrite H.
Qed.

(** ** Flags *)

(** ADC and SBB are not in the list of instructions that use flags: the mask of the
    load changes the carry that ADC adds. *)
Definition carry_block : list inst :=
  [plain_inst "MOV" [reg64 "RDX"; at_reg "RBX"] 3; plain_inst "ADC" [reg64 "RAX"; reg64 "RDX"] 3;
   plain_inst "ADD" [reg64 "RBX"; reg64 "RCX"] 3].
Example adc_carry_masked :
  fst (check_flag_def_use carry_block) = [true; true; true] /\
  block_code carry_block = Some
    [Inst "SHL" [AExpr (reg64 "RBX"); AStr "1"]; Inst "SHR" [AExpr (reg64 "RBX"); AStr "1"];
     Inst "MOV" [AExpr (reg64 "RDX"); ADict (Mem 64 [reg64 "RBX"] None [])];
     Inst "ADC" [AExpr (reg64 "RAX"); AExpr (reg64 "RDX")]; Inst "ADD" [AExpr (reg64 "RBX"); AExpr (reg64 "RCX")]].
Proof. split; vm_compute; reflexivity. Qed.

(** The names are looked for inside the name: PXOR defines flags as XOR does, and NOT,
    CLD and STD define them too. *)
Example names_inside_names :
  map (fun n => check_in_list n ops_def_flags) ["PXOR"; "PADDB"; "PCMPEQB"; "NOT"; "CLD"; "STD"; "DEC"]
  = [true; true; true; true; true; true; false].
Proof. vm_compute. reflexivity. Qed.

(** The comparison before the branch loses its flags to the mask. *)
Definition compare_block : list inst :=
  [plain_inst "CMP" [reg64 "RAX"; reg64 "RDX"] 3; plain_inst "MOV" [reg64 "RDX"; at_reg "RBX"] 3;
   plain_inst "PXOR" [ExprId "XMM0" 128; ExprId "XMM0" 128] 4; plain_inst "JZ" [ExprLoc "loc_402000"] 2].
Example compare_lost :
  fst (check_flag_def_use compare_block) = [true; true; true; false].
Proof. vm_compute. reflexivity. Qed.
