(* ===== verification/Wrapper.v ===== *)
(** [asm/wrapper.S]: the function that the module calls. It saves the registers of
    the kernel, loads those of the user from [pt_regs], runs the blocks of [jit.S],
    and puts the user's registers back. *)
From Stdlib Require Import ZArith Lia Bool String.
From stdpp Require Import base strings functions list.
From S2P Require Import Prelude Conflict Machine ConflictSpec.

Local Open Scope string_scope.
Local Open Scope Z_scope.

#[local] Set Warnings "-register-all".

(** ** Its instructions *)

(** Memory in three areas that do not overlap: the stack below the frame, the
    [pt_regs] and the two words of [args]. A register holds a number, or an address
    in one of them. *)
Inductive area : Type := Stack | PtRegs | Args.
Inductive word : Type := Num (z : Z) | Ptr (a : area) (offset : Z).

#[export] Instance area_eq_dec : EqDecision area.
Proof. solve_decision. Defined.

Inductive operand : Type := Reg (r : string) | Mem8 (base : string) (disp : Z) | Imm (z : Z).

Inductive winst : Type :=
| Push (o : operand) | Pop (o : operand) | Mov (dst src : operand) | Add (r : string) (z : Z)
| Sub (r : string) (z : Z) | Ret.

Record wstate : Type := W { wr : string -> word; wm : area -> Z -> word; w_returned : option word }.

Definition load (o : operand) (w : wstate) : option word :=
  match o with
  | Reg r => Some (wr w r)
  | Mem8 base disp => match wr w base with Ptr a z => Some (wm w a (z + disp)) | Num _ => None end
  | Imm z => Some (Num z)
  end.

Definition store (o : operand) (x : word) (w : wstate) : option wstate :=
  match o with
  | Reg r => Some (W (<[r := x]> (wr w)) (wm w) (w_returned w))
  | Mem8 base disp =>
      match wr w base with
      | Ptr a z => Some (W (wr w) (<[a := <[z + disp := x]> (wm w a)]> (wm w)) (w_returned w))
      | Num _ => None
      end
  | Imm _ => None
  end.

(** An address moves within its area. *)
Definition shift (r : string) (z : Z) (w : wstate) : option wstate :=
  match wr w r with Ptr a o => store (Reg r) (Ptr a (o + z)) w | Num _ => None end.

Definition wstep (i : winst) (w : wstate) : option wstate :=
  match i with
  | Push o =>
      match load o w, shift "RSP" (-8) w with
      | Some x, Some w => store (Mem8 "RSP" 0) x w
      | _, _ => None
      end
  | Pop o =>
      match load (Mem8 "RSP" 0) w, shift "RSP" 8 w with
      | Some x, Some w => store o x w
      | _, _ => None
      end
  | Mov dst src => match load src w with Some x => store dst x w | None => None end
  | Add r z => shift r z w
  | Sub r z => shift r (- z) w
  | Ret =>
      match load (Mem8 "RSP" 0) w, shift "RSP" 8 w with
      | Some x, Some w => Some (W (wr w) (wm w) (Some x))
      | _, _ => None
      end
  end.

Fixpoint wrun (c : list winst) (w : wstate) : option wstate :=
  match c with
  | [] => Some w
  | i :: c => match wstep i w with Some w => wrun c w | None => None end
  end.

(** ** asm_head.h *)

Definition PT_REG : string := "R14".
Definition ARG_REG : string := "R15".
Definition MEM_ARG : operand := Mem8 ARG_REG 0.
Definition MEM_ARG2 : operand := Mem8 ARG_REG 8.
Definition PT_FS : operand := Mem8 ARG_REG 0.
Definition PT_GS : operand := Mem8 ARG_REG 8.

(** The words of [pt_regs]. *)
Definition pt_index (r : string) : Z :=
  let k := fun s n x => if String.eqb r s then n else x in
  k "R15" 0 (k "R14" 1 (k "R13" 2 (k "R12" 3 (k "RBP" 4 (k "RBX" 5 (k "R11" 6 (k "R10" 7 (k "R9" 8 (k "R8" 9
  (k "RAX" 10 (k "RCX" 11 (k "RDX" 12 (k "RSI" 13 (k "RDI" 14 (k "RIP" 16 (k "EFLAGS" 18 (k "RSP" 19 (-1)))))))))))))))))).
Definition PT (r : string) : operand := Mem8 PT_REG (8 * pt_index r).
Definition Slot (macro : string) : operand := Mem8 "RBP" (- 8 * Z.of_nat (default 0%nat (stack_slot macro))).

(** ** wrapper.S *)

(** From [main] to the code of [jit.S]. *)
Definition wrapper_main : list winst :=
  [Push (Reg "RBP"); Mov (Reg "RBP") (Reg "RSP");
   Push (Reg "RBX"); Push (Reg "R12"); Push (Reg "R13"); Push (Reg "R14"); Push (Reg "R15");
   Push (Reg "RDI"); Push (Reg "RSI");
   Mov (Reg PT_REG) (Reg "RDI"); Mov (Reg ARG_REG) (Reg "RSI");
   Mov (Reg "RBX") (PT "RBX"); Mov (Reg "R11") (PT "R11"); Mov (Reg "R10") (PT "R10"); Mov (Reg "R9") (PT "R9");
   Mov (Reg "R8") (PT "R8"); Mov (Reg "RAX") (PT "RAX"); Mov (Reg "RCX") (PT "RCX"); Mov (Reg "RDX") (PT "RDX");
   Mov (Reg "RSI") (PT "RSI"); Mov (Reg "RDI") (PT "RDI");
   Push (PT "RBP"); Push (PT "RSP"); Push (PT "R15"); Push (PT "R14"); Push (PT "R13"); Push (PT "R12");
   Push PT_GS; Push PT_FS; Sub "RSP" (3 * 8);
   Mov (Reg "R13") (Slot "Stack_RSP"); Mov (Reg "R12") (Slot "Stack_RBP")].

(** Behind the label [exit]. *)
Definition wrapper_exit : list winst :=
  [Mov (Slot "Stack_RIP") (Reg "R14"); Mov (Slot "Stack_RSP") (Reg "R13"); Mov (Slot "Stack_RBP") (Reg "R12");
   Mov (Reg PT_REG) (Slot "Stack_PT_REG"); Mov (Reg ARG_REG) (Slot "Stack_ARG_REG");
   Pop MEM_ARG2; Pop MEM_ARG; Pop (PT "RIP"); Add "RSP" (2 * 8);
   Pop (PT "R12"); Pop (PT "R13"); Pop (PT "R14"); Pop (PT "R15"); Pop (PT "RSP"); Pop (PT "RBP");
   Mov (PT "RBX") (Reg "RBX"); Mov (PT "R11") (Reg "R11"); Mov (PT "R10") (Reg "R10"); Mov (PT "R9") (Reg "R9");
   Mov (PT "R8") (Reg "R8"); Mov (PT "RAX") (Reg "RAX"); Mov (PT "RCX") (Reg "RCX"); Mov (PT "RDX") (Reg "RDX");
   Mov (PT "RSI") (Reg "RSI"); Mov (PT "RDI") (Reg "RDI");
   Add "RSP" (2 * 8); Pop (Reg "R15"); Pop (Reg "R14"); Pop (Reg "R13"); Pop (Reg "R12"); Pop (Reg "RBX");
   Pop (Reg "RBP"); Ret].

(** The labels through which the blocks leave. *)
Definition wrapper_label (t : string) : option (list winst) :=
  if String.eqb t "comp_syscall" then Some (Mov (Slot "Stack_IJ") (Imm 0) :: wrapper_exit)
  else if String.eqb t "ij_failed" then Some (Mov (Slot "Stack_IJ") (Reg "R15") :: wrapper_exit)
  else if String.eqb t "exit" || String.eqb t "seg_error" then Some wrapper_exit
  else None.

(** ** The state of a block in that of the wrapper *)

Definition num (x : word) : Z := match x with Num z => z | Ptr _ _ => 0 end.

Definition block_view {X : Type} (w : wstate) (x : X) : mstate X :=
  MState (fun p => num (wr w ("R" +:+ p))) (fun n => num (wm w Stack (- 8 * Z.of_nat n)))
    (map (fun r => num (wr w r)) gp_names) x.

(** What the block has changed: the registers but RSP and RBP, and the slots from
    that of RBP on. *)
Definition put_gp (gp : list Z) (f : string -> word) : string -> word :=
  fold_left (fun f '(r, z) => <[r := Num z]> f) (zip gp_names gp) f.
Definition block_update {X : Type} (m : mstate X) (w : wstate) : wstate :=
  W (put_gp (p_gp m) (fold_left (fun f p => <["R" +:+ p := Num (p_reg m p)]> f) phys (wr w)))
    (<[Stack := fold_left (fun f n => <[- 8 * Z.of_nat n := Num (p_stack m n)]> f) (seq 8 11) (wm w Stack)]> (wm w))
    (w_returned w).

(** ** Entry and exit *)

(** A call from the kernel, with the two areas as arguments and the address to return
    to on the stack. *)
Definition call_state (regs : string -> word) (stack : Z -> word) (pt : Z -> Z) (fs gs : Z) : wstate :=
  W (<["RDI" := Ptr PtRegs 0]> (<["RSI" := Ptr Args 0]> (<["RSP" := Ptr Stack 8]> regs)))
    (fun a z => match a with
                | Stack => stack z
                | PtRegs => Num (pt (z / 8))
                | Args => Num (if z =? 0 then fs else gs)
                end) None.

(** The user's registers in [pt_regs]; FS and GS are in [args]. *)
Definition user_of {X : Type} (pt : Z -> Z) (fs gs : Z) (x : X) : ustate X :=
  U (fun k => if String.eqb k "FS" then fs else if String.eqb k "GS" then gs else pt (pt_index ("R" +:+ k)))
    (map (fun r => pt (pt_index r)) gp_names) x.

Definition callee_saved : list string := ["RBX"; "R12"; "R13"; "R14"; "R15"; "RBP"].

(** The words of [pt_regs] that are neither loaded nor stored: orig_rax, CS, the flags
    and SS. *)
Definition untouched : list Z := [15; 17; 18; 20].

Lemma observed {A : Type} (obs : wstate -> A) r v w : option_map obs r = Some v -> r = Some w -> obs w = v.
Proof. intros H ->. now injection H. Qed.

(** What the block tells in the first word of [args]. *)
Definition ij_value {X : Type} (t : string) (m : mstate X) : Z :=
  if String.eqb t "comp_syscall" then 0 else if String.eqb t "ij_failed" then p_reg m "15" else p_stack m 17%nat.

(** What the kernel finds after a block that left with [m] by the label [t]. *)
Record returned (ret : word) (pt : Z -> Z) (regs : string -> word) {X : Type} (u : ustate X) (m : mstate X) (ij : Z)
  (w : wstate) : Prop := {
  re_to : w_returned w = Some ret;
  re_RSP : wr w "RSP" = Ptr Stack 16;
  re_saved : forall r, r ∈ callee_saved -> wr w r = regs r;
  re_moved : forall k, k ∈ ["15"; "14"; "13"; "12"; "SP"; "BP"] ->
    wm w PtRegs (8 * pt_index ("R" +:+ k)) = Num (u_reg u k);
  re_gp : map (fun r => wm w PtRegs (8 * pt_index r)) gp_names = map Num (u_gp u);
  re_RIP : wm w PtRegs (8 * pt_index "RIP") = Num (p_reg m "14");
  re_untouched : forall i, i ∈ untouched -> wm w PtRegs (8 * i) = Num (pt i);
  re_args : wm w Args 0 = Num ij /\ wm w Args 8 = Num (p_stack m 18)
}.

(** The places of a state, and what they hold in the end. *)
Inductive probe : Type := InReg (r : string) | InMem (a : area) (z : Z) | Returned.
Definition look (w : wstate) (p : probe) : option word :=
  match p with
  | InReg r => Some (wr w r)
  | InMem a z => Some (wm w a z)
  | Returned => w_returned w
  end.

Definition expected (ret : word) (pt : Z -> Z) (regs : string -> word) {X : Type} (m : mstate X) (ij : Z)
  : list (probe * option word) :=
  ([(Returned, Some ret); (InReg "RSP", Some (Ptr Stack 16));
    (InMem PtRegs (8 * pt_index "RIP"), Some (Num (p_reg m "14")));
    (InMem Args 0, Some (Num ij)); (InMem Args 8, Some (Num (p_stack m 18)))]
   ++ map (fun r => (InReg r, Some (regs r))) callee_saved
   ++ map (fun k => (InMem PtRegs (8 * pt_index ("R" +:+ k)), Some (Num (p_stack m (home_slot k))))) gprs
   ++ [(InMem PtRegs (8 * pt_index "RSP"), Some (Num (p_reg m "13")));
       (InMem PtRegs (8 * pt_index "RBP"), Some (Num (p_reg m "12")))]
   ++ map (fun i => (InMem PtRegs (8 * i), Some (Num (pt i)))) untouched
   ++ map (fun e => (InMem PtRegs (8 * pt_index (fst e)), Some (Num (snd e)))) (zip gp_names (p_gp m)))%list.

Lemma returned_expected ret pt regs X (u : ustate X) (m : mstate X) ij w :
  agrees block_init u m -> length (p_gp m) = 10%nat ->
  Forall (fun e => look w (fst e) = snd e) (expected ret pt regs m ij) -> returned ret pt regs u m ij w.
Proof.
  intros A Len H. unfold expected in H.
  apply Forall_app in H as [H1 H]. apply Forall_app in H as [Hs H]. apply Forall_app in H as [Hm H].
  apply Forall_app in H as [Hp H]. apply Forall_app in H as [Hu Hg].
  apply Forall_cons in H1 as [R0 [R1 [R2 [R3 [R4 _]%Forall_cons]%Forall_cons]%Forall_cons]%Forall_cons].
  apply Forall_cons in Hp as [P1 [P2 _]%Forall_cons].
  apply Forall_map in Hs, Hm, Hu, Hg. rewrite Forall_forall in Hs, Hm. rewrite Forall_forall in Hu.
  cbn [look fst snd] in *. split; try (now apply Some_inj).
  - exact R0.
  - intros r Hr. now apply Some_inj, Hs.
  - intros k Hk. assert (Out : k ∈ gprs -> wm w PtRegs (8 * pt_index ("R" +:+ k)) = Num (u_reg u k)).
    { intros Hk'. rewrite <- (ag_home _ _ _ A k).
      - now apply Some_inj, Hm.
      - unfold homes. unfold gprs in Hk'. rewrite !elem_of_cons in *. tauto.
      - left. intros p Hp. pose proof (holds_phys block_init p k eq_refl Hp) as Ph. unfold gprs in Hk'.
        apply in_phys in Ph as [-> | [-> | [-> | ->]]]; cbn in Hp; injection Hp as <-; apply is_in_elem in Hk'; discriminate. }
    rewrite !elem_of_cons, elem_of_nil in Hk. unfold gprs in Out. rewrite !elem_of_cons in Out.
    destruct Hk as [-> | [-> | [-> | [-> | [-> | [-> | []]]]]]]; try (apply Out; tauto).
    + rewrite <- (ag_held _ _ _ A "13" "SP" eq_refl) by discriminate. now apply Some_inj.
    + rewrite <- (ag_held _ _ _ A "12" "BP" eq_refl) by discriminate. now apply Some_inj.
  - rewrite <- (ag_gp _ _ _ A). assert (L : length gp_names = length (p_gp m)) by now rewrite Len.
    revert Hg L. generalize (p_gp m) as l. generalize gp_names as ns. clear.
    induction ns as [|n ns IH]; intros [|z l] Hg L; try easy. cbn [zip zip_with] in Hg.
    apply Forall_cons in Hg as [Hn Hg]. cbn [map]. f_equal; [now apply Some_inj|]. apply IH; [easy|now injection L].
  - intros i Hi. now apply Some_inj, Hu.
  - split; now apply Some_inj.
Qed.


Lemma map_same {A B : Type} (f g : A -> B) l a : map f l = map g l -> a ∈ l -> f a = g a.
Proof.
  induction l as [|x l IH]; intros H Ha; [inversion Ha|]. injection H as Hx H.
  apply elem_of_cons in Ha as [->|Ha]; [easy|now apply IH].
Qed.

Section Wrapper.
Variables (regs : string -> word) (stack : Z -> word) (pt : Z -> Z) (fs gs : Z).
Let w0 : wstate := call_state regs stack pt fs gs.

Lemma main_values : option_map (fun w1 =>
    (map (fun k => num (wm w1 Stack (- 8 * Z.of_nat (home_slot k)))) homes,
     map (fun r => num (wr w1 r)) gp_names, (num (wr w1 "R13"), num (wr w1 "R12")))) (wrun wrapper_main w0) =
  Some (map (u_reg (user_of pt fs gs tt)) homes, map (fun r => pt (pt_index r)) gp_names, (pt 19, pt 4)).
Proof. vm_compute. reflexivity. Qed.

Lemma main_agrees w1 : wrun wrapper_main w0 = Some w1 ->
  forall X (x : X), agrees block_init (user_of pt fs gs x) (block_view w1 x).
Proof.
  intros E X x. pose proof (observed _ _ _ w1 main_values E) as H.
  apply pair_equal_spec in H as [[Hh Hg]%pair_equal_spec [H13 H12]%pair_equal_spec]. split.
  - intros p v Hp N. pose proof (holds_phys block_init p v eq_refl Hp) as P.
    apply in_phys in P as [-> | [-> | [-> | ->]]]; cbn in Hp; injection Hp as <-; easy.
  - intros v Hv _. exact (map_same _ _ _ v Hh Hv).
  - exact Hg.
  - reflexivity.
Qed.

(** The way out, by each label. *)
Lemma exit_values X (m : mstate X) g0 g1 g2 g3 g4 g5 g6 g7 g8 g9 t c :
  p_gp m = [g0; g1; g2; g3; g4; g5; g6; g7; g8; g9] -> wrapper_label t = Some c ->
  option_map (fun w2 => map (fun e => look w2 (fst e)) (expected (stack 8) pt regs m (ij_value t m)))
    (match wrun wrapper_main w0 with Some w1 => wrun c (block_update m w1) | None => None end) =
  Some (map snd (expected (stack 8) pt regs m (ij_value t m))).
Proof.
  destruct m as [r s g x]. cbn [p_gp]. intros -> H. unfold wrapper_label in H. unfold ij_value.
  destruct (String.eqb t "comp_syscall"); [|destruct (String.eqb t "ij_failed"); [|destruct (_ || _); [|easy]]];
    injection H as <-; vm_compute; reflexivity.
Qed.

Lemma main_runs : exists w1, wrun wrapper_main w0 = Some w1.
Proof.
  destruct (wrun wrapper_main w0) as [w1|] eqn:E; [now exists w1|].
  exfalso. pose proof main_values as H. now rewrite E in H.
Qed.

(** From any state that a block leaves, the kernel gets everything back. *)
Lemma block_returns X (u : ustate X) (m : mstate X) t c w1 : agrees block_init u m -> length (p_gp m) = 10%nat ->
  wrapper_label t = Some c -> wrun wrapper_main w0 = Some w1 ->
  exists w2, wrun c (block_update m w1) = Some w2 /\ returned (stack 8) pt regs u m (ij_value t m) w2.
Proof.
  intros A Len H E.
  destruct (p_gp m) as [|g0 [|g1 [|g2 [|g3 [|g4 [|g5 [|g6 [|g7 [|g8 [|g9 [|]]]]]]]]]]] eqn:Gp; try discriminate Len.
  pose proof (exit_values X m g0 g1 g2 g3 g4 g5 g6 g7 g8 g9 t c Gp H) as V. rewrite E in V.
  destruct (wrun c (block_update m w1)) as [w2|]; [|discriminate V].
  exists w2. split; [reflexivity|]. apply Some_inj in V. apply returned_expected; [exact A|now rewrite Gp|].
  apply Forall_forall. intros e He. exact (map_same (fun e => look w2 (fst e)) snd _ e V He).
Qed.

(** C13. The wrapper switches between kernel and user: behind [main], the blocks find
    the registers of [pt_regs], and FS and GS from [args], where the translated code
    expects them; whatever a block does and by whichever label it leaves, the user's
    registers are then in [pt_regs], RIP is what R14 was, the rest of [pt_regs] is as
    before, [args] tells why the block was left, and the kernel gets back the
    registers that a callee saves, its stack and the control. *)
Theorem wrapper_switches_context : exists w1, wrun wrapper_main w0 = Some w1 /\
  (forall X (x : X), agrees block_init (user_of pt fs gs x) (block_view w1 x)) /\
  forall X (u : ustate X) (m : mstate X) t c, agrees block_init u m -> length (u_gp u) = 10%nat ->
    wrapper_label t = Some c ->
    exists w2, wrun c (block_update m w1) = Some w2 /\ returned (stack 8) pt regs u m (ij_value t m) w2.
Proof.
  destruct main_runs as [w1 E]. exists w1. split; [exact E|]. split; [intros X x; now apply main_agrees|].
  intros X u m t c A Len H. apply block_returns; try assumption. now rewrite (ag_gp _ _ _ A).
Qed.
End Wrapper.

(** ** A call *)

Definition sample_regs (r : string) : word := if String.eqb r "RBX" then Num 77 else Num 5.
Definition sample_pt (i : Z) : Z := 0x1000 + i.

Lemma wrapper_switches_context_witness :
  exists w1, wrun wrapper_main (call_state sample_regs (fun z => Num z) sample_pt 3 4) = Some w1 /\
  let m := block_view w1 false in
  agrees block_init (user_of sample_pt 3 4 false) m /\
  exists w2, wrun (Mov (Slot "Stack_IJ") (Imm 0) :: wrapper_exit) (block_update m w1) = Some w2 /\
    returned (Num 8) sample_pt sample_regs (user_of sample_pt 3 4 false) m 0 w2.
Proof.
  destruct (wrapper_switches_context sample_regs (fun z => Num z) sample_pt 3 4) as (w1 & R & A & H).
  exists w1. split; [exact R|]. intros m. split; [exact (A bool false)|].
  exact (H bool _ m "comp_syscall" _ (A bool false) eq_refl eq_refl).
Defined.
