(* ===== verification/Served.v ===== *)
(** The whole way of a call: the registers of the user go in by [pt_regs], the
    translated program runs beside the user's, and they come out where it leaves. *)
From Stdlib Require Import ZArith Lia Bool String.
From stdpp Require Import base strings functions list.
From S2P Require Import Prelude Conflict Translate Machine ConflictSpec TranslateSpec Parts Lines TranslateBlock Meaning Sample Masks Jit JitRun Wrapper.

Local Open Scope string_scope.
Local Open Scope Z_scope.
Local Open Scope ub_scope.

(** Instructions keep the number of the registers. *)
Class KeepsGp {X : Type} (processor : Cpu X) : Prop := {
  gp_kept : forall nm vs gp x outs gp' x', cpu nm vs gp x = Some (outs, gp', x') -> length gp' = length gp
}.

Section Served.
Context {X : Type} {processor : Cpu X} {branches : Branches X} {flags : Flags X} {branches_ok : BranchesOk X} {printing : Printing}.
Context {py : PySet} {py_ok : PySetOk py} {moves : Moves processor} {stack_moves : StackMoves processor}.
Context {shifts : Shifts processor} {shift_flags : ShiftFlags} {keeps_gp : KeepsGp processor}.
Implicit Types (u : ustate X) (m : mstate X).

(** *** The registers that keep their places *)

Definition gp_len u (o : option (ustate X)) : Prop :=
  forall u', o = Some u' -> length (u_gp u') = length (u_gp u).

Lemma step_len i u : gp_len u (user_step i u).
Proof.
  intros u' E. destruct i as [nm args| |]; [|now injection E as <-..]. cbn [user_step] in E.
  destruct (cpu nm _ (u_gp u) (u_rest u)) as [[[outs gp] x]|] eqn:C; [|easy]. injection E as <-.
  exact (gp_kept _ _ _ _ _ _ _ C).
Qed.

Lemma bind_len u o f : gp_len u o -> (forall v, gp_len v (f v)) ->
  gp_len u (match o with Some v => f v | None => None end).
Proof. intros H F u' E. destruct o as [v|]; [|easy]. rewrite (F v u' E). now apply H. Qed.

Lemma map_len u o f : gp_len u o -> (forall v, u_gp (f v) = u_gp v) -> gp_len u (option_map f o).
Proof. intros H F u' E. destruct o as [v|]; [|easy]. injection E as <-. rewrite F. now apply H. Qed.

Lemma push_len e u : gp_len u (push e u).
Proof.
  destruct e; try exact (step_len _ (add_RSP (-8) u)). cbn [push]. apply bind_len; [apply step_len|].
  intros v. exact (step_len _ (add_RSP (-8) v)).
Qed.

Lemma pop_len e u : gp_len u (pop e u).
Proof.
  destruct e; try (apply map_len; [apply step_len|reflexivity]). cbn [pop]. apply bind_len; [apply step_len|].
  intros v. exact (step_len _ (add_RSP 8 v)).
Qed.

Lemma jump_len e u : gp_len u (jump_operand e u).
Proof. destruct e; try (now intros u' [= <-]). apply step_len. Qed.

Lemma line_len i offset u : gp_len u (user_line i offset u).
Proof.
  unfold user_line. destruct (is_in special_instruction (name i)).
  - destruct (_ || _); [now intros u' [= <-]|]. destruct (String.eqb _ "CALL").
    { destruct (args i) as [|e rest]; [easy|].
      unfold call. apply (bind_len u (jump_operand e u)); [apply jump_len|]. intros v. apply map_len; [|now destruct e].
      exact (push_len (ExprId "RT2" 64) (write_reg "T2" (u64 offset) v)). }
    destruct (String.eqb _ "PUSH"); [destruct (args i); [easy|apply push_len]|].
    destruct (String.eqb _ "POP"); [destruct (args i); [easy|apply pop_len]|].
    destruct (String.eqb _ "RET"); [apply map_len; [apply step_len|reflexivity]|].
    destruct (String.eqb _ "LEAVE"); [apply bind_len; [apply step_len|apply pop_len]|].
    destruct (String.eqb _ "SYSCALL"); [|easy]. now intros u' [= <-].
  - destruct (_ || _); [|apply step_len]. destruct (args i); [easy|apply jump_len].
Qed.

Lemma lines_len lines : forall offset u, gp_len u (run_unmasked lines offset u).
Proof.
  induction lines as [|i lines IH]; intros offset u; [now intros u' [= <-]|]. cbn [run_unmasked].
  apply (bind_len u (user_line i (offset + l i) (at_rip (offset + l i) u)) (run_unmasked lines (offset + l i)));
    [|apply IH]. exact (line_len i (offset + l i) (at_rip (offset + l i) u)).
Qed.

Lemma block_len p a u a' u' : user_block p a u = Some (a', u') -> length (u_gp u') = length (u_gp u).
Proof.
  unfold user_block. destruct (place_block p a) as [b|]; [|easy].
  pose proof (lines_len (b_lines b) (b_offset b) u) as L. destruct (run_unmasked (b_lines b) _ u) as [u1|]; [|easy].
  rewrite <- (L u1 eq_refl). destruct (lines_ending (b_lines b)).
  - now intros [= _ <-].
  - destruct (_ || _); [|now intros [= _ <-]]. destruct (label_place p t); [now intros [= _ <-]|easy].
  - destruct (jump_value reg u1); [now intros [= _ <-]|easy].
  - now intros [= _ <-].
Qed.

Lemma run_len n : forall p a u a' u', user_run n p a u = Some (a', u') -> length (u_gp u') = length (u_gp u).
Proof.
  induction n as [|n IH]; intros p a u a' u' E; [now injection E as _ <-|]. cbn [user_run] in E.
  destruct (user_block p a u) as [[a1 u1]|] eqn:E1; [|easy]. rewrite (IH _ _ _ _ _ E). exact (block_len p a u a1 u1 E1).
Qed.

Section Call.
Variables (regs : string -> word) (stack : Z -> word) (pt : Z -> Z) (fs gs : Z) (x : X).

(** What the kernel is told in the first word of [args]: nought of a system call, else
    why the text was left. *)
Definition told (a : place) : Z := match a with Out _ why => why | _ => 0 end.
Definition stopped (a : place) : Prop := match a with At _ => False | _ => True end.

Lemma left_told a t m : left_by a t m -> stopped a /\ exists c, wrapper_label t = Some c /\ ij_value t m = told a.
Proof.
  destruct a as [z|z why|z]; [easy|intros [[-> H]|[-> H]]|intros ->]; (split; [exact I|]); eexists; now split.
Qed.

(** The call comes back from the text [prog] with the registers and the memory of [u], who
    goes on at [a]; with the flags if they are [known], but [pt_regs] has them not. *)
Definition comes_back (prog : code) (a : place) (known : bool) u : Prop :=
  exists w1 k t m c w2,
    wrun wrapper_main (call_state regs stack pt fs gs) = Some w1 /\
    jit_run k prog (Running prog (block_view w1 x)) = Some (Gone t m) /\
    wrapper_label t = Some c /\ wrun c (block_update m w1) = Some w2 /\
    returned (stack 8) pt regs u m (told a) w2 /\ p_reg m "14" = address a /\ flag_rel known (p_rest m) (u_rest u).

Lemma returned_same R ret r m ij u v w : same R u v -> returned ret pt r u m ij w -> returned ret pt r v m ij w.
Proof.
  intros S [H1 H2 H3 H4 H5 H6 H7 H8]. split; try assumption.
  - intros k Hk. rewrite <- (sa_reg _ _ _ S). now apply H4.
  - now rewrite <- (sa_gp _ _ _ S).
Qed.

(** A call of a code block runs the user's program: when the user, from the registers in
    [pt_regs], goes through blocks of the program until the text knows no way or to a
    system call, the wrapper and the text of [jit.S] come to their end. The user starts
    with any flags: those of the machine are others. *)
Lemma user_code_served p n a y known u' : but_flags x y ->
  program_ok p -> honest_blocks (pr_blocks p) -> 0 <= fs < 2 ^ 63 -> 0 <= gs < 2 ^ 63 ->
  user_run n p (At (pr_entry p)) (user_of pt fs gs y) = Some (a, u') -> stopped a ->
  fits_run user_base n p (At (pr_entry p)) (user_of pt fs gs y) ->
  flags_run n p (At (pr_entry p)) false (user_of pt fs gs y) = Some known ->
  exists prog, assembly (pr_entry p) (pr_blocks p) (pr_table p) (pr_missing p) = Some prog /\ comes_back prog a known u'.
Proof.
  intros Bf P Hh Hf Hg H St Ba Fl. destruct (emit_all (pr_blocks p) (po_blocks _ P)) as [cs Em].
  destruct (main_runs regs stack pt fs gs) as [w1 E1].
  pose proof (main_agrees regs stack pt fs gs w1 E1 X x) as A.
  assert (Me : meets false (user_of pt fs gs y) (block_view w1 x)).
  { exists (user_of pt fs gs x). split; [|exact A]. now split. }
  assert (B : user_bases (user_of pt fs gs y)).
  { intros k Hk. unfold segments in Hk. each Hk. }
  destruct (start_at p cs P Hh Em false _ _ B Me) as (st0 & J0 & At).
  destruct (blocks_run p cs P Hh Em n _ a _ known _ u' _ At H Ba Fl) as (k & st & J & Res).
  destruct Res as [(_ & b & pc & m & Fb & _)|(t & m & -> & Ht & R14 & v & S & A')]; [now destruct a|].
  destruct (left_told a t m Ht) as (_ & c & Lb & Td).
  assert (Len : length (p_gp m) = 10%nat).
  { rewrite (ag_gp _ _ _ A'), (sa_gp _ _ _ S), (run_len _ _ _ _ _ _ H). reflexivity. }
  destruct (block_returns regs stack pt fs gs X v m t c w1 A' Len Lb E1) as (w2 & E2 & Rt).
  apply (returned_same _ _ _ _ _ _ _ _ S) in Rt. rewrite Td in Rt.
  unfold assembly. rewrite Em. eexists. split; [reflexivity|].
  exists w1, (1 + k)%nat, t, m, c, w2. split; [exact E1|].
  split; [now rewrite jit_run_add, J0|]. repeat (split; [assumption|]). rewrite (ag_rest _ _ _ A'). apply S.
Qed.
End Call.
End Served.

(** ** The sample processor *)

Lemma gp_put_len ns : forall n z gp, length (gp_put ns n z gp) = length gp.
Proof.
  induction ns as [|a ns IH]; intros n z [|b gp]; try reflexivity. cbn [gp_put].
  destruct (String.eqb a n); [reflexivity|]. cbn [length]. now rewrite IH.
Qed.

#[export] Instance sample_keeps_gp : KeepsGp sample_cpu.
Proof.
  split. intros nm vs gp m outs gp' x' H. cbn [cpu sample_cpu] in H.
  assert (W : forall v z x, write gp v z x = Some (outs, gp', x') -> length gp' = length gp).
  { intros v z x E. destruct v as [|n sz| | |]; cbn [write] in E; try easy; try congruence.
    assert (gp' = gp_put gp_names n z gp) as -> by congruence. apply gp_put_len. }
  destruct vs as [|a [|b [|]]]; try easy.
  destruct (is_in ["MOV"; "MOVABS"] nm); [exact (W _ _ _ H)|]. destruct (String.eqb nm "LEA"); [exact (W _ _ _ H)|].
  destruct (String.eqb nm "ADD"); [exact (W _ _ _ H)|]. destruct (String.eqb nm "SHL"); [exact (W _ _ _ H)|].
  destruct (String.eqb nm "SHR"); [exact (W _ _ _ H)|easy].
Qed.
