(* ===== verification/WrapperRun.v ===== *)
(** The wrapper as the function that [exe_on_call] calls: with blocks that keep to
    their part of the machine, it satisfies what Exe.v relies on. *)
From Stdlib Require Import ZArith Lia Bool String.
From stdpp Require Import base strings functions list gmap.
From S2P Require Import Prelude Regs Exe Conflict Machine ConflictSpec Wrapper.

Local Open Scope string_scope.
Local Open Scope Z_scope.

(** ** A call of the wrapper *)

Definition pt_of (r : pt_regs) (i : Z) : Z := default 0 (r !! Z.to_nat i).

(** The kernel's registers and stack at the call. *)
Record frame : Type := Frame { f_regs : string -> word; f_stack : Z -> word }.
Definition frame_ok (f : frame) : Prop :=
  (forall r, is_u64 (num (f_regs f r))) /\ (forall z, is_u64 (num (f_stack f z))).

(** The part of the machine that is the block's holds words of 64 bits. *)
Record block_state_ok {X : Type} (m : mstate X) : Prop := {
  bs_reg : Forall (fun p => is_u64 (p_reg m p)) phys;
  bs_stack : Forall (fun n => is_u64 (p_stack m n)) (seq 8 11);
  bs_gp : Forall is_u64 (p_gp m);
  bs_len : length (p_gp m) = 10%nat
}.

(** The memory of the user and his flags as part of the state of the machine: what a
    block finds and what it leaves, beside the table of the module. *)
Class UserMem (X : Type) := { mem_of : estate -> X; put_mem : X -> estate -> estate }.
Class UserMemOk (X : Type) {user_mem : UserMem X} : Prop := {
  put_get : forall x s, mem_of (put_mem x s) = x;
  put_exes : forall x s, exes (put_mem x s) = exes s;
  put_added : forall x s, added (put_mem x s) = added s
}.

(** A list of words, each of 64 bits. *)
Ltac words := repeat (apply Forall_cons; split); try exact (List.Forall_nil _); auto; word_range.

Section WrapperRun.
Context {X : Type}.

(** [effect] is what the blocks do: the label by which they leave, and the state. *)
Definition wrapper_code_run (effect : mstate X -> string * mstate X) (f : frame) (x : X)
  (regs : pt_regs) (args : list Z) : option (pt_regs * list Z * X) :=
  match wrun wrapper_main (call_state (f_regs f) (f_stack f) (pt_of regs) (default 0 (args !! 0%nat))
    (default 0 (args !! 1%nat))) with
  | None => None
  | Some w1 =>
      let '(t, m) := effect (block_view w1 x) in
      match wrapper_label t with
      | None => None
      | Some c =>
          match wrun c (block_update m w1) with
          | None => None
          | Some w2 => Some (map (fun r => num (wm w2 PtRegs (8 * Z.of_nat (slot r)))) all_regs,
                             [num (wm w2 Args 0); num (wm w2 Args 8)], p_rest m)
          end
      end
  end.

(** The user whose registers are in a state of the machine. *)
Definition user_in (m : mstate X) : ustate X :=
  U (fun k => if String.eqb k "SP" then p_reg m "13" else if String.eqb k "BP" then p_reg m "12"
              else p_stack m (home_slot k)) (p_gp m) (p_rest m).

Lemma user_in_agrees m : agrees block_init (user_in m) m.
Proof.
  split; try easy.
  - intros p v Hp N. pose proof (holds_phys block_init p v eq_refl Hp) as P.
    apply in_phys in P as [-> | [-> | [-> | ->]]]; cbn in Hp; injection Hp as <-; easy.
  - intros v Hv Ho. unfold homes in Hv. each Hv; destruct Ho as [Ho|Ho]; try (now apply is_in_elem in Ho).
    + now destruct (Ho "13").
    + now destruct (Ho "12").
Qed.

Lemma forall_map {A : Type} (f : A -> Z) l : Forall is_u64 (map f l) -> Forall (fun a => is_u64 (f a)) l.
Proof. rewrite !Forall_forall. intros H a Ha. apply H, list_elem_of_fmap. now exists a. Qed.

(** What a block finds is a state of 64-bit words. *)
Lemma main_block_state f r fs gs w1 (x : X) : frame_ok f -> (forall i, is_u64 (pt_of r i)) -> is_u64 fs -> is_u64 gs ->
  wrun wrapper_main (call_state (f_regs f) (f_stack f) (pt_of r) fs gs) = Some w1 -> block_state_ok (block_view w1 x).
Proof.
  intros [F1 F2] Hr Hf Hg E.
  assert (V : option_map (fun w1 => (map (fun p => num (wr w1 ("R" +:+ p))) phys,
      map (fun n => num (wm w1 Stack (- 8 * Z.of_nat n))) (seq 8 11), map (fun r => num (wr w1 r)) gp_names))
    (wrun wrapper_main (call_state (f_regs f) (f_stack f) (pt_of r) fs gs)) =
    Some ([0; 0; pt_of r 19; pt_of r 4], [pt_of r 4; pt_of r 19; pt_of r 0; pt_of r 1; pt_of r 2; pt_of r 3; gs; fs;
      num (f_stack f (-128)); num (f_stack f (-136)); num (f_stack f (-144))],
      map (fun n => pt_of r (pt_index n)) gp_names)) by (vm_compute; reflexivity).
  pose proof (observed _ _ _ w1 V E) as O. clear V E.
  apply pair_equal_spec in O as [[O1 O2]%pair_equal_spec O3]. split.
  - apply forall_map. cbn [block_view p_reg]. rewrite O1. words.
  - apply forall_map. cbn [block_view p_stack]. rewrite O2. words.
  - cbn [block_view p_gp]. rewrite O3. apply Forall_forall. intros z Hz.
    apply list_elem_of_fmap in Hz as (n & -> & _). auto.
  - reflexivity.
Qed.

(** The words that a block leaves in [pt_regs]. *)
Lemma returned_words ret pt kregs (m : mstate X) ij w : block_state_ok m ->
  (forall i, is_u64 (pt i)) -> returned ret pt kregs (user_in m) m ij w ->
  forall q, is_u64 (num (wm w PtRegs (8 * Z.of_nat (slot q)))).
Proof.
  intros [Br Bs Bg Bl] Hpt [_ _ _ Mv Gp Ip Un _]. rewrite Forall_forall in Br. rewrite Forall_forall in Bs.
  assert (P13 : is_u64 (p_reg m "13")) by (apply Br; now apply is_in_elem).
  assert (P12 : is_u64 (p_reg m "12")) by (apply Br; now apply is_in_elem).
  assert (P14 : is_u64 (p_reg m "14")) by (apply Br; now apply is_in_elem).
  assert (Hm : forall k, is_in ["15"; "14"; "13"; "12"; "SP"; "BP"] k = true ->
    is_u64 (num (wm w PtRegs (8 * pt_index ("R" +:+ k))))).
  { intros k Hk%is_in_elem. rewrite (Mv k Hk). rewrite !elem_of_cons, elem_of_nil in Hk.
    destruct Hk as [-> | [-> | [-> | [-> | [-> | [-> | []]]]]]]; try easy; apply Bs, elem_of_seq; vm_compute; lia. }
  assert (Hg : forall n, is_in gp_names n = true -> is_u64 (num (wm w PtRegs (8 * pt_index n)))).
  { intros n Hn%is_in_elem. apply list_elem_of_lookup in Hn as [j Hj].
    assert (L : map (fun r => wm w PtRegs (8 * pt_index r)) gp_names !! j = Some (wm w PtRegs (8 * pt_index n)))
      by (now rewrite list_lookup_fmap, Hj).
    rewrite Gp in L. apply list_lookup_fmap_Some in L as (z & -> & Hz). cbn [num].
    now apply (Forall_lookup_1 _ (p_gp m) j). }
  assert (Hu : forall i, i ∈ untouched -> is_u64 (num (wm w PtRegs (8 * i)))).
  { intros i Hi. rewrite (Un i Hi). apply Hpt. }
  intros q.
  assert (Hi : is_u64 (num (wm w PtRegs (8 * pt_index "RIP")))) by (rewrite Ip; exact P14).
  destruct q; first [exact Hi | apply (Hm "15"); reflexivity | apply (Hm "14"); reflexivity
    | apply (Hm "13"); reflexivity | apply (Hm "12"); reflexivity | apply (Hm "SP"); reflexivity
    | apply (Hm "BP"); reflexivity
    | (apply (Hu 15) || apply (Hu 17) || apply (Hu 18) || apply (Hu 20)); unfold untouched;
      rewrite !elem_of_cons; tauto | idtac].
  all: first [apply (Hg "RBX"); reflexivity | apply (Hg "R11"); reflexivity | apply (Hg "R10"); reflexivity
    | apply (Hg "R9"); reflexivity | apply (Hg "R8"); reflexivity | apply (Hg "RAX"); reflexivity
    | apply (Hg "RCX"); reflexivity | apply (Hg "RDX"); reflexivity | apply (Hg "RSI"); reflexivity
    | apply (Hg "RDI"); reflexivity].
Qed.

Definition is_in_untouched (i : Z) : bool := existsb (Z.eqb i) untouched.

Definition effect_ok (effect : mstate X -> string * mstate X) : Prop :=
  forall m, block_state_ok m -> block_state_ok (snd (effect m)) /\ wrapper_label (fst (effect m)) <> None.

Lemma wrapper_code_run_ok effect f x r args : effect_ok effect -> frame_ok f -> wf_regs r -> Forall is_u64 args ->
  exists r' args' x', wrapper_code_run effect f x r args = Some (r', args', x') /\ wf_regs r' /\ Forall is_u64 args' /\
    forall q, q ∈ [ORIG_AX; CS; FLAGS; SS] -> rget r' q = rget r q.
Proof.
  intros Ef F [Lr Wr] Wa. unfold wrapper_code_run.
  assert (Hpt : forall i, is_u64 (pt_of r i)).
  { intros i. unfold pt_of. destruct (r !! Z.to_nat i) as [v|] eqn:E; cbn [default]; [|word_range].
    now apply (Forall_lookup_1 _ r (Z.to_nat i)). }
  assert (Ha : forall i, is_u64 (default 0 (args !! i))).
  { intros i. destruct (args !! i) as [v|] eqn:E; cbn [default]; [|word_range].
    now apply (Forall_lookup_1 _ args i). }
  destruct (main_runs (f_regs f) (f_stack f) (pt_of r) (default 0 (args !! 0%nat)) (default 0 (args !! 1%nat)))
    as [w1 R]. rewrite R.
  destruct (Ef _ (main_block_state f r _ _ w1 x F Hpt (Ha 0%nat) (Ha 1%nat) R)) as [Bm Lb].
  destruct (effect (block_view w1 x)) as [t m]. cbn [fst snd] in *.
  destruct (wrapper_label t) as [c|] eqn:Ec; [|easy].
  destruct (block_returns _ _ _ _ _ X (user_in m) m t c w1 (user_in_agrees m) (bs_len m Bm) Ec R) as (w2 & R2 & Rt).
  pose proof (re_args _ _ _ _ _ _ _ Rt) as Ar. pose proof (re_untouched _ _ _ _ _ _ _ Rt) as Un.
  rewrite R2. eexists _, _, _. split; [reflexivity|].
  pose proof (returned_words _ _ _ m _ w2 Bm Hpt Rt) as Hw. split; [split; [reflexivity|]|split].
  - apply Forall_forall. intros z Hz. apply list_elem_of_fmap in Hz as (q & -> & _). apply Hw.
  - destruct Ar as [-> ->]. cbn [num]. destruct Bm as [Br Bs _ _]. rewrite Forall_forall in Br. rewrite Forall_forall in Bs.
    repeat (apply Forall_cons; split); try exact (List.Forall_nil _); [|apply Bs, elem_of_seq; lia].
    unfold ij_value. destruct (String.eqb t "comp_syscall"); [word_range|].
    destruct (String.eqb t "ij_failed"); [apply Br; now apply is_in_elem|apply Bs, elem_of_seq; lia].
  - intros q Hq. rewrite !elem_of_cons, elem_of_nil in Hq.
    assert (U : forall i, is_in_untouched i = true -> num (wm w2 PtRegs (8 * i)) = pt_of r i)
      by (intros i Hi%existsb_exists; destruct Hi as (j & Hj & ->%Z.eqb_eq); rewrite (Un j); [easy|now apply list_elem_of_In]).
    destruct Hq as [-> | [-> | [-> | [-> | []]]]];
      [apply (U 15)|apply (U 17)|apply (U 18)|apply (U 20)]; reflexivity.
Qed.

Context {user_mem : UserMem X}.

(** The module's environment with the wrapper as the function that it calls. The array
    [args] holds words of 64 bits. *)
Definition wrapped_env (base : ExeEnv) (effect : estate -> Z -> mstate X -> string * mstate X) (f : frame) : ExeEnv := {|
  vmalloc_exes := vmalloc_exes;
  vmalloc_ptr := vmalloc_ptr;
  x86_fsbase_read_cpu := x86_fsbase_read_cpu;
  mem_read64 := mem_read64;
  code_run := fun s code r args =>
    match wrapper_code_run (effect s code) f (mem_of s) r (map u64 args) with
    | Some (r, args, x) => (r, args, put_mem x s)
    | None => (r, args, s)
    end;
  syscall_run := syscall_run
|}.

Lemma wrapped_returns base effect f s code r args r' args' x' :
  wrapper_code_run (effect s code) f (mem_of s) r (map u64 args) = Some (r', args', x') ->
  code_run (ExeEnv := wrapped_env base effect f) s code r args = (r', args', put_mem x' s).
Proof.
  intros E. unfold wrapped_env, code_run. destruct (wrapper_code_run _ f _ r _) as [[[r1 a1] x1]|]; [|discriminate E].
  now injection E as -> -> ->.
Qed.

Lemma put_mem_wf {mem_ok : UserMemOk X} x s : exe_wf s -> exe_wf (put_mem x s) /\ table_le s (put_mem x s).
Proof.
  intros [W1 W2 W3 W4 W5]. split; [split; rewrite ?put_exes, ?put_added; easy|].
  intros i e H U. rewrite put_exes. exists e. unfold same_site. auto.
Qed.

(** C8. The wrapper keeps the module's side of the bargain: with blocks that leave by
    its labels with words of 64 bits in their part of the machine, a call of a code
    block always returns, with a complete register file whose system-call number, CS,
    flags and SS are as before, and everything that [exe_on_call] relies on holds. *)
Theorem wrapper_serves_module {mem_ok : UserMemOk X} (base : ExeEnv) effect f : ExeEnvOk base -> frame_ok f ->
  (forall s code, effect_ok (effect s code)) ->
  ExeEnvOk (wrapped_env base effect f) /\
  forall s code r args, wf_regs r ->
    exists r' args' x', wrapper_code_run (effect s code) f (mem_of s) r (map u64 args) = Some (r', args', x') /\
      code_run (ExeEnv := wrapped_env base effect f) s code r args = (r', args', put_mem x' s) /\
      forall q, q ∈ [ORIG_AX; CS; FLAGS; SS] -> rget r' q = rget r q.
Proof.
  intros B F Ef.
  assert (Run : forall s code r args, wf_regs r -> exists r' args' x',
    wrapper_code_run (effect s code) f (mem_of s) r (map u64 args) = Some (r', args', x') /\
    wf_regs r' /\ Forall is_u64 args' /\ forall q, q ∈ [ORIG_AX; CS; FLAGS; SS] -> rget r' q = rget r q).
  { intros s code r args R. refine (wrapper_code_run_ok (effect s code) f _ r (map u64 args) (Ef s code) F R _).
    apply Forall_forall. intros z Hz. apply list_elem_of_fmap in Hz as (y & -> & _). apply u64_range. }
  split.
  - destruct B as [B1 B2 B3 B4 B5]. split; try assumption.
    intros s code r args r' args' s' W R E.
    destruct (Run s code r args R) as (r1 & a1 & x1 & E1 & R1 & A1 & _).
    rewrite (wrapped_returns base effect f s code r args r1 a1 x1 E1) in E. injection E as <- <- <-.
    split; [exact R1|]. split; [exact A1|]. now apply put_mem_wf.
  - intros s code r args R. destruct (Run s code r args R) as (r1 & a1 & x1 & E1 & R1 & A1 & U1).
    exists r1, a1, x1. split; [exact E1|]. split; [|exact U1]. exact (wrapped_returns base effect f s code r args r1 a1 x1 E1).
Qed.
End WrapperRun.

(** ** A call *)

(** The bytes behind the code blocks are of no account to the table either. *)
#[export] Instance sample_mem : UserMem (gmap Z Z) := {| mem_of := kmem; put_mem := set_kmem |}.
#[export] Instance sample_mem_ok : UserMemOk (gmap Z Z).
Proof. now split. Qed.

(** A block that adds one to R15's slot and leaves for the system call at 0x401000. *)
Definition sample_effect (m : mstate (gmap Z Z)) : string * mstate (gmap Z Z) :=
  ("comp_syscall", MState (<["14" := 0x401000]> (p_reg m)) (<[10%nat := u64 (p_stack m 10%nat + 1)]> (p_stack m))
     (p_gp m) (p_rest m)).

Lemma sample_effect_ok : effect_ok sample_effect.
Proof.
  intros m [Br Bs Bg Bl]. split; [|discriminate]. split; cbn; try easy.
  - apply Forall_forall. intros p Hp. rewrite Forall_forall in Br. destruct (decide (p = "14")) as [->|N].
    + rewrite fn_lookup_insert. word_range.
    + rewrite fn_lookup_insert_ne by congruence. now apply Br.
  - apply Forall_forall. intros n Hn. rewrite Forall_forall in Bs. destruct (decide (n = 10%nat)) as [->|N].
    + rewrite fn_lookup_insert. apply u64_range.
    + rewrite fn_lookup_insert_ne by congruence. apply Bs. exact Hn.
Qed.

Definition sample_frame : frame := Frame (fun _ => Num 5) (fun _ => Num 6).
Definition sample_pt_regs : pt_regs := map Z.of_nat (seq 100 21).

Lemma wrapper_serves_module_witness :
  option_map (fun o => fst (fst o)) (wrapper_code_run sample_effect sample_frame ∅ sample_pt_regs [1; 0]) =
    Some (rset R15 101 (rset IP 0x401000 sample_pt_regs)) /\
  ExeEnvOk (wrapped_env (Exe.Demo.env 0) (fun _ _ => sample_effect) sample_frame).
Proof.
  split; [vm_compute; reflexivity|].
  apply (wrapper_serves_module (Exe.Demo.env 0) (fun _ _ => sample_effect) sample_frame).
  - apply Exe.Demo.env_ok.
  - split; intros; cbn; word_range.
  - intros _ _. exact sample_effect_ok.
Defined.
