(* ===== verification/Chain.v ===== *)
(** The chain of code blocks that run the user's program: [exe_on_call] with the
    generated code behind the wrapper does what it would do if the lines of the user
    were run in place of it, system calls and all. *)
From Stdlib Require Import ZArith Lia Bool String.
From stdpp Require Import base strings functions list gmap.
From S2P Require Import Prelude Regs Exe Conflict Translate Machine ConflictSpec TranslateSpec Parts Lines TranslateBlock Meaning Sample Masks Jit JitRun Wrapper Served WrapperRun.

Local Open Scope string_scope.
Local Open Scope Z_scope.
Local Open Scope ub_scope.

(** ** The registers of the user in [pt_regs] *)

Inductive source : Type := Moved (k : string) | Named (n : string) | Rip | Flag | Kept.
Definition source_of (q : reg) : source :=
  match q with
  | R15 => Moved "15" | R14 => Moved "14" | R13 => Moved "13" | R12 => Moved "12" | SP => Moved "SP" | BP => Moved "BP"
  | BX => Named "RBX" | R11 => Named "R11" | R10 => Named "R10" | R9 => Named "R9" | R8 => Named "R8"
  | AX => Named "RAX" | CX => Named "RCX" | DX => Named "RDX" | SI => Named "RSI" | DI => Named "RDI"
  | IP => Rip | FLAGS => Flag | ORIG_AX | CS | SS => Kept
  end.

(** The memory of the kernel's state has no flags. *)
Class PutFlags (X : Type) {user_mem : UserMem X} {flags : Flags X} : Prop := {
  put_flags : forall x y s, but_flags x y -> put_mem x s = put_mem y s
}.

Section Chain.
Context {X : Type} {processor : Cpu X} {branches : Branches X} {flags : Flags X} {branches_ok : BranchesOk X} {printing : Printing}.
Context {py : PySet} {py_ok : PySetOk py} {moves : Moves processor} {stack_moves : StackMoves processor}.
Context {shifts : Shifts processor} {shift_flags : ShiftFlags} {keeps_gp : KeepsGp processor}.
Context {user_mem : UserMem X} {put_flags_ok : PutFlags X}.
Implicit Types (u : ustate X) (m : mstate X).

Definition user_value (r : pt_regs) (a fl : Z) u (q : reg) : Z :=
  match source_of q with
  | Moved k => u_reg u k
  | Named n => default 0 (gp_reg n (u_gp u))
  | Rip => a
  | Flag => fl
  | Kept => rget r q
  end.

(** [pt_regs] with the registers of the user, who is at [a] and has the flags [fl]. *)
Definition user_regs (r : pt_regs) (a fl : Z) u : pt_regs := map (user_value r a fl u) all_regs.

(** The memory and the flags that the user has at a call: the flags are any. *)
Variable start : estate -> pt_regs -> X.
Hypothesis start_mem : forall s r, but_flags (mem_of s) (start s r).

(** The user whose registers are there. *)
Definition user_start (r : pt_regs) (fs : Z) (s : estate) : ustate X := user_of (pt_of r) fs 0 (start s r).

(** ** The user's lines in place of the code *)

(** Until the user is at a system call or where the text knows no way. *)
Fixpoint user_until (n : nat) (p : program) (a : place) u : option (place * ustate X) :=
  match a with
  | At _ =>
      match n with
      | O => None
      | S n => match user_block p a u with Some (a, u) => user_until n p a u | None => None end
      end
  | _ => Some (a, u)
  end.

(** The programs behind the code blocks. *)
Variables (base : ExeEnv) (programs : Z -> option program) (f : frame).

(** [word] is the word of the flags that [pt_regs] has then. *)
Definition user_env (word : pt_regs -> ustate X -> Z) (n : nat) : ExeEnv := {|
  vmalloc_exes := vmalloc_exes;
  vmalloc_ptr := vmalloc_ptr;
  x86_fsbase_read_cpu := x86_fsbase_read_cpu;
  mem_read64 := mem_read64;
  code_run := fun s code r args =>
    match (match programs code with
           | Some p => user_until n p (At (rget r IP)) (user_start r (default 0 (args !! 0%nat)) s)
           | None => None
           end) with
    | Some (a, u) => (user_regs r (address a) (word r u) u, [told a; 0], put_mem (u_rest u) s)
    | None => (r, args, s)
    end;
  syscall_run := syscall_run
|}.

(** The wrapper does not store the flags: the word is left as it was at the call. *)
Definition unsaved (r : pt_regs) u : Z := rget r FLAGS.

(** ** The generated code *)

Definition text (p : program) : option code := assembly (pr_entry p) (pr_blocks p) (pr_table p) (pr_missing p).

(** What the code does, if it comes to its end within [k] steps. *)
Definition jit_effect (k : nat) (prog : option code) m : string * mstate X :=
  match prog with
  | Some prog => match jit_run k prog (Running prog m) with Some (Gone t m) => (t, m) | _ => ("", m) end
  | None => ("", m)
  end.

Definition jit_env (k : nat) : ExeEnv :=
  wrapped_env base (fun _ code => jit_effect k (match programs code with Some p => text p | None => None end)) f.

Lemma gone_stays k prog t m : jit_run k prog (Gone t m) = Some (Gone t m).
Proof. induction k as [|k IH]; [reflexivity|exact IH]. Qed.

Lemma jit_effect_more j k prog t m m' : jit_run j prog (Running prog m) = Some (Gone t m') -> (j <= k)%nat ->
  jit_effect k (Some prog) m = (t, m').
Proof.
  intros H L. replace k with (j + (k - j))%nat by lia. unfold jit_effect. now rewrite jit_run_add, H, gone_stays.
Qed.

Lemma until_run p n : forall a u a' u', user_until n p a u = Some (a', u') ->
  stopped a' /\ exists j, (j <= n)%nat /\ user_run j p a u = Some (a', u').
Proof.
  induction n as [|n IH]; intros a u a' u' H; destruct a as [z|z w|z];
    try (injection H as <- <-; split; [exact I|]; exists O; split; [lia|reflexivity]); [easy|].
  cbn [user_until] in H. destruct (user_block p (At z) u) as [[a1 u1]|] eqn:E; [|easy].
  destruct (IH a1 u1 a' u' H) as (St & j & Lj & R). split; [easy|]. exists (S j). split; [lia|]. cbn [user_run].
  now rewrite E.
Qed.

Lemma fits_fewer (P : expr -> ustate X -> Prop) p n : forall j a u, (j <= n)%nat -> fits_run P n p a u -> fits_run P j p a u.
Proof.
  induction n as [|n IH]; intros [|j] a u L B; try exact I; [lia|]. destruct B as [B1 B2]. split; [exact B1|].
  destruct (user_block p a u) as [[a1 u1]|]; [|exact I]. apply IH; [lia|exact B2].
Qed.

Lemma flags_fewer p n : forall j a known u, (j <= n)%nat -> is_Some (flags_run n p a known u) -> is_Some (flags_run j p a known u).
Proof.
  induction n as [|n IH]; intros [|j] a known u L H; [now exists known|lia|now exists known|]. cbn [flags_run] in *.
  destruct (place_block p a) as [b|]; [|exact H]. destruct (flags_after known b) as [k1|]; [|exact H].
  destruct (user_block p a u) as [[a1 u1]|]; [apply IH; [lia|exact H]|exact H].
Qed.

(** What the wrapper leaves in [pt_regs]. *)
Lemma returned_regs r ret kregs u m a w : length (u_gp u) = 10%nat -> returned ret (pt_of r) kregs u m (told a) w ->
  p_reg m "14" = address a ->
  map (fun q => num (wm w PtRegs (8 * Z.of_nat (slot q)))) all_regs = user_regs r (address a) (unsaved r u) u.
Proof.
  intros Len [_ _ _ Mv Gp Ip Un _] R14.
  destruct (u_gp u) as [|g0 [|g1 [|g2 [|g3 [|g4 [|g5 [|g6 [|g7 [|g8 [|g9 [|]]]]]]]]]]] eqn:Eg; try discriminate Len.
  assert (M : forall k, is_in ["15"; "14"; "13"; "12"; "SP"; "BP"] k = true ->
    num (wm w PtRegs (8 * pt_index ("R" +:+ k))) = u_reg u k) by (intros k Hk%is_in_elem; now rewrite (Mv k Hk)).
  assert (N : forall i, is_in_untouched i = true -> num (wm w PtRegs (8 * i)) = pt_of r i).
  { intros i Hi%existsb_exists. destruct Hi as (j & Hj & ->%Z.eqb_eq). rewrite (Un j); [easy|now apply list_elem_of_In]. }
  assert (G : forall j n, gp_names !! j = Some n -> num (wm w PtRegs (8 * pt_index n)) = default 0 (u_gp u !! j)).
  { intros j n Hj. assert (L : map (fun r => wm w PtRegs (8 * pt_index r)) gp_names !! j = Some (wm w PtRegs (8 * pt_index n)))
      by (now rewrite list_lookup_fmap, Hj).
    rewrite Gp in L. apply list_lookup_fmap_Some in L as (z & -> & Hz). rewrite Eg. now rewrite Hz. }
  rewrite Eg in G. unfold user_regs, user_value. apply map_ext. intros q. destruct q; cbn [source_of]; rewrite ?Eg;
    first [ exact (M "15" eq_refl) | exact (M "14" eq_refl) | exact (M "13" eq_refl) | exact (M "12" eq_refl)
          | exact (M "SP" eq_refl) | exact (M "BP" eq_refl)
          | exact (N 15 eq_refl) | exact (N 17 eq_refl) | exact (N 18 eq_refl) | exact (N 20 eq_refl)
          | (refine (eq_trans _ R14); exact (f_equal num Ip)) | idtac ].
  - exact (G 0%nat "RBX" eq_refl).
  - exact (G 1%nat "R11" eq_refl).
  - exact (G 2%nat "R10" eq_refl).
  - exact (G 3%nat "R9" eq_refl).
  - exact (G 4%nat "R8" eq_refl).
  - exact (G 5%nat "RAX" eq_refl).
  - exact (G 6%nat "RCX" eq_refl).
  - exact (G 7%nat "RDX" eq_refl).
  - exact (G 8%nat "RSI" eq_refl).
  - exact (G 9%nat "RDI" eq_refl).
Qed.

(** A call of the code of a program that the user gets through. *)
Lemma call_served p r s fs n a u' : program_ok p -> honest_blocks (pr_blocks p) -> 0 <= fs < 2 ^ 63 ->
  user_until n p (At (pr_entry p)) (user_start r fs s) = Some (a, u') ->
  fits_run user_base n p (At (pr_entry p)) (user_start r fs s) ->
  is_Some (flags_run n p (At (pr_entry p)) false (user_start r fs s)) ->
  exists k0, forall k, (k0 <= k)%nat -> exists z x',
    wrapper_code_run (jit_effect k (text p)) f (mem_of s) r [fs; 0] =
      Some (user_regs r (address a) (unsaved r u') u', [told a; z], x') /\ but_flags x' (u_rest u').
Proof.
  intros P Hh Hf R B Fl. destruct (until_run p n _ _ _ _ R) as (St & j & Lj & Rj).
  destruct (flags_fewer p n j _ _ _ Lj Fl) as [known Fj].
  destruct (user_code_served (f_regs f) (f_stack f) (pt_of r) fs 0 (mem_of s) p j a _ known u' (start_mem s r) P Hh Hf ltac:(lia) Rj St)
    as (prog & Et & w1 & k0 & t & m & c & w2 & E1 & J & Lb & E2 & Rt & R14 & Rx).
  { now apply (fits_fewer _ _ n). }
  { exact Fj. }
  exists k0. intros k Lk. exists (p_stack m 18), (p_rest m). split; [|destruct known; [now rewrite Rx|exact Rx]].
  unfold wrapper_code_run, text. rewrite Et.
  change (default 0 ([fs; 0] !! 0%nat)) with fs. change (default 0 ([fs; 0] !! 1%nat)) with 0. rewrite E1.
  rewrite (jit_effect_more k0 k prog t _ m J Lk), Lb, E2. do 2 f_equal.
  pose proof (re_args _ _ _ _ _ _ _ Rt) as [-> ->]. cbn [num]. f_equal.
  apply (returned_regs r (f_stack f 8) (f_regs f) u' m a w2); [|exact Rt|exact R14]. rewrite (run_len _ _ _ _ _ _ Rj). reflexivity.
Qed.

(** ** Rounds of the chain *)

Hypothesis programs_ok : forall code p, programs code = Some p -> program_ok p /\ honest_blocks (pr_blocks p).

(** At a ready site the user gets through the program behind its code block. *)
Definition good (n : nat) (me : Z) (c : cstate) : Prop := forall e, ready (c_exe c) me (rget (c_regs c) IP) = Some e ->
  let s := log (EvRun (code_block e)) (c_exe c) in let fs := x86_fsbase_read_cpu s in
  0 <= fs < 2 ^ 63 /\
  exists p, programs (code_block e) = Some p /\ pr_entry p = rget (c_regs c) IP /\
    (exists a u', user_until n p (At (pr_entry p)) (user_start (c_regs c) fs s) = Some (a, u')) /\
    fits_run user_base n p (At (pr_entry p)) (user_start (c_regs c) fs s) /\
    is_Some (flags_run n p (At (pr_entry p)) false (user_start (c_regs c) fs s)).

Lemma rounds_agree n me c : good n me c ->
  exists k0, forall k, (k0 <= k)%nat -> chain_body (env := jit_env k) me c = chain_body (env := user_env unsaved n) me c.
Proof.
  intros G. unfold good, ready in G. destruct (exes (c_exe c) !! get_exe me (rget (c_regs c) IP)) as [e|] eqn:E.
  2:{ exists O. intros k _. unfold chain_body. now rewrite E. }
  destruct ((status_code e =? normal) && (RIP e =? rget (c_regs c) IP) && (pid e =? me)) eqn:T.
  2:{ exists O. intros k _. unfold chain_body. rewrite E.
      destruct (status_code e =? normal), (RIP e =? rget (c_regs c) IP), (pid e =? me); easy. }
  specialize (G e eq_refl). cbv zeta in G. set (s := log (EvRun (code_block e)) (c_exe c)) in *.
  destruct G as (Hf & p & Ep & En & (a & u' & R) & B & Fl). destruct (programs_ok _ _ Ep) as [P Hh].
  destruct (call_served p (c_regs c) s _ n a u' P Hh Hf R B Fl) as (k0 & Hk). exists k0. intros k Lk.
  destruct (Hk k Lk) as (z & x' & W & Bx). apply andb_prop in T as [[T1 T2]%andb_prop T3].
  unfold chain_body. rewrite E, T1, T2, T3. cbn [negb orb]. fold s.
  assert (Fs : u64 (x86_fsbase_read_cpu s) = x86_fsbase_read_cpu s) by (apply u64_small; unfold is_u64; lia).
  assert (C1 : code_run (ExeEnv := jit_env k) s (code_block e) (c_regs c) [x86_fsbase_read_cpu s; 0] =
    (user_regs (c_regs c) (address a) (unsaved (c_regs c) u') u', [told a; z], put_mem (u_rest u') s)).
  { rewrite <- (put_flags x' (u_rest u') s Bx). refine (wrapped_returns base _ f s (code_block e) (c_regs c) _ _ _ _ _). cbn [map]. rewrite Fs, Ep. exact W. }
  assert (C2 : code_run (ExeEnv := user_env unsaved n) s (code_block e) (c_regs c) [x86_fsbase_read_cpu s; 0] =
    (user_regs (c_regs c) (address a) (unsaved (c_regs c) u') u', [told a; 0], put_mem (u_rest u') s)).
  { cbn [user_env code_run]. rewrite Ep, <- En. change (default 0 ([x86_fsbase_read_cpu s; 0] !! 0%nat))
      with (x86_fsbase_read_cpu s). now rewrite R. }
  change (@x86_fsbase_read_cpu (jit_env k) s) with (x86_fsbase_read_cpu s).
  change (@x86_fsbase_read_cpu (user_env unsaved n) s) with (x86_fsbase_read_cpu s). rewrite C1, C2. reflexivity.
Qed.


(** *** Tests *)

Definition goodb (n : nat) (me : Z) (c : cstate) : bool :=
  match ready (c_exe c) me (rget (c_regs c) IP) with
  | None => true
  | Some e =>
      let s := log (EvRun (code_block e)) (c_exe c) in let fs := x86_fsbase_read_cpu s in
      (0 <=? fs) && (fs <? 2 ^ 63) &&
      match programs (code_block e) with
      | None => false
      | Some p =>
          (pr_entry p =? rget (c_regs c) IP) &&
          match user_until n p (At (pr_entry p)) (user_start (c_regs c) fs s) with Some _ => true | None => false end &&
          fits_runb user_baseb n p (At (pr_entry p)) (user_start (c_regs c) fs s) &&
          match flags_run n p (At (pr_entry p)) false (user_start (c_regs c) fs s) with Some _ => true | None => false end
      end
  end.

Lemma goodb_good n me c : goodb n me c = true -> good n me c.
Proof.
  unfold goodb, good. destruct (ready _ _ _) as [e|]; [|easy]. intros H e' [= <-]. cbv zeta in *.
  apply andb_prop in H as [[H1%Z.leb_le H2%Z.ltb_lt]%andb_prop H]. split; [easy|].
  destruct (programs (code_block e)) as [p|]; [|easy]. exists p. split; [easy|].
  apply andb_prop in H as [[[H3%Z.eqb_eq H4]%andb_prop H5]%andb_prop H6]. split; [exact H3|]. split; [|split].
  - destruct (user_until _ _ _ _) as [[a u']|]; [now exists a, u'|easy].
  - exact (fits_run_test user_base user_baseb user_base_test _ _ _ _ H5).
  - destruct (flags_run _ _ _ _ _); [now eexists|easy].
Qed.

(** Along the rounds of a chain that ends. *)
Fixpoint all_good (fuel n : nat) (me : Z) (c : cstate) : bool :=
  match fuel with
  | O => false
  | S fuel => goodb n me c &&
      match chain_body (env := user_env unsaved n) me c with Continue c' => all_good fuel n me c' | _ => true end
  end.

Lemma all_good_steps fuel n me : forall c, all_good fuel n me c = true ->
  forall t, steps (chain_body (env := user_env unsaved n) me) c t -> good n me t.
Proof.
  induction fuel as [|fuel IH]; intros c H t St; [easy|]. cbn [all_good] in H. apply andb_prop in H as [G H].
  destruct St as [c|c c1 t E St]; [now apply goodb_good|]. rewrite E in H. exact (IH c1 H t St).
Qed.
End Chain.

(** ** Two rounds *)

(** Behind the system call of the sample program is a second site. *)
Definition next_program : program :=
  Prog 0x401036 [MkBlock "loc_401036" 0x401036 [plain_inst "NOP" [] 1; plain_inst "SYSCALL" [] 2]] [] [].

Definition sample_programs (code : Z) : option program :=
  if code =? 0xffffc90000400000 then Some sample_program
  else if code =? 0xffffc90000500000 then Some next_program else None.

Lemma sample_programs_ok code p : sample_programs code = Some p -> program_ok p /\ honest_blocks (pr_blocks p).
Proof.
  unfold sample_programs. case_if; [|case_if; [|easy]]; intros [= <-].
  - exact (conj sample_program_ok sample_program_honest).
  - split.
    + split; try (vm_compute; reflexivity); refine (bool_decide_eq_true_1 (NoDup _) _); vm_compute; reflexivity.
    + repeat (constructor; [repeat (constructor; [apply sample_honest_line; vm_compute; reflexivity|]); constructor|]).
      constructor.
Qed.

Definition sample_site (rip code : Z) (es : list exe_info) : list exe_info :=
  <[get_exe 1234 rip := ExeInfo normal 1234 rip code 0 0 0 0]> es.
(** The task is at the first site; RBX leads to the block with the system call. *)
Definition sample_chain : cstate := CState
  (EState (sample_site 0x401000 0xffffc90000400000 (sample_site 0x401036 0xffffc90000500000 Exe.Demo.blanks))
     2 0xffffffff82000280 ∅ [])
  (rset BX 0x401030 (rset R13 0x5000 (rset SP 0x7000 (rset IP 0x401000 (replicate 21 1))))) false.

(** The memory without the flag; the user comes with it set. *)
#[export] Instance chain_mem : UserMem (gmap Z Z) :=
  {| mem_of := kmem; put_mem := fun x => set_kmem (delete (-1) x) |}.
#[export] Instance chain_put_flags : PutFlags (gmap Z Z).
Proof. split. intros x y s E. cbn in *. now rewrite E. Qed.

Definition flag_set (s : estate) (r : pt_regs) : gmap Z Z := with_flag true (kmem s).
Lemma flag_set_mem s r : but_flags (mem_of s) (flag_set s r).
Proof. symmetry. apply flag_unseen. Qed.

